(** * gofpdf: a shallow embedding of fpdf.go and the properties of its
      serializer, page state machine, text layout and resource codec.

    Go values are modelled as follows.
    - [int] is [Z]; counters (page and object numbers, scan indices) are
      bounded by the size of in-memory data and are used without wrap-around,
      sums of externally supplied numbers go through [int_wrap].
    - [float64] is the primitive binary64 float of Rocq, every operation
      rounded on its own.
    - [string], [[]byte] and [bytes.Buffer] contents are [string] (a sequence
      of 8-bit characters).
    - [map[string]T] is an association list in insertion order; the order in
      which [range] visits it is left to the environment.
    - a run-time panic is the [Panic] outcome of the [result] monad. *)

From Stdlib Require Import ZArith String Ascii List Lia Bool.
From Stdlib Require Import PrimFloat FloatOps SpecFloat.
Import ListNotations.
Open Scope string_scope.
Open Scope Z_scope.

Set Implicit Arguments.

(** ** Outcomes of Go code: a value or a run-time panic *)

Inductive result (A : Type) : Type :=
| Ok (a : A)
| Panic (msg : string).

Arguments Ok {A} a.
Arguments Panic {A} msg.

Definition bind {A B : Type} (r : result A) (k : A -> result B) : result B :=
  match r with
  | Ok a => k a
  | Panic m => Panic m
  end.

Notation "x <- c1 ;; c2" := (bind c1 (fun x => c2))
  (at level 61, c1 at next level, right associativity).
Notation "' pat <- c1 ;; c2" := (bind c1 (fun x => match x with pat => c2 end))
  (at level 61, pat pattern, c1 at next level, right associativity).

Definition isOk {A : Type} (r : result A) : bool :=
  match r with Ok _ => true | Panic _ => false end.

(** ** Integers *)

(** Two's-complement wrap-around of a 64-bit Go [int]. *)
Definition int_wrap (z : Z) : Z := (z + 2 ^ 63) mod 2 ^ 64 - 2 ^ 63.

Definition int_add (a b : Z) : Z := int_wrap (a + b).
Definition int_mul (a b : Z) : Z := int_wrap (a * b).

(** ** Strings *)

Definition len (s : string) : Z := Z.of_nat (String.length s).

Definition nl : string := String (ascii_of_nat 10) "".
Definition cr : string := String (ascii_of_nat 13) "".

(** [s[i]] on the bytes of a string. *)
Definition byteAt (s : string) (i : Z) : result ascii :=
  if (i <? 0) || (len s <=? i) then Panic "index out of range"
  else match String.get (Z.to_nat i) s with
       | Some c => Ok c
       | None => Panic "index out of range"
       end.

(** [s[j:i]]. *)
Definition slice (s : string) (j i : Z) : result string :=
  if (j <? 0) || (i <? j) || (len s <? i) then Panic "slice bounds out of range"
  else Ok (String.substring (Z.to_nat j) (Z.to_nat (i - j)) s).

(** [strings.Contains]. *)
Fixpoint contains (sub s : string) : bool :=
  if String.prefix sub s then true
  else match s with
       | EmptyString => false
       | String _ s' => contains sub s'
       end.

(** [strings.Replace(s, old, new, -1)] for a non-empty [old]: the matches are
    taken from left to right and do not overlap.  [skip] counts the bytes of
    the match being passed over. *)
Fixpoint replace_from (old new : string) (skip : nat) (s : string) : string :=
  match s with
  | EmptyString => EmptyString
  | String c s' =>
      match skip with
      | S k => replace_from old new k s'
      | O => if String.prefix old s
             then new ++ replace_from old new (String.length old - 1) s'
             else String c (replace_from old new 0 s')
      end
  end.

Definition replaceAll (s old new : string) : string := replace_from old new 0 s.

(** [strings.LastIndex(s, sub)] for a one-byte [sub]; -1 when absent. *)
Fixpoint lastIndex_from (c : ascii) (s : string) (pos : Z) (found : Z) : Z :=
  match s with
  | EmptyString => found
  | String d s' => lastIndex_from c s' (pos + 1) (if Ascii.eqb c d then pos else found)
  end.

Definition lastIndexByte (s : string) (c : ascii) : Z := lastIndex_from c s 0 (-1).

(** ** Decimal output of integers: the verbs [%d] and [%010d] *)

Definition digit (d : Z) : ascii := ascii_of_nat (48 + Z.to_nat d).

Fixpoint dec_digits (fuel : nat) (z : Z) (acc : string) : string :=
  match fuel with
  | O => acc
  | S fuel' =>
      let acc' := String (digit (z mod 10)) acc in
      if z <? 10 then acc' else dec_digits fuel' (z / 10) acc'
  end.

Definition dec_nonneg (z : Z) : string :=
  dec_digits (S (Z.to_nat (Z.log2 z))) z "".

Definition dec (z : Z) : string :=
  if z <? 0 then "-" ++ dec_nonneg (- z) else dec_nonneg z.

Fixpoint zeros (n : nat) : string :=
  match n with
  | O => ""
  | S n' => String "0" (zeros n')
  end.

(** [%0Nd]: the sign comes first, zeros fill up to the width. *)
Definition dec_pad (width : nat) (z : Z) : string :=
  if z <? 0
  then let d := dec_nonneg (- z) in "-" ++ zeros (width - 1 - String.length d) ++ d
  else let d := dec_nonneg z in zeros (width - String.length d) ++ d.

(** ** float64 *)

(** [float64(z)] for an integer [z], rounded to nearest even. *)
Definition float64_of_Z (z : Z) : float :=
  SF2Prim (binary_normalize prec emax z 0 false).

(** [int(x)]: truncation toward zero; the result for NaN, infinities and
    values outside the 64-bit range is the one amd64 produces. *)
Definition int_of_float (x : float) : Z :=
  match Prim2SF x with
  | S754_zero _ => 0
  | S754_finite s m e =>
      let a := if 0 <=? e then Z.pos m * 2 ^ e else Z.pos m / 2 ^ (- e) in
      let v := if s then - a else a in
      if (- 2 ^ 63 <=? v) && (v <? 2 ^ 63) then v else - 2 ^ 63
  | _ => - 2 ^ 63
  end.

Definition round_half_even (num den : Z) : Z :=
  let q := num / den in
  let r := num mod den in
  if (den <? 2 * r) || ((2 * r =? den) && Z.odd q) then q + 1 else q.

(** The digits of [q / 10^p] with [p] decimals. *)
Definition fmt_fixed (p : nat) (neg : bool) (q : Z) : string :=
  let scale := 10 ^ Z.of_nat p in
  (if neg then "-" else "") ++ dec_nonneg (q / scale) ++
  match p with
  | O => ""
  | _ => let d := dec_nonneg (q mod scale) in "." ++ zeros (p - String.length d) ++ d
  end.

(** The verb [%.pf]: the exact binary value rounded to [p] decimals, ties to
    even. *)
Definition fmtFloat (p : nat) (x : float) : string :=
  match Prim2SF x with
  | S754_nan => "NaN"
  | S754_infinity s => if s then "-Inf" else "+Inf"
  | S754_zero s => fmt_fixed p s 0
  | S754_finite s m e =>
      let num := Z.pos m * 10 ^ Z.of_nat p in
      fmt_fixed p s (if 0 <=? e then num * 2 ^ e else round_half_even num (2 ^ (- e)))
  end.

Definition f2 : float -> string := fmtFloat 2.
Definition f3 : float -> string := fmtFloat 3.

(** Go comparisons on float64. *)
Definition fgt (a b : float) : bool := PrimFloat.ltb b a.
Definition flt (a b : float) : bool := PrimFloat.ltb a b.
Definition fge (a b : float) : bool := PrimFloat.leb b a.
Definition feq (a b : float) : bool := PrimFloat.eqb a b.
Definition fne (a b : float) : bool := negb (PrimFloat.eqb a b).

(** ** The records of the package *)

Module sizeType.
Record t : Type := mk { wd : float; ht : float }.
Definition zero : t := mk 0 0.
End sizeType.

Module fontBoxType.
Record t : Type := mk { Xmin : Z; Ymin : Z; Xmax : Z; Ymax : Z }.
Definition zero : t := mk 0 0 0 0.
End fontBoxType.

Module fontDescType.
Record t : Type := mk {
  Ascent : Z; Descent : Z; CapHeight : Z; Flags : Z;
  FontBBox : fontBoxType.t;
  ItalicAngle : Z; StemV : Z; MissingWidth : Z }.
Definition zero : t := mk 0 0 0 0 fontBoxType.zero 0 0 0.
End fontDescType.

(** The font definition read from a JSON file.  [Cw] is the 256-entry width
    array; entries beyond the end of the list are zero. *)
Module fontDefType.
Record t : Type := mk {
  Tp : string; Name : string; Desc : fontDescType.t;
  Up : Z; Ut : Z; Cw : list Z;
  Enc : string; Diff : string; File : string;
  Size1 : Z; Size2 : Z; OriginalSize : Z;
  I : Z; N : Z; DiffN : Z }.
Definition zero : t := mk "" "" fontDescType.zero 0 0 [] "" "" "" 0 0 0 0 0 0.
Definition set_I (v : Z) (d : t) : t :=
  mk (Tp d) (Name d) (Desc d) (Up d) (Ut d) (Cw d) (Enc d) (Diff d) (File d)
     (Size1 d) (Size2 d) (OriginalSize d) v (N d) (DiffN d).
Definition set_N (v : Z) (d : t) : t :=
  mk (Tp d) (Name d) (Desc d) (Up d) (Ut d) (Cw d) (Enc d) (Diff d) (File d)
     (Size1 d) (Size2 d) (OriginalSize d) (I d) v (DiffN d).
Definition set_DiffN (v : Z) (d : t) : t :=
  mk (Tp d) (Name d) (Desc d) (Up d) (Ut d) (Cw d) (Enc d) (Diff d) (File d)
     (Size1 d) (Size2 d) (OriginalSize d) (I d) (N d) v.
End fontDefType.

Module fontFileType.
Record t : Type := mk { length1 : Z; length2 : Z; n : Z }.
Definition set_n (v : Z) (d : t) : t := mk (length1 d) (length2 d) v.
End fontFileType.

(** [smask] is [None] for a nil slice. *)
Module imageInfoType.
Record t : Type := mk {
  data : string; smask : option string;
  i : Z; n : Z; w : float; h : float;
  cs : string; pal : string; bpc : Z;
  f : string; dp : string; trns : list Z }.
Definition zero : t := mk "" None 0 0 0 0 "" "" 0 "" "" [].
Definition set_i (v : Z) (d : t) : t :=
  mk (data d) (smask d) v (n d) (w d) (h d) (cs d) (pal d) (bpc d) (f d) (dp d) (trns d).
Definition set_n (v : Z) (d : t) : t :=
  mk (data d) (smask d) (i d) v (w d) (h d) (cs d) (pal d) (bpc d) (f d) (dp d) (trns d).
Definition set_data (v : string) (d : t) : t :=
  mk v (smask d) (i d) (n d) (w d) (h d) (cs d) (pal d) (bpc d) (f d) (dp d) (trns d).
Definition set_smask (v : option string) (d : t) : t :=
  mk (data d) v (i d) (n d) (w d) (h d) (cs d) (pal d) (bpc d) (f d) (dp d) (trns d).
End imageInfoType.

Module linkType.
Record t : Type := mk {
  x : float; y : float; wd : float; ht : float; link : Z; linkStr : string }.
End linkType.

Module intLinkType.
Record t : Type := mk { page : Z; y : float }.
Definition zero : t := mk 0 0.
End intLinkType.

(** ** The document: the fields of [Fpdf] that fpdf.go reads or writes.
    The three callbacks of the struct are kept apart, in [Hooks]. *)

Module Fpdf.
Record t : Type := mk {
  page : Z;
  n : Z;
  offsets : list Z;
  buffer : string;
  pages : list string;
  state : Z;
  compress : bool;
  k : float;
  defOrientation : string;
  curOrientation : string;
  stdpageSizes : list (string * sizeType.t);
  defPageSize : sizeType.t;
  curPageSize : sizeType.t;
  pageSizes : list (Z * sizeType.t);
  wPt : float;
  hPt : float;
  w : float;
  h : float;
  lMargin : float;
  tMargin : float;
  rMargin : float;
  bMargin : float;
  cMargin : float;
  x : float;
  y : float;
  lasth : float;
  lineWidth : float;
  fontpath : string;
  coreFonts : list (string * bool);
  fonts : list (string * fontDefType.t);
  fontFiles : list (string * fontFileType.t);
  diffs : list string;
  fontFamily : string;
  fontStyle : string;
  underline : bool;
  currentFont : fontDefType.t;
  fontSizePt : float;
  fontSize : float;
  drawColor : string;
  fillColor : string;
  textColor : string;
  colorFlag : bool;
  ws : float;
  images : list (string * imageInfoType.t);
  pageLinks : list (list linkType.t);
  links : list intLinkType.t;
  autoPageBreak : bool;
  pageBreakTrigger : float;
  inHeader : bool;
  inFooter : bool;
  zoomMode : string;
  layoutMode : string;
  title : string;
  subject : string;
  author : string;
  keywords : string;
  creator : string;
  aliasNbPagesStr : string;
  pdfVersion : string;
  capStyle : Z;
  err : option string }.

(** The value of [new(Fpdf)]: every field zero. *)
Definition zero : t :=
  mk 0 0 [] "" [] 0 false 0%float "" "" [] sizeType.zero sizeType.zero [] 0%float
     0%float 0%float 0%float 0%float 0%float 0%float 0%float 0%float 0%float 0%float
     0%float 0%float "" [] [] [] [] "" "" false fontDefType.zero 0%float 0%float "" ""
     "" false 0%float [] [] [] false 0%float false false "" "" "" "" "" "" "" "" "" 0
     None.

Definition set_page (v : Z) (d : t) : t :=
  mk v (n d) (offsets d) (buffer d) (pages d) (state d) (compress d) (k d)
     (defOrientation d) (curOrientation d) (stdpageSizes d) (defPageSize d)
     (curPageSize d) (pageSizes d) (wPt d) (hPt d) (w d) (h d) (lMargin d) (tMargin d)
     (rMargin d) (bMargin d) (cMargin d) (x d) (y d) (lasth d) (lineWidth d) (fontpath
     d) (coreFonts d) (fonts d) (fontFiles d) (diffs d) (fontFamily d) (fontStyle d)
     (underline d) (currentFont d) (fontSizePt d) (fontSize d) (drawColor d)
     (fillColor d) (textColor d) (colorFlag d) (ws d) (images d) (pageLinks d) (links
     d) (autoPageBreak d) (pageBreakTrigger d) (inHeader d) (inFooter d) (zoomMode d)
     (layoutMode d) (title d) (subject d) (author d) (keywords d) (creator d)
     (aliasNbPagesStr d) (pdfVersion d) (capStyle d) (err d).
Definition set_n (v : Z) (d : t) : t :=
  mk (page d) v (offsets d) (buffer d) (pages d) (state d) (compress d) (k d)
     (defOrientation d) (curOrientation d) (stdpageSizes d) (defPageSize d)
     (curPageSize d) (pageSizes d) (wPt d) (hPt d) (w d) (h d) (lMargin d) (tMargin d)
     (rMargin d) (bMargin d) (cMargin d) (x d) (y d) (lasth d) (lineWidth d) (fontpath
     d) (coreFonts d) (fonts d) (fontFiles d) (diffs d) (fontFamily d) (fontStyle d)
     (underline d) (currentFont d) (fontSizePt d) (fontSize d) (drawColor d)
     (fillColor d) (textColor d) (colorFlag d) (ws d) (images d) (pageLinks d) (links
     d) (autoPageBreak d) (pageBreakTrigger d) (inHeader d) (inFooter d) (zoomMode d)
     (layoutMode d) (title d) (subject d) (author d) (keywords d) (creator d)
     (aliasNbPagesStr d) (pdfVersion d) (capStyle d) (err d).
Definition set_offsets (v : list Z) (d : t) : t :=
  mk (page d) (n d) v (buffer d) (pages d) (state d) (compress d) (k d)
     (defOrientation d) (curOrientation d) (stdpageSizes d) (defPageSize d)
     (curPageSize d) (pageSizes d) (wPt d) (hPt d) (w d) (h d) (lMargin d) (tMargin d)
     (rMargin d) (bMargin d) (cMargin d) (x d) (y d) (lasth d) (lineWidth d) (fontpath
     d) (coreFonts d) (fonts d) (fontFiles d) (diffs d) (fontFamily d) (fontStyle d)
     (underline d) (currentFont d) (fontSizePt d) (fontSize d) (drawColor d)
     (fillColor d) (textColor d) (colorFlag d) (ws d) (images d) (pageLinks d) (links
     d) (autoPageBreak d) (pageBreakTrigger d) (inHeader d) (inFooter d) (zoomMode d)
     (layoutMode d) (title d) (subject d) (author d) (keywords d) (creator d)
     (aliasNbPagesStr d) (pdfVersion d) (capStyle d) (err d).
Definition set_buffer (v : string) (d : t) : t :=
  mk (page d) (n d) (offsets d) v (pages d) (state d) (compress d) (k d)
     (defOrientation d) (curOrientation d) (stdpageSizes d) (defPageSize d)
     (curPageSize d) (pageSizes d) (wPt d) (hPt d) (w d) (h d) (lMargin d) (tMargin d)
     (rMargin d) (bMargin d) (cMargin d) (x d) (y d) (lasth d) (lineWidth d) (fontpath
     d) (coreFonts d) (fonts d) (fontFiles d) (diffs d) (fontFamily d) (fontStyle d)
     (underline d) (currentFont d) (fontSizePt d) (fontSize d) (drawColor d)
     (fillColor d) (textColor d) (colorFlag d) (ws d) (images d) (pageLinks d) (links
     d) (autoPageBreak d) (pageBreakTrigger d) (inHeader d) (inFooter d) (zoomMode d)
     (layoutMode d) (title d) (subject d) (author d) (keywords d) (creator d)
     (aliasNbPagesStr d) (pdfVersion d) (capStyle d) (err d).
Definition set_pages (v : list string) (d : t) : t :=
  mk (page d) (n d) (offsets d) (buffer d) v (state d) (compress d) (k d)
     (defOrientation d) (curOrientation d) (stdpageSizes d) (defPageSize d)
     (curPageSize d) (pageSizes d) (wPt d) (hPt d) (w d) (h d) (lMargin d) (tMargin d)
     (rMargin d) (bMargin d) (cMargin d) (x d) (y d) (lasth d) (lineWidth d) (fontpath
     d) (coreFonts d) (fonts d) (fontFiles d) (diffs d) (fontFamily d) (fontStyle d)
     (underline d) (currentFont d) (fontSizePt d) (fontSize d) (drawColor d)
     (fillColor d) (textColor d) (colorFlag d) (ws d) (images d) (pageLinks d) (links
     d) (autoPageBreak d) (pageBreakTrigger d) (inHeader d) (inFooter d) (zoomMode d)
     (layoutMode d) (title d) (subject d) (author d) (keywords d) (creator d)
     (aliasNbPagesStr d) (pdfVersion d) (capStyle d) (err d).
Definition set_state (v : Z) (d : t) : t :=
  mk (page d) (n d) (offsets d) (buffer d) (pages d) v (compress d) (k d)
     (defOrientation d) (curOrientation d) (stdpageSizes d) (defPageSize d)
     (curPageSize d) (pageSizes d) (wPt d) (hPt d) (w d) (h d) (lMargin d) (tMargin d)
     (rMargin d) (bMargin d) (cMargin d) (x d) (y d) (lasth d) (lineWidth d) (fontpath
     d) (coreFonts d) (fonts d) (fontFiles d) (diffs d) (fontFamily d) (fontStyle d)
     (underline d) (currentFont d) (fontSizePt d) (fontSize d) (drawColor d)
     (fillColor d) (textColor d) (colorFlag d) (ws d) (images d) (pageLinks d) (links
     d) (autoPageBreak d) (pageBreakTrigger d) (inHeader d) (inFooter d) (zoomMode d)
     (layoutMode d) (title d) (subject d) (author d) (keywords d) (creator d)
     (aliasNbPagesStr d) (pdfVersion d) (capStyle d) (err d).
Definition set_compress (v : bool) (d : t) : t :=
  mk (page d) (n d) (offsets d) (buffer d) (pages d) (state d) v (k d) (defOrientation
     d) (curOrientation d) (stdpageSizes d) (defPageSize d) (curPageSize d) (pageSizes
     d) (wPt d) (hPt d) (w d) (h d) (lMargin d) (tMargin d) (rMargin d) (bMargin d)
     (cMargin d) (x d) (y d) (lasth d) (lineWidth d) (fontpath d) (coreFonts d) (fonts
     d) (fontFiles d) (diffs d) (fontFamily d) (fontStyle d) (underline d)
     (currentFont d) (fontSizePt d) (fontSize d) (drawColor d) (fillColor d)
     (textColor d) (colorFlag d) (ws d) (images d) (pageLinks d) (links d)
     (autoPageBreak d) (pageBreakTrigger d) (inHeader d) (inFooter d) (zoomMode d)
     (layoutMode d) (title d) (subject d) (author d) (keywords d) (creator d)
     (aliasNbPagesStr d) (pdfVersion d) (capStyle d) (err d).
Definition set_k (v : float) (d : t) : t :=
  mk (page d) (n d) (offsets d) (buffer d) (pages d) (state d) (compress d) v
     (defOrientation d) (curOrientation d) (stdpageSizes d) (defPageSize d)
     (curPageSize d) (pageSizes d) (wPt d) (hPt d) (w d) (h d) (lMargin d) (tMargin d)
     (rMargin d) (bMargin d) (cMargin d) (x d) (y d) (lasth d) (lineWidth d) (fontpath
     d) (coreFonts d) (fonts d) (fontFiles d) (diffs d) (fontFamily d) (fontStyle d)
     (underline d) (currentFont d) (fontSizePt d) (fontSize d) (drawColor d)
     (fillColor d) (textColor d) (colorFlag d) (ws d) (images d) (pageLinks d) (links
     d) (autoPageBreak d) (pageBreakTrigger d) (inHeader d) (inFooter d) (zoomMode d)
     (layoutMode d) (title d) (subject d) (author d) (keywords d) (creator d)
     (aliasNbPagesStr d) (pdfVersion d) (capStyle d) (err d).
Definition set_defOrientation (v : string) (d : t) : t :=
  mk (page d) (n d) (offsets d) (buffer d) (pages d) (state d) (compress d) (k d) v
     (curOrientation d) (stdpageSizes d) (defPageSize d) (curPageSize d) (pageSizes d)
     (wPt d) (hPt d) (w d) (h d) (lMargin d) (tMargin d) (rMargin d) (bMargin d)
     (cMargin d) (x d) (y d) (lasth d) (lineWidth d) (fontpath d) (coreFonts d) (fonts
     d) (fontFiles d) (diffs d) (fontFamily d) (fontStyle d) (underline d)
     (currentFont d) (fontSizePt d) (fontSize d) (drawColor d) (fillColor d)
     (textColor d) (colorFlag d) (ws d) (images d) (pageLinks d) (links d)
     (autoPageBreak d) (pageBreakTrigger d) (inHeader d) (inFooter d) (zoomMode d)
     (layoutMode d) (title d) (subject d) (author d) (keywords d) (creator d)
     (aliasNbPagesStr d) (pdfVersion d) (capStyle d) (err d).
Definition set_curOrientation (v : string) (d : t) : t :=
  mk (page d) (n d) (offsets d) (buffer d) (pages d) (state d) (compress d) (k d)
     (defOrientation d) v (stdpageSizes d) (defPageSize d) (curPageSize d) (pageSizes
     d) (wPt d) (hPt d) (w d) (h d) (lMargin d) (tMargin d) (rMargin d) (bMargin d)
     (cMargin d) (x d) (y d) (lasth d) (lineWidth d) (fontpath d) (coreFonts d) (fonts
     d) (fontFiles d) (diffs d) (fontFamily d) (fontStyle d) (underline d)
     (currentFont d) (fontSizePt d) (fontSize d) (drawColor d) (fillColor d)
     (textColor d) (colorFlag d) (ws d) (images d) (pageLinks d) (links d)
     (autoPageBreak d) (pageBreakTrigger d) (inHeader d) (inFooter d) (zoomMode d)
     (layoutMode d) (title d) (subject d) (author d) (keywords d) (creator d)
     (aliasNbPagesStr d) (pdfVersion d) (capStyle d) (err d).
Definition set_stdpageSizes (v : list (string * sizeType.t)) (d : t) : t :=
  mk (page d) (n d) (offsets d) (buffer d) (pages d) (state d) (compress d) (k d)
     (defOrientation d) (curOrientation d) v (defPageSize d) (curPageSize d)
     (pageSizes d) (wPt d) (hPt d) (w d) (h d) (lMargin d) (tMargin d) (rMargin d)
     (bMargin d) (cMargin d) (x d) (y d) (lasth d) (lineWidth d) (fontpath d)
     (coreFonts d) (fonts d) (fontFiles d) (diffs d) (fontFamily d) (fontStyle d)
     (underline d) (currentFont d) (fontSizePt d) (fontSize d) (drawColor d)
     (fillColor d) (textColor d) (colorFlag d) (ws d) (images d) (pageLinks d) (links
     d) (autoPageBreak d) (pageBreakTrigger d) (inHeader d) (inFooter d) (zoomMode d)
     (layoutMode d) (title d) (subject d) (author d) (keywords d) (creator d)
     (aliasNbPagesStr d) (pdfVersion d) (capStyle d) (err d).
Definition set_defPageSize (v : sizeType.t) (d : t) : t :=
  mk (page d) (n d) (offsets d) (buffer d) (pages d) (state d) (compress d) (k d)
     (defOrientation d) (curOrientation d) (stdpageSizes d) v (curPageSize d)
     (pageSizes d) (wPt d) (hPt d) (w d) (h d) (lMargin d) (tMargin d) (rMargin d)
     (bMargin d) (cMargin d) (x d) (y d) (lasth d) (lineWidth d) (fontpath d)
     (coreFonts d) (fonts d) (fontFiles d) (diffs d) (fontFamily d) (fontStyle d)
     (underline d) (currentFont d) (fontSizePt d) (fontSize d) (drawColor d)
     (fillColor d) (textColor d) (colorFlag d) (ws d) (images d) (pageLinks d) (links
     d) (autoPageBreak d) (pageBreakTrigger d) (inHeader d) (inFooter d) (zoomMode d)
     (layoutMode d) (title d) (subject d) (author d) (keywords d) (creator d)
     (aliasNbPagesStr d) (pdfVersion d) (capStyle d) (err d).
Definition set_curPageSize (v : sizeType.t) (d : t) : t :=
  mk (page d) (n d) (offsets d) (buffer d) (pages d) (state d) (compress d) (k d)
     (defOrientation d) (curOrientation d) (stdpageSizes d) (defPageSize d) v
     (pageSizes d) (wPt d) (hPt d) (w d) (h d) (lMargin d) (tMargin d) (rMargin d)
     (bMargin d) (cMargin d) (x d) (y d) (lasth d) (lineWidth d) (fontpath d)
     (coreFonts d) (fonts d) (fontFiles d) (diffs d) (fontFamily d) (fontStyle d)
     (underline d) (currentFont d) (fontSizePt d) (fontSize d) (drawColor d)
     (fillColor d) (textColor d) (colorFlag d) (ws d) (images d) (pageLinks d) (links
     d) (autoPageBreak d) (pageBreakTrigger d) (inHeader d) (inFooter d) (zoomMode d)
     (layoutMode d) (title d) (subject d) (author d) (keywords d) (creator d)
     (aliasNbPagesStr d) (pdfVersion d) (capStyle d) (err d).
Definition set_pageSizes (v : list (Z * sizeType.t)) (d : t) : t :=
  mk (page d) (n d) (offsets d) (buffer d) (pages d) (state d) (compress d) (k d)
     (defOrientation d) (curOrientation d) (stdpageSizes d) (defPageSize d)
     (curPageSize d) v (wPt d) (hPt d) (w d) (h d) (lMargin d) (tMargin d) (rMargin d)
     (bMargin d) (cMargin d) (x d) (y d) (lasth d) (lineWidth d) (fontpath d)
     (coreFonts d) (fonts d) (fontFiles d) (diffs d) (fontFamily d) (fontStyle d)
     (underline d) (currentFont d) (fontSizePt d) (fontSize d) (drawColor d)
     (fillColor d) (textColor d) (colorFlag d) (ws d) (images d) (pageLinks d) (links
     d) (autoPageBreak d) (pageBreakTrigger d) (inHeader d) (inFooter d) (zoomMode d)
     (layoutMode d) (title d) (subject d) (author d) (keywords d) (creator d)
     (aliasNbPagesStr d) (pdfVersion d) (capStyle d) (err d).
Definition set_wPt (v : float) (d : t) : t :=
  mk (page d) (n d) (offsets d) (buffer d) (pages d) (state d) (compress d) (k d)
     (defOrientation d) (curOrientation d) (stdpageSizes d) (defPageSize d)
     (curPageSize d) (pageSizes d) v (hPt d) (w d) (h d) (lMargin d) (tMargin d)
     (rMargin d) (bMargin d) (cMargin d) (x d) (y d) (lasth d) (lineWidth d) (fontpath
     d) (coreFonts d) (fonts d) (fontFiles d) (diffs d) (fontFamily d) (fontStyle d)
     (underline d) (currentFont d) (fontSizePt d) (fontSize d) (drawColor d)
     (fillColor d) (textColor d) (colorFlag d) (ws d) (images d) (pageLinks d) (links
     d) (autoPageBreak d) (pageBreakTrigger d) (inHeader d) (inFooter d) (zoomMode d)
     (layoutMode d) (title d) (subject d) (author d) (keywords d) (creator d)
     (aliasNbPagesStr d) (pdfVersion d) (capStyle d) (err d).
Definition set_hPt (v : float) (d : t) : t :=
  mk (page d) (n d) (offsets d) (buffer d) (pages d) (state d) (compress d) (k d)
     (defOrientation d) (curOrientation d) (stdpageSizes d) (defPageSize d)
     (curPageSize d) (pageSizes d) (wPt d) v (w d) (h d) (lMargin d) (tMargin d)
     (rMargin d) (bMargin d) (cMargin d) (x d) (y d) (lasth d) (lineWidth d) (fontpath
     d) (coreFonts d) (fonts d) (fontFiles d) (diffs d) (fontFamily d) (fontStyle d)
     (underline d) (currentFont d) (fontSizePt d) (fontSize d) (drawColor d)
     (fillColor d) (textColor d) (colorFlag d) (ws d) (images d) (pageLinks d) (links
     d) (autoPageBreak d) (pageBreakTrigger d) (inHeader d) (inFooter d) (zoomMode d)
     (layoutMode d) (title d) (subject d) (author d) (keywords d) (creator d)
     (aliasNbPagesStr d) (pdfVersion d) (capStyle d) (err d).
Definition set_w (v : float) (d : t) : t :=
  mk (page d) (n d) (offsets d) (buffer d) (pages d) (state d) (compress d) (k d)
     (defOrientation d) (curOrientation d) (stdpageSizes d) (defPageSize d)
     (curPageSize d) (pageSizes d) (wPt d) (hPt d) v (h d) (lMargin d) (tMargin d)
     (rMargin d) (bMargin d) (cMargin d) (x d) (y d) (lasth d) (lineWidth d) (fontpath
     d) (coreFonts d) (fonts d) (fontFiles d) (diffs d) (fontFamily d) (fontStyle d)
     (underline d) (currentFont d) (fontSizePt d) (fontSize d) (drawColor d)
     (fillColor d) (textColor d) (colorFlag d) (ws d) (images d) (pageLinks d) (links
     d) (autoPageBreak d) (pageBreakTrigger d) (inHeader d) (inFooter d) (zoomMode d)
     (layoutMode d) (title d) (subject d) (author d) (keywords d) (creator d)
     (aliasNbPagesStr d) (pdfVersion d) (capStyle d) (err d).
Definition set_h (v : float) (d : t) : t :=
  mk (page d) (n d) (offsets d) (buffer d) (pages d) (state d) (compress d) (k d)
     (defOrientation d) (curOrientation d) (stdpageSizes d) (defPageSize d)
     (curPageSize d) (pageSizes d) (wPt d) (hPt d) (w d) v (lMargin d) (tMargin d)
     (rMargin d) (bMargin d) (cMargin d) (x d) (y d) (lasth d) (lineWidth d) (fontpath
     d) (coreFonts d) (fonts d) (fontFiles d) (diffs d) (fontFamily d) (fontStyle d)
     (underline d) (currentFont d) (fontSizePt d) (fontSize d) (drawColor d)
     (fillColor d) (textColor d) (colorFlag d) (ws d) (images d) (pageLinks d) (links
     d) (autoPageBreak d) (pageBreakTrigger d) (inHeader d) (inFooter d) (zoomMode d)
     (layoutMode d) (title d) (subject d) (author d) (keywords d) (creator d)
     (aliasNbPagesStr d) (pdfVersion d) (capStyle d) (err d).
Definition set_lMargin (v : float) (d : t) : t :=
  mk (page d) (n d) (offsets d) (buffer d) (pages d) (state d) (compress d) (k d)
     (defOrientation d) (curOrientation d) (stdpageSizes d) (defPageSize d)
     (curPageSize d) (pageSizes d) (wPt d) (hPt d) (w d) (h d) v (tMargin d) (rMargin
     d) (bMargin d) (cMargin d) (x d) (y d) (lasth d) (lineWidth d) (fontpath d)
     (coreFonts d) (fonts d) (fontFiles d) (diffs d) (fontFamily d) (fontStyle d)
     (underline d) (currentFont d) (fontSizePt d) (fontSize d) (drawColor d)
     (fillColor d) (textColor d) (colorFlag d) (ws d) (images d) (pageLinks d) (links
     d) (autoPageBreak d) (pageBreakTrigger d) (inHeader d) (inFooter d) (zoomMode d)
     (layoutMode d) (title d) (subject d) (author d) (keywords d) (creator d)
     (aliasNbPagesStr d) (pdfVersion d) (capStyle d) (err d).
Definition set_tMargin (v : float) (d : t) : t :=
  mk (page d) (n d) (offsets d) (buffer d) (pages d) (state d) (compress d) (k d)
     (defOrientation d) (curOrientation d) (stdpageSizes d) (defPageSize d)
     (curPageSize d) (pageSizes d) (wPt d) (hPt d) (w d) (h d) (lMargin d) v (rMargin
     d) (bMargin d) (cMargin d) (x d) (y d) (lasth d) (lineWidth d) (fontpath d)
     (coreFonts d) (fonts d) (fontFiles d) (diffs d) (fontFamily d) (fontStyle d)
     (underline d) (currentFont d) (fontSizePt d) (fontSize d) (drawColor d)
     (fillColor d) (textColor d) (colorFlag d) (ws d) (images d) (pageLinks d) (links
     d) (autoPageBreak d) (pageBreakTrigger d) (inHeader d) (inFooter d) (zoomMode d)
     (layoutMode d) (title d) (subject d) (author d) (keywords d) (creator d)
     (aliasNbPagesStr d) (pdfVersion d) (capStyle d) (err d).
Definition set_rMargin (v : float) (d : t) : t :=
  mk (page d) (n d) (offsets d) (buffer d) (pages d) (state d) (compress d) (k d)
     (defOrientation d) (curOrientation d) (stdpageSizes d) (defPageSize d)
     (curPageSize d) (pageSizes d) (wPt d) (hPt d) (w d) (h d) (lMargin d) (tMargin d)
     v (bMargin d) (cMargin d) (x d) (y d) (lasth d) (lineWidth d) (fontpath d)
     (coreFonts d) (fonts d) (fontFiles d) (diffs d) (fontFamily d) (fontStyle d)
     (underline d) (currentFont d) (fontSizePt d) (fontSize d) (drawColor d)
     (fillColor d) (textColor d) (colorFlag d) (ws d) (images d) (pageLinks d) (links
     d) (autoPageBreak d) (pageBreakTrigger d) (inHeader d) (inFooter d) (zoomMode d)
     (layoutMode d) (title d) (subject d) (author d) (keywords d) (creator d)
     (aliasNbPagesStr d) (pdfVersion d) (capStyle d) (err d).
Definition set_bMargin (v : float) (d : t) : t :=
  mk (page d) (n d) (offsets d) (buffer d) (pages d) (state d) (compress d) (k d)
     (defOrientation d) (curOrientation d) (stdpageSizes d) (defPageSize d)
     (curPageSize d) (pageSizes d) (wPt d) (hPt d) (w d) (h d) (lMargin d) (tMargin d)
     (rMargin d) v (cMargin d) (x d) (y d) (lasth d) (lineWidth d) (fontpath d)
     (coreFonts d) (fonts d) (fontFiles d) (diffs d) (fontFamily d) (fontStyle d)
     (underline d) (currentFont d) (fontSizePt d) (fontSize d) (drawColor d)
     (fillColor d) (textColor d) (colorFlag d) (ws d) (images d) (pageLinks d) (links
     d) (autoPageBreak d) (pageBreakTrigger d) (inHeader d) (inFooter d) (zoomMode d)
     (layoutMode d) (title d) (subject d) (author d) (keywords d) (creator d)
     (aliasNbPagesStr d) (pdfVersion d) (capStyle d) (err d).
Definition set_cMargin (v : float) (d : t) : t :=
  mk (page d) (n d) (offsets d) (buffer d) (pages d) (state d) (compress d) (k d)
     (defOrientation d) (curOrientation d) (stdpageSizes d) (defPageSize d)
     (curPageSize d) (pageSizes d) (wPt d) (hPt d) (w d) (h d) (lMargin d) (tMargin d)
     (rMargin d) (bMargin d) v (x d) (y d) (lasth d) (lineWidth d) (fontpath d)
     (coreFonts d) (fonts d) (fontFiles d) (diffs d) (fontFamily d) (fontStyle d)
     (underline d) (currentFont d) (fontSizePt d) (fontSize d) (drawColor d)
     (fillColor d) (textColor d) (colorFlag d) (ws d) (images d) (pageLinks d) (links
     d) (autoPageBreak d) (pageBreakTrigger d) (inHeader d) (inFooter d) (zoomMode d)
     (layoutMode d) (title d) (subject d) (author d) (keywords d) (creator d)
     (aliasNbPagesStr d) (pdfVersion d) (capStyle d) (err d).
Definition set_x (v : float) (d : t) : t :=
  mk (page d) (n d) (offsets d) (buffer d) (pages d) (state d) (compress d) (k d)
     (defOrientation d) (curOrientation d) (stdpageSizes d) (defPageSize d)
     (curPageSize d) (pageSizes d) (wPt d) (hPt d) (w d) (h d) (lMargin d) (tMargin d)
     (rMargin d) (bMargin d) (cMargin d) v (y d) (lasth d) (lineWidth d) (fontpath d)
     (coreFonts d) (fonts d) (fontFiles d) (diffs d) (fontFamily d) (fontStyle d)
     (underline d) (currentFont d) (fontSizePt d) (fontSize d) (drawColor d)
     (fillColor d) (textColor d) (colorFlag d) (ws d) (images d) (pageLinks d) (links
     d) (autoPageBreak d) (pageBreakTrigger d) (inHeader d) (inFooter d) (zoomMode d)
     (layoutMode d) (title d) (subject d) (author d) (keywords d) (creator d)
     (aliasNbPagesStr d) (pdfVersion d) (capStyle d) (err d).
Definition set_y (v : float) (d : t) : t :=
  mk (page d) (n d) (offsets d) (buffer d) (pages d) (state d) (compress d) (k d)
     (defOrientation d) (curOrientation d) (stdpageSizes d) (defPageSize d)
     (curPageSize d) (pageSizes d) (wPt d) (hPt d) (w d) (h d) (lMargin d) (tMargin d)
     (rMargin d) (bMargin d) (cMargin d) (x d) v (lasth d) (lineWidth d) (fontpath d)
     (coreFonts d) (fonts d) (fontFiles d) (diffs d) (fontFamily d) (fontStyle d)
     (underline d) (currentFont d) (fontSizePt d) (fontSize d) (drawColor d)
     (fillColor d) (textColor d) (colorFlag d) (ws d) (images d) (pageLinks d) (links
     d) (autoPageBreak d) (pageBreakTrigger d) (inHeader d) (inFooter d) (zoomMode d)
     (layoutMode d) (title d) (subject d) (author d) (keywords d) (creator d)
     (aliasNbPagesStr d) (pdfVersion d) (capStyle d) (err d).
Definition set_lasth (v : float) (d : t) : t :=
  mk (page d) (n d) (offsets d) (buffer d) (pages d) (state d) (compress d) (k d)
     (defOrientation d) (curOrientation d) (stdpageSizes d) (defPageSize d)
     (curPageSize d) (pageSizes d) (wPt d) (hPt d) (w d) (h d) (lMargin d) (tMargin d)
     (rMargin d) (bMargin d) (cMargin d) (x d) (y d) v (lineWidth d) (fontpath d)
     (coreFonts d) (fonts d) (fontFiles d) (diffs d) (fontFamily d) (fontStyle d)
     (underline d) (currentFont d) (fontSizePt d) (fontSize d) (drawColor d)
     (fillColor d) (textColor d) (colorFlag d) (ws d) (images d) (pageLinks d) (links
     d) (autoPageBreak d) (pageBreakTrigger d) (inHeader d) (inFooter d) (zoomMode d)
     (layoutMode d) (title d) (subject d) (author d) (keywords d) (creator d)
     (aliasNbPagesStr d) (pdfVersion d) (capStyle d) (err d).
Definition set_lineWidth (v : float) (d : t) : t :=
  mk (page d) (n d) (offsets d) (buffer d) (pages d) (state d) (compress d) (k d)
     (defOrientation d) (curOrientation d) (stdpageSizes d) (defPageSize d)
     (curPageSize d) (pageSizes d) (wPt d) (hPt d) (w d) (h d) (lMargin d) (tMargin d)
     (rMargin d) (bMargin d) (cMargin d) (x d) (y d) (lasth d) v (fontpath d)
     (coreFonts d) (fonts d) (fontFiles d) (diffs d) (fontFamily d) (fontStyle d)
     (underline d) (currentFont d) (fontSizePt d) (fontSize d) (drawColor d)
     (fillColor d) (textColor d) (colorFlag d) (ws d) (images d) (pageLinks d) (links
     d) (autoPageBreak d) (pageBreakTrigger d) (inHeader d) (inFooter d) (zoomMode d)
     (layoutMode d) (title d) (subject d) (author d) (keywords d) (creator d)
     (aliasNbPagesStr d) (pdfVersion d) (capStyle d) (err d).
Definition set_fontpath (v : string) (d : t) : t :=
  mk (page d) (n d) (offsets d) (buffer d) (pages d) (state d) (compress d) (k d)
     (defOrientation d) (curOrientation d) (stdpageSizes d) (defPageSize d)
     (curPageSize d) (pageSizes d) (wPt d) (hPt d) (w d) (h d) (lMargin d) (tMargin d)
     (rMargin d) (bMargin d) (cMargin d) (x d) (y d) (lasth d) (lineWidth d) v
     (coreFonts d) (fonts d) (fontFiles d) (diffs d) (fontFamily d) (fontStyle d)
     (underline d) (currentFont d) (fontSizePt d) (fontSize d) (drawColor d)
     (fillColor d) (textColor d) (colorFlag d) (ws d) (images d) (pageLinks d) (links
     d) (autoPageBreak d) (pageBreakTrigger d) (inHeader d) (inFooter d) (zoomMode d)
     (layoutMode d) (title d) (subject d) (author d) (keywords d) (creator d)
     (aliasNbPagesStr d) (pdfVersion d) (capStyle d) (err d).
Definition set_coreFonts (v : list (string * bool)) (d : t) : t :=
  mk (page d) (n d) (offsets d) (buffer d) (pages d) (state d) (compress d) (k d)
     (defOrientation d) (curOrientation d) (stdpageSizes d) (defPageSize d)
     (curPageSize d) (pageSizes d) (wPt d) (hPt d) (w d) (h d) (lMargin d) (tMargin d)
     (rMargin d) (bMargin d) (cMargin d) (x d) (y d) (lasth d) (lineWidth d) (fontpath
     d) v (fonts d) (fontFiles d) (diffs d) (fontFamily d) (fontStyle d) (underline d)
     (currentFont d) (fontSizePt d) (fontSize d) (drawColor d) (fillColor d)
     (textColor d) (colorFlag d) (ws d) (images d) (pageLinks d) (links d)
     (autoPageBreak d) (pageBreakTrigger d) (inHeader d) (inFooter d) (zoomMode d)
     (layoutMode d) (title d) (subject d) (author d) (keywords d) (creator d)
     (aliasNbPagesStr d) (pdfVersion d) (capStyle d) (err d).
Definition set_fonts (v : list (string * fontDefType.t)) (d : t) : t :=
  mk (page d) (n d) (offsets d) (buffer d) (pages d) (state d) (compress d) (k d)
     (defOrientation d) (curOrientation d) (stdpageSizes d) (defPageSize d)
     (curPageSize d) (pageSizes d) (wPt d) (hPt d) (w d) (h d) (lMargin d) (tMargin d)
     (rMargin d) (bMargin d) (cMargin d) (x d) (y d) (lasth d) (lineWidth d) (fontpath
     d) (coreFonts d) v (fontFiles d) (diffs d) (fontFamily d) (fontStyle d)
     (underline d) (currentFont d) (fontSizePt d) (fontSize d) (drawColor d)
     (fillColor d) (textColor d) (colorFlag d) (ws d) (images d) (pageLinks d) (links
     d) (autoPageBreak d) (pageBreakTrigger d) (inHeader d) (inFooter d) (zoomMode d)
     (layoutMode d) (title d) (subject d) (author d) (keywords d) (creator d)
     (aliasNbPagesStr d) (pdfVersion d) (capStyle d) (err d).
Definition set_fontFiles (v : list (string * fontFileType.t)) (d : t) : t :=
  mk (page d) (n d) (offsets d) (buffer d) (pages d) (state d) (compress d) (k d)
     (defOrientation d) (curOrientation d) (stdpageSizes d) (defPageSize d)
     (curPageSize d) (pageSizes d) (wPt d) (hPt d) (w d) (h d) (lMargin d) (tMargin d)
     (rMargin d) (bMargin d) (cMargin d) (x d) (y d) (lasth d) (lineWidth d) (fontpath
     d) (coreFonts d) (fonts d) v (diffs d) (fontFamily d) (fontStyle d) (underline d)
     (currentFont d) (fontSizePt d) (fontSize d) (drawColor d) (fillColor d)
     (textColor d) (colorFlag d) (ws d) (images d) (pageLinks d) (links d)
     (autoPageBreak d) (pageBreakTrigger d) (inHeader d) (inFooter d) (zoomMode d)
     (layoutMode d) (title d) (subject d) (author d) (keywords d) (creator d)
     (aliasNbPagesStr d) (pdfVersion d) (capStyle d) (err d).
Definition set_diffs (v : list string) (d : t) : t :=
  mk (page d) (n d) (offsets d) (buffer d) (pages d) (state d) (compress d) (k d)
     (defOrientation d) (curOrientation d) (stdpageSizes d) (defPageSize d)
     (curPageSize d) (pageSizes d) (wPt d) (hPt d) (w d) (h d) (lMargin d) (tMargin d)
     (rMargin d) (bMargin d) (cMargin d) (x d) (y d) (lasth d) (lineWidth d) (fontpath
     d) (coreFonts d) (fonts d) (fontFiles d) v (fontFamily d) (fontStyle d)
     (underline d) (currentFont d) (fontSizePt d) (fontSize d) (drawColor d)
     (fillColor d) (textColor d) (colorFlag d) (ws d) (images d) (pageLinks d) (links
     d) (autoPageBreak d) (pageBreakTrigger d) (inHeader d) (inFooter d) (zoomMode d)
     (layoutMode d) (title d) (subject d) (author d) (keywords d) (creator d)
     (aliasNbPagesStr d) (pdfVersion d) (capStyle d) (err d).
Definition set_fontFamily (v : string) (d : t) : t :=
  mk (page d) (n d) (offsets d) (buffer d) (pages d) (state d) (compress d) (k d)
     (defOrientation d) (curOrientation d) (stdpageSizes d) (defPageSize d)
     (curPageSize d) (pageSizes d) (wPt d) (hPt d) (w d) (h d) (lMargin d) (tMargin d)
     (rMargin d) (bMargin d) (cMargin d) (x d) (y d) (lasth d) (lineWidth d) (fontpath
     d) (coreFonts d) (fonts d) (fontFiles d) (diffs d) v (fontStyle d) (underline d)
     (currentFont d) (fontSizePt d) (fontSize d) (drawColor d) (fillColor d)
     (textColor d) (colorFlag d) (ws d) (images d) (pageLinks d) (links d)
     (autoPageBreak d) (pageBreakTrigger d) (inHeader d) (inFooter d) (zoomMode d)
     (layoutMode d) (title d) (subject d) (author d) (keywords d) (creator d)
     (aliasNbPagesStr d) (pdfVersion d) (capStyle d) (err d).
Definition set_fontStyle (v : string) (d : t) : t :=
  mk (page d) (n d) (offsets d) (buffer d) (pages d) (state d) (compress d) (k d)
     (defOrientation d) (curOrientation d) (stdpageSizes d) (defPageSize d)
     (curPageSize d) (pageSizes d) (wPt d) (hPt d) (w d) (h d) (lMargin d) (tMargin d)
     (rMargin d) (bMargin d) (cMargin d) (x d) (y d) (lasth d) (lineWidth d) (fontpath
     d) (coreFonts d) (fonts d) (fontFiles d) (diffs d) (fontFamily d) v (underline d)
     (currentFont d) (fontSizePt d) (fontSize d) (drawColor d) (fillColor d)
     (textColor d) (colorFlag d) (ws d) (images d) (pageLinks d) (links d)
     (autoPageBreak d) (pageBreakTrigger d) (inHeader d) (inFooter d) (zoomMode d)
     (layoutMode d) (title d) (subject d) (author d) (keywords d) (creator d)
     (aliasNbPagesStr d) (pdfVersion d) (capStyle d) (err d).
Definition set_underline (v : bool) (d : t) : t :=
  mk (page d) (n d) (offsets d) (buffer d) (pages d) (state d) (compress d) (k d)
     (defOrientation d) (curOrientation d) (stdpageSizes d) (defPageSize d)
     (curPageSize d) (pageSizes d) (wPt d) (hPt d) (w d) (h d) (lMargin d) (tMargin d)
     (rMargin d) (bMargin d) (cMargin d) (x d) (y d) (lasth d) (lineWidth d) (fontpath
     d) (coreFonts d) (fonts d) (fontFiles d) (diffs d) (fontFamily d) (fontStyle d) v
     (currentFont d) (fontSizePt d) (fontSize d) (drawColor d) (fillColor d)
     (textColor d) (colorFlag d) (ws d) (images d) (pageLinks d) (links d)
     (autoPageBreak d) (pageBreakTrigger d) (inHeader d) (inFooter d) (zoomMode d)
     (layoutMode d) (title d) (subject d) (author d) (keywords d) (creator d)
     (aliasNbPagesStr d) (pdfVersion d) (capStyle d) (err d).
Definition set_currentFont (v : fontDefType.t) (d : t) : t :=
  mk (page d) (n d) (offsets d) (buffer d) (pages d) (state d) (compress d) (k d)
     (defOrientation d) (curOrientation d) (stdpageSizes d) (defPageSize d)
     (curPageSize d) (pageSizes d) (wPt d) (hPt d) (w d) (h d) (lMargin d) (tMargin d)
     (rMargin d) (bMargin d) (cMargin d) (x d) (y d) (lasth d) (lineWidth d) (fontpath
     d) (coreFonts d) (fonts d) (fontFiles d) (diffs d) (fontFamily d) (fontStyle d)
     (underline d) v (fontSizePt d) (fontSize d) (drawColor d) (fillColor d)
     (textColor d) (colorFlag d) (ws d) (images d) (pageLinks d) (links d)
     (autoPageBreak d) (pageBreakTrigger d) (inHeader d) (inFooter d) (zoomMode d)
     (layoutMode d) (title d) (subject d) (author d) (keywords d) (creator d)
     (aliasNbPagesStr d) (pdfVersion d) (capStyle d) (err d).
Definition set_fontSizePt (v : float) (d : t) : t :=
  mk (page d) (n d) (offsets d) (buffer d) (pages d) (state d) (compress d) (k d)
     (defOrientation d) (curOrientation d) (stdpageSizes d) (defPageSize d)
     (curPageSize d) (pageSizes d) (wPt d) (hPt d) (w d) (h d) (lMargin d) (tMargin d)
     (rMargin d) (bMargin d) (cMargin d) (x d) (y d) (lasth d) (lineWidth d) (fontpath
     d) (coreFonts d) (fonts d) (fontFiles d) (diffs d) (fontFamily d) (fontStyle d)
     (underline d) (currentFont d) v (fontSize d) (drawColor d) (fillColor d)
     (textColor d) (colorFlag d) (ws d) (images d) (pageLinks d) (links d)
     (autoPageBreak d) (pageBreakTrigger d) (inHeader d) (inFooter d) (zoomMode d)
     (layoutMode d) (title d) (subject d) (author d) (keywords d) (creator d)
     (aliasNbPagesStr d) (pdfVersion d) (capStyle d) (err d).
Definition set_fontSize (v : float) (d : t) : t :=
  mk (page d) (n d) (offsets d) (buffer d) (pages d) (state d) (compress d) (k d)
     (defOrientation d) (curOrientation d) (stdpageSizes d) (defPageSize d)
     (curPageSize d) (pageSizes d) (wPt d) (hPt d) (w d) (h d) (lMargin d) (tMargin d)
     (rMargin d) (bMargin d) (cMargin d) (x d) (y d) (lasth d) (lineWidth d) (fontpath
     d) (coreFonts d) (fonts d) (fontFiles d) (diffs d) (fontFamily d) (fontStyle d)
     (underline d) (currentFont d) (fontSizePt d) v (drawColor d) (fillColor d)
     (textColor d) (colorFlag d) (ws d) (images d) (pageLinks d) (links d)
     (autoPageBreak d) (pageBreakTrigger d) (inHeader d) (inFooter d) (zoomMode d)
     (layoutMode d) (title d) (subject d) (author d) (keywords d) (creator d)
     (aliasNbPagesStr d) (pdfVersion d) (capStyle d) (err d).
Definition set_drawColor (v : string) (d : t) : t :=
  mk (page d) (n d) (offsets d) (buffer d) (pages d) (state d) (compress d) (k d)
     (defOrientation d) (curOrientation d) (stdpageSizes d) (defPageSize d)
     (curPageSize d) (pageSizes d) (wPt d) (hPt d) (w d) (h d) (lMargin d) (tMargin d)
     (rMargin d) (bMargin d) (cMargin d) (x d) (y d) (lasth d) (lineWidth d) (fontpath
     d) (coreFonts d) (fonts d) (fontFiles d) (diffs d) (fontFamily d) (fontStyle d)
     (underline d) (currentFont d) (fontSizePt d) (fontSize d) v (fillColor d)
     (textColor d) (colorFlag d) (ws d) (images d) (pageLinks d) (links d)
     (autoPageBreak d) (pageBreakTrigger d) (inHeader d) (inFooter d) (zoomMode d)
     (layoutMode d) (title d) (subject d) (author d) (keywords d) (creator d)
     (aliasNbPagesStr d) (pdfVersion d) (capStyle d) (err d).
Definition set_fillColor (v : string) (d : t) : t :=
  mk (page d) (n d) (offsets d) (buffer d) (pages d) (state d) (compress d) (k d)
     (defOrientation d) (curOrientation d) (stdpageSizes d) (defPageSize d)
     (curPageSize d) (pageSizes d) (wPt d) (hPt d) (w d) (h d) (lMargin d) (tMargin d)
     (rMargin d) (bMargin d) (cMargin d) (x d) (y d) (lasth d) (lineWidth d) (fontpath
     d) (coreFonts d) (fonts d) (fontFiles d) (diffs d) (fontFamily d) (fontStyle d)
     (underline d) (currentFont d) (fontSizePt d) (fontSize d) (drawColor d) v
     (textColor d) (colorFlag d) (ws d) (images d) (pageLinks d) (links d)
     (autoPageBreak d) (pageBreakTrigger d) (inHeader d) (inFooter d) (zoomMode d)
     (layoutMode d) (title d) (subject d) (author d) (keywords d) (creator d)
     (aliasNbPagesStr d) (pdfVersion d) (capStyle d) (err d).
Definition set_textColor (v : string) (d : t) : t :=
  mk (page d) (n d) (offsets d) (buffer d) (pages d) (state d) (compress d) (k d)
     (defOrientation d) (curOrientation d) (stdpageSizes d) (defPageSize d)
     (curPageSize d) (pageSizes d) (wPt d) (hPt d) (w d) (h d) (lMargin d) (tMargin d)
     (rMargin d) (bMargin d) (cMargin d) (x d) (y d) (lasth d) (lineWidth d) (fontpath
     d) (coreFonts d) (fonts d) (fontFiles d) (diffs d) (fontFamily d) (fontStyle d)
     (underline d) (currentFont d) (fontSizePt d) (fontSize d) (drawColor d)
     (fillColor d) v (colorFlag d) (ws d) (images d) (pageLinks d) (links d)
     (autoPageBreak d) (pageBreakTrigger d) (inHeader d) (inFooter d) (zoomMode d)
     (layoutMode d) (title d) (subject d) (author d) (keywords d) (creator d)
     (aliasNbPagesStr d) (pdfVersion d) (capStyle d) (err d).
Definition set_colorFlag (v : bool) (d : t) : t :=
  mk (page d) (n d) (offsets d) (buffer d) (pages d) (state d) (compress d) (k d)
     (defOrientation d) (curOrientation d) (stdpageSizes d) (defPageSize d)
     (curPageSize d) (pageSizes d) (wPt d) (hPt d) (w d) (h d) (lMargin d) (tMargin d)
     (rMargin d) (bMargin d) (cMargin d) (x d) (y d) (lasth d) (lineWidth d) (fontpath
     d) (coreFonts d) (fonts d) (fontFiles d) (diffs d) (fontFamily d) (fontStyle d)
     (underline d) (currentFont d) (fontSizePt d) (fontSize d) (drawColor d)
     (fillColor d) (textColor d) v (ws d) (images d) (pageLinks d) (links d)
     (autoPageBreak d) (pageBreakTrigger d) (inHeader d) (inFooter d) (zoomMode d)
     (layoutMode d) (title d) (subject d) (author d) (keywords d) (creator d)
     (aliasNbPagesStr d) (pdfVersion d) (capStyle d) (err d).
Definition set_ws (v : float) (d : t) : t :=
  mk (page d) (n d) (offsets d) (buffer d) (pages d) (state d) (compress d) (k d)
     (defOrientation d) (curOrientation d) (stdpageSizes d) (defPageSize d)
     (curPageSize d) (pageSizes d) (wPt d) (hPt d) (w d) (h d) (lMargin d) (tMargin d)
     (rMargin d) (bMargin d) (cMargin d) (x d) (y d) (lasth d) (lineWidth d) (fontpath
     d) (coreFonts d) (fonts d) (fontFiles d) (diffs d) (fontFamily d) (fontStyle d)
     (underline d) (currentFont d) (fontSizePt d) (fontSize d) (drawColor d)
     (fillColor d) (textColor d) (colorFlag d) v (images d) (pageLinks d) (links d)
     (autoPageBreak d) (pageBreakTrigger d) (inHeader d) (inFooter d) (zoomMode d)
     (layoutMode d) (title d) (subject d) (author d) (keywords d) (creator d)
     (aliasNbPagesStr d) (pdfVersion d) (capStyle d) (err d).
Definition set_images (v : list (string * imageInfoType.t)) (d : t) : t :=
  mk (page d) (n d) (offsets d) (buffer d) (pages d) (state d) (compress d) (k d)
     (defOrientation d) (curOrientation d) (stdpageSizes d) (defPageSize d)
     (curPageSize d) (pageSizes d) (wPt d) (hPt d) (w d) (h d) (lMargin d) (tMargin d)
     (rMargin d) (bMargin d) (cMargin d) (x d) (y d) (lasth d) (lineWidth d) (fontpath
     d) (coreFonts d) (fonts d) (fontFiles d) (diffs d) (fontFamily d) (fontStyle d)
     (underline d) (currentFont d) (fontSizePt d) (fontSize d) (drawColor d)
     (fillColor d) (textColor d) (colorFlag d) (ws d) v (pageLinks d) (links d)
     (autoPageBreak d) (pageBreakTrigger d) (inHeader d) (inFooter d) (zoomMode d)
     (layoutMode d) (title d) (subject d) (author d) (keywords d) (creator d)
     (aliasNbPagesStr d) (pdfVersion d) (capStyle d) (err d).
Definition set_pageLinks (v : list (list linkType.t)) (d : t) : t :=
  mk (page d) (n d) (offsets d) (buffer d) (pages d) (state d) (compress d) (k d)
     (defOrientation d) (curOrientation d) (stdpageSizes d) (defPageSize d)
     (curPageSize d) (pageSizes d) (wPt d) (hPt d) (w d) (h d) (lMargin d) (tMargin d)
     (rMargin d) (bMargin d) (cMargin d) (x d) (y d) (lasth d) (lineWidth d) (fontpath
     d) (coreFonts d) (fonts d) (fontFiles d) (diffs d) (fontFamily d) (fontStyle d)
     (underline d) (currentFont d) (fontSizePt d) (fontSize d) (drawColor d)
     (fillColor d) (textColor d) (colorFlag d) (ws d) (images d) v (links d)
     (autoPageBreak d) (pageBreakTrigger d) (inHeader d) (inFooter d) (zoomMode d)
     (layoutMode d) (title d) (subject d) (author d) (keywords d) (creator d)
     (aliasNbPagesStr d) (pdfVersion d) (capStyle d) (err d).
Definition set_links (v : list intLinkType.t) (d : t) : t :=
  mk (page d) (n d) (offsets d) (buffer d) (pages d) (state d) (compress d) (k d)
     (defOrientation d) (curOrientation d) (stdpageSizes d) (defPageSize d)
     (curPageSize d) (pageSizes d) (wPt d) (hPt d) (w d) (h d) (lMargin d) (tMargin d)
     (rMargin d) (bMargin d) (cMargin d) (x d) (y d) (lasth d) (lineWidth d) (fontpath
     d) (coreFonts d) (fonts d) (fontFiles d) (diffs d) (fontFamily d) (fontStyle d)
     (underline d) (currentFont d) (fontSizePt d) (fontSize d) (drawColor d)
     (fillColor d) (textColor d) (colorFlag d) (ws d) (images d) (pageLinks d) v
     (autoPageBreak d) (pageBreakTrigger d) (inHeader d) (inFooter d) (zoomMode d)
     (layoutMode d) (title d) (subject d) (author d) (keywords d) (creator d)
     (aliasNbPagesStr d) (pdfVersion d) (capStyle d) (err d).
Definition set_autoPageBreak (v : bool) (d : t) : t :=
  mk (page d) (n d) (offsets d) (buffer d) (pages d) (state d) (compress d) (k d)
     (defOrientation d) (curOrientation d) (stdpageSizes d) (defPageSize d)
     (curPageSize d) (pageSizes d) (wPt d) (hPt d) (w d) (h d) (lMargin d) (tMargin d)
     (rMargin d) (bMargin d) (cMargin d) (x d) (y d) (lasth d) (lineWidth d) (fontpath
     d) (coreFonts d) (fonts d) (fontFiles d) (diffs d) (fontFamily d) (fontStyle d)
     (underline d) (currentFont d) (fontSizePt d) (fontSize d) (drawColor d)
     (fillColor d) (textColor d) (colorFlag d) (ws d) (images d) (pageLinks d) (links
     d) v (pageBreakTrigger d) (inHeader d) (inFooter d) (zoomMode d) (layoutMode d)
     (title d) (subject d) (author d) (keywords d) (creator d) (aliasNbPagesStr d)
     (pdfVersion d) (capStyle d) (err d).
Definition set_pageBreakTrigger (v : float) (d : t) : t :=
  mk (page d) (n d) (offsets d) (buffer d) (pages d) (state d) (compress d) (k d)
     (defOrientation d) (curOrientation d) (stdpageSizes d) (defPageSize d)
     (curPageSize d) (pageSizes d) (wPt d) (hPt d) (w d) (h d) (lMargin d) (tMargin d)
     (rMargin d) (bMargin d) (cMargin d) (x d) (y d) (lasth d) (lineWidth d) (fontpath
     d) (coreFonts d) (fonts d) (fontFiles d) (diffs d) (fontFamily d) (fontStyle d)
     (underline d) (currentFont d) (fontSizePt d) (fontSize d) (drawColor d)
     (fillColor d) (textColor d) (colorFlag d) (ws d) (images d) (pageLinks d) (links
     d) (autoPageBreak d) v (inHeader d) (inFooter d) (zoomMode d) (layoutMode d)
     (title d) (subject d) (author d) (keywords d) (creator d) (aliasNbPagesStr d)
     (pdfVersion d) (capStyle d) (err d).
Definition set_inHeader (v : bool) (d : t) : t :=
  mk (page d) (n d) (offsets d) (buffer d) (pages d) (state d) (compress d) (k d)
     (defOrientation d) (curOrientation d) (stdpageSizes d) (defPageSize d)
     (curPageSize d) (pageSizes d) (wPt d) (hPt d) (w d) (h d) (lMargin d) (tMargin d)
     (rMargin d) (bMargin d) (cMargin d) (x d) (y d) (lasth d) (lineWidth d) (fontpath
     d) (coreFonts d) (fonts d) (fontFiles d) (diffs d) (fontFamily d) (fontStyle d)
     (underline d) (currentFont d) (fontSizePt d) (fontSize d) (drawColor d)
     (fillColor d) (textColor d) (colorFlag d) (ws d) (images d) (pageLinks d) (links
     d) (autoPageBreak d) (pageBreakTrigger d) v (inFooter d) (zoomMode d) (layoutMode
     d) (title d) (subject d) (author d) (keywords d) (creator d) (aliasNbPagesStr d)
     (pdfVersion d) (capStyle d) (err d).
Definition set_inFooter (v : bool) (d : t) : t :=
  mk (page d) (n d) (offsets d) (buffer d) (pages d) (state d) (compress d) (k d)
     (defOrientation d) (curOrientation d) (stdpageSizes d) (defPageSize d)
     (curPageSize d) (pageSizes d) (wPt d) (hPt d) (w d) (h d) (lMargin d) (tMargin d)
     (rMargin d) (bMargin d) (cMargin d) (x d) (y d) (lasth d) (lineWidth d) (fontpath
     d) (coreFonts d) (fonts d) (fontFiles d) (diffs d) (fontFamily d) (fontStyle d)
     (underline d) (currentFont d) (fontSizePt d) (fontSize d) (drawColor d)
     (fillColor d) (textColor d) (colorFlag d) (ws d) (images d) (pageLinks d) (links
     d) (autoPageBreak d) (pageBreakTrigger d) (inHeader d) v (zoomMode d) (layoutMode
     d) (title d) (subject d) (author d) (keywords d) (creator d) (aliasNbPagesStr d)
     (pdfVersion d) (capStyle d) (err d).
Definition set_zoomMode (v : string) (d : t) : t :=
  mk (page d) (n d) (offsets d) (buffer d) (pages d) (state d) (compress d) (k d)
     (defOrientation d) (curOrientation d) (stdpageSizes d) (defPageSize d)
     (curPageSize d) (pageSizes d) (wPt d) (hPt d) (w d) (h d) (lMargin d) (tMargin d)
     (rMargin d) (bMargin d) (cMargin d) (x d) (y d) (lasth d) (lineWidth d) (fontpath
     d) (coreFonts d) (fonts d) (fontFiles d) (diffs d) (fontFamily d) (fontStyle d)
     (underline d) (currentFont d) (fontSizePt d) (fontSize d) (drawColor d)
     (fillColor d) (textColor d) (colorFlag d) (ws d) (images d) (pageLinks d) (links
     d) (autoPageBreak d) (pageBreakTrigger d) (inHeader d) (inFooter d) v (layoutMode
     d) (title d) (subject d) (author d) (keywords d) (creator d) (aliasNbPagesStr d)
     (pdfVersion d) (capStyle d) (err d).
Definition set_layoutMode (v : string) (d : t) : t :=
  mk (page d) (n d) (offsets d) (buffer d) (pages d) (state d) (compress d) (k d)
     (defOrientation d) (curOrientation d) (stdpageSizes d) (defPageSize d)
     (curPageSize d) (pageSizes d) (wPt d) (hPt d) (w d) (h d) (lMargin d) (tMargin d)
     (rMargin d) (bMargin d) (cMargin d) (x d) (y d) (lasth d) (lineWidth d) (fontpath
     d) (coreFonts d) (fonts d) (fontFiles d) (diffs d) (fontFamily d) (fontStyle d)
     (underline d) (currentFont d) (fontSizePt d) (fontSize d) (drawColor d)
     (fillColor d) (textColor d) (colorFlag d) (ws d) (images d) (pageLinks d) (links
     d) (autoPageBreak d) (pageBreakTrigger d) (inHeader d) (inFooter d) (zoomMode d)
     v (title d) (subject d) (author d) (keywords d) (creator d) (aliasNbPagesStr d)
     (pdfVersion d) (capStyle d) (err d).
Definition set_title (v : string) (d : t) : t :=
  mk (page d) (n d) (offsets d) (buffer d) (pages d) (state d) (compress d) (k d)
     (defOrientation d) (curOrientation d) (stdpageSizes d) (defPageSize d)
     (curPageSize d) (pageSizes d) (wPt d) (hPt d) (w d) (h d) (lMargin d) (tMargin d)
     (rMargin d) (bMargin d) (cMargin d) (x d) (y d) (lasth d) (lineWidth d) (fontpath
     d) (coreFonts d) (fonts d) (fontFiles d) (diffs d) (fontFamily d) (fontStyle d)
     (underline d) (currentFont d) (fontSizePt d) (fontSize d) (drawColor d)
     (fillColor d) (textColor d) (colorFlag d) (ws d) (images d) (pageLinks d) (links
     d) (autoPageBreak d) (pageBreakTrigger d) (inHeader d) (inFooter d) (zoomMode d)
     (layoutMode d) v (subject d) (author d) (keywords d) (creator d) (aliasNbPagesStr
     d) (pdfVersion d) (capStyle d) (err d).
Definition set_subject (v : string) (d : t) : t :=
  mk (page d) (n d) (offsets d) (buffer d) (pages d) (state d) (compress d) (k d)
     (defOrientation d) (curOrientation d) (stdpageSizes d) (defPageSize d)
     (curPageSize d) (pageSizes d) (wPt d) (hPt d) (w d) (h d) (lMargin d) (tMargin d)
     (rMargin d) (bMargin d) (cMargin d) (x d) (y d) (lasth d) (lineWidth d) (fontpath
     d) (coreFonts d) (fonts d) (fontFiles d) (diffs d) (fontFamily d) (fontStyle d)
     (underline d) (currentFont d) (fontSizePt d) (fontSize d) (drawColor d)
     (fillColor d) (textColor d) (colorFlag d) (ws d) (images d) (pageLinks d) (links
     d) (autoPageBreak d) (pageBreakTrigger d) (inHeader d) (inFooter d) (zoomMode d)
     (layoutMode d) (title d) v (author d) (keywords d) (creator d) (aliasNbPagesStr
     d) (pdfVersion d) (capStyle d) (err d).
Definition set_author (v : string) (d : t) : t :=
  mk (page d) (n d) (offsets d) (buffer d) (pages d) (state d) (compress d) (k d)
     (defOrientation d) (curOrientation d) (stdpageSizes d) (defPageSize d)
     (curPageSize d) (pageSizes d) (wPt d) (hPt d) (w d) (h d) (lMargin d) (tMargin d)
     (rMargin d) (bMargin d) (cMargin d) (x d) (y d) (lasth d) (lineWidth d) (fontpath
     d) (coreFonts d) (fonts d) (fontFiles d) (diffs d) (fontFamily d) (fontStyle d)
     (underline d) (currentFont d) (fontSizePt d) (fontSize d) (drawColor d)
     (fillColor d) (textColor d) (colorFlag d) (ws d) (images d) (pageLinks d) (links
     d) (autoPageBreak d) (pageBreakTrigger d) (inHeader d) (inFooter d) (zoomMode d)
     (layoutMode d) (title d) (subject d) v (keywords d) (creator d) (aliasNbPagesStr
     d) (pdfVersion d) (capStyle d) (err d).
Definition set_keywords (v : string) (d : t) : t :=
  mk (page d) (n d) (offsets d) (buffer d) (pages d) (state d) (compress d) (k d)
     (defOrientation d) (curOrientation d) (stdpageSizes d) (defPageSize d)
     (curPageSize d) (pageSizes d) (wPt d) (hPt d) (w d) (h d) (lMargin d) (tMargin d)
     (rMargin d) (bMargin d) (cMargin d) (x d) (y d) (lasth d) (lineWidth d) (fontpath
     d) (coreFonts d) (fonts d) (fontFiles d) (diffs d) (fontFamily d) (fontStyle d)
     (underline d) (currentFont d) (fontSizePt d) (fontSize d) (drawColor d)
     (fillColor d) (textColor d) (colorFlag d) (ws d) (images d) (pageLinks d) (links
     d) (autoPageBreak d) (pageBreakTrigger d) (inHeader d) (inFooter d) (zoomMode d)
     (layoutMode d) (title d) (subject d) (author d) v (creator d) (aliasNbPagesStr d)
     (pdfVersion d) (capStyle d) (err d).
Definition set_creator (v : string) (d : t) : t :=
  mk (page d) (n d) (offsets d) (buffer d) (pages d) (state d) (compress d) (k d)
     (defOrientation d) (curOrientation d) (stdpageSizes d) (defPageSize d)
     (curPageSize d) (pageSizes d) (wPt d) (hPt d) (w d) (h d) (lMargin d) (tMargin d)
     (rMargin d) (bMargin d) (cMargin d) (x d) (y d) (lasth d) (lineWidth d) (fontpath
     d) (coreFonts d) (fonts d) (fontFiles d) (diffs d) (fontFamily d) (fontStyle d)
     (underline d) (currentFont d) (fontSizePt d) (fontSize d) (drawColor d)
     (fillColor d) (textColor d) (colorFlag d) (ws d) (images d) (pageLinks d) (links
     d) (autoPageBreak d) (pageBreakTrigger d) (inHeader d) (inFooter d) (zoomMode d)
     (layoutMode d) (title d) (subject d) (author d) (keywords d) v (aliasNbPagesStr
     d) (pdfVersion d) (capStyle d) (err d).
Definition set_aliasNbPagesStr (v : string) (d : t) : t :=
  mk (page d) (n d) (offsets d) (buffer d) (pages d) (state d) (compress d) (k d)
     (defOrientation d) (curOrientation d) (stdpageSizes d) (defPageSize d)
     (curPageSize d) (pageSizes d) (wPt d) (hPt d) (w d) (h d) (lMargin d) (tMargin d)
     (rMargin d) (bMargin d) (cMargin d) (x d) (y d) (lasth d) (lineWidth d) (fontpath
     d) (coreFonts d) (fonts d) (fontFiles d) (diffs d) (fontFamily d) (fontStyle d)
     (underline d) (currentFont d) (fontSizePt d) (fontSize d) (drawColor d)
     (fillColor d) (textColor d) (colorFlag d) (ws d) (images d) (pageLinks d) (links
     d) (autoPageBreak d) (pageBreakTrigger d) (inHeader d) (inFooter d) (zoomMode d)
     (layoutMode d) (title d) (subject d) (author d) (keywords d) (creator d) v
     (pdfVersion d) (capStyle d) (err d).
Definition set_pdfVersion (v : string) (d : t) : t :=
  mk (page d) (n d) (offsets d) (buffer d) (pages d) (state d) (compress d) (k d)
     (defOrientation d) (curOrientation d) (stdpageSizes d) (defPageSize d)
     (curPageSize d) (pageSizes d) (wPt d) (hPt d) (w d) (h d) (lMargin d) (tMargin d)
     (rMargin d) (bMargin d) (cMargin d) (x d) (y d) (lasth d) (lineWidth d) (fontpath
     d) (coreFonts d) (fonts d) (fontFiles d) (diffs d) (fontFamily d) (fontStyle d)
     (underline d) (currentFont d) (fontSizePt d) (fontSize d) (drawColor d)
     (fillColor d) (textColor d) (colorFlag d) (ws d) (images d) (pageLinks d) (links
     d) (autoPageBreak d) (pageBreakTrigger d) (inHeader d) (inFooter d) (zoomMode d)
     (layoutMode d) (title d) (subject d) (author d) (keywords d) (creator d)
     (aliasNbPagesStr d) v (capStyle d) (err d).
Definition set_capStyle (v : Z) (d : t) : t :=
  mk (page d) (n d) (offsets d) (buffer d) (pages d) (state d) (compress d) (k d)
     (defOrientation d) (curOrientation d) (stdpageSizes d) (defPageSize d)
     (curPageSize d) (pageSizes d) (wPt d) (hPt d) (w d) (h d) (lMargin d) (tMargin d)
     (rMargin d) (bMargin d) (cMargin d) (x d) (y d) (lasth d) (lineWidth d) (fontpath
     d) (coreFonts d) (fonts d) (fontFiles d) (diffs d) (fontFamily d) (fontStyle d)
     (underline d) (currentFont d) (fontSizePt d) (fontSize d) (drawColor d)
     (fillColor d) (textColor d) (colorFlag d) (ws d) (images d) (pageLinks d) (links
     d) (autoPageBreak d) (pageBreakTrigger d) (inHeader d) (inFooter d) (zoomMode d)
     (layoutMode d) (title d) (subject d) (author d) (keywords d) (creator d)
     (aliasNbPagesStr d) (pdfVersion d) v (err d).
Definition set_err (v : option string) (d : t) : t :=
  mk (page d) (n d) (offsets d) (buffer d) (pages d) (state d) (compress d) (k d)
     (defOrientation d) (curOrientation d) (stdpageSizes d) (defPageSize d)
     (curPageSize d) (pageSizes d) (wPt d) (hPt d) (w d) (h d) (lMargin d) (tMargin d)
     (rMargin d) (bMargin d) (cMargin d) (x d) (y d) (lasth d) (lineWidth d) (fontpath
     d) (coreFonts d) (fonts d) (fontFiles d) (diffs d) (fontFamily d) (fontStyle d)
     (underline d) (currentFont d) (fontSizePt d) (fontSize d) (drawColor d)
     (fillColor d) (textColor d) (colorFlag d) (ws d) (images d) (pageLinks d) (links
     d) (autoPageBreak d) (pageBreakTrigger d) (inHeader d) (inFooter d) (zoomMode d)
     (layoutMode d) (title d) (subject d) (author d) (keywords d) (creator d)
     (aliasNbPagesStr d) (pdfVersion d) (capStyle d) v.
End Fpdf.

(** ** The environment

    What the package takes from the Go library, the file system and the
    sources of the repository that define no behaviour of their own here:
    case mapping, path joining, file contents, JSON decoding, zlib, the
    clock, the image decoders and the order in which [range] walks a map. *)

(** The outcome of a library call that returns an [error]. *)
Inductive io (A : Type) : Type :=
| Got (a : A)
| Failed (e : string).

Arguments Got {A} a.
Arguments Failed {A} e.

Record Env : Type := mkEnv {
  toUpper : string -> string;
  toLower : string -> string;
  pathJoin : string -> string -> string;
  readFile : string -> io string;
  (** [json.Unmarshal] into a [fontDefType]: the value decoded so far and
      the error, if any. *)
  unmarshalFont : string -> fontDefType.t * option string;
  sliceCompress : string -> string;
  sliceUncompress : string -> io string;
  (** [time.Now().Format("20060102150405")]. *)
  now : string;
  FPDF_VERSION : string;
  rangeOrder : forall A : Type, list (string * A) -> list (string * A);
  (** [parsejpg], [parsepng] and [parsegif] read and decode an image file. *)
  parsejpg : string -> Fpdf.t -> result (imageInfoType.t * Fpdf.t);
  parsepng : string -> Fpdf.t -> result (imageInfoType.t * Fpdf.t);
  parsegif : string -> Fpdf.t -> result (imageInfoType.t * Fpdf.t) }.

(** The callbacks stored in the document: [headerFnc] and [footerFnc] are nil
    until set, [acceptPageBreak] is set by [New]. *)
Record Hooks : Type := mkHooks {
  headerFnc : option (Fpdf.t -> result Fpdf.t);
  footerFnc : option (Fpdf.t -> result Fpdf.t);
  acceptPageBreak : Fpdf.t -> result (bool * Fpdf.t) }.

(** ** Slices and maps *)

Definition llen {A : Type} (l : list A) : Z := Z.of_nat (List.length l).

(** [l[i]]. *)
Definition idx {A : Type} (l : list A) (i : Z) : result A :=
  if (i <? 0) || (llen l <=? i) then Panic "index out of range"
  else match nth_error l (Z.to_nat i) with
       | Some a => Ok a
       | None => Panic "index out of range"
       end.

Fixpoint replace_nth {A : Type} (l : list A) (i : nat) (v : A) : list A :=
  match l, i with
  | [], _ => []
  | _ :: l', O => v :: l'
  | a :: l', S i' => a :: replace_nth l' i' v
  end.

(** [l[i] = v]. *)
Definition upd {A : Type} (l : list A) (i : Z) (v : A) : result (list A) :=
  if (i <? 0) || (llen l <=? i) then Panic "index out of range"
  else Ok (replace_nth l (Z.to_nat i) v).

Section Maps.
Variables K A : Type.
Variable eqk : K -> K -> bool.

(** [v, ok := m[key]]. *)
Fixpoint mget (m : list (K * A)) (key : K) : option A :=
  match m with
  | [] => None
  | (k', v) :: m' => if eqk key k' then Some v else mget m' key
  end.

(** [m[key] = v]. *)
Fixpoint mput (m : list (K * A)) (key : K) (v : A) : list (K * A) :=
  match m with
  | [] => [(key, v)]
  | (k', v') :: m' => if eqk key k' then (k', v) :: m' else (k', v') :: mput m' key v
  end.
End Maps.

Definition sget {A : Type} := @mget string A String.eqb.
Definition sput {A : Type} := @mput string A String.eqb.
Definition zget {A : Type} := @mget Z A Z.eqb.
Definition zput {A : Type} := @mput Z A Z.eqb.

Definition isNil (e : option string) : bool :=
  match e with None => true | Some _ => false end.

Definition nonNil (e : option string) : bool := negb (isNil e).

(** ** Output of lines *)

(** Add a line to the document: to the current page while a page is open
    (state 2), to the main buffer otherwise. *)
Definition out (s : string) (f : Fpdf.t) : result Fpdf.t :=
  if Fpdf.state f =? 2 then
    pg <- idx (Fpdf.pages f) (Fpdf.page f) ;;
    ps <- upd (Fpdf.pages f) (Fpdf.page f) (pg ++ s ++ nl) ;;
    Ok (Fpdf.set_pages ps f)
  else Ok (Fpdf.set_buffer (Fpdf.buffer f ++ s ++ nl) f).

(** Begin a new object. *)
Definition newobj (f : Fpdf.t) : result Fpdf.t :=
  let f := Fpdf.set_n (Fpdf.n f + 1) f in
  let f := Fpdf.set_offsets
             (Fpdf.offsets f ++
              repeat 0 (Z.to_nat (Fpdf.n f + 1 - llen (Fpdf.offsets f))))%list f in
  offs <- upd (Fpdf.offsets f) (Fpdf.n f) (len (Fpdf.buffer f)) ;;
  let f := Fpdf.set_offsets offs f in
  out (dec (Fpdf.n f) ++ " 0 obj") f.

Definition putstream (b : string) (f : Fpdf.t) : result Fpdf.t :=
  f <- out "stream" f ;;
  f <- out b f ;;
  out "endstream" f.

(** ** Configuration *)

Definition SetMargins (left top right : float) (f : Fpdf.t) : Fpdf.t :=
  let f := Fpdf.set_lMargin left f in
  let f := Fpdf.set_tMargin top f in
  let right := if flt right 0 then left else right in
  Fpdf.set_rMargin right f.

Definition SetLeftMargin (margin : float) (f : Fpdf.t) : Fpdf.t :=
  let f := Fpdf.set_lMargin margin f in
  if (0 <? Fpdf.page f) && flt (Fpdf.x f) margin then Fpdf.set_x margin f else f.

Definition SetTopMargin (margin : float) (f : Fpdf.t) : Fpdf.t :=
  Fpdf.set_tMargin margin f.

Definition SetRightMargin (margin : float) (f : Fpdf.t) : Fpdf.t :=
  Fpdf.set_rMargin margin f.

Definition SetAutoPageBreak (auto : bool) (margin : float) (f : Fpdf.t) : Fpdf.t :=
  let f := Fpdf.set_autoPageBreak auto f in
  let f := Fpdf.set_bMargin margin f in
  Fpdf.set_pageBreakTrigger (Fpdf.h f - margin)%float f.

Definition isZoomMode (s : string) : bool :=
  (s =? "fullpage")%string || (s =? "fullwidth")%string ||
  (s =? "real")%string || (s =? "default")%string.

Definition isLayoutMode (s : string) : bool :=
  (s =? "single")%string || (s =? "continuous")%string ||
  (s =? "two")%string || (s =? "default")%string.

Definition SetDisplayMode (zoomStr layoutStr : string) (f : Fpdf.t) : Fpdf.t :=
  if nonNil (Fpdf.err f) then f
  else
    let layoutStr := if (layoutStr =? "")%string then "default" else layoutStr in
    if isZoomMode zoomStr then
      let f := Fpdf.set_zoomMode zoomStr f in
      if isLayoutMode layoutStr then Fpdf.set_layoutMode layoutStr f
      else Fpdf.set_err (Some ("Incorrect layout display mode: " ++ layoutStr)) f
    else Fpdf.set_err (Some ("Incorrect zoom display mode: " ++ zoomStr)) f.

Definition SetCompression (compress : bool) (f : Fpdf.t) : Fpdf.t :=
  Fpdf.set_compress compress f.

Definition getpagesizestr (env : Env) (sizeStr : string) (f : Fpdf.t)
  : sizeType.t * Fpdf.t :=
  if nonNil (Fpdf.err f) then (sizeType.zero, f)
  else
    let sizeStr := toLower env sizeStr in
    if (sizeStr =? "")%string then (Fpdf.defPageSize f, f)
    else match sget (Fpdf.stdpageSizes f) sizeStr with
         | Some size =>
             (sizeType.mk (sizeType.wd size / Fpdf.k f) (sizeType.ht size / Fpdf.k f), f)
         | None =>
             (sizeType.zero, Fpdf.set_err (Some ("Unknown page size " ++ sizeStr)) f)
         end.

(** The scale factor of a unit; the quotients are Go constants, evaluated
    exactly and then rounded once. *)
Definition unitScale (unitStr : string) : option float :=
  if (unitStr =? "pt")%string || (unitStr =? "point")%string then Some 1%float
  else if (unitStr =? "mm")%string then Some 0x1.6ad5ab56ad5abp+1%float
  else if (unitStr =? "cm")%string then Some 0x1.c58b162c58b16p+4%float
  else if (unitStr =? "in")%string || (unitStr =? "inch")%string then Some 72%float
  else None.

Definition stdSizes : list (string * sizeType.t) :=
  [ ("a3", sizeType.mk 0x1.a4f1eb851eb85p+9 0x1.29a3333333333p+10);
    ("a4", sizeType.mk 0x1.29a3d70a3d70ap+9 0x1.a4f1eb851eb85p+9);
    ("a5", sizeType.mk 0x1.a4f0a3d70a3d7p+8 0x1.29a3d70a3d70ap+9);
    ("letter", sizeType.mk 612 792);
    ("legal", sizeType.mk 612 1008) ].

Definition New (env : Env) (orientationStr unitStr sizeStr fontDirStr : string)
  : Fpdf.t :=
  let f := Fpdf.zero in
  let orientationStr := if (orientationStr =? "")%string then "P" else orientationStr in
  let unitStr := if (unitStr =? "")%string then "mm" else unitStr in
  let sizeStr := if (sizeStr =? "")%string then "A4" else sizeStr in
  let fontDirStr := if (fontDirStr =? "")%string then "." else fontDirStr in
  let f := Fpdf.set_page 0 f in
  let f := Fpdf.set_n 2 f in
  let f := Fpdf.set_pages [""] f in
  let f := Fpdf.set_pageSizes [] f in
  let f := Fpdf.set_state 0 f in
  let f := Fpdf.set_fonts [] f in
  let f := Fpdf.set_fontFiles [] f in
  let f := Fpdf.set_diffs [] f in
  let f := Fpdf.set_images [] f in
  let f := Fpdf.set_pageLinks [[]] f in
  let f := Fpdf.set_links [intLinkType.zero] f in
  let f := Fpdf.set_inHeader false f in
  let f := Fpdf.set_inFooter false f in
  let f := Fpdf.set_lasth 0 f in
  let f := Fpdf.set_fontFamily "" f in
  let f := Fpdf.set_fontStyle "" f in
  let f := Fpdf.set_fontSizePt 12 f in
  let f := Fpdf.set_underline false f in
  let f := Fpdf.set_drawColor "0 G" f in
  let f := Fpdf.set_fillColor "0 g" f in
  let f := Fpdf.set_textColor "0 g" f in
  let f := Fpdf.set_colorFlag false f in
  let f := Fpdf.set_ws 0 f in
  let f := Fpdf.set_fontpath fontDirStr f in
  let f := Fpdf.set_coreFonts
             [("courier", true); ("helvetica", true); ("times", true);
              ("symbol", true); ("zapfdingbats", true)] f in
  match unitScale unitStr with
  | None => Fpdf.set_err (Some ("Incorrect unit " ++ unitStr)) f
  | Some scale =>
      let f := Fpdf.set_k scale f in
      let f := Fpdf.set_stdpageSizes stdSizes f in
      let '(size, f) := getpagesizestr env sizeStr f in
      let f := Fpdf.set_defPageSize size f in
      if nonNil (Fpdf.err f) then f
      else
        let f := Fpdf.set_curPageSize (Fpdf.defPageSize f) f in
        let orientationStr := toLower env orientationStr in
        let oriented :=
          if (orientationStr =? "p")%string || (orientationStr =? "portrait")%string then
            let f := Fpdf.set_defOrientation "P" f in
            let f := Fpdf.set_w (sizeType.wd (Fpdf.defPageSize f)) f in
            Some (Fpdf.set_h (sizeType.ht (Fpdf.defPageSize f)) f)
          else if (orientationStr =? "l")%string || (orientationStr =? "landscape")%string then
            let f := Fpdf.set_defOrientation "L" f in
            let f := Fpdf.set_w (sizeType.ht (Fpdf.defPageSize f)) f in
            Some (Fpdf.set_h (sizeType.wd (Fpdf.defPageSize f)) f)
          else None in
        match oriented with
        | None => Fpdf.set_err (Some ("Incorrect orientation: " ++ orientationStr)) f
        | Some f =>
            let f := Fpdf.set_curOrientation (Fpdf.defOrientation f) f in
            let f := Fpdf.set_wPt (Fpdf.w f * Fpdf.k f)%float f in
            let f := Fpdf.set_hPt (Fpdf.h f * Fpdf.k f)%float f in
            let margin := (0x1.c59999999999ap+4 / Fpdf.k f)%float in
            let f := SetMargins margin margin margin f in
            let f := Fpdf.set_cMargin (margin / 10)%float f in
            let f := Fpdf.set_lineWidth (0x1.224dd2f1a9fbep-1 / Fpdf.k f)%float f in
            let f := SetAutoPageBreak true (2 * margin)%float f in
            let f := SetDisplayMode "default" "default" f in
            if nonNil (Fpdf.err f) then f
            else
              let f := SetCompression true f in
              Fpdf.set_pdfVersion "1.3" f
        end
  end.

(** The callbacks of a document fresh from [New]. *)
Definition defaultHooks : Hooks :=
  mkHooks None None (fun f => Ok (Fpdf.autoPageBreak f, f)).

(** ** Colours and line style *)

Module clrType.
Record t : Type := mk { r : float; g : float; b : float }.
End clrType.

Definition colorValue (r g b : Z) : clrType.t :=
  clrType.mk (float64_of_Z r / 255) (float64_of_Z g / 255) (float64_of_Z b / 255).

Definition colorString (r g b : Z) (grayStr fullStr : string) : string :=
  let clr := colorValue r g b in
  if (r =? g) && (r =? b) then f3 (clrType.r clr) ++ " " ++ grayStr
  else f3 (clrType.r clr) ++ " " ++ f3 (clrType.g clr) ++ " " ++
       f3 (clrType.b clr) ++ " " ++ fullStr.

Definition SetDrawColor (r g b : Z) (f : Fpdf.t) : result Fpdf.t :=
  let f := Fpdf.set_drawColor (colorString r g b "G" "RG") f in
  if 0 <? Fpdf.page f then out (Fpdf.drawColor f) f else Ok f.

Definition SetFillColor (r g b : Z) (f : Fpdf.t) : result Fpdf.t :=
  let f := Fpdf.set_fillColor (colorString r g b "g" "rg") f in
  let f := Fpdf.set_colorFlag (negb (Fpdf.fillColor f =? Fpdf.textColor f)%string) f in
  if 0 <? Fpdf.page f then out (Fpdf.fillColor f) f else Ok f.

Definition SetTextColor (r g b : Z) (f : Fpdf.t) : Fpdf.t :=
  let f := Fpdf.set_textColor (colorString r g b "g" "rg") f in
  Fpdf.set_colorFlag (negb (Fpdf.fillColor f =? Fpdf.textColor f)%string) f.

Definition SetLineWidth (width : float) (f : Fpdf.t) : result Fpdf.t :=
  let f := Fpdf.set_lineWidth width f in
  if 0 <? Fpdf.page f then out (f2 (width * Fpdf.k f)%float ++ " w") f else Ok f.

(** ** String width *)

Definition code (c : ascii) : Z := Z.of_nat (nat_of_ascii c).

Definition inRange (lo hi v : Z) : bool := (lo <=? v) && (v <=? hi).

Definition isCont (v : Z) : bool := inRange 128 191 v.

Definition RuneError : Z := 65533.

(** [utf8.DecodeRuneInString]: the rune at the head of a non-empty string and
    the number of bytes it takes; a byte that starts no valid encoding is
    [RuneError] of width 1. *)
Definition decodeRune (b0 : Z) (rest : string) : Z * nat :=
  let b n := match String.get n rest with Some c => code c | None => -1 end in
  if b0 <? 128 then (b0, 1%nat)
  else if inRange 194 223 b0 then
    if isCont (b 0%nat)
    then (Z.lor (Z.shiftl (Z.land b0 31) 6) (Z.land (b 0%nat) 63), 2%nat)
    else (RuneError, 1%nat)
  else if inRange 224 239 b0 then
    let lo := if b0 =? 224 then 160 else 128 in
    let hi := if b0 =? 237 then 159 else 191 in
    if inRange lo hi (b 0%nat) && isCont (b 1%nat)
    then (Z.lor (Z.shiftl (Z.land b0 15) 12)
            (Z.lor (Z.shiftl (Z.land (b 0%nat) 63) 6) (Z.land (b 1%nat) 63)), 3%nat)
    else (RuneError, 1%nat)
  else if inRange 240 244 b0 then
    let lo := if b0 =? 240 then 144 else 128 in
    let hi := if b0 =? 244 then 143 else 191 in
    if inRange lo hi (b 0%nat) && isCont (b 1%nat) && isCont (b 2%nat)
    then (Z.lor (Z.shiftl (Z.land b0 7) 18)
            (Z.lor (Z.shiftl (Z.land (b 0%nat) 63) 12)
               (Z.lor (Z.shiftl (Z.land (b 1%nat) 63) 6) (Z.land (b 2%nat) 63))), 4%nat)
    else (RuneError, 1%nat)
  else (RuneError, 1%nat).

(** The runes a [for _, ch := range s] loop visits. *)
Fixpoint runes_from (skip : nat) (s : string) : list Z :=
  match s with
  | EmptyString => []
  | String c s' =>
      match skip with
      | S k => runes_from k s'
      | O => let '(r, size) := decodeRune (code c) s' in r :: runes_from (size - 1) s'
      end
  end.

Definition runes (s : string) : list Z := runes_from 0 s.

(** [cw[c]] on the 256-entry width array. *)
Definition cwAt (cw : list Z) (c : Z) : result Z :=
  if (c <? 0) || (256 <=? c) then Panic "index out of range"
  else Ok (nth (Z.to_nat c) cw 0).

Fixpoint sumWidths (cw : list Z) (rs : list Z) (w : Z) : result Z :=
  match rs with
  | [] => Ok w
  | ch :: rs' => cwc <- cwAt cw ch ;; sumWidths cw rs' (int_add w cwc)
  end.

(** The length of a string in user units. *)
Definition GetStringWidth (s : string) (f : Fpdf.t) : result float :=
  w <- sumWidths (fontDefType.Cw (Fpdf.currentFont f)) (runes s) 0 ;;
  Ok (float64_of_Z w * Fpdf.fontSize f / 1000)%float.

(** ** Fonts *)

(** Load a font definition file from the font directory. *)
Definition loadfont (env : Env) (fontStr : string) (f : Fpdf.t)
  : fontDefType.t * Fpdf.t :=
  if nonNil (Fpdf.err f) then (fontDefType.zero, f)
  else match readFile env fontStr with
       | Failed e => (fontDefType.zero, Fpdf.set_err (Some e) f)
       | Got buf =>
           match unmarshalFont env buf with
           | (def, Some e) => (def, Fpdf.set_err (Some e) f)
           | (def, None) => (def, f)
           end
       end.

(** The index of the first element equal to [s], or -1: the search loop of
    [AddFont]. *)
Fixpoint searchDiff (diffs : list string) (s : string) (j : Z) : Z :=
  match diffs with
  | [] => -1
  | str :: rest => if (str =? s)%string then j else searchDiff rest s (j + 1)
  end.

Definition AddFont (env : Env) (familyStr styleStr fileStr : string) (f : Fpdf.t)
  : result Fpdf.t :=
  if nonNil (Fpdf.err f) then Ok f
  else
    let familyStr := toLower env familyStr in
    let fileStr :=
      if (fileStr =? "")%string
      then replaceAll familyStr " " "" ++ toLower env styleStr ++ ".json"
      else fileStr in
    let fileStr := pathJoin env (Fpdf.fontpath f) fileStr in
    let styleStr := toUpper env styleStr in
    let styleStr := if (styleStr =? "IB")%string then "BI" else styleStr in
    let fontkey := familyStr ++ styleStr in
    match sget (Fpdf.fonts f) fontkey with
    | Some _ => Ok f
    | None =>
        let '(info, f) := loadfont env fileStr f in
        if nonNil (Fpdf.err f) then Ok f
        else
          let info := fontDefType.set_I (llen (Fpdf.fonts f) + 1) info in
          '(info, f) <-
            (if 0 <? len (fontDefType.Diff info) then
               (* Search existing encodings *)
               let n := searchDiff (Fpdf.diffs f) (fontDefType.Diff info) 0 in
               '(n, f) <-
                 (if n <? 0 then
                    let n := llen (Fpdf.diffs f) + 1 in
                    ds <- upd (Fpdf.diffs f) n (fontDefType.Diff info) ;;
                    Ok (n, Fpdf.set_diffs ds f)
                  else Ok (n, f)) ;;
               Ok (fontDefType.set_DiffN n info, f)
             else Ok (info, f)) ;;
          let f :=
            if 0 <? len (fontDefType.File info) then
              (* Embedded font *)
              if (fontDefType.Tp info =? "TrueType")%string then
                Fpdf.set_fontFiles
                  (sput (Fpdf.fontFiles f) (fontDefType.File info)
                     (fontFileType.mk (fontDefType.OriginalSize info) 0 0)) f
              else
                Fpdf.set_fontFiles
                  (sput (Fpdf.fontFiles f) (fontDefType.File info)
                     (fontFileType.mk (fontDefType.Size1 info) (fontDefType.Size2 info) 0)) f
            else f in
          Ok (Fpdf.set_fonts (sput (Fpdf.fonts f) fontkey info) f)
    end.

Definition SetFont (env : Env) (familyStr styleStr : string) (size : float) (f : Fpdf.t)
  : result Fpdf.t :=
  if nonNil (Fpdf.err f) then Ok f
  else
    let familyStr :=
      if (familyStr =? "")%string then Fpdf.fontFamily f else toLower env familyStr in
    let styleStr := toUpper env styleStr in
    let f := Fpdf.set_underline (contains "U" styleStr) f in
    let styleStr := if Fpdf.underline f then replaceAll styleStr "U" "" else styleStr in
    let styleStr := if (styleStr =? "IB")%string then "BI" else styleStr in
    let size := if feq size 0 then Fpdf.fontSizePt f else size in
    (* Test if font is already selected *)
    if (Fpdf.fontFamily f =? familyStr)%string && (Fpdf.fontStyle f =? styleStr)%string
       && feq (Fpdf.fontSizePt f) size
    then Ok f
    else
      (* Test if font is already loaded *)
      let fontkey := familyStr ++ styleStr in
      '(familyStr, styleStr, fontkey, f) <-
        match sget (Fpdf.fonts f) fontkey with
        | Some _ => Ok (familyStr, styleStr, fontkey, f)
        | None =>
            (* Test if one of the core fonts *)
            let familyStr := if (familyStr =? "arial")%string then "helvetica" else familyStr in
            match sget (Fpdf.coreFonts f) familyStr with
            | Some _ =>
                let styleStr :=
                  if (familyStr =? "symbol")%string || (familyStr =? "zapfdingbats")%string
                  then "" else styleStr in
                let fontkey := familyStr ++ styleStr in
                match sget (Fpdf.fonts f) fontkey with
                | Some _ => Ok (familyStr, styleStr, fontkey, f)
                | None =>
                    f <- AddFont env familyStr styleStr "" f ;;
                    Ok (familyStr, styleStr, fontkey, f)
                end
            | None =>
                Ok (familyStr, styleStr, fontkey,
                    Fpdf.set_err
                      (Some ("Undefined font: " ++ familyStr ++ " " ++ styleStr)) f)
            end
        end ;;
      if nonNil (Fpdf.err f) then Ok f
      else
        (* Select it *)
        let f := Fpdf.set_fontFamily familyStr f in
        let f := Fpdf.set_fontStyle styleStr f in
        let f := Fpdf.set_fontSizePt size f in
        let f := Fpdf.set_fontSize (size / Fpdf.k f)%float f in
        let f := Fpdf.set_currentFont
                   (match sget (Fpdf.fonts f) fontkey with
                    | Some d => d
                    | None => fontDefType.zero
                    end) f in
        if 0 <? Fpdf.page f
        then out ("BT /F" ++ dec (fontDefType.I (Fpdf.currentFont f)) ++ " " ++
                  f2 (Fpdf.fontSizePt f) ++ " Tf ET") f
        else Ok f.

(** Defines the size of the current font in points. *)
Definition SetFontSize (size : float) (f : Fpdf.t) : result Fpdf.t :=
  if feq (Fpdf.fontSizePt f) size then Ok f
  else
    let f := Fpdf.set_fontSizePt size f in
    let f := Fpdf.set_fontSize (size / Fpdf.k f)%float f in
    if 0 <? Fpdf.page f
    then out ("BT /F" ++ dec (fontDefType.I (Fpdf.currentFont f)) ++ " " ++
              f2 (Fpdf.fontSizePt f) ++ " Tf ET") f
    else Ok f.

(** ** Links *)

Definition AddLink (f : Fpdf.t) : Z * Fpdf.t :=
  let f := Fpdf.set_links (Fpdf.links f ++ [intLinkType.zero])%list f in
  (llen (Fpdf.links f) - 1, f).

Definition SetLink (link : Z) (y : float) (page : Z) (f : Fpdf.t) : result Fpdf.t :=
  let y := if feq y (-1) then Fpdf.y f else y in
  let page := if page =? -1 then Fpdf.page f else page in
  ls <- upd (Fpdf.links f) link (intLinkType.mk page y) ;;
  Ok (Fpdf.set_links ls f).

(** Add a new clickable link on the current page. *)
Definition newLink (x y w h : float) (link : Z) (linkStr : string) (f : Fpdf.t)
  : result Fpdf.t :=
  pl <- idx (Fpdf.pageLinks f) (Fpdf.page f) ;;
  let entry :=
    linkType.mk (x * Fpdf.k f) (Fpdf.hPt f - y * Fpdf.k f) (w * Fpdf.k f) (h * Fpdf.k f)
      link linkStr in
  pls <- upd (Fpdf.pageLinks f) (Fpdf.page f) (pl ++ [entry])%list ;;
  Ok (Fpdf.set_pageLinks pls f).

(** ** Pages *)

Definition open (f : Fpdf.t) : Fpdf.t := Fpdf.set_state 1 f.

Definition endpage (f : Fpdf.t) : Fpdf.t := Fpdf.set_state 1 f.

Definition beginpage (env : Env) (orientationStr : string) (size : sizeType.t)
  (f : Fpdf.t) : result Fpdf.t :=
  if nonNil (Fpdf.err f) then Ok f
  else
    let f := Fpdf.set_page (Fpdf.page f + 1) f in
    let f := Fpdf.set_pages (Fpdf.pages f ++ [""])%list f in
    let f := Fpdf.set_pageLinks (Fpdf.pageLinks f ++ [[]])%list f in
    let f := Fpdf.set_state 2 f in
    let f := Fpdf.set_x (Fpdf.lMargin f) f in
    let f := Fpdf.set_y (Fpdf.tMargin f) f in
    let f := Fpdf.set_fontFamily "" f in
    (* Check page size and orientation *)
    orientationStr <-
      (if (orientationStr =? "")%string then Ok (Fpdf.defOrientation f)
       else s <- slice orientationStr 0 1 ;; Ok (toUpper env s)) ;;
    let f :=
      if negb (orientationStr =? Fpdf.curOrientation f)%string
         || fne (sizeType.wd size) (sizeType.wd (Fpdf.curPageSize f))
         || fne (sizeType.ht size) (sizeType.ht (Fpdf.curPageSize f))
      then
        (* New size or orientation *)
        let f :=
          if (orientationStr =? "P")%string
          then Fpdf.set_h (sizeType.ht size) (Fpdf.set_w (sizeType.wd size) f)
          else Fpdf.set_h (sizeType.wd size) (Fpdf.set_w (sizeType.ht size) f) in
        let f := Fpdf.set_wPt (Fpdf.w f * Fpdf.k f)%float f in
        let f := Fpdf.set_hPt (Fpdf.h f * Fpdf.k f)%float f in
        let f := Fpdf.set_pageBreakTrigger (Fpdf.h f - Fpdf.bMargin f)%float f in
        let f := Fpdf.set_curOrientation orientationStr f in
        Fpdf.set_curPageSize size f
      else f in
    let f :=
      if negb (orientationStr =? Fpdf.defOrientation f)%string
         || fne (sizeType.wd size) (sizeType.wd (Fpdf.defPageSize f))
         || fne (sizeType.ht size) (sizeType.ht (Fpdf.defPageSize f))
      then Fpdf.set_pageSizes
             (zput (Fpdf.pageSizes f) (Fpdf.page f)
                (sizeType.mk (Fpdf.wPt f) (Fpdf.hPt f))) f
      else f in
    Ok f.

(** Run the footer or header callback, if one is set. *)
Definition runFooter (hk : Hooks) (f : Fpdf.t) : result Fpdf.t :=
  match footerFnc hk with
  | Some fn =>
      f <- fn (Fpdf.set_inFooter true f) ;;
      Ok (Fpdf.set_inFooter false f)
  | None => Ok f
  end.

Definition runHeader (hk : Hooks) (f : Fpdf.t) : result Fpdf.t :=
  match headerFnc hk with
  | Some fn =>
      f <- fn (Fpdf.set_inHeader true f) ;;
      Ok (Fpdf.set_inHeader false f)
  | None => Ok f
  end.

Definition AddPageFormat (env : Env) (hk : Hooks) (orientationStr : string)
  (size : sizeType.t) (f : Fpdf.t) : result Fpdf.t :=
  if nonNil (Fpdf.err f) then Ok f
  else
    let f := if Fpdf.state f =? 0 then open f else f in
    let familyStr := Fpdf.fontFamily f in
    let style := Fpdf.fontStyle f in
    let style := if Fpdf.underline f then style ++ "U" else style in
    let fontsize := Fpdf.fontSizePt f in
    let lw := Fpdf.lineWidth f in
    let dc := Fpdf.drawColor f in
    let fc := Fpdf.fillColor f in
    let tc := Fpdf.textColor f in
    let cf := Fpdf.colorFlag f in
    f <- (if 0 <? Fpdf.page f then
            (* Page footer, then close page *)
            f <- runFooter hk f ;; Ok (endpage f)
          else Ok f) ;;
    (* Start new page *)
    f <- beginpage env orientationStr size f ;;
    (* Set line cap style to current value *)
    f <- out (dec (Fpdf.capStyle f) ++ " J") f ;;
    (* Set line width *)
    let f := Fpdf.set_lineWidth lw f in
    f <- out (f2 (lw * Fpdf.k f)%float ++ " w") f ;;
    (* Set font *)
    f <- (if negb (familyStr =? "")%string then SetFont env familyStr style fontsize f
          else Ok f) ;;
    if negb (familyStr =? "")%string && nonNil (Fpdf.err f) then Ok f
    else
      (* Set colors *)
      let f := Fpdf.set_drawColor dc f in
      f <- (if negb (dc =? "0 G")%string then out dc f else Ok f) ;;
      let f := Fpdf.set_fillColor fc f in
      f <- (if negb (fc =? "0 g")%string then out fc f else Ok f) ;;
      let f := Fpdf.set_textColor tc f in
      let f := Fpdf.set_colorFlag cf f in
      (* Page header *)
      f <- runHeader hk f ;;
      (* Restore line width *)
      f <- (if fne (Fpdf.lineWidth f) lw
            then out (f2 (lw * Fpdf.k f)%float ++ " w") (Fpdf.set_lineWidth lw f)
            else Ok f) ;;
      (* Restore font *)
      f <- (if negb (familyStr =? "")%string then SetFont env familyStr style fontsize f
            else Ok f) ;;
      if negb (familyStr =? "")%string && nonNil (Fpdf.err f) then Ok f
      else
        (* Restore colors *)
        f <- (if negb (Fpdf.drawColor f =? dc)%string
              then out dc (Fpdf.set_drawColor dc f) else Ok f) ;;
        f <- (if negb (Fpdf.fillColor f =? fc)%string
              then out fc (Fpdf.set_fillColor fc f) else Ok f) ;;
        let f := Fpdf.set_textColor tc f in
        Ok (Fpdf.set_colorFlag cf f).

Definition AddPage (env : Env) (hk : Hooks) (f : Fpdf.t) : result Fpdf.t :=
  if nonNil (Fpdf.err f) then Ok f
  else AddPageFormat env hk (Fpdf.defOrientation f) (Fpdf.defPageSize f) f.

(** ** Text *)

Definition bslash : string := String (ascii_of_nat 92) "".

(** Escape special characters in strings. *)
Definition escape (s : string) : string :=
  let s := replaceAll s bslash (bslash ++ bslash) in
  let s := replaceAll s "(" (bslash ++ "(") in
  let s := replaceAll s ")" (bslash ++ ")") in
  replaceAll s cr (bslash ++ "r").

(** Format a text string. *)
Definition textstring (s : string) : string := "(" ++ escape s ++ ")".

Fixpoint blankCount (str : string) : Z :=
  match str with
  | EmptyString => 0
  | String c rest => (if Ascii.eqb c " " then 1 else 0) + blankCount rest
  end.

(** Underline text. *)
Definition dounderline (x y : float) (txt : string) (f : Fpdf.t) : result string :=
  let up := float64_of_Z (fontDefType.Up (Fpdf.currentFont f)) in
  let ut := float64_of_Z (fontDefType.Ut (Fpdf.currentFont f)) in
  sw <- GetStringWidth txt f ;;
  let w := (sw + Fpdf.ws f * float64_of_Z (blankCount txt))%float in
  Ok (f2 (x * Fpdf.k f) ++ " " ++
      f2 ((Fpdf.h f - (y - up / 1000 * Fpdf.fontSize f)) * Fpdf.k f) ++ " " ++
      f2 (w * Fpdf.k f) ++ " " ++
      f2 ((- ut) / 1000 * Fpdf.fontSizePt f) ++ " re f").

(** The page-break test shared by [CellFormat] and [Image]; the callback is
    consulted only when the first three conditions hold. *)
Definition breakNeeded (hk : Hooks) (h : float) (f : Fpdf.t) : result (bool * Fpdf.t) :=
  if fgt (Fpdf.y f + h) (Fpdf.pageBreakTrigger f)
     && negb (Fpdf.inHeader f) && negb (Fpdf.inFooter f)
  then acceptPageBreak hk f
  else Ok (false, f).

Definition half : float := 0x1p-1%float.
Definition three_tenths : float := 0x1.3333333333333p-2%float.

Definition CellFormat (env : Env) (hk : Hooks) (w h : float) (txtStr borderStr : string)
  (ln : Z) (alignStr : string) (fill : bool) (link : Z) (linkStr : string)
  (f : Fpdf.t) : result Fpdf.t :=
  if nonNil (Fpdf.err f) then Ok f
  else
    let borderStr := toUpper env borderStr in
    let k := Fpdf.k f in
    '(brk, f) <- breakNeeded hk h f ;;
    f <- (if brk then
            (* Automatic page break *)
            let x := Fpdf.x f in
            let ws := Fpdf.ws f in
            f <- (if fgt ws 0 then out "0 Tw" (Fpdf.set_ws 0 f) else Ok f) ;;
            f <- AddPageFormat env hk (Fpdf.curOrientation f) (Fpdf.curPageSize f) f ;;
            if nonNil (Fpdf.err f) then Ok f
            else
              let f := Fpdf.set_x x f in
              if fgt ws 0 then out (f3 (ws * k) ++ " Tw") (Fpdf.set_ws ws f) else Ok f
          else Ok f) ;;
    if brk && nonNil (Fpdf.err f) then Ok f
    else
      let w := if feq w 0 then (Fpdf.w f - Fpdf.rMargin f - Fpdf.x f)%float else w in
      let s := "" in
      let s :=
        if fill || (borderStr =? "1")%string then
          let op := if fill then (if (borderStr =? "1")%string then "B" else "f") else "S" in
          s ++ f2 (Fpdf.x f * k) ++ " " ++ f2 ((Fpdf.h f - Fpdf.y f) * k) ++ " " ++
          f2 (w * k) ++ " " ++ f2 ((- h) * k) ++ " re " ++ op ++ " "
        else s in
      let s :=
        if (0 <? len borderStr) && negb (borderStr =? "1")%string then
          let x := Fpdf.x f in
          let y := Fpdf.y f in
          let left := (x * k)%float in
          let top := ((Fpdf.h f - y) * k)%float in
          let right := ((x + w) * k)%float in
          let bottom := ((Fpdf.h f - (y + h)) * k)%float in
          let side (a b c d : float) :=
            f2 a ++ " " ++ f2 b ++ " m " ++ f2 c ++ " " ++ f2 d ++ " l S " in
          let s := if contains "L" borderStr then s ++ side left top left bottom else s in
          let s := if contains "T" borderStr then s ++ side left top right top else s in
          let s := if contains "R" borderStr then s ++ side right top right bottom else s in
          if contains "B" borderStr then s ++ side left bottom right bottom else s
        else s in
      '(s, f) <-
        (if 0 <? len txtStr then
           dx <- (if (alignStr =? "R")%string then
                    sw <- GetStringWidth txtStr f ;; Ok (w - Fpdf.cMargin f - sw)%float
                  else if (alignStr =? "C")%string then
                    sw <- GetStringWidth txtStr f ;; Ok ((w - sw) / 2)%float
                  else Ok (Fpdf.cMargin f)) ;;
           let s := if Fpdf.colorFlag f then s ++ "q " ++ Fpdf.textColor f ++ " " else s in
           let txt2 := replaceAll txtStr bslash (bslash ++ bslash) in
           let txt2 := replaceAll txt2 "(" (bslash ++ "(") in
           let txt2 := replaceAll txt2 ")" (bslash ++ ")") in
           let base := (Fpdf.y f + half * h + three_tenths * Fpdf.fontSize f)%float in
           let s := s ++ "BT " ++ f2 ((Fpdf.x f + dx) * k) ++ " " ++
                    f2 ((Fpdf.h f - base) * k) ++ " Td (" ++ txt2 ++ ") Tj ET" in
           s <- (if Fpdf.underline f then
                   u <- dounderline (Fpdf.x f + dx) base txtStr f ;; Ok (s ++ " " ++ u)
                 else Ok s) ;;
           let s := if Fpdf.colorFlag f then s ++ " Q" else s in
           f <- (if (0 <? link) || (0 <? len linkStr) then
                   sw <- GetStringWidth txtStr f ;;
                   newLink (Fpdf.x f + dx)
                     (Fpdf.y f + half * h - half * Fpdf.fontSize f) sw (Fpdf.fontSize f)
                     link linkStr f
                 else Ok f) ;;
           Ok (s, f)
         else Ok (s, f)) ;;
      f <- (if 0 <? len s then out s f else Ok f) ;;
      let f := Fpdf.set_lasth h f in
      if 0 <? ln then
        (* Go to next line *)
        let f := Fpdf.set_y (Fpdf.y f + h) f in
        Ok (if ln =? 1 then Fpdf.set_x (Fpdf.lMargin f) f else f)
      else Ok (Fpdf.set_x (Fpdf.x f + w) f).

(** A simpler version of [CellFormat] with no fill, border, links or special
    alignment. *)
Definition Cell (env : Env) (hk : Hooks) (w h : float) (txtStr : string) (f : Fpdf.t)
  : result Fpdf.t :=
  CellFormat env hk w h txtStr "" 0 "L" false 0 "" f.

(** Performs a line break. *)
Definition Ln (h : float) (f : Fpdf.t) : Fpdf.t :=
  let f := Fpdf.set_x (Fpdf.lMargin f) f in
  if flt h 0 then Fpdf.set_y (Fpdf.y f + Fpdf.lasth f) f
  else Fpdf.set_y (Fpdf.y f + h) f.

Definition SetX (x : float) (f : Fpdf.t) : Fpdf.t :=
  if fge x 0 then Fpdf.set_x x f else Fpdf.set_x (Fpdf.w f + x) f.

Definition SetY (y : float) (f : Fpdf.t) : Fpdf.t :=
  let f := Fpdf.set_x (Fpdf.lMargin f) f in
  if fge y 0 then Fpdf.set_y y f else Fpdf.set_y (Fpdf.h f + y) f.

Definition SetXY (x y : float) (f : Fpdf.t) : Fpdf.t := SetX x (SetY y f).

(** ** Bounded multi-line layout *)

(** The local variables of the scan loop of [MultiCell]. *)
Module mc.
Record t : Type := mk {
  sep : Z; i : Z; j : Z; l : float; ls : float; ns : Z; nl : Z; b : string }.
End mc.

Definition newline : ascii := ascii_of_nat 10.

(** Reset the word spacing before a line that is not justified. *)
Definition resetWs (f : Fpdf.t) : result Fpdf.t :=
  if fgt (Fpdf.ws f) 0 then out "0 Tw" (Fpdf.set_ws 0 f) else Ok f.

(** The word spacing of a justified line, set and written before the line. *)
Definition justifyWs (wmax ls : float) (ns : Z) (f : Fpdf.t) : result Fpdf.t :=
  let f :=
    if 1 <? ns
    then Fpdf.set_ws ((wmax - ls) / 1000 * Fpdf.fontSize f / float64_of_Z (ns - 1)) f
    else Fpdf.set_ws 0 f in
  out (f3 (Fpdf.ws f * Fpdf.k f) ++ " Tw") f.

(** The bookkeeping after every emitted line. *)
Definition nextLine (borderStr b2 : string) (i : Z) (v : mc.t) : mc.t :=
  let nl := mc.nl v + 1 in
  mc.mk (-1) i i 0 (mc.ls v) 0 nl
    (if (0 <? len borderStr) && (nl =? 2) then b2 else mc.b v).

(** A space is a place to break: remember where it is and the width up to
    it, and count it. *)
Definition markSpace (c : ascii) (v : mc.t) : mc.t :=
  if Ascii.eqb c " "
  then mc.mk (mc.i v) (mc.i v) (mc.j v) (mc.l v) (mc.l v) (mc.ns v + 1) (mc.nl v) (mc.b v)
  else v.

(** One turn of the loop [for i < nb]. *)
Definition MultiCell_step (env : Env) (hk : Hooks) (w h : float)
  (s borderStr b2 alignStr : string) (fill : bool) (wmax : float)
  (v : mc.t) (f : Fpdf.t) : result (mc.t * Fpdf.t) :=
  (* Get next character *)
  c <- byteAt s (mc.i v) ;;
  if Ascii.eqb c newline then
    (* Explicit line break *)
    f <- resetWs f ;;
    seg <- slice s (mc.j v) (mc.i v) ;;
    f <- CellFormat env hk w h seg (mc.b v) 2 alignStr fill 0 "" f ;;
    Ok (nextLine borderStr b2 (mc.i v + 1) v, f)
  else
    let v := markSpace c v in
    cwc <- cwAt (fontDefType.Cw (Fpdf.currentFont f)) (code c) ;;
    let l := (mc.l v + float64_of_Z cwc)%float in
    if fgt l wmax then
      (* Automatic line break *)
      if mc.sep v =? -1 then
        let i := if mc.i v =? mc.j v then mc.i v + 1 else mc.i v in
        f <- resetWs f ;;
        seg <- slice s (mc.j v) i ;;
        f <- CellFormat env hk w h seg (mc.b v) 2 alignStr fill 0 "" f ;;
        Ok (nextLine borderStr b2 i v, f)
      else
        f <- (if (alignStr =? "J")%string then justifyWs wmax (mc.ls v) (mc.ns v) f
              else Ok f) ;;
        seg <- slice s (mc.j v) (mc.sep v) ;;
        f <- CellFormat env hk w h seg (mc.b v) 2 alignStr fill 0 "" f ;;
        Ok (nextLine borderStr b2 (mc.sep v + 1) v, f)
    else
      Ok (mc.mk (mc.sep v) (mc.i v + 1) (mc.j v) l (mc.ls v) (mc.ns v) (mc.nl v) (mc.b v), f).

(** The loop, for at most [fuel] turns; [None] when the fuel runs out before
    the scan index reaches [nb]. *)
Fixpoint MultiCell_loop (fuel : nat) (env : Env) (hk : Hooks) (w h : float)
  (s borderStr b2 alignStr : string) (fill : bool) (wmax : float) (nb : Z)
  (v : mc.t) (f : Fpdf.t) : option (result (mc.t * Fpdf.t)) :=
  if mc.i v <? nb then
    match fuel with
    | O => None
    | S fuel' =>
        match MultiCell_step env hk w h s borderStr b2 alignStr fill wmax v f with
        | Ok (v', f') =>
            MultiCell_loop fuel' env hk w h s borderStr b2 alignStr fill wmax nb v' f'
        | Panic m => Some (Panic m)
        end
    end
  else Some (Ok (v, f)).

(** The text with its carriage returns and one trailing newline removed. *)
Definition mcText (txtStr : string) : string :=
  let s := replaceAll txtStr cr "" in
  let nb := String.length s in
  match String.get (nb - 1) s with
  | Some c => if (0 <? nb)%nat && Ascii.eqb c newline
              then String.substring 0 (nb - 1) s else s
  | None => s
  end.

(** The borders of the first line ([b]) and of the lines in the middle
    ([b2]), and the border string as rewritten by the function. *)
Definition mcBorders (borderStr : string) : string * string * string :=
  if 0 <? len borderStr then
    if (borderStr =? "1")%string then ("LTRB", "LRT", "LR")
    else
      let b2 := "" in
      let b2 := if contains "L" borderStr then b2 ++ "L" else b2 in
      let b2 := if contains "R" borderStr then b2 ++ "R" else b2 in
      (borderStr, if contains "T" borderStr then b2 ++ "T" else b2, b2)
  else (borderStr, "0", "").

Definition MultiCell (fuel : nat) (env : Env) (hk : Hooks) (w h : float)
  (txtStr borderStr alignStr : string) (fill : bool) (f : Fpdf.t)
  : option (result Fpdf.t) :=
  let alignStr := if (alignStr =? "")%string then "J" else alignStr in
  let w := if feq w 0 then (Fpdf.w f - Fpdf.rMargin f - Fpdf.x f)%float else w in
  let wmax := ((w - 2 * Fpdf.cMargin f) * 1000 / Fpdf.fontSize f)%float in
  let s := mcText txtStr in
  let nb := len s in
  let '(borderStr, b, b2) := mcBorders borderStr in
  match MultiCell_loop fuel env hk w h s borderStr b2 alignStr fill wmax nb
          (mc.mk (-1) 0 0 0 0 0 1 b) f with
  | None => None
  | Some (Panic m) => Some (Panic m)
  | Some (Ok (v, f)) =>
      Some (
        (* Last chunk *)
        f <- resetWs f ;;
        let b := if (0 <? len borderStr) && contains "B" borderStr
                 then mc.b v ++ "B" else mc.b v in
        seg <- slice s (mc.j v) (mc.i v) ;;
        f <- CellFormat env hk w h seg b 2 alignStr fill 0 "" f ;;
        Ok (Fpdf.set_x (Fpdf.lMargin f) f))
  end.

(** ** Loops over slices and maps *)

(** A [for ... range] loop whose body cannot return from the function. *)
Fixpoint forEach {A : Type} (body : A -> Fpdf.t -> result Fpdf.t) (l : list A)
  (f : Fpdf.t) : result Fpdf.t :=
  match l with
  | [] => Ok f
  | a :: l' => f <- body a f ;; forEach body l' f
  end.

(** Whether the body of a loop went on to its end or returned from the
    function. *)
Inductive flow : Type := Next | Return.

Fixpoint forEachRet {A : Type} (body : A -> Fpdf.t -> result (flow * Fpdf.t))
  (l : list A) (f : Fpdf.t) : result (flow * Fpdf.t) :=
  match l with
  | [] => Ok (Next, f)
  | a :: l' =>
      '(fl, f) <- body a f ;;
      match fl with
      | Return => Ok (Return, f)
      | Next => forEachRet body l' f
      end
  end.

(** The integers [lo], [lo+1], ..., [lo+count-1]. *)
Definition zrange (lo : Z) (count : Z) : list Z :=
  map (fun d => lo + Z.of_nat d) (seq 0 (Z.to_nat count)).

(** ** Pages and the pages root *)

(** The rectangle every link annotation starts with. *)
Definition annotRect (pl : linkType.t) : string :=
  "<</Type /Annot /Subtype /Link /Rect [" ++
  f2 (linkType.x pl) ++ " " ++ f2 (linkType.y pl) ++ " " ++
  f2 (linkType.x pl + linkType.wd pl) ++ " " ++
  f2 (linkType.y pl - linkType.ht pl) ++ "] /Border [0 0 0] ".

(** One link annotation of a page, the body of the loop of [putpages] over
    [f.pageLinks[n]]; [hPt] is the default page height. *)
Definition putannot (hPt : float) (pl : linkType.t) (f : Fpdf.t) : result string :=
  let rect := annotRect pl in
  if linkType.link pl =? 0 then
    Ok (rect ++ "/A <</S /URI /URI " ++ textstring (linkType.linkStr pl) ++ ">>>>")
  else
    l <- idx (Fpdf.links f) (linkType.link pl) ;;
    let h := match zget (Fpdf.pageSizes f) (intLinkType.page l) with
             | Some sz => sizeType.ht sz
             | None => hPt
             end in
    Ok (rect ++ "/Dest [" ++ dec (1 + 2 * intLinkType.page l) ++ " 0 R /XYZ 0 " ++
        f2 (h - intLinkType.y l * Fpdf.k f) ++ " null]>>").

Fixpoint putannots (hPt : float) (pls : list linkType.t) (f : Fpdf.t) (acc : string)
  : result string :=
  match pls with
  | [] => Ok acc
  | pl :: rest => a <- putannot hPt pl f ;; putannots hPt rest f (acc ++ a)
  end.

(** Replace the alias of the number of pages in page [n]: the body of the
    first loop of [putpages]. *)
Definition putalias (nbStr : string) (n : Z) (f : Fpdf.t) : result Fpdf.t :=
  s <- idx (Fpdf.pages f) n ;;
  if contains (Fpdf.aliasNbPagesStr f) s then
    ps <- upd (Fpdf.pages f) n (replaceAll s (Fpdf.aliasNbPagesStr f) nbStr) ;;
    Ok (Fpdf.set_pages ps f)
  else Ok f.

(** The page object and the content object of page [n]: the body of the
    loop of [putpages] over the pages. *)
Definition putpage (env : Env) (hPt : float) (n : Z) (f : Fpdf.t) : result Fpdf.t :=
  (* Page *)
  f <- newobj f ;;
  f <- out "<</Type /Page" f ;;
  f <- out "/Parent 1 0 R" f ;;
  f <- match zget (Fpdf.pageSizes f) n with
       | Some pageSize =>
           out ("/MediaBox [0 0 " ++ f2 (sizeType.wd pageSize) ++ " " ++
                f2 (sizeType.ht pageSize) ++ "]") f
       | None => Ok f
       end ;;
  f <- out "/Resources 2 0 R" f ;;
  (* Links *)
  pls <- idx (Fpdf.pageLinks f) n ;;
  f <- (if 0 <? llen pls then
          annots <- putannots hPt pls f "/Annots [" ;;
          out (annots ++ "]") f
        else Ok f) ;;
  f <- (if String.ltb "1.3" (Fpdf.pdfVersion f)
        then out "/Group <</Type /Group /S /Transparency /CS /DeviceRGB>>" f
        else Ok f) ;;
  f <- out ("/Contents " ++ dec (Fpdf.n f + 1) ++ " 0 R>>") f ;;
  f <- out "endobj" f ;;
  (* Page content *)
  f <- newobj f ;;
  pg <- idx (Fpdf.pages f) n ;;
  f <- (if Fpdf.compress f then
          let data := sliceCompress env pg in
          f <- out ("<</Filter /FlateDecode /Length " ++ dec (len data) ++ ">>") f ;;
          putstream data f
        else
          f <- out ("<</Length " ++ dec (len pg) ++ ">>") f ;;
          putstream pg f) ;;
  out "endobj" f.

(** The [/Kids] array of the pages root, as [putpages] builds it. *)
Definition putkids (nb : Z) : string :=
  "/Kids [" ++
  String.concat "" (map (fun i => dec (3 + 2 * i) ++ " 0 R ") (zrange 0 nb)) ++ "]".

(** The default page width and height in points, as [putpages] takes them
    from the default orientation and size. *)
Definition defaultSizePt (f : Fpdf.t) : float * float :=
  if (Fpdf.defOrientation f =? "P")%string
  then ((sizeType.wd (Fpdf.defPageSize f) * Fpdf.k f)%float,
        (sizeType.ht (Fpdf.defPageSize f) * Fpdf.k f)%float)
  else ((sizeType.ht (Fpdf.defPageSize f) * Fpdf.k f)%float,
        (sizeType.wd (Fpdf.defPageSize f) * Fpdf.k f)%float).

Definition putpages (env : Env) (f : Fpdf.t) : result Fpdf.t :=
  let nb := Fpdf.page f in
  f <- (if 0 <? len (Fpdf.aliasNbPagesStr f)
        then forEach (putalias (dec nb)) (zrange 1 nb) f
        else Ok f) ;;
  let '(wPt, hPt) := defaultSizePt f in
  f <- forEach (putpage env hPt) (zrange 1 nb) f ;;
  (* Pages root *)
  offs <- upd (Fpdf.offsets f) 1 (len (Fpdf.buffer f)) ;;
  let f := Fpdf.set_offsets offs f in
  f <- out "1 0 obj" f ;;
  f <- out "<</Type /Pages" f ;;
  f <- out (putkids nb) f ;;
  f <- out ("/Count " ++ dec nb) f ;;
  f <- out ("/MediaBox [0 0 " ++ f2 wPt ++ " " ++ f2 hPt ++ "]") f ;;
  f <- out ">>" f ;;
  out "endobj" f.

(** ** Fonts, images and the resource dictionary *)

(** Encodings: the body of the loop of [putfonts] over [f.diffs]. *)
Definition putdiff (diff : string) (f : Fpdf.t) : result Fpdf.t :=
  f <- newobj f ;;
  f <- out ("<</Type /Encoding /BaseEncoding /WinAnsiEncoding /Differences [" ++
            diff ++ "]>>") f ;;
  out "endobj" f.

(** Font file embedding: the body of the loop of [putfonts] over the font
    files; [Return] when the function returns from within the loop. *)
Definition putfontfile (env : Env) (entry : string * fontFileType.t) (f : Fpdf.t)
  : result (flow * Fpdf.t) :=
  let '(file, info) := entry in
  f <- newobj f ;;
  let info := fontFileType.set_n (Fpdf.n f) info in
  let f := Fpdf.set_fontFiles (sput (Fpdf.fontFiles f) file info) f in
  match readFile env (pathJoin env (Fpdf.fontpath f) file) with
  | Failed e => Ok (Return, Fpdf.set_err (Some e) f)
  | Got font =>
      suffix <- slice file (len file - 2) (len file) ;;
      let compressed := (suffix =? ".z")%string in
      font <-
        (if negb compressed && (0 <? fontFileType.length2 info) then
           buf <- slice font 6 (fontFileType.length1 info) ;;
           rest <- slice font (6 + fontFileType.length1 info + 6)
                     (fontFileType.length2 info) ;;
           Ok (buf ++ rest)
         else Ok font) ;;
      f <- out ("<</Length " ++ dec (len font)) f ;;
      f <- (if compressed then out "/Filter /FlateDecode" f else Ok f) ;;
      f <- out ("/Length1 " ++ dec (fontFileType.length1 info)) f ;;
      f <- (if 0 <? fontFileType.length2 info
            then out ("/Length2 " ++ dec (fontFileType.length2 info) ++ " /Length3 0") f
            else Ok f) ;;
      f <- out ">>" f ;;
      f <- putstream font f ;;
      f <- out "endobj" f ;;
      Ok (Next, f)
  end.

(** The [/Widths] array: the entries 32 to 255 of the width table. *)
Definition putwidths (cw : list Z) : string :=
  "[" ++ String.concat "" (map (fun j => dec (nth (Z.to_nat j) cw 0) ++ " ") (zrange 32 224))
  ++ "]".

(** The font descriptor, as [putfonts] prints it. *)
Definition putdescriptor (font : fontDefType.t) (f : Fpdf.t) : string :=
  let d := fontDefType.Desc font in
  let bb := fontDescType.FontBBox d in
  "<</Type /FontDescriptor /FontName /" ++ fontDefType.Name font ++ " " ++
  "/Ascent " ++ dec (fontDescType.Ascent d) ++ " " ++
  "/Descent " ++ dec (fontDescType.Descent d) ++ " " ++
  "/CapHeight " ++ dec (fontDescType.CapHeight d) ++ " " ++
  "/Flags " ++ dec (fontDescType.Flags d) ++ " " ++
  "/FontBBox [" ++ dec (fontBoxType.Xmin bb) ++ " " ++ dec (fontBoxType.Ymin bb) ++ " " ++
  dec (fontBoxType.Xmax bb) ++ " " ++ dec (fontBoxType.Ymax bb) ++ "] " ++
  "/ItalicAngle " ++ dec (fontDescType.ItalicAngle d) ++ " " ++
  "/StemV " ++ dec (fontDescType.StemV d) ++ " " ++
  "/MissingWidth " ++ dec (fontDescType.MissingWidth d) ++ " " ++
  "/FontFile" ++ (if negb (fontDefType.Tp font =? "Type1")%string then "2" else "") ++ " " ++
  dec (match sget (Fpdf.fontFiles f) (fontDefType.File font) with
       | Some ff => fontFileType.n ff
       | None => 0
       end) ++ " 0 R>>".

(** Font objects: the body of the loop of [putfonts] over the fonts; [nf] is
    the object number before the encodings. *)
Definition putfont (nf : Z) (entry : string * fontDefType.t) (f : Fpdf.t)
  : result (flow * Fpdf.t) :=
  let '(k, font) := entry in
  let font := fontDefType.set_N (Fpdf.n f + 1) font in
  let f := Fpdf.set_fonts (sput (Fpdf.fonts f) k font) f in
  let tp := fontDefType.Tp font in
  let name := fontDefType.Name font in
  if (tp =? "Core")%string then
    (* Core font *)
    f <- newobj f ;;
    f <- out "<</Type /Font" f ;;
    f <- out ("/BaseFont /" ++ name) f ;;
    f <- out "/Subtype /Type1" f ;;
    f <- (if negb (name =? "Symbol")%string && negb (name =? "ZapfDingbats")%string
          then out "/Encoding /WinAnsiEncoding" f else Ok f) ;;
    f <- out ">>" f ;;
    f <- out "endobj" f ;;
    Ok (Next, f)
  else if (tp =? "Type1")%string || (tp =? "TrueType")%string then
    (* Additional Type1 or TrueType/OpenType font *)
    f <- newobj f ;;
    f <- out "<</Type /Font" f ;;
    f <- out ("/BaseFont /" ++ name) f ;;
    f <- out ("/Subtype /" ++ tp) f ;;
    f <- out "/FirstChar 32 /LastChar 255" f ;;
    f <- out ("/Widths " ++ dec (Fpdf.n f + 1) ++ " 0 R") f ;;
    f <- out ("/FontDescriptor " ++ dec (Fpdf.n f + 2) ++ " 0 R") f ;;
    f <- (if 0 <? fontDefType.DiffN font
          then out ("/Encoding " ++ dec (nf + fontDefType.DiffN font) ++ " 0 R") f
          else out "/Encoding /WinAnsiEncoding" f) ;;
    f <- out ">>" f ;;
    f <- out "endobj" f ;;
    (* Widths *)
    f <- newobj f ;;
    f <- out (putwidths (fontDefType.Cw font)) f ;;
    f <- out "endobj" f ;;
    (* Descriptor *)
    f <- newobj f ;;
    f <- out (putdescriptor font f) f ;;
    f <- out "endobj" f ;;
    Ok (Next, f)
  else Ok (Return, Fpdf.set_err (Some ("Unsupported font type: " ++ tp)) f).

Definition putfonts (env : Env) (f : Fpdf.t) : result Fpdf.t :=
  if nonNil (Fpdf.err f) then Ok f
  else
    let nf := Fpdf.n f in
    f <- forEach putdiff (Fpdf.diffs f) f ;;
    '(fl, f) <- forEachRet (putfontfile env) (rangeOrder env (Fpdf.fontFiles f)) f ;;
    match fl with
    | Return => Ok f
    | Next =>
        '(_, f) <- forEachRet (putfont nf) (rangeOrder env (Fpdf.fonts f)) f ;;
        Ok f
    end.

(** The body of [putimage]; [self] stands for the call the function makes to
    itself for the soft mask. *)
Definition putimage_body (env : Env)
  (self : imageInfoType.t -> Fpdf.t -> result (imageInfoType.t * Fpdf.t))
  (info : imageInfoType.t) (f : Fpdf.t) : result (imageInfoType.t * Fpdf.t) :=
  f <- newobj f ;;
  let info := imageInfoType.set_n (Fpdf.n f) info in
  f <- out "<</Type /XObject" f ;;
  f <- out "/Subtype /Image" f ;;
  f <- out ("/Width " ++ dec (int_of_float (imageInfoType.w info))) f ;;
  f <- out ("/Height " ++ dec (int_of_float (imageInfoType.h info))) f ;;
  f <- (if (imageInfoType.cs info =? "Indexed")%string then
          out ("/ColorSpace [/Indexed /DeviceRGB " ++
               dec (Z.quot (len (imageInfoType.pal info)) 3 - 1) ++ " " ++
               dec (Fpdf.n f + 1) ++ " 0 R]") f
        else
          f <- out ("/ColorSpace /" ++ imageInfoType.cs info) f ;;
          if (imageInfoType.cs info =? "DeviceCMYK")%string
          then out "/Decode [1 0 1 0 1 0 1 0]" f else Ok f) ;;
  f <- out ("/BitsPerComponent " ++ dec (imageInfoType.bpc info)) f ;;
  f <- (if 0 <? len (imageInfoType.f info)
        then out ("/Filter /" ++ imageInfoType.f info) f else Ok f) ;;
  f <- (if 0 <? len (imageInfoType.dp info)
        then out ("/DecodeParms <<" ++ imageInfoType.dp info ++ ">>") f else Ok f) ;;
  f <- (if 0 <? llen (imageInfoType.trns info) then
          out ("/Mask [" ++
               String.concat ""
                 (map (fun v => dec v ++ " " ++ dec v ++ " ") (imageInfoType.trns info)) ++
               "]") f
        else Ok f) ;;
  f <- (match imageInfoType.smask info with
        | Some _ => out ("/SMask " ++ dec (Fpdf.n f + 1) ++ " 0 R") f
        | None => Ok f
        end) ;;
  f <- out ("/Length " ++ dec (len (imageInfoType.data info)) ++ ">>") f ;;
  f <- putstream (imageInfoType.data info) f ;;
  f <- out "endobj" f ;;
  (* Soft mask *)
  f <- (match imageInfoType.smask info with
        | Some sm =>
            if 0 <? len sm then
              let smask :=
                imageInfoType.mk sm None 0 0 (imageInfoType.w info) (imageInfoType.h info)
                  "DeviceGray" "" 8 (imageInfoType.f info)
                  ("/Predictor 15 /Colors 1 /BitsPerComponent 8 /Columns " ++
                   dec (int_of_float (imageInfoType.w info))) [] in
              '(_, f) <- self smask f ;; Ok f
            else Ok f
        | None => Ok f
        end) ;;
  (* Palette *)
  f <- (if (imageInfoType.cs info =? "Indexed")%string then
          f <- newobj f ;;
          f <- (if Fpdf.compress f then
                  let pal := sliceCompress env (imageInfoType.pal info) in
                  f <- out ("<</Filter /FlateDecode /Length " ++ dec (len pal) ++ ">>") f ;;
                  putstream pal f
                else
                  f <- out ("<</Length " ++ dec (len (imageInfoType.pal info)) ++ ">>") f ;;
                  putstream (imageInfoType.pal info) f) ;;
          out "endobj" f
        else Ok f) ;;
  Ok (info, f).

(** The soft mask carries no soft mask of its own, so the call for it makes
    no further call. *)
Definition putimage (env : Env) (info : imageInfoType.t) (f : Fpdf.t)
  : result (imageInfoType.t * Fpdf.t) :=
  putimage_body env
    (putimage_body env (fun _ _ => Panic "soft mask of a soft mask")) info f.

(** The body of the loop of [putimages]. *)
Definition putimages_body (env : Env) (entry : string * imageInfoType.t) (f : Fpdf.t)
  : result Fpdf.t :=
  let '(fileStr, img) := entry in
  '(img, f) <- putimage env img f ;;
  let img := imageInfoType.set_data "" img in
  let img := imageInfoType.set_smask
               (match imageInfoType.smask img with Some _ => Some "" | None => None end)
               img in
  Ok (Fpdf.set_images (sput (Fpdf.images f) fileStr img) f).

Definition putimages (env : Env) (f : Fpdf.t) : result Fpdf.t :=
  forEach (putimages_body env) (rangeOrder env (Fpdf.images f)) f.

Definition putxobjectdict (env : Env) (f : Fpdf.t) : result Fpdf.t :=
  forEach (fun entry f =>
             out ("/I" ++ dec (imageInfoType.i (snd entry)) ++ " " ++
                  dec (imageInfoType.n (snd entry)) ++ " 0 R") f)
    (rangeOrder env (Fpdf.images f)) f.

Definition putresourcedict (env : Env) (f : Fpdf.t) : result Fpdf.t :=
  f <- out "/ProcSet [/PDF /Text /ImageB /ImageC /ImageI]" f ;;
  f <- out "/Font <<" f ;;
  f <- forEach (fun entry f =>
                  out ("/F" ++ dec (fontDefType.I (snd entry)) ++ " " ++
                       dec (fontDefType.N (snd entry)) ++ " 0 R") f)
         (rangeOrder env (Fpdf.fonts f)) f ;;
  f <- out ">>" f ;;
  f <- out "/XObject <<" f ;;
  f <- putxobjectdict env f ;;
  out ">>" f.

Definition putresources (env : Env) (f : Fpdf.t) : result Fpdf.t :=
  if nonNil (Fpdf.err f) then Ok f
  else
    f <- putfonts env f ;;
    if nonNil (Fpdf.err f) then Ok f
    else
      f <- putimages env f ;;
      (* Resource dictionary *)
      offs <- upd (Fpdf.offsets f) 2 (len (Fpdf.buffer f)) ;;
      let f := Fpdf.set_offsets offs f in
      f <- out "2 0 obj" f ;;
      f <- out "<<" f ;;
      f <- putresourcedict env f ;;
      f <- out ">>" f ;;
      out "endobj" f.

(** ** Info, catalog, cross-reference table and trailer *)

Definition putinfo (env : Env) (f : Fpdf.t) : result Fpdf.t :=
  let field (name value : string) (f : Fpdf.t) :=
    if 0 <? len value then out (name ++ textstring value) f else Ok f in
  f <- out ("/Producer " ++ textstring ("FPDF " ++ FPDF_VERSION env)) f ;;
  f <- field "/Title " (Fpdf.title f) f ;;
  f <- field "/Subject " (Fpdf.subject f) f ;;
  f <- field "/Author " (Fpdf.author f) f ;;
  f <- field "/Keywords " (Fpdf.keywords f) f ;;
  f <- field "/Creator " (Fpdf.creator f) f ;;
  out ("/CreationDate " ++ textstring ("D:" ++ now env)) f.

Definition putcatalog (f : Fpdf.t) : result Fpdf.t :=
  f <- out "/Type /Catalog" f ;;
  f <- out "/Pages 1 0 R" f ;;
  f <- (if (Fpdf.zoomMode f =? "fullpage")%string then out "/OpenAction [3 0 R /Fit]" f
        else if (Fpdf.zoomMode f =? "fullwidth")%string
        then out "/OpenAction [3 0 R /FitH null]" f
        else if (Fpdf.zoomMode f =? "real")%string
        then out "/OpenAction [3 0 R /XYZ null null 1]" f
        else Ok f) ;;
  if (Fpdf.layoutMode f =? "single")%string then out "/PageLayout /SinglePage" f
  else if (Fpdf.layoutMode f =? "continuous")%string then out "/PageLayout /OneColumn" f
  else if (Fpdf.layoutMode f =? "two")%string then out "/PageLayout /TwoColumnLeft" f
  else Ok f.

Definition putheader (f : Fpdf.t) : result Fpdf.t :=
  out ("%PDF-" ++ Fpdf.pdfVersion f) f.

Definition puttrailer (f : Fpdf.t) : result Fpdf.t :=
  f <- out ("/Size " ++ dec (Fpdf.n f + 1)) f ;;
  f <- out ("/Root " ++ dec (Fpdf.n f) ++ " 0 R") f ;;
  out ("/Info " ++ dec (Fpdf.n f - 1) ++ " 0 R") f.

(** One entry of the cross-reference table, for object [j]: the body of the
    loop of [enddoc]. *)
Definition putxrefentry (j : Z) (f : Fpdf.t) : result Fpdf.t :=
  off <- idx (Fpdf.offsets f) j ;;
  out (dec_pad 10 off ++ " 00000 n ") f.

(** The last part of [enddoc], from the comment [// Cross-ref] on: the
    cross-reference table, the trailer and the end of the file. *)
Definition putxref (f : Fpdf.t) : result Fpdf.t :=
  let o := len (Fpdf.buffer f) in
  f <- out "xref" f ;;
  f <- out ("0 " ++ dec (Fpdf.n f + 1)) f ;;
  f <- out "0000000000 65535 f " f ;;
  f <- forEach putxrefentry (zrange 1 (Fpdf.n f)) f ;;
  (* Trailer *)
  f <- out "trailer" f ;;
  f <- out "<<" f ;;
  f <- puttrailer f ;;
  f <- out ">>" f ;;
  f <- out "startxref" f ;;
  f <- out (dec o) f ;;
  f <- out "%%EOF" f ;;
  Ok (Fpdf.set_state 3 f).

Definition enddoc (env : Env) (f : Fpdf.t) : result Fpdf.t :=
  if nonNil (Fpdf.err f) then Ok f
  else
    f <- putheader f ;;
    f <- putpages env f ;;
    f <- putresources env f ;;
    if nonNil (Fpdf.err f) then Ok f
    else
      (* Info *)
      f <- newobj f ;;
      f <- out "<<" f ;;
      f <- putinfo env f ;;
      f <- out ">>" f ;;
      f <- out "endobj" f ;;
      (* Catalog *)
      f <- newobj f ;;
      f <- out "<<" f ;;
      f <- putcatalog f ;;
      f <- out ">>" f ;;
      f <- out "endobj" f ;;
      (* Cross-ref *)
      putxref f.

(** ** Closing and output *)

Definition Close (env : Env) (hk : Hooks) (f : Fpdf.t) : result Fpdf.t :=
  if nonNil (Fpdf.err f) then Ok f
  else if Fpdf.state f =? 3 then Ok f
  else
    let nopage := Fpdf.page f =? 0 in
    f <- (if nopage then AddPage env hk f else Ok f) ;;
    if nopage && nonNil (Fpdf.err f) then Ok f
    else
      (* Page footer *)
      f <- runFooter hk f ;;
      (* Close page *)
      let f := endpage f in
      (* Close document *)
      enddoc env f.

(** An [io.Writer]: the bytes written to it so far, and how it answers a
    call of [Write]: the number of bytes it takes and the error it returns. *)
Record Writer : Type := mkWriter {
  written : string;
  answer : string -> nat * option string }.

(** [bytes.Buffer.WriteTo]: the buffer is handed to the writer in one call of
    [Write]; what the writer took is gone from the buffer, and a buffer
    written in full is reset.  The result is what stays in the buffer, the
    writer and the error. *)
Definition WriteTo (buf : string) (w : Writer) : result (string * Writer * option string) :=
  if 0 <? len buf then
    let '(m, e) := answer w buf in
    if (String.length buf <? m)%nat then Panic "bytes.Buffer.WriteTo: invalid Write count"
    else
      let w := mkWriter (written w ++ String.substring 0 m buf) (answer w) in
      let rest := String.substring m (String.length buf - m) buf in
      match e with
      | Some e => Ok (rest, w, Some e)
      | None =>
          if negb (m =? String.length buf)%nat then Ok (rest, w, Some "short write")
          else Ok ("", w, None)
      end
  else Ok ("", w, None).

(** Send the PDF document to the writer. *)
Definition Output (env : Env) (hk : Hooks) (w : Writer) (f : Fpdf.t)
  : result (Writer * Fpdf.t * option string) :=
  if nonNil (Fpdf.err f) then Ok (w, f, Fpdf.err f)
  else
    f <- (if Fpdf.state f <? 3 then Close env hk f else Ok f) ;;
    '(rest, w, e) <- WriteTo (Fpdf.buffer f) w ;;
    let f := Fpdf.set_buffer rest f in
    let f := match e with Some _ => Fpdf.set_err e f | None => f end in
    Ok (w, f, Fpdf.err f).

(** ** Images *)

Definition Image (env : Env) (hk : Hooks) (fileStr : string) (x y w h : float)
  (flow : bool) (tp : string) (link : Z) (linkStr : string) (f : Fpdf.t)
  : result Fpdf.t :=
  if nonNil (Fpdf.err f) then Ok f
  else
    '(info, f) <-
      match sget (Fpdf.images f) fileStr with
      | Some info => Ok (info, f)
      | None =>
          (* First use of this image, get info *)
          '(tp, f) <-
            (if (tp =? "")%string then
               let pos := lastIndexByte fileStr "." in
               if pos <? 0 then
                 Ok (tp, Fpdf.set_err
                           (Some ("Image file has no extension and no type was specified: "
                                  ++ fileStr)) f)
               else t <- slice fileStr (pos + 1) (len fileStr) ;; Ok (t, f)
             else Ok (tp, f)) ;;
          if nonNil (Fpdf.err f) then Ok (imageInfoType.zero, f)
          else
            let tp := toLower env tp in
            let tp := if (tp =? "jpeg")%string then "jpg" else tp in
            '(info, f) <-
              (if (tp =? "jpg")%string then parsejpg env fileStr f
               else if (tp =? "png")%string then parsepng env fileStr f
               else if (tp =? "gif")%string then parsegif env fileStr f
               else Ok (imageInfoType.zero,
                        Fpdf.set_err (Some ("Unsupported image type: " ++ tp)) f)) ;;
            if nonNil (Fpdf.err f) then Ok (info, f)
            else
              let info := imageInfoType.set_i (llen (Fpdf.images f) + 1) info in
              Ok (info, Fpdf.set_images (sput (Fpdf.images f) fileStr info) f)
      end ;;
    if nonNil (Fpdf.err f) then Ok f
    else
      (* Automatic width and height calculation if needed *)
      let '(w, h) := if feq w 0 && feq h 0 then ((-96)%float, (-96)%float) else (w, h) in
      let w := if flt w 0 then ((- imageInfoType.w info) * 72 / w / Fpdf.k f)%float else w in
      let h := if flt h 0 then ((- imageInfoType.h info) * 72 / h / Fpdf.k f)%float else h in
      let w := if feq w 0 then (h * imageInfoType.w info / imageInfoType.h info)%float else w in
      let h := if feq h 0 then (w * imageInfoType.h info / imageInfoType.w info)%float else h in
      (* Flowing mode *)
      '(returned, y, f) <-
        (if flow then
           '(brk, f) <- breakNeeded hk h f ;;
           f <- (if brk then
                   (* Automatic page break *)
                   let x2 := Fpdf.x f in
                   f <- AddPageFormat env hk (Fpdf.curOrientation f) (Fpdf.curPageSize f) f ;;
                   if nonNil (Fpdf.err f) then Ok f else Ok (Fpdf.set_x x2 f)
                 else Ok f) ;;
           if brk && nonNil (Fpdf.err f) then Ok (true, y, f)
           else Ok (false, Fpdf.y f, Fpdf.set_y (Fpdf.y f + h) f)
         else Ok (false, y, f)) ;;
      if returned then Ok f
      else
        let x := if flt x 0 then Fpdf.x f else x in
        f <- out ("q " ++ f2 (w * Fpdf.k f) ++ " 0 0 " ++ f2 (h * Fpdf.k f) ++ " " ++
                  f2 (x * Fpdf.k f) ++ " " ++ f2 ((Fpdf.h f - (y + h)) * Fpdf.k f) ++
                  " cm /I" ++ dec (imageInfoType.i info) ++ " Do Q") f ;;
        if (0 <? link) || (0 <? len linkStr) then newLink x y w h link linkStr f
        else Ok f.

(** ** PNG: separating the alpha channel

    The block of [parsepngstream] for colour types 4 and 6.  [data] is the
    inflated image: for every row a filter-type byte and then the pixels. *)

Definition sbyte (c : ascii) : string := String c "".

(** The pixels of a row of a gray image: one gray byte, one alpha byte. *)
Fixpoint grayPixels (data : string) (width : nat) (elPos : Z) (color alpha : string)
  : result (string * string) :=
  match width with
  | O => Ok (color, alpha)
  | S width' =>
      c <- byteAt data elPos ;;
      a <- byteAt data (int_add elPos 1) ;;
      grayPixels data width' (int_add elPos 2) (color ++ sbyte c) (alpha ++ sbyte a)
  end.

(** The pixels of a row of an RGB image: three colour bytes, one alpha byte. *)
Fixpoint rgbPixels (data : string) (width : nat) (elPos : Z) (color alpha : string)
  : result (string * string) :=
  match width with
  | O => Ok (color, alpha)
  | S width' =>
      c <- slice data elPos (int_add elPos 3) ;;
      a <- byteAt data (int_add elPos 3) ;;
      rgbPixels data width' (int_add elPos 4) (color ++ c) (alpha ++ sbyte a)
  end.

(** The rows [i], [i+1], ... of the image, [rows] of them. *)
Fixpoint splitRows
  (pixels : string -> nat -> Z -> string -> string -> result (string * string))
  (data : string) (width length : Z) (rows : nat) (i : Z) (color alpha : string)
  : result (string * string) :=
  match rows with
  | O => Ok (color, alpha)
  | S rows' =>
      let pos := int_mul (int_add 1 length) i in
      ft <- byteAt data pos ;;
      '(color, alpha) <-
        pixels data (Z.to_nat width) (int_add pos 1) (color ++ sbyte ft) (alpha ++ sbyte ft) ;;
      splitRows pixels data width length rows' (i + 1) color alpha
  end.

(** The colour stream and the alpha stream of an inflated image of colour
    type [ct] (4 or 6), [w] pixels wide and [h] rows high. *)
Definition deinterleave (ct w h : Z) (data : string) : result (string * string) :=
  if ct =? 4 then
    (* Gray image *)
    splitRows grayPixels data w (int_mul 2 w) (Z.to_nat h) 0 "" ""
  else
    (* RGB image *)
    splitRows rgbPixels data w (int_mul 4 w) (Z.to_nat h) 0 "" "".

(** The block itself: inflate, separate, deflate both streams and raise the
    PDF version.  The result is the new image data and the soft mask, or
    nothing when inflating failed and the error was latched. *)
Definition separateAlpha (env : Env) (ct w h : Z) (data : string) (f : Fpdf.t)
  : result (option (string * string) * Fpdf.t) :=
  match sliceUncompress env data with
  | Failed e => Ok (None, Fpdf.set_err (Some e) f)
  | Got data =>
      '(color, alpha) <- deinterleave ct w h data ;;
      let data := sliceCompress env color in
      let smask := sliceCompress env alpha in
      let f := if String.ltb (Fpdf.pdfVersion f) "1.4"
               then Fpdf.set_pdfVersion "1.4" f else f in
      Ok (Some (data, smask), f)
  end.

(** ** A small environment to run the model in

    Case mapping of ASCII letters, a font directory that holds one core font
    definition under any name, no image decoders, and a compression that
    stores the bytes as they are. *)

Definition mapAscii (g : ascii -> ascii) : string -> string :=
  fix go (s : string) : string :=
    match s with
    | EmptyString => EmptyString
    | String c s' => String (g c) (go s')
    end.

Definition upperAscii (c : ascii) : ascii :=
  if inRange 97 122 (code c) then ascii_of_nat (nat_of_ascii c - 32) else c.

Definition lowerAscii (c : ascii) : ascii :=
  if inRange 65 90 (code c) then ascii_of_nat (nat_of_ascii c + 32) else c.

Definition sampleFont : fontDefType.t :=
  fontDefType.mk "Core" "Helvetica" fontDescType.zero (-100) 50 (repeat 500 256)
    "cp1252" "" "" 0 0 0 0 0 0.

(** The environment whose font directory answers every name with [font]. *)
Definition sampleEnvWith (font : fontDefType.t) : Env :=
  mkEnv (mapAscii upperAscii) (mapAscii lowerAscii)
    (fun dir file => dir ++ "/" ++ file)
    (fun name => Got name)
    (fun _ => (font, None))
    (fun b => b)
    (fun b => Got b)
    "20130715120000"
    "1.7"
    (fun _ l => l)
    (fun _ f => Ok (imageInfoType.zero, Fpdf.set_err (Some "no decoder") f))
    (fun _ f => Ok (imageInfoType.zero, Fpdf.set_err (Some "no decoder") f))
    (fun _ f => Ok (imageInfoType.zero, Fpdf.set_err (Some "no decoder") f)).

Definition sampleEnv : Env := sampleEnvWith sampleFont.

(** The state a computation ends in; the zero document stands for a panic. *)
Definition stateOf (r : result Fpdf.t) : Fpdf.t :=
  match r with
  | Ok f => f
  | Panic _ => Fpdf.zero
  end.

(** A one-page document with a cell on it, then the selection of a font that
    is not defined, which latches an error. *)
Definition undefinedFontDoc : Fpdf.t :=
  stateOf (
    f <- AddPage sampleEnv defaultHooks (New sampleEnv "P" "mm" "A4" "") ;;
    f <- SetFont sampleEnv "Helvetica" "" 12 f ;;
    f <- Cell sampleEnv defaultHooks 40 10 "Hello" f ;;
    SetFont sampleEnv "Garamond" "" 12 f).

(** A Type1 font definition with an encoding-difference table, and the
    environment that serves it. *)
Definition euroFont : fontDefType.t :=
  fontDefType.mk "Type1" "Euro" fontDescType.zero (-100) 50 (repeat 500 256)
    "cp1252" "128 /Euro" "" 0 0 0 0 0 0.

Definition euroEnv : Env := sampleEnvWith euroFont.

(** A writer that takes whatever it is given, such as a [bytes.Buffer] or a
    file with room left. *)
Definition sink : Writer := mkWriter "" (fun p => (String.length p, None)).

(** A closed document: one empty page, pages not compressed. *)
Definition closedDoc : Fpdf.t :=
  stateOf (Close sampleEnv defaultHooks
             (SetCompression false (New sampleEnv "P" "mm" "A4" ""))).

(** A document with one page and the sample font selected, ready for text. *)
Definition textDoc : Fpdf.t :=
  stateOf (
    f <- AddPage sampleEnv defaultHooks (New sampleEnv "P" "mm" "A4" "") ;;
    SetFont sampleEnv "Helvetica" "" 12 f).

(** The scan of [MultiCell]: what holds of its variables at every turn, and
    the quantity that goes down with every turn.  [nb] is the length of the
    text. *)
Definition mcInv (nb : Z) (v : mc.t) : Prop :=
  0 <= mc.j v /\ mc.j v <= mc.i v /\ mc.i v <= nb /\
  (mc.sep v = -1 \/ (mc.j v <= mc.sep v /\ mc.sep v <= mc.i v)).

Definition mcMeasure (nb : Z) (v : mc.t) : Z :=
  (nb - mc.j v) * (nb + 1) + (nb - mc.i v).

(** Fuel that is enough for a text: the square of its length plus one. *)
Definition mcFuel (txtStr : string) : nat :=
  let nb := len (mcText txtStr) in S (Z.to_nat ((nb + 1) * (nb + 1))).

(** The text "aa bb cc dd" laid out in a cell 17.25 mm wide: the maximum
    line width. *)
Definition narrowWmax : float :=
  ((17.25 - 2 * Fpdf.cMargin textDoc) * 1000 / Fpdf.fontSize textDoc)%float.

(** The variables when a word of six letters overflows a cell 10 mm wide. *)
Definition tightWmax : float :=
  ((10 - 2 * Fpdf.cMargin textDoc) * 1000 / Fpdf.fontSize textDoc)%float.

Definition hardVars : mc.t := mc.mk (-1) 3 0 1500 0 0 1 "0".

(** ** Putting the colour and alpha streams back together

    The inverse the round-trip property speaks of: row by row, the filter
    byte, then for every pixel its [n] colour bytes followed by its alpha
    byte. *)

Definition takeS (n : nat) (s : string) : string := String.substring 0 n s.

Definition dropS (n : nat) (s : string) : string :=
  String.substring n (String.length s - n) s.

Fixpoint mergePixels (n width : nat) (color alpha : string) : string :=
  match width with
  | O => ""
  | S width' =>
      takeS n color ++ takeS 1 alpha ++
      mergePixels n width' (dropS n color) (dropS 1 alpha)
  end.

Fixpoint mergeRows (n width rows : nat) (color alpha : string) : string :=
  match rows with
  | O => ""
  | S rows' =>
      takeS 1 color ++
      mergePixels n width (takeS (n * width) (dropS 1 color)) (takeS width (dropS 1 alpha)) ++
      mergeRows n width rows' (dropS (1 + n * width) color) (dropS (1 + width) alpha)
  end.

(** The number of colour bytes of a pixel. *)
Definition colorBytes (ct : Z) : nat := if ct =? 4 then 1%nat else 3%nat.

Definition interleave (ct w h : Z) (color alpha : string) : string :=
  mergeRows (colorBytes ct) (Z.to_nat w) (Z.to_nat h) color alpha.

(** The first byte of each of the [rows] rows of [rowlen] bytes. *)
Fixpoint rowHeads (rowlen rows : nat) (s : string) : string :=
  match rows with
  | O => ""
  | S rows' => takeS 1 s ++ rowHeads rowlen rows' (dropS rowlen s)
  end.

(** An inflated RGBA image of two rows of two pixels, the rows filtered with
    types 0 and 1. *)
Definition bytesOf (l : list Z) : string :=
  string_of_list_ascii (map (fun z => ascii_of_nat (Z.to_nat z)) l).

Definition rgbaImage : string :=
  bytesOf [0; 10; 20; 30; 255; 40; 50; 60; 128;
           1; 11; 21; 31; 0; 41; 51; 61; 64].

(** A landscape second page in a portrait document, a link to it from the
    first page and a link to a web site. *)
Definition linkedDoc : Fpdf.t :=
  stateOf (
    f <- AddPage sampleEnv defaultHooks (New sampleEnv "P" "mm" "A4" "") ;;
    f <- SetFont sampleEnv "Helvetica" "" 12 f ;;
    let '(link, f) := AddLink f in
    f <- CellFormat sampleEnv defaultHooks 40 10 "next" "" 1 "L" false link "" f ;;
    f <- CellFormat sampleEnv defaultHooks 40 10 "web" "" 1 "L" false 0
           "http://example.org/(a)" f ;;
    f <- AddPageFormat sampleEnv defaultHooks "L" (Fpdf.defPageSize f) f ;;
    SetLink link 50 (-1) f).

Definition firstLink : linkType.t :=
  nth 0 (nth 1 (Fpdf.pageLinks linkedDoc) []) (linkType.mk 0 0 0 0 0 "").

Definition secondLink : linkType.t :=
  nth 1 (nth 1 (Fpdf.pageLinks linkedDoc) []) (linkType.mk 0 0 0 0 0 "").

(** ** The object graph of a serialized document *)

(** The text [s] lies in [buf] at byte offset [off]. *)
Definition occursAt (buf : string) (off : Z) (s : string) : Prop :=
  exists pre post, buf = pre ++ s ++ post /\ len pre = off.

(** The offset recorded for object [j]. *)
Definition offsetOf (f : Fpdf.t) (j : Z) : Z := nth (Z.to_nat j) (Fpdf.offsets f) 0.

(** The header line of object [j]. *)
Definition objHeader (j : Z) : string := dec j ++ " 0 obj" ++ nl.

(** At the offset recorded for object [j] the buffer holds the header of
    object [j], followed by [s]. *)
Definition objectAt (f : Fpdf.t) (j : Z) (s : string) : Prop :=
  occursAt (Fpdf.buffer f) (offsetOf f j) (objHeader j ++ s).

(** Two documents that agree on what the serializer writes to. *)
Definition Same (f g : Fpdf.t) : Prop :=
  Fpdf.state g = Fpdf.state f /\ Fpdf.page g = Fpdf.page f /\
  Fpdf.n g = Fpdf.n f /\ Fpdf.buffer g = Fpdf.buffer f /\
  Fpdf.offsets g = Fpdf.offsets f.

(** [f'] comes from [f] by serialization steps: lines were added to the
    main buffer and objects were begun.  The objects begun have the numbers
    that follow [n f], in the order of their offsets, and each offset
    recorded is the place of the object's header; the offsets recorded
    before for the objects that [keep] holds of were not changed. *)
Definition SerK (keep : Z -> Prop) (f f' : Fpdf.t) : Prop :=
  Fpdf.state f' = Fpdf.state f /\
  Fpdf.page f' = Fpdf.page f /\
  Fpdf.n f <= Fpdf.n f' /\
  (exists s, Fpdf.buffer f' = Fpdf.buffer f ++ s) /\
  (forall j, 0 <= j <= Fpdf.n f -> keep j -> offsetOf f' j = offsetOf f j) /\
  (forall j, 0 <= j -> Fpdf.n f < j <= Fpdf.n f' ->
             objectAt f' j "" /\
             len (Fpdf.buffer f) <= offsetOf f' j < len (Fpdf.buffer f')) /\
  (forall j, 0 <= j -> Fpdf.n f < j < Fpdf.n f' -> offsetOf f' j < offsetOf f' (j + 1)).

(** Nothing at all of what was recorded before was changed. *)
Definition Ser (f f' : Fpdf.t) : Prop := SerK (fun _ => True) f f'.

(** The objects from 3 on, those that [newobj] numbers. *)
Definition numbered (j : Z) : Prop := 3 <= j.

(** A step of the serializer that ends in a value from which [proj] takes
    the document: run outside a page, it is a serialization of [f]. *)
Definition SerStep {A : Type} (proj : A -> Fpdf.t) (f : Fpdf.t) (p : result A) : Prop :=
  Fpdf.state f <> 2 -> forall a, p = Ok a -> Ser f (proj a).

(** The text of a page object and of a content object. *)
Definition pageObject (j : Z) (mid : string) : string :=
  objHeader j ++ "<</Type /Page" ++ nl ++ "/Parent 1 0 R" ++ nl ++ mid ++
  "/Contents " ++ dec (j + 1) ++ " 0 R>>" ++ nl ++ "endobj" ++ nl.

Definition contentObject (j : Z) (body : string) : string :=
  objHeader j ++ body ++ "endobj" ++ nl.

(** Object [j] is a page object that lies at the offset recorded for it, and
    its content object [j + 1] follows it at once, at the offset recorded
    for it. *)
Definition pagePair (f : Fpdf.t) (j : Z) : Prop :=
  exists mid body,
    occursAt (Fpdf.buffer f) (offsetOf f j)
      (pageObject j mid ++ contentObject (j + 1) body) /\
    offsetOf f (j + 1) = offsetOf f j + len (pageObject j mid).

(** Page [i] (counted from 0) of a serialized document is object [3 + 2i]. *)
Definition pageAt (f : Fpdf.t) (i : Z) : Prop := pagePair f (3 + 2 * i).

(** The object of a reserved number [r] (1 or 2) was written: the offset of
    [r] is the end of the old buffer, where the header of [r] and then [s]
    were added. *)
Definition Slot (r : Z) (s : string) (f f' : Fpdf.t) : Prop :=
  Fpdf.state f' = Fpdf.state f /\
  Fpdf.page f' = Fpdf.page f /\
  Fpdf.n f' = Fpdf.n f /\
  Fpdf.buffer f' = Fpdf.buffer f ++ objHeader r ++ s /\
  offsetOf f' r = len (Fpdf.buffer f) /\
  (forall j, 0 <= j -> j <> r -> offsetOf f' j = offsetOf f j).

(** One record of the cross-reference table. *)
Definition xrefRecord (off : Z) : string := dec_pad 10 off ++ " 00000 n " ++ nl.

(** The cross-reference table, the trailer and the end of a file whose
    objects are numbered up to [n], the table starting at offset [o]. *)
Definition xrefSection (offsets : Z -> Z) (n o : Z) : string :=
  "xref" ++ nl ++
  "0 " ++ dec (n + 1) ++ nl ++
  "0000000000 65535 f " ++ nl ++
  String.concat "" (map (fun j => xrefRecord (offsets j)) (zrange 1 n)) ++
  "trailer" ++ nl ++ "<<" ++ nl ++
  "/Size " ++ dec (n + 1) ++ nl ++
  "/Root " ++ dec n ++ " 0 R" ++ nl ++
  "/Info " ++ dec (n - 1) ++ " 0 R" ++ nl ++
  ">>" ++ nl ++
  "startxref" ++ nl ++ dec o ++ nl ++ "%%EOF" ++ nl.

(** Callbacks that leave the object counter alone and take no page away, as
    every callback built from the operations of the package does. *)
Definition hooksKeep (hk : Hooks) : Prop :=
  forall fn f f',
    headerFnc hk = Some fn \/ footerFnc hk = Some fn ->
    fn f = Ok f' ->
    Fpdf.page f <= Fpdf.page f' /\ Fpdf.n f' = Fpdf.n f.

(** [f'] comes from [f] by adding the text [s] to the main buffer. *)
Definition Emit (s : string) (f f' : Fpdf.t) : Prop :=
  Fpdf.state f' = Fpdf.state f /\ Fpdf.page f' = Fpdf.page f /\
  Fpdf.n f' = Fpdf.n f /\ Fpdf.offsets f' = Fpdf.offsets f /\
  Fpdf.buffer f' = Fpdf.buffer f ++ s.

(** A step that, run outside a page, only adds text to the main buffer. *)
Definition EmitStep (f : Fpdf.t) (p : result Fpdf.t) : Prop :=
  Fpdf.state f <> 2 -> forall f', p = Ok f' -> exists s, Emit s f f'.

(** The text of the pages root up to the count of the pages, and the first
    lines of the resource dictionary. *)
Definition pagesRoot (nb : Z) : string :=
  "<</Type /Pages" ++ nl ++ putkids nb ++ nl ++ "/Count " ++ dec nb ++ nl.

Definition resourceHead : string :=
  "<<" ++ nl ++ "/ProcSet [/PDF /Text /ImageB /ImageC /ImageI]" ++ nl ++ "/Font <<" ++ nl.

(** The objects of a document serialized with [nb] pages: every number from
    1 to [n] has its object at the offset recorded for it; object 1 is the
    pages root and object 2 the resource dictionary; page [i] is object
    [3 + 2i], its content object following at once; the numbers from 3 on
    follow the order in which the objects were written; the pages root was
    written after the objects of the pages and before every other object,
    the resource dictionary after the pages root. *)
Definition objectGraph (nb : Z) (g : Fpdf.t) : Prop :=
  2 + 2 * nb <= Fpdf.n g /\
  (forall j, 1 <= j <= Fpdf.n g ->
             objectAt g j "" /\ 0 <= offsetOf g j < len (Fpdf.buffer g)) /\
  objectAt g 1 (pagesRoot nb) /\
  objectAt g 2 resourceHead /\
  (forall i, 0 <= i < nb -> pageAt g i) /\
  (forall j, 3 <= j < Fpdf.n g -> offsetOf g j < offsetOf g (j + 1)) /\
  (forall j, 3 <= j <= 2 + 2 * nb -> offsetOf g j < offsetOf g 1) /\
  (forall j, 3 <= j -> 2 + 2 * nb < j <= Fpdf.n g -> offsetOf g 1 < offsetOf g j) /\
  offsetOf g 1 < offsetOf g 2.

(** [g] has the object counter of [f] and no page less. *)
Definition Keeps (f g : Fpdf.t) : Prop :=
  Fpdf.page f <= Fpdf.page g /\ Fpdf.n g = Fpdf.n f.

(** A step that leaves the object counter alone and takes no page away. *)
Definition KeepStep {A : Type} (proj : A -> Fpdf.t) (f : Fpdf.t) (p : result A) : Prop :=
  forall a, p = Ok a -> Keeps f (proj a).

(** The document a step of the serializer ends in, when that is all it
    returns. *)
Definition here : Fpdf.t -> Fpdf.t := fun f => f.

(** What the loop over the pixels of a row does, told on the bytes that lie
    ahead of the position [len pre]: [n] colour bytes and one alpha byte per
    pixel go to the ends of the two streams. *)
Definition pixelsSpec
  (pixels : string -> nat -> Z -> string -> string -> result (string * string))
  (n : nat) : Prop :=
  forall (width : nat) (pre rest color alpha : string),
    len (pre ++ rest) < 2 ^ 63 ->
    (S n * width <= String.length rest)%nat ->
    exists C A,
      pixels (pre ++ rest) width (len pre) color alpha = Ok (color ++ C, alpha ++ A) /\
      String.length C = (n * width)%nat /\
      String.length A = width /\
      mergePixels n width C A = takeS (S n * width) rest.

(** Numbering that is sequential in emission order, taken by the letter:
    every object lies before the object with the next number. *)
Definition emissionOrdered (f : Fpdf.t) : Prop :=
  forall j, 1 <= j < Fpdf.n f -> offsetOf f j < offsetOf f (j + 1).

(** A new document without pages, and the two-page document closed. *)
Definition blankDoc : Fpdf.t := SetCompression false (New sampleEnv "P" "mm" "A4" "").

Definition linkedClosed : Fpdf.t := stateOf (Close sampleEnv defaultHooks linkedDoc).

(** ** The lines of a multi-line cell, read off the text *)

(** The part [s[j:i]] of the text. *)
Definition seg (s : string) (j i : Z) : string :=
  String.substring (Z.to_nat j) (Z.to_nat (i - j)) s.

(** The widths of the bytes of a text, in thousandths of the font size,
    added one by one from the left to [l]. *)
Fixpoint scanWidth (cw : list Z) (s : string) (l : float) : float :=
  match s with
  | EmptyString => l
  | String c s' =>
      scanWidth cw s' (l + float64_of_Z (nth (Z.to_nat (code c)) cw 0%Z))%float
  end.

(** The scan of [MultiCell] as a relation: [mcReach x y] when the loop, with
    the variables and the document [x] at the head of a turn, comes to [y]
    at the head of a later turn. *)
Inductive mcReach (env : Env) (hk : Hooks) (w h : float) (s borderStr b2 alignStr : string)
  (fill : bool) (wmax : float) (nb : Z) : mc.t * Fpdf.t -> mc.t * Fpdf.t -> Prop :=
| mcReach_here : forall x, mcReach env hk w h s borderStr b2 alignStr fill wmax nb x x
| mcReach_turn : forall v f v' f' x,
    mc.i v < nb ->
    MultiCell_step env hk w h s borderStr b2 alignStr fill wmax v f = Ok (v', f') ->
    mcReach env hk w h s borderStr b2 alignStr fill wmax nb (v', f') x ->
    mcReach env hk w h s borderStr b2 alignStr fill wmax nb (v, f) x.

(** What the variables of the scan stand for, with [j] the start of the line
    and [i] the byte the scan is at: [l] is the width of the bytes of the
    line read so far and [ns] the number of blanks among them; [sep] is -1
    when there is none, and otherwise the place of the last one, with [ls]
    the width of the bytes before it. *)
Definition mcLine (s : string) (x : mc.t * Fpdf.t) : Prop :=
  let v := fst x in
  let cw := fontDefType.Cw (Fpdf.currentFont (snd x)) in
  0 <= mc.j v /\ mc.j v <= mc.i v /\ mc.i v <= len s /\
  mc.l v = scanWidth cw (seg s (mc.j v) (mc.i v)) 0 /\
  mc.ns v = blankCount (seg s (mc.j v) (mc.i v)) /\
  (mc.sep v = -1 -> mc.ns v = 0) /\
  (mc.sep v <> -1 ->
   mc.j v <= mc.sep v /\ mc.sep v < mc.i v /\
   byteAt s (mc.sep v) = Ok " "%char /\
   blankCount (seg s (mc.sep v + 1) (mc.i v)) = 0 /\
   mc.ls v = scanWidth cw (seg s (mc.j v) (mc.sep v)) 0).

(** ** Link annotations, as the specification describes them *)

(** The default page height in points: the height of the default page size,
    or its width when the default orientation is not portrait. *)
Definition defaultHeightPt (f : Fpdf.t) : float :=
  if (Fpdf.defOrientation f =? "P")%string
  then (sizeType.ht (Fpdf.defPageSize f) * Fpdf.k f)%float
  else (sizeType.wd (Fpdf.defPageSize f) * Fpdf.k f)%float.

(** [a] is the annotation of the link [pl] of a page of [f].  An external
    link (link number 0) embeds the URI as a literal string.  An internal
    link leads to the entry [l] of the link table: the height is that of the
    override size of page [l.page] if the page has one and the default page
    height otherwise, the destination is object [1 + 2 * l.page] and its Y
    coordinate is the height minus [l.y] times the scale factor. *)
Definition linkAnnotation (f : Fpdf.t) (pl : linkType.t) (a : string) : Prop :=
  if linkType.link pl =? 0 then
    a = annotRect pl ++ "/A <</S /URI /URI (" ++ escape (linkType.linkStr pl) ++ ")>>>>"
  else
    exists l : intLinkType.t,
      idx (Fpdf.links f) (linkType.link pl) = Ok l /\
      let height :=
        match zget (Fpdf.pageSizes f) (intLinkType.page l) with
        | Some sz => sizeType.ht sz
        | None => defaultHeightPt f
        end in
      a = annotRect pl ++ "/Dest [" ++ dec (1 + 2 * intLinkType.page l) ++
          " 0 R /XYZ 0 " ++ f2 (height - intLinkType.y l * Fpdf.k f) ++ " null]>>".

(** What the annotations are made from: the link table, the links and the
    override sizes of the pages, the scale factor and the default page
    size and orientation. *)
Definition linkData (f : Fpdf.t) :=
  (Fpdf.links f, Fpdf.pageLinks f, Fpdf.pageSizes f, Fpdf.k f,
   Fpdf.defOrientation f, Fpdf.defPageSize f).

(** The linked document when [Close] hands it to [putpages]: the last page
    ended, the header of the file written. *)
Definition linkedHeader : Fpdf.t := stateOf (putheader (endpage linkedDoc)).

(** ** Reading a decimal number *)

(** The number that a string of decimal digits spells, most significant
    digit first; [None] for the empty string and for a string that holds
    any other byte. *)
Fixpoint readDec_from (acc : Z) (s : string) : option Z :=
  match s with
  | EmptyString => Some acc
  | String c s' =>
      let d := code c - 48 in
      if (0 <=? d) && (d <=? 9) then readDec_from (acc * 10 + d) s' else None
  end.

Definition readDec (s : string) : option Z :=
  match s with
  | EmptyString => None
  | _ => readDec_from 0 s
  end.

(** A document about to write its cross-reference table whose third object
    was recorded at byte 10^10, as it is in a file with ten thousand million
    bytes before that object.  The table is made from the recorded offsets
    alone, so the bytes themselves are left out. *)
Definition farDoc : Fpdf.t :=
  Fpdf.set_offsets [0; 9; 120; 10 ^ 10]
    (Fpdf.set_n 3 (Fpdf.set_state 1 (New sampleEnv "P" "mm" "A4" ""))).

(** ** Invariants of a document under construction *)

(** A step that keeps the property [P] of the document: if [P] holds before,
    it holds of the document the step ends in. *)
Definition Preserves (P : Fpdf.t -> Prop) {A : Type} (proj : A -> Fpdf.t)
  (f : Fpdf.t) (p : result A) : Prop :=
  P f -> forall a, p = Ok a -> P (proj a).

(** Callbacks that keep [P]. *)
Definition hooksPreserve (P : Fpdf.t -> Prop) (hk : Hooks) : Prop :=
  (forall fn f f',
      headerFnc hk = Some fn \/ footerFnc hk = Some fn ->
      fn f = Ok f' -> P f -> P f') /\
  (forall f b f', acceptPageBreak hk f = Ok (b, f') -> P f -> P f').

Unset Implicit Arguments.

(** ** Errors set by the application *)

(** Set error to halt PDF generation; [err] is [None] for a nil error. *)
Definition SetError (err : option string) (f : Fpdf.t) : Fpdf.t :=
  if isNil (Fpdf.err f) && nonNil err then Fpdf.set_err err f else f.

(** [SetErrorf]; [msg] is the formatted text. *)
Definition SetErrorf (msg : string) (f : Fpdf.t) : Fpdf.t :=
  if isNil (Fpdf.err f) then Fpdf.set_err (Some msg) f else f.

(** ** Getters *)

Definition PageNo (f : Fpdf.t) : Z := Fpdf.page f.
Definition GetX (f : Fpdf.t) : float := Fpdf.x f.
Definition GetY (f : Fpdf.t) : float := Fpdf.y f.

(** Defines an alias for the total number of pages. *)
Definition AliasNbPages (aliasStr : string) (f : Fpdf.t) : Fpdf.t :=
  let aliasStr := if (aliasStr =? "")%string then "{nb}" else aliasStr in
  Fpdf.set_aliasNbPagesStr aliasStr f.

Definition _getpagesize (size : sizeType.t) : sizeType.t :=
  if fgt (sizeType.wd size) (sizeType.ht size)
  then sizeType.mk (sizeType.ht size) (sizeType.wd size)
  else size.

(** ** Drawing *)

(** Defines the line cap style. *)
Definition SetLineCapStyle (styleStr : string) (f : Fpdf.t) : result Fpdf.t :=
  let capStyle :=
    if (styleStr =? "round")%string then 1
    else if (styleStr =? "square")%string then 2
    else 0 in
  if negb (capStyle =? Fpdf.capStyle f) then
    let f := Fpdf.set_capStyle capStyle f in
    if 0 <? Fpdf.page f then out (dec (Fpdf.capStyle f) ++ " J") f else Ok f
  else Ok f.

(** Draws a line between points (x1, y1) and (x2, y2). *)
Definition Line (x1 y1 x2 y2 : float) (f : Fpdf.t) : result Fpdf.t :=
  out (f2 (x1 * Fpdf.k f) ++ " " ++ f2 ((Fpdf.h f - y1) * Fpdf.k f) ++ " m " ++
       f2 (x2 * Fpdf.k f) ++ " " ++ f2 ((Fpdf.h f - y2) * Fpdf.k f) ++ " l S") f.

Definition fillDrawOp (env : Env) (styleStr : string) : string :=
  let s := toUpper env styleStr in
  if (s =? "F")%string then "f"
  else if (s =? "FD")%string || (s =? "DF")%string then "B"
  else "S".

(** Outputs a rectangle. *)
Definition Rect (env : Env) (x y w h : float) (styleStr : string) (f : Fpdf.t)
  : result Fpdf.t :=
  out (f2 (x * Fpdf.k f) ++ " " ++ f2 ((Fpdf.h f - y) * Fpdf.k f) ++ " " ++
       f2 (w * Fpdf.k f) ++ " " ++ f2 ((- h) * Fpdf.k f) ++ " re " ++
       fillDrawOp env styleStr) f.

(** Outputs current point. *)
Definition point (x y : float) (f : Fpdf.t) : result Fpdf.t :=
  out (f2 (x * Fpdf.k f) ++ " " ++ f2 ((Fpdf.h f - y) * Fpdf.k f) ++ " m") f.

(** Outputs a curve from the current point. *)
Definition curve (cx0 cy0 x1 y1 cx1 cy1 : float) (f : Fpdf.t) : result Fpdf.t :=
  out (f2 (cx0 * Fpdf.k f) ++ " " ++ f2 ((Fpdf.h f - cy0) * Fpdf.k f) ++ " " ++
       f2 (x1 * Fpdf.k f) ++ " " ++ f2 ((Fpdf.h f - y1) * Fpdf.k f) ++ " " ++
       f2 (cx1 * Fpdf.k f) ++ " " ++ f2 ((Fpdf.h f - cy1) * Fpdf.k f) ++ " c") f.

(** Draws a single-segment Bezier curve with one control point. *)
Definition Curve (env : Env) (x0 y0 cx cy x1 y1 : float) (styleStr : string)
  (f : Fpdf.t) : result Fpdf.t :=
  f <- point x0 y0 f ;;
  out (f2 (cx * Fpdf.k f) ++ " " ++ f2 ((Fpdf.h f - cy) * Fpdf.k f) ++ " " ++
       f2 (x1 * Fpdf.k f) ++ " " ++ f2 ((Fpdf.h f - y1) * Fpdf.k f) ++ " v " ++
       fillDrawOp env styleStr) f.

(** Draws a single-segment cubic Bezier curve. *)
Definition CurveCubic (env : Env) (x0 y0 cx0 cy0 cx1 cy1 x1 y1 : float)
  (styleStr : string) (f : Fpdf.t) : result Fpdf.t :=
  f <- point x0 y0 f ;;
  out (f2 (cx0 * Fpdf.k f) ++ " " ++ f2 ((Fpdf.h f - cy0) * Fpdf.k f) ++ " " ++
       f2 (x1 * Fpdf.k f) ++ " " ++ f2 ((Fpdf.h f - y1) * Fpdf.k f) ++ " " ++
       f2 (cx1 * Fpdf.k f) ++ " " ++ f2 ((Fpdf.h f - cy1) * Fpdf.k f) ++ " c " ++
       fillDrawOp env styleStr) f.

(** ** Links and text at a position *)

(** Puts a link on a rectangular area of the page. *)
Definition Link (x y w h : float) (link : Z) (f : Fpdf.t) : result Fpdf.t :=
  newLink x y w h link "" f.

Definition LinkString (x y w h : float) (linkStr : string) (f : Fpdf.t)
  : result Fpdf.t :=
  newLink x y w h 0 linkStr f.

(** Prints a character string. *)
Definition Text (x y : float) (txtStr : string) (f : Fpdf.t) : result Fpdf.t :=
  let s := "BT " ++ f2 (x * Fpdf.k f) ++ " " ++ f2 ((Fpdf.h f - y) * Fpdf.k f) ++
           " Td (" ++ escape txtStr ++ ") Tj ET" in
  s <- (if Fpdf.underline f && negb (txtStr =? "")%string then
          u <- dounderline x y txtStr f ;; Ok (s ++ " " ++ u)
        else Ok s) ;;
  let s := if Fpdf.colorFlag f then "q " ++ Fpdf.textColor f ++ " " ++ s ++ " Q" else s in
  out s f.

(** ** Text in flowing mode *)

(** The variables of the scan of [write]. *)
Module wr.
Record t : Type := mk {
  sep : Z; i : Z; j : Z; l : float; nl : Z; w : float; wmax : float }.
End wr.

(** The width that is left on the line and the maximum width of its text,
    from the cursor. *)
Definition lineRoom (f : Fpdf.t) : float * float :=
  let w := (Fpdf.w f - Fpdf.rMargin f - Fpdf.x f)%float in
  (w, ((w - 2 * Fpdf.cMargin f) * 1000 / Fpdf.fontSize f)%float).

(** The bookkeeping after every emitted line: after the first line the next
    ones start at the left margin. *)
Definition wrNextLine (i : Z) (v : wr.t) (f : Fpdf.t) : wr.t * Fpdf.t :=
  if wr.nl v =? 1 then
    let f := Fpdf.set_x (Fpdf.lMargin f) f in
    let '(w, wmax) := lineRoom f in
    (wr.mk (-1) i i 0 (wr.nl v + 1) w wmax, f)
  else (wr.mk (-1) i i 0 (wr.nl v + 1) (wr.w v) (wr.wmax v), f).

(** One turn of the loop [for i < nb]. *)
Definition write_step (env : Env) (hk : Hooks) (h : float) (s : string) (link : Z)
  (linkStr : string) (v : wr.t) (f : Fpdf.t) : result (wr.t * Fpdf.t) :=
  (* Get next character *)
  c <- byteAt s (wr.i v) ;;
  if Ascii.eqb c newline then
    (* Explicit line break *)
    seg <- slice s (wr.j v) (wr.i v) ;;
    f <- CellFormat env hk (wr.w v) h seg "" 2 "" false link linkStr f ;;
    Ok (wrNextLine (wr.i v + 1) v f)
  else
    let sep := if Ascii.eqb c " " then wr.i v else wr.sep v in
    cwc <- cwAt (fontDefType.Cw (Fpdf.currentFont f)) (code c) ;;
    let l := (wr.l v + float64_of_Z cwc)%float in
    if fgt l (wr.wmax v) then
      (* Automatic line break *)
      if sep =? -1 then
        if fgt (Fpdf.x f) (Fpdf.lMargin f) then
          (* Move to next line *)
          let f := Fpdf.set_x (Fpdf.lMargin f) f in
          let f := Fpdf.set_y (Fpdf.y f + h) f in
          let '(w, wmax) := lineRoom f in
          Ok (wr.mk sep (wr.i v + 1) (wr.j v) l (wr.nl v + 1) w wmax, f)
        else
          let i := if wr.i v =? wr.j v then wr.i v + 1 else wr.i v in
          seg <- slice s (wr.j v) i ;;
          f <- CellFormat env hk (wr.w v) h seg "" 2 "" false link linkStr f ;;
          Ok (wrNextLine i v f)
      else
        seg <- slice s (wr.j v) sep ;;
        f <- CellFormat env hk (wr.w v) h seg "" 2 "" false link linkStr f ;;
        Ok (wrNextLine (sep + 1) v f)
    else
      Ok (wr.mk sep (wr.i v + 1) (wr.j v) l (wr.nl v) (wr.w v) (wr.wmax v), f).

(** The loop, for at most [fuel] turns; [None] when the fuel runs out before
    the scan index reaches [nb]. *)
Fixpoint write_loop (fuel : nat) (env : Env) (hk : Hooks) (h : float) (s : string)
  (link : Z) (linkStr : string) (nb : Z) (v : wr.t) (f : Fpdf.t)
  : option (result (wr.t * Fpdf.t)) :=
  if wr.i v <? nb then
    match fuel with
    | O => None
    | S fuel' =>
        match write_step env hk h s link linkStr v f with
        | Ok (v', f') => write_loop fuel' env hk h s link linkStr nb v' f'
        | Panic m => Some (Panic m)
        end
    end
  else Some (Ok (v, f)).

(** Output text in flowing mode. *)
Definition write (fuel : nat) (env : Env) (hk : Hooks) (h : float) (txtStr : string)
  (link : Z) (linkStr : string) (f : Fpdf.t) : option (result Fpdf.t) :=
  let '(w, wmax) := lineRoom f in
  let s := replaceAll txtStr cr "" in
  let nb := len s in
  match write_loop fuel env hk h s link linkStr nb (wr.mk (-1) 0 0 0 1 w wmax) f with
  | None => None
  | Some (Panic m) => Some (Panic m)
  | Some (Ok (v, f)) =>
      Some (
        (* Last chunk *)
        if negb (wr.i v =? wr.j v) then
          seg <- slice s (wr.j v) (len s) ;;
          CellFormat env hk (wr.l v / 1000 * Fpdf.fontSize f) h seg "" 0 "" false
            link linkStr f
        else Ok f)
  end.

(** Prints text from the current position. *)
Definition Write (fuel : nat) (env : Env) (hk : Hooks) (h : float) (txtStr : string)
  (f : Fpdf.t) : option (result Fpdf.t) :=
  write fuel env hk h txtStr 0 "" f.

Definition WriteLinkString (fuel : nat) (env : Env) (hk : Hooks) (h : float)
  (displayStr targetStr : string) (f : Fpdf.t) : option (result Fpdf.t) :=
  write fuel env hk h displayStr 0 targetStr f.

Definition WriteLinkId (fuel : nat) (env : Env) (hk : Hooks) (h : float)
  (displayStr : string) (linkId : Z) (f : Fpdf.t) : option (result Fpdf.t) :=
  write fuel env hk h displayStr linkId "" f.

(** ** Sample values for the further properties *)

(** A writer that takes four bytes and then fails, such as a file on a full
    disk. *)
Definition fullDisk : Writer :=
  mkWriter "" (fun p => (4%nat, Some "no space left on device")).

(** ** Reading a literal string back

    A reader of the literal strings that [textstring] writes: after the
    opening parenthesis a backslash announces an escaped byte (the letter r
    standing for a carriage return, any other byte for itself), and the first
    parenthesis that is not escaped closes the string.  The result is the
    text and what follows the closing parenthesis. *)

Fixpoint mapBytes (g : ascii -> string) (s : string) : string :=
  match s with
  | EmptyString => EmptyString
  | String c s' => g c ++ mapBytes g s'
  end.

Definition consFst (c : ascii) (r : option (string * string)) : option (string * string) :=
  match r with
  | Some (t, rest) => Some (String c t, rest)
  | None => None
  end.

Fixpoint readBody (esc : bool) (s : string) : option (string * string) :=
  match s with
  | EmptyString => None
  | String c s' =>
      if esc then
        consFst (if Ascii.eqb c "r" then ascii_of_nat 13 else c) (readBody false s')
      else if Ascii.eqb c (ascii_of_nat 92) then readBody true s'
      else if Ascii.eqb c ")" then Some (EmptyString, s')
      else consFst c (readBody false s')
  end.

Definition readLiteral (s : string) : option (string * string) :=
  match s with
  | String c s' => if Ascii.eqb c "(" then readBody false s' else None
  | EmptyString => None
  end.

(** What [escape] makes of one byte. *)
Definition escapeByte (c : ascii) : string :=
  if Ascii.eqb c (ascii_of_nat 92) then bslash ++ bslash
  else if Ascii.eqb c "(" then bslash ++ "("
  else if Ascii.eqb c ")" then bslash ++ ")"
  else if Ascii.eqb c (ascii_of_nat 13) then bslash ++ "r"
  else String c EmptyString.

(** ** Invariants of a document under construction *)

(** The counters and the page tables: the object counter, the number of the
    current page and the slices of page contents and page links, which the
    code indexes by page number. *)
Definition tables (f : Fpdf.t) : Z * Z * list string * list (list linkType.t) :=
  (Fpdf.n f, Fpdf.page f, Fpdf.pages f, Fpdf.pageLinks f).

(** A document under construction: no object number is taken beyond the two
    reserved ones, and both slices have an entry for every page up to the
    current one (the entry 0 is not used). *)
Definition docInv (f : Fpdf.t) : Prop :=
  Fpdf.n f = 2 /\
  0 <= Fpdf.page f /\
  llen (Fpdf.pages f) = Fpdf.page f + 1 /\
  llen (Fpdf.pageLinks f) = Fpdf.page f + 1.

(** The scan of [write]: what holds of its variables at every turn, and the
    quantity that goes down with every turn.  [nb] is the length of the
    text. *)
Definition wrInv (nb : Z) (v : wr.t) : Prop :=
  0 <= wr.j v /\ wr.j v <= wr.i v /\ wr.i v <= nb /\
  (wr.sep v = -1 \/ (wr.j v <= wr.sep v /\ wr.sep v <= wr.i v)).

Definition wrMeasure (nb : Z) (v : wr.t) : Z :=
  (nb - wr.j v) * (nb + 1) + (nb - wr.i v).

(** Fuel that is enough for a text: the square of its length plus one. *)
Definition wrFuel (txtStr : string) : nat :=
  let nb := len (replaceAll txtStr cr "") in S (Z.to_nat ((nb + 1) * (nb + 1))).

(** The key under which [AddFont] files a font: the family in lower case
    followed by the style in upper case, "IB" written "BI". *)
Definition fontKey (env : Env) (familyStr styleStr : string) : string :=
  let styleStr := toUpper env styleStr in
  toLower env familyStr ++ (if (styleStr =? "IB")%string then "BI" else styleStr).

(** The document carries the error [e]. *)
Definition errorIs (e : string) (f : Fpdf.t) : Prop := Fpdf.err f = Some e.

(** The cursor and the left margin it returns to. *)
Definition cursor (f : Fpdf.t) : float * float * float :=
  (Fpdf.x f, Fpdf.y f, Fpdf.lMargin f).

(** The widths of the bytes of [s] added one by one to [l], as the scan of
    [write] adds them; [None] when the text holds a line feed or when the
    sum, at some byte, is more than [wmax]. *)
Fixpoint scanLine (cw : list Z) (wmax : float) (s : string) (l : float) : option float :=
  match s with
  | EmptyString => Some l
  | String c s' =>
      if Ascii.eqb c newline then None
      else
        let l := (l + float64_of_Z (nth (Z.to_nat (code c)) cw 0%Z))%float in
        if fgt l wmax then None else scanLine cw wmax s' l
  end.

(** The colours of a document: for drawing, for filling and for text, and
    the flag that tells the last two apart. *)
Definition colours (f : Fpdf.t) : string * string * string * bool :=
  (Fpdf.drawColor f, Fpdf.fillColor f, Fpdf.textColor f, Fpdf.colorFlag f).

(** Callbacks with a header that draws in red. *)
Definition redHeader : Hooks :=
  mkHooks (Some (fun f => SetDrawColor 255 0 0 f)) None
    (fun f => Ok (Fpdf.autoPageBreak f, f)).

Set Implicit Arguments.

(** * Properties *)

Unset Implicit Arguments.

(** ** General facts about outcomes and strings *)

Lemma nonNil_true (e : option string) : e <> None -> nonNil e = true.
Proof. destruct e; [reflexivity | congruence]. Qed.

Lemma nonNil_false (e : option string) : e = None -> nonNil e = false.
Proof. intros ->. reflexivity. Qed.

Lemma bind_Ok {A B : Type} (r : result A) (k : A -> result B) (b : B) :
  bind r k = Ok b -> exists a, r = Ok a /\ k a = Ok b.
Proof. destruct r as [a | m]; simpl; [eauto | discriminate]. Qed.

Lemma append_nil_r (s : string) : s ++ "" = s.
Proof. induction s as [| c s IH]; simpl; [reflexivity | now rewrite IH]. Qed.

Lemma append_assoc (a b c : string) : (a ++ b) ++ c = a ++ (b ++ c).
Proof. induction a as [| x a IH]; simpl; [reflexivity | now rewrite IH]. Qed.

Lemma length_append (a b : string) :
  String.length (a ++ b) = (String.length a + String.length b)%nat.
Proof. induction a as [| x a IH]; simpl; [reflexivity | now rewrite IH]. Qed.

Lemma len_append (a b : string) : len (a ++ b) = len a + len b.
Proof. unfold len. rewrite length_append. lia. Qed.

Lemma len_nonneg (s : string) : 0 <= len s.
Proof. unfold len. lia. Qed.

Lemma substring_all (s : string) : String.substring 0 (String.length s) s = s.
Proof. induction s as [| c s IH]; simpl; [reflexivity | now rewrite IH]. Qed.

Lemma substring_none (s : string) : String.substring (String.length s) 0 s = "".
Proof. induction s as [| c s IH]; simpl; [reflexivity | exact IH]. Qed.

Lemma substring_length (s : string) :
  forall n m : nat,
    String.length (String.substring n m s) = Nat.min m (String.length s - n).
Proof.
  induction s as [| c s IH]; intros n m.
  - destruct n, m; reflexivity.
  - destruct n as [| n].
    + destruct m as [| m]; [reflexivity |]. simpl. now rewrite IH, Nat.sub_0_r.
    + simpl. apply IH.
Qed.

(** ** The error latch *)

Section Latch.
Variable env : Env.
Variable hk : Hooks.
Variable f : Fpdf.t.
Hypothesis latched : Fpdf.err f <> None.

Let guard : nonNil (Fpdf.err f) = true := nonNil_true _ latched.

Lemma CellFormat_latched w h txtStr borderStr ln alignStr fill link linkStr :
  CellFormat env hk w h txtStr borderStr ln alignStr fill link linkStr f = Ok f.
Proof using latched. unfold CellFormat. rewrite guard. reflexivity. Qed.

Lemma Cell_latched w h txtStr : Cell env hk w h txtStr f = Ok f.
Proof using latched. apply CellFormat_latched. Qed.

Lemma AddPageFormat_latched orientationStr size :
  AddPageFormat env hk orientationStr size f = Ok f.
Proof using latched. unfold AddPageFormat. rewrite guard. reflexivity. Qed.

Lemma AddPage_latched : AddPage env hk f = Ok f.
Proof using latched. unfold AddPage. rewrite guard. reflexivity. Qed.

Lemma AddFont_latched familyStr styleStr fileStr :
  AddFont env familyStr styleStr fileStr f = Ok f.
Proof using latched. unfold AddFont. rewrite guard. reflexivity. Qed.

Lemma SetFont_latched familyStr styleStr size :
  SetFont env familyStr styleStr size f = Ok f.
Proof using latched. unfold SetFont. rewrite guard. reflexivity. Qed.

Lemma SetDisplayMode_latched zoomStr layoutStr :
  SetDisplayMode zoomStr layoutStr f = f.
Proof using latched. unfold SetDisplayMode. rewrite guard. reflexivity. Qed.

Lemma Image_latched fileStr x y w h flow tp link linkStr :
  Image env hk fileStr x y w h flow tp link linkStr f = Ok f.
Proof using latched. unfold Image. rewrite guard. reflexivity. Qed.

Lemma Close_latched : Close env hk f = Ok f.
Proof using latched. unfold Close. rewrite guard. reflexivity. Qed.

Lemma Output_latched wr : Output env hk wr f = Ok (wr, f, Fpdf.err f).
Proof using latched. unfold Output. rewrite guard. reflexivity. Qed.
End Latch.

(** The setters of colours, margins and cursor do not look at the latch:
    what they store does not depend on it. *)

Lemma SetDrawColor_stores r g b f f' :
  SetDrawColor r g b f = Ok f' -> Fpdf.drawColor f' = colorString r g b "G" "RG".
Proof.
  unfold SetDrawColor, out. intros H.
  destruct (0 <? Fpdf.page _); [| inversion H; reflexivity].
  destruct (Fpdf.state _ =? 2).
  - apply bind_Ok in H. destruct H as (pg & _ & H).
    apply bind_Ok in H. destruct H as (ps & _ & H).
    inversion H. reflexivity.
  - inversion H. reflexivity.
Qed.

Lemma SetTextColor_stores r g b f :
  Fpdf.textColor (SetTextColor r g b f) = colorString r g b "g" "rg".
Proof. reflexivity. Qed.

Lemma SetMargins_stores left top right f :
  Fpdf.lMargin (SetMargins left top right f) = left /\
  Fpdf.tMargin (SetMargins left top right f) = top.
Proof. split; reflexivity. Qed.

Lemma SetY_stores y f :
  Fpdf.x (SetY y f) = Fpdf.lMargin f /\
  Fpdf.y (SetY y f) = if fge y 0 then y else (Fpdf.h f + y)%float.
Proof. unfold SetY. destruct (fge y 0); split; reflexivity. Qed.

(** C1 (amended): the operations that test the latch on entry, which are
    CellFormat, Cell, AddPageFormat, AddPage, AddFont, SetFont,
    SetDisplayMode, Image, Close and Output, return at once when an error is
    latched and leave the whole document as it was (Output hands back the
    latched error and writes nothing).  The setters of colours, margins and
    cursor do not test the latch: they store their argument whatever it is. *)
Theorem latched_error_stops_guarded_operations :
  forall (env : Env) (hk : Hooks) (f : Fpdf.t),
    Fpdf.err f <> None ->
    (forall w h txtStr borderStr ln alignStr fill link linkStr,
        CellFormat env hk w h txtStr borderStr ln alignStr fill link linkStr f = Ok f) /\
    (forall w h txtStr, Cell env hk w h txtStr f = Ok f) /\
    (forall orientationStr size, AddPageFormat env hk orientationStr size f = Ok f) /\
    AddPage env hk f = Ok f /\
    (forall familyStr styleStr fileStr, AddFont env familyStr styleStr fileStr f = Ok f) /\
    (forall familyStr styleStr size, SetFont env familyStr styleStr size f = Ok f) /\
    (forall zoomStr layoutStr, SetDisplayMode zoomStr layoutStr f = f) /\
    (forall fileStr x y w h flow tp link linkStr,
        Image env hk fileStr x y w h flow tp link linkStr f = Ok f) /\
    Close env hk f = Ok f /\
    (forall wr, Output env hk wr f = Ok (wr, f, Fpdf.err f)) /\
    (forall r g b f', SetDrawColor r g b f = Ok f' ->
                      Fpdf.drawColor f' = colorString r g b "G" "RG") /\
    (forall r g b, Fpdf.textColor (SetTextColor r g b f) = colorString r g b "g" "rg") /\
    (forall left top right, Fpdf.lMargin (SetMargins left top right f) = left) /\
    (forall y, Fpdf.x (SetY y f) = Fpdf.lMargin f).
Proof.
  intros env hk f latched.
  repeat split; intros.
  - now apply CellFormat_latched.
  - now apply Cell_latched.
  - now apply AddPageFormat_latched.
  - now apply AddPage_latched.
  - now apply AddFont_latched.
  - now apply SetFont_latched.
  - now apply SetDisplayMode_latched.
  - now apply Image_latched.
  - now apply Close_latched.
  - now apply Output_latched.
  - eapply SetDrawColor_stores; eassumption.
  - apply SetY_stores.
Qed.

(** The latch of [undefinedFontDoc] is set, and closing it changes nothing. *)
Lemma latched_error_witness :
  Fpdf.err undefinedFontDoc <> None /\
  Close sampleEnv defaultHooks undefinedFontDoc = Ok undefinedFontDoc /\
  (forall wr, Output sampleEnv defaultHooks wr undefinedFontDoc
              = Ok (wr, undefinedFontDoc, Fpdf.err undefinedFontDoc)).
Proof.
  assert (L : Fpdf.err undefinedFontDoc <> None) by (vm_compute; discriminate).
  split; [exact L |].
  pose proof (latched_error_stops_guarded_operations sampleEnv defaultHooks
                undefinedFontDoc L) as T.
  split; [apply T | apply T].
Defined.

(** With the latch set, [SetDrawColor] still changes the draw colour and
    writes it to the page, and [MultiCell] still moves the cursor back to the
    left margin. *)
Lemma unguarded_operations_change_latched_document :
  Fpdf.err undefinedFontDoc <> None /\
  (exists f', SetDrawColor 255 0 0 undefinedFontDoc = Ok f' /\
              Fpdf.drawColor undefinedFontDoc = "0 G" /\
              Fpdf.drawColor f' = "1.000 0.000 0.000 RG" /\
              Fpdf.pages f' <> Fpdf.pages undefinedFontDoc) /\
  (exists f', MultiCell 8 sampleEnv defaultHooks 40 10 "Hello" "" "" false undefinedFontDoc
              = Some (Ok f') /\
              Fpdf.x f' = Fpdf.lMargin undefinedFontDoc /\
              PrimFloat.ltb (Fpdf.x f') (Fpdf.x undefinedFontDoc) = true).
Proof.
  split; [vm_compute; discriminate |].
  split.
  - eexists. split; [vm_compute; reflexivity |].
    split; [vm_compute; reflexivity |].
    split; [vm_compute; reflexivity |].
    vm_compute. discriminate.
  - eexists. split; [vm_compute; reflexivity |].
    split; vm_compute; reflexivity.
Qed.

(** ** Interning of encoding-difference tables *)

(** The assignment [f.diffs[n] = info.Diff] with [n = len(f.diffs) + 1]
    indexes past the end of the slice. *)
Lemma upd_past_end {A : Type} (l : list A) (v : A) :
  upd l (llen l + 1) v = Panic "index out of range".
Proof.
  unfold upd.
  replace (llen l <=? llen l + 1) with true by (symmetry; apply Z.leb_le; lia).
  now rewrite orb_true_r.
Qed.

(** Whenever [AddFont] loads a definition whose difference table is not in
    the list yet, it panics. *)
Lemma AddFont_new_table_panics (env : Env) (familyStr styleStr fileStr : string)
  (f : Fpdf.t) (buf : string) (info : fontDefType.t) :
  let family := toLower env familyStr in
  let file := if (fileStr =? "")%string
              then replaceAll family " " "" ++ toLower env styleStr ++ ".json"
              else fileStr in
  let style := if (toUpper env styleStr =? "IB")%string then "BI"
               else toUpper env styleStr in
  Fpdf.err f = None ->
  sget (Fpdf.fonts f) (family ++ style) = None ->
  readFile env (pathJoin env (Fpdf.fontpath f) file) = Got buf ->
  unmarshalFont env buf = (info, None) ->
  0 < len (fontDefType.Diff info) ->
  searchDiff (Fpdf.diffs f) (fontDefType.Diff info) 0 < 0 ->
  AddFont env familyStr styleStr fileStr f = Panic "index out of range".
Proof.
  intros family file style Herr Hkey Hread Hjson Hdiff Hnew.
  unfold AddFont. rewrite (nonNil_false _ Herr).
  fold family. fold file. fold style. rewrite Hkey.
  unfold loadfont. rewrite (nonNil_false _ Herr), Hread, Hjson.
  rewrite (nonNil_false _ Herr).
  cbn [fontDefType.Diff fontDefType.set_I].
  replace (0 <? len (fontDefType.Diff info)) with true
    by (symmetry; apply Z.ltb_lt; exact Hdiff).
  replace (searchDiff (Fpdf.diffs f) (fontDefType.Diff info) 0 <? 0) with true
    by (symmetry; apply Z.ltb_lt; exact Hnew).
  rewrite upd_past_end. reflexivity.
Qed.

(** C3: on a fresh document, [AddFont] of a font whose definition carries the
    difference table "128 /Euro" does not complete: the table is new, the
    code stores it at index [len(f.diffs) + 1] of the slice and panics. *)
Theorem AddFont_with_difference_table_panics :
  AddFont euroEnv "euro" "" "" (New euroEnv "P" "mm" "A4" "")
  = Panic "index out of range".
Proof. vm_compute. reflexivity. Qed.

(** ** Output of a closed document *)

(** Writing a buffer to a writer that takes everything appends the buffer to
    what was written and leaves the buffer empty. *)
Lemma WriteTo_all (buf : string) (w : Writer) :
  (forall p, answer w p = (String.length p, None)) ->
  WriteTo buf w = Ok ("", mkWriter (written w ++ buf) (answer w), None).
Proof.
  intros Hw. unfold WriteTo.
  destruct (0 <? len buf) eqn:E.
  - rewrite Hw. rewrite Nat.ltb_irrefl, Nat.eqb_refl. simpl.
    now rewrite substring_all.
  - assert (buf = "") as ->.
    { apply Z.ltb_ge in E. unfold len in E. destruct buf; [reflexivity | simpl in E; lia]. }
    rewrite append_nil_r. destruct w. reflexivity.
Qed.

(** C2 (amended): for a closed document with no latched error and a writer
    that takes every byte, the first Output writes the whole buffer and
    leaves it empty; a second Output in succession writes no byte at all, so
    the two outputs are the same only when the document buffer was empty. *)
Theorem Output_twice_drains_buffer :
  forall (env : Env) (hk : Hooks) (w : Writer) (f : Fpdf.t),
    Fpdf.state f = 3 ->
    Fpdf.err f = None ->
    (forall p, answer w p = (String.length p, None)) ->
    exists w1 f1,
      Output env hk w f = Ok (w1, f1, None) /\
      written w1 = written w ++ Fpdf.buffer f /\
      Fpdf.buffer f1 = "" /\
      Output env hk w1 f1 = Ok (w1, f1, None).
Proof.
  intros env hk w f Hst Herr Hw.
  exists (mkWriter (written w ++ Fpdf.buffer f) (answer w)), (Fpdf.set_buffer "" f).
  assert (First : Output env hk w f
                  = Ok (mkWriter (written w ++ Fpdf.buffer f) (answer w),
                        Fpdf.set_buffer "" f, None)).
  { unfold Output. rewrite (nonNil_false _ Herr), Hst. simpl.
    rewrite (WriteTo_all _ _ Hw). simpl. now rewrite Herr. }
  split; [exact First |]. split; [reflexivity |]. split; [reflexivity |].
  unfold Output. cbn [Fpdf.err Fpdf.state Fpdf.buffer Fpdf.set_buffer].
  rewrite (nonNil_false _ Herr), Hst. simpl.
  rewrite Herr. reflexivity.
Qed.

(** The closed sample document written twice to the sink. *)
Lemma Output_twice_witness :
  exists w1 f1,
    Output sampleEnv defaultHooks sink closedDoc = Ok (w1, f1, None) /\
    written w1 = written sink ++ Fpdf.buffer closedDoc /\
    Fpdf.buffer f1 = "" /\
    Output sampleEnv defaultHooks w1 f1 = Ok (w1, f1, None).
Proof.
  apply (Output_twice_drains_buffer sampleEnv defaultHooks sink closedDoc).
  - vm_compute. reflexivity.
  - vm_compute. reflexivity.
  - intros p. reflexivity.
Defined.

(** Finalizing the closed sample document twice, each time into a fresh
    sink: the first output is the PDF file, the second is empty. *)
Lemma repeated_Output_differs :
  Fpdf.state closedDoc = 3 /\ Fpdf.err closedDoc = None /\
  exists w1 f1 w2 f2,
    Output sampleEnv defaultHooks sink closedDoc = Ok (w1, f1, None) /\
    Output sampleEnv defaultHooks sink f1 = Ok (w2, f2, None) /\
    String.substring 0 8 (written w1) = "%PDF-1.3" /\
    written w2 = "" /\
    written w1 <> written w2.
Proof.
  split; [vm_compute; reflexivity |].
  split; [vm_compute; reflexivity |].
  do 4 eexists.
  split; [vm_compute; reflexivity |].
  split; [vm_compute; reflexivity |].
  split; [vm_compute; reflexivity |].
  split; [vm_compute; reflexivity |].
  vm_compute. discriminate.
Qed.

(** ** Bounded multi-line layout *)

Lemma out_ws (s : string) (f f' : Fpdf.t) :
  out s f = Ok f' -> Fpdf.ws f' = Fpdf.ws f /\ Fpdf.fontSize f' = Fpdf.fontSize f.
Proof.
  unfold out. intros H. destruct (Fpdf.state f =? 2).
  - apply bind_Ok in H. destruct H as (pg & _ & H).
    apply bind_Ok in H. destruct H as (ps & _ & H).
    inversion H. split; reflexivity.
  - inversion H. split; reflexivity.
Qed.

(** *** Termination of the scan *)

Lemma markSpace_inv (nb : Z) (c : ascii) (v : mc.t) :
  mcInv nb v ->
  mcInv nb (markSpace c v) /\
  mc.i (markSpace c v) = mc.i v /\ mc.j (markSpace c v) = mc.j v.
Proof.
  unfold mcInv, markSpace. intros (H0 & H1 & H2 & H3).
  destruct (Ascii.eqb c " "); cbn [mc.i mc.j mc.sep]; repeat split; auto; right; lia.
Qed.

Lemma nextLine_fields (borderStr b2 : string) (i : Z) (v : mc.t) :
  mc.i (nextLine borderStr b2 i v) = i /\
  mc.j (nextLine borderStr b2 i v) = i /\
  mc.sep (nextLine borderStr b2 i v) = -1.
Proof. repeat split; reflexivity. Qed.

(** Every turn keeps the invariant and lowers the measure: a break moves the
    start of the line forward, any other turn moves the scan index. *)
Lemma MultiCell_step_progress (env : Env) (hk : Hooks) (w h : float)
  (s borderStr b2 alignStr : string) (fill : bool) (wmax : float) (nb : Z)
  (v v' : mc.t) (f f' : Fpdf.t) :
  mcInv nb v ->
  mc.i v < nb ->
  MultiCell_step env hk w h s borderStr b2 alignStr fill wmax v f = Ok (v', f') ->
  mcInv nb v' /\ mcMeasure nb v' < mcMeasure nb v.
Proof.
  intros Hinv Hlt Hstep.
  unfold MultiCell_step in Hstep.
  apply bind_Ok in Hstep. destruct Hstep as (c & _ & Hstep).
  destruct (Ascii.eqb c newline).
  - (* explicit line break *)
    apply bind_Ok in Hstep. destruct Hstep as (f1 & _ & Hstep).
    apply bind_Ok in Hstep. destruct Hstep as (seg & _ & Hstep).
    apply bind_Ok in Hstep. destruct Hstep as (f2 & _ & Hstep).
    inversion Hstep; subst v' f'; clear Hstep.
    destruct Hinv as (H0 & H1 & H2 & H3).
    unfold mcInv, mcMeasure.
    destruct (nextLine_fields borderStr b2 (mc.i v + 1) v) as (-> & -> & ->).
    split; [repeat split; try lia; left; reflexivity | nia].
  - destruct (markSpace_inv nb c v Hinv) as (Hinv1 & Hi & Hj).
    remember (markSpace c v) as v1 eqn:Ev1.
    apply bind_Ok in Hstep. destruct Hstep as (cwc & _ & Hstep).
    destruct Hinv1 as (H0 & H1 & H2 & H3).
    destruct (fgt (mc.l v1 + float64_of_Z cwc) wmax).
    + destruct (mc.sep v1 =? -1) eqn:Esep.
      * (* hard break *)
        apply bind_Ok in Hstep. destruct Hstep as (f1 & _ & Hstep).
        apply bind_Ok in Hstep. destruct Hstep as (seg & _ & Hstep).
        apply bind_Ok in Hstep. destruct Hstep as (f2 & _ & Hstep).
        inversion Hstep; subst v' f'; clear Hstep.
        unfold mcInv, mcMeasure.
        match goal with
        | |- context [nextLine borderStr b2 ?i v1] =>
            destruct (nextLine_fields borderStr b2 i v1) as (-> & -> & ->)
        end.
        destruct (mc.i v1 =? mc.j v1) eqn:Eij;
          [apply Z.eqb_eq in Eij | apply Z.eqb_neq in Eij];
          (split; [repeat split; try lia; left; reflexivity | nia]).
      * (* soft break at the last space *)
        apply Z.eqb_neq in Esep.
        apply bind_Ok in Hstep. destruct Hstep as (f1 & _ & Hstep).
        apply bind_Ok in Hstep. destruct Hstep as (seg & _ & Hstep).
        apply bind_Ok in Hstep. destruct Hstep as (f2 & _ & Hstep).
        inversion Hstep; subst v' f'; clear Hstep.
        unfold mcInv, mcMeasure.
        destruct (nextLine_fields borderStr b2 (mc.sep v1 + 1) v1) as (-> & -> & ->).
        destruct H3 as [H3 | H3]; [contradiction |].
        split; [repeat split; try lia; left; reflexivity | nia].
    + (* the character fits *)
      inversion Hstep; subst v' f'; clear Hstep.
      unfold mcInv, mcMeasure. cbn [mc.i mc.j mc.sep].
      split; [repeat split; lia | nia].
Qed.

Lemma MultiCell_loop_terminates (env : Env) (hk : Hooks) (w h : float)
  (s borderStr b2 alignStr : string) (fill : bool) (wmax : float) (nb : Z) :
  forall (fuel : nat) (v : mc.t) (f : Fpdf.t),
    mcInv nb v ->
    mcMeasure nb v < Z.of_nat fuel ->
    MultiCell_loop fuel env hk w h s borderStr b2 alignStr fill wmax nb v f <> None.
Proof.
  induction fuel as [| fuel IH]; intros v f Hinv Hm.
  - exfalso. destruct Hinv as (H0 & H1 & H2 & H3). unfold mcMeasure in Hm. nia.
  - cbn [MultiCell_loop].
    destruct (mc.i v <? nb) eqn:Ei; [| discriminate].
    apply Z.ltb_lt in Ei.
    destruct (MultiCell_step env hk w h s borderStr b2 alignStr fill wmax v f)
      as [[v' f'] | m] eqn:Estep; [| discriminate].
    destruct (MultiCell_step_progress _ _ _ _ _ _ _ _ _ _ _ _ _ _ _ Hinv Ei Estep)
      as [Hinv' Hm'].
    apply IH; [exact Hinv' | lia].
Qed.

(** C5: MultiCell terminates for every text, cell width and width table:
    with fuel for (nb+1)^2 turns, nb the length of the text, the scan never
    runs out of fuel.  In a turn where the width exceeds the maximum and no
    space was seen since the last break, the line emitted is not empty (one
    character is forced through when the line would be empty) and the next
    line starts strictly further in the text. *)
Theorem MultiCell_terminates :
  (forall (env : Env) (hk : Hooks) (w h : float) (txtStr borderStr alignStr : string)
          (fill : bool) (f : Fpdf.t),
      MultiCell (mcFuel txtStr) env hk w h txtStr borderStr alignStr fill f <> None) /\
  (forall (env : Env) (hk : Hooks) (w h : float) (s borderStr b2 alignStr : string)
          (fill : bool) (wmax : float) (v : mc.t) (f : Fpdf.t)
          (c : ascii) (cwc : Z) (r : mc.t * Fpdf.t),
      mc.j v <= mc.i v ->
      byteAt s (mc.i v) = Ok c ->
      c <> newline ->
      cwAt (fontDefType.Cw (Fpdf.currentFont f)) (code c) = Ok cwc ->
      fgt (mc.l (markSpace c v) + float64_of_Z cwc) wmax = true ->
      mc.sep (markSpace c v) = -1 ->
      MultiCell_step env hk w h s borderStr b2 alignStr fill wmax v f = Ok r ->
      mc.j v < mc.j (fst r) /\
      mc.i (fst r) = mc.j (fst r) /\
      mc.j (fst r) = (if mc.i v =? mc.j v then mc.i v + 1 else mc.i v) /\
      exists seg, slice s (mc.j v) (mc.j (fst r)) = Ok seg /\ 0 < len seg).
Proof.
  split.
  - intros env hk w h txtStr borderStr alignStr fill f.
    unfold MultiCell.
    destruct (mcBorders borderStr) as [[border' b] b2].
    match goal with
    | |- context [MultiCell_loop ?fu ?e ?k ?w' ?h' ?s ?bs ?b2' ?al ?fi ?wm ?nb ?v0 ?f0] =>
        pose proof (MultiCell_loop_terminates e k w' h' s bs b2' al fi wm nb fu v0 f0) as T;
        destruct (MultiCell_loop fu e k w' h' s bs b2' al fi wm nb v0 f0)
          as [[[v1 f1] | m] |]
    end; try discriminate.
    exfalso. apply T; [| | reflexivity].
    + unfold mcInv. cbn [mc.i mc.j mc.sep]. pose proof (len_nonneg (mcText txtStr)).
      repeat split; lia.
    + unfold mcMeasure, mcFuel. cbn [mc.i mc.j].
      pose proof (len_nonneg (mcText txtStr)).
      rewrite Nat2Z.inj_succ, Z2Nat.id by nia. nia.
  - intros env hk w h s borderStr b2 alignStr fill wmax v f c cwc r
           Hji Hc Hnl Hcw Hover Hsep Hstep.
    unfold MultiCell_step in Hstep.
    rewrite Hc in Hstep. cbn [bind] in Hstep.
    replace (Ascii.eqb c newline) with false in Hstep
      by (symmetry; apply Ascii.eqb_neq; exact Hnl).
    assert (Hf : mc.j (markSpace c v) = mc.j v /\ mc.i (markSpace c v) = mc.i v).
    { unfold markSpace. destruct (Ascii.eqb c " "); split; reflexivity. }
    destruct Hf as [Hj Hi].
    rewrite Hcw in Hstep. cbn [bind] in Hstep. rewrite Hover, Hsep in Hstep.
    cbn [Z.eqb Pos.eqb] in Hstep.
    apply bind_Ok in Hstep. destruct Hstep as (f1 & _ & Hstep).
    apply bind_Ok in Hstep. destruct Hstep as (seg & Hseg & Hstep).
    apply bind_Ok in Hstep. destruct Hstep as (f2 & _ & Hstep).
    inversion Hstep; subst r; clear Hstep.
    cbn [fst]. rewrite Hi, Hj in *.
    match goal with
    | |- context [nextLine borderStr b2 ?i ?v1] =>
        destruct (nextLine_fields borderStr b2 i v1) as (-> & -> & _)
    end.
    assert (Hlt : mc.j v < (if mc.i v =? mc.j v then mc.i v + 1 else mc.i v)).
    { destruct (mc.i v =? mc.j v) eqn:E;
        [apply Z.eqb_eq in E | apply Z.eqb_neq in E]; lia. }
    repeat split; try assumption.
    exists seg. split; [exact Hseg |].
    unfold slice in Hseg.
    destruct ((mc.j v <? 0) || _ || _) eqn:Eb; [discriminate |].
    apply orb_false_iff in Eb. destruct Eb as [Eb E3].
    apply orb_false_iff in Eb. destruct Eb as [E1 E2].
    apply Z.ltb_ge in E1, E2, E3.
    inversion Hseg as [Hs]. unfold len in *.
    pose proof (substring_length s (Z.to_nat (mc.j v))
                  (Z.to_nat ((if mc.i v =? mc.j v then mc.i v + 1 else mc.i v) - mc.j v)))
      as HL.
    lia.
Qed.

(** The word "abcdef" in a cell 10 mm wide: the scan ends, and the overflow
    at the fourth letter starts the next line three characters further. *)
Lemma MultiCell_terminates_witness :
  MultiCell (mcFuel "abcdef") sampleEnv defaultHooks 10 5 "abcdef" "" "" false textDoc
  <> None /\
  exists r,
    MultiCell_step sampleEnv defaultHooks 10 5 "abcdef" "" "" "J" false tightWmax
      hardVars textDoc = Ok r /\
    mc.j hardVars < mc.j (fst r) /\
    mc.j (fst r) = 3.
Proof.
  split; [apply (proj1 MultiCell_terminates) |].
  destruct (MultiCell_step sampleEnv defaultHooks 10 5 "abcdef" "" "" "J" false tightWmax
              hardVars textDoc) as [r | m] eqn:E;
    [| vm_compute in E; discriminate].
  exists r. split; [reflexivity |].
  destruct (proj2 MultiCell_terminates sampleEnv defaultHooks 10%float 5%float "abcdef"
              "" "" "J"
              false tightWmax hardVars textDoc "d"%char 500 r
              ltac:(vm_compute; discriminate) eq_refl ltac:(discriminate) eq_refl
              eq_refl eq_refl E)
    as (Hlt & _ & Hj & _).
  split; [exact Hlt | exact Hj].
Defined.

(** ** PNG: the alpha channel split is lossless *)

Lemma int_wrap_small (z : Z) : - 2 ^ 63 <= z < 2 ^ 63 -> int_wrap z = z.
Proof.
  intros H. unfold int_wrap.
  rewrite Z.mod_small by (change (2 ^ 64) with (2 ^ 63 + 2 ^ 63); lia). lia.
Qed.

Lemma get_app (pre : string) (c : ascii) (rest : string) :
  String.get (String.length pre) (pre ++ String c rest) = Some c.
Proof. induction pre as [| x pre IH]; simpl; [reflexivity | exact IH]. Qed.

Lemma byteAt_app (pre : string) (c : ascii) (rest : string) :
  byteAt (pre ++ String c rest) (len pre) = Ok c.
Proof.
  unfold byteAt.
  replace (len pre <? 0) with false
    by (symmetry; apply Z.ltb_ge; apply len_nonneg).
  replace (len (pre ++ String c rest) <=? len pre) with false.
  - simpl. unfold len. rewrite Nat2Z.id, get_app. reflexivity.
  - symmetry. apply Z.leb_gt. rewrite len_append. unfold len. simpl String.length. lia.
Qed.

Lemma takeS_app (a b : string) : takeS (String.length a) (a ++ b) = a.
Proof.
  unfold takeS. induction a as [| x a IH]; simpl.
  - destruct b; reflexivity.
  - now rewrite IH.
Qed.

Lemma dropS_app (a b : string) : dropS (String.length a) (a ++ b) = b.
Proof.
  unfold dropS. induction a as [| x a IH]; simpl.
  - rewrite Nat.sub_0_r. apply substring_all.
  - exact IH.
Qed.

Lemma takeS_0 (s : string) : takeS 0 s = "".
Proof. unfold takeS. destruct s; reflexivity. Qed.

Lemma takeS_length (n : nat) (s : string) :
  (n <= String.length s)%nat -> String.length (takeS n s) = n.
Proof. intros H. unfold takeS. rewrite substring_length. lia. Qed.

Lemma dropS_length (n : nat) (s : string) :
  String.length (dropS n s) = (String.length s - n)%nat.
Proof. unfold dropS. rewrite substring_length. lia. Qed.

Lemma takeS_dropS (n : nat) (s : string) : takeS n s ++ dropS n s = s.
Proof.
  unfold takeS, dropS. revert n. induction s as [| c s IH]; intros n.
  - destruct n; reflexivity.
  - destruct n as [| n].
    + simpl. rewrite substring_all. reflexivity.
    + simpl. now rewrite IH.
Qed.

Lemma takeS_1_cons (c : ascii) (s : string) : takeS 1 (String c s) = String c "".
Proof. unfold takeS. simpl. destruct s; reflexivity. Qed.

Lemma dropS_1_cons (c : ascii) (s : string) : dropS 1 (String c s) = s.
Proof. unfold dropS. simpl. rewrite Nat.sub_0_r. apply substring_all. Qed.

Lemma takeS_S_cons (n : nat) (c : ascii) (s : string) :
  takeS (S n) (String c s) = String c (takeS n s).
Proof. reflexivity. Qed.

Lemma dropS_S_cons (n : nat) (c : ascii) (s : string) : dropS (S n) (String c s) = dropS n s.
Proof. reflexivity. Qed.

Lemma substring_app (pre mid rest : string) :
  String.substring (String.length pre) (String.length mid) (pre ++ mid ++ rest) = mid.
Proof.
  induction pre as [| x pre IH]; simpl; [apply takeS_app | exact IH].
Qed.

Lemma slice_app (pre mid rest : string) :
  slice (pre ++ mid ++ rest) (len pre) (len pre + len mid) = Ok mid.
Proof.
  unfold slice.
  pose proof (len_nonneg pre). pose proof (len_nonneg mid). pose proof (len_nonneg rest).
  replace (len pre <? 0) with false by (symmetry; apply Z.ltb_ge; lia).
  replace (len pre + len mid <? len pre) with false by (symmetry; apply Z.ltb_ge; lia).
  replace (len (pre ++ mid ++ rest) <? len pre + len mid) with false
    by (symmetry; apply Z.ltb_ge; rewrite !len_append; lia).
  simpl. unfold len.
  replace (Z.of_nat (String.length pre) + Z.of_nat (String.length mid)
           - Z.of_nat (String.length pre)) with (Z.of_nat (String.length mid)) by lia.
  rewrite !Nat2Z.id, substring_app. reflexivity.
Qed.

Lemma grayPixels_spec : pixelsSpec grayPixels 1.
Proof.
  unfold pixelsSpec.
  induction width as [| width IH]; intros pre rest color alpha Hlen Hrest.
  - exists "", "". rewrite !append_nil_r, takeS_0. repeat split; reflexivity.
  - destruct rest as [| c [| a rest]]; try (simpl in Hrest; lia).
    pose proof (len_nonneg pre) as Hp.
    assert (Hl : len (pre ++ String c (String a rest)) = len pre + 2 + len rest).
    { rewrite len_append. unfold len. simpl String.length. lia. }
    pose proof (len_nonneg rest) as Hr.
    cbn [grayPixels].
    rewrite byteAt_app. cbn [bind].
    unfold int_add. rewrite !int_wrap_small by lia.
    replace (pre ++ String c (String a rest)) with ((pre ++ sbyte c) ++ String a rest)
      by (rewrite append_assoc; reflexivity).
    replace (len pre + 1) with (len (pre ++ sbyte c))
      by (rewrite len_append; reflexivity).
    rewrite byteAt_app. cbn [bind].
    replace ((pre ++ sbyte c) ++ String a rest) with ((pre ++ sbyte c ++ sbyte a) ++ rest)
      by (rewrite !append_assoc; reflexivity).
    replace (len pre + 2) with (len (pre ++ sbyte c ++ sbyte a))
      by (rewrite !len_append; reflexivity).
    destruct (IH (pre ++ sbyte c ++ sbyte a) rest (color ++ sbyte c) (alpha ++ sbyte a))
      as (C & A & Hrun & HC & HA & Hmerge).
    { rewrite !append_assoc. exact Hlen. }
    { simpl in Hrest. lia. }
    exists (sbyte c ++ C), (sbyte a ++ A).
    rewrite Hrun, !append_assoc.
    split; [reflexivity |]. split; [simpl; lia |]. split; [simpl; lia |].
    cbn [mergePixels sbyte append].
    rewrite !takeS_1_cons, !dropS_1_cons, Hmerge.
    replace (2 * S width)%nat with (S (S (2 * width))) by lia.
    reflexivity.
Qed.

Lemma rgbPixels_spec : pixelsSpec rgbPixels 3.
Proof.
  unfold pixelsSpec.
  induction width as [| width IH]; intros pre rest color alpha Hlen Hrest.
  - exists "", "". rewrite !append_nil_r, takeS_0. repeat split; reflexivity.
  - destruct rest as [| c1 [| c2 [| c3 [| a rest]]]]; try (simpl in Hrest; lia).
    set (px := String c1 (String c2 (String c3 ""))).
    pose proof (len_nonneg pre) as Hp.
    pose proof (len_nonneg rest) as Hr.
    assert (Hl : len (pre ++ px ++ String a rest) = len pre + 4 + len rest).
    { rewrite !len_append. unfold len. simpl String.length. lia. }
    change (pre ++ String c1 (String c2 (String c3 (String a rest))))
      with (pre ++ px ++ String a rest) in *.
    cbn [rgbPixels].
    unfold int_add. rewrite !int_wrap_small by lia.
    change 3 with (len px) at 1.
    rewrite slice_app. cbn [bind].
    replace (pre ++ px ++ String a rest) with ((pre ++ px) ++ String a rest)
      by (rewrite append_assoc; reflexivity).
    replace (len pre + 3) with (len (pre ++ px)) by (rewrite len_append; reflexivity).
    rewrite byteAt_app. cbn [bind].
    replace ((pre ++ px) ++ String a rest) with ((pre ++ px ++ sbyte a) ++ rest)
      by (rewrite !append_assoc; reflexivity).
    replace (len pre + 4) with (len (pre ++ px ++ sbyte a))
      by (rewrite !len_append; reflexivity).
    destruct (IH (pre ++ px ++ sbyte a) rest (color ++ px) (alpha ++ sbyte a))
      as (C & A & Hrun & HC & HA & Hmerge).
    { rewrite !append_assoc. exact Hlen. }
    { simpl in Hrest. lia. }
    exists (px ++ C), (sbyte a ++ A).
    rewrite Hrun, !append_assoc.
    split; [reflexivity |]. split; [simpl; lia |]. split; [simpl; lia |].
    cbn [mergePixels sbyte append].
    change (takeS 3 (px ++ C)) with (takeS (String.length px) (px ++ C)).
    change (dropS 3 (px ++ C)) with (dropS (String.length px) (px ++ C)).
    rewrite takeS_app, dropS_app, takeS_1_cons, dropS_1_cons, Hmerge.
    replace (4 * S width)%nat with (S (S (S (S (4 * width))))) by lia.
    reflexivity.
Qed.

Lemma takeS_app_len (n : nat) (a b : string) :
  String.length a = n -> takeS n (a ++ b) = a.
Proof. intros <-. apply takeS_app. Qed.

Lemma dropS_app_len (n : nat) (a b : string) :
  String.length a = n -> dropS n (a ++ b) = b.
Proof. intros <-. apply dropS_app. Qed.

(** The loop over the rows, for a pixel loop that meets [pixelsSpec]: the two
    streams receive, row by row, the filter byte and the separated pixels,
    and merging what they received gives back the bytes that were read. *)
Lemma splitRows_spec
  (pixels : string -> nat -> Z -> string -> string -> result (string * string))
  (n : nat) (w m : Z) :
  pixelsSpec pixels n ->
  0 <= w ->
  m = Z.of_nat (S n) ->
  forall (rows : nat) (i : Z) (pre rest color alpha : string),
    0 <= i ->
    len pre = Z.of_nat (1 + S n * Z.to_nat w) * i ->
    len (pre ++ rest) < 2 ^ 63 ->
    String.length rest = (rows * (1 + S n * Z.to_nat w))%nat ->
    exists C A,
      splitRows pixels (pre ++ rest) w (int_mul m w) rows i color alpha
      = Ok (color ++ C, alpha ++ A) /\
      String.length C = (rows * (1 + n * Z.to_nat w))%nat /\
      String.length A = (rows * (1 + Z.to_nat w))%nat /\
      mergeRows n (Z.to_nat w) rows C A = rest /\
      rowHeads (1 + n * Z.to_nat w) rows C = rowHeads (1 + S n * Z.to_nat w) rows rest /\
      rowHeads (1 + Z.to_nat w) rows A = rowHeads (1 + S n * Z.to_nat w) rows rest.
Proof.
  intros HP Hw Hm.
  set (width := Z.to_nat w).
  remember (S n * width)%nat as pw eqn:Epw.
  assert (Hmw : m * w = Z.of_nat pw).
  { subst m pw. unfold width. rewrite Nat2Z.inj_mul, Z2Nat.id by lia. reflexivity. }
  induction rows as [| rows IH]; intros i pre rest color alpha Hi Hpre Hlen Hrest.
  - destruct rest; [| simpl in Hrest; lia].
    exists "", "". rewrite !append_nil_r. repeat split; reflexivity.
  - destruct rest as [| ft rest1]; [simpl in Hrest; lia |].
    remember (rows * (1 + pw))%nat as tail eqn:Etail.
    assert (Hrest1 : String.length rest1 = (pw + tail)%nat)
      by (simpl in Hrest; lia).
    pose proof (len_nonneg pre) as Hp.
    assert (Hl : len (pre ++ String ft rest1) = len pre + 1 + Z.of_nat pw + Z.of_nat tail).
    { rewrite len_append. unfold len. simpl String.length. lia. }
    assert (Hpos : Z.of_nat (1 + pw) * i = len pre) by (symmetry; exact Hpre).
    assert (G1 : int_mul m w = Z.of_nat pw)
      by (unfold int_mul; rewrite Hmw; apply int_wrap_small; lia).
    assert (G2 : int_add 1 (Z.of_nat pw) = Z.of_nat (1 + pw))
      by (unfold int_add; rewrite int_wrap_small; lia).
    assert (G3 : int_mul (Z.of_nat (1 + pw)) i = len pre)
      by (unfold int_mul; rewrite Hpos; apply int_wrap_small; lia).
    assert (G4 : int_add (len pre) 1 = len (pre ++ sbyte ft)).
    { unfold int_add. rewrite int_wrap_small by lia. rewrite len_append. reflexivity. }
    rewrite G1 in IH |- *.
    cbn [splitRows]. rewrite G2, G3, G4.
    rewrite byteAt_app. cbn [bind].
    replace (pre ++ String ft rest1) with ((pre ++ sbyte ft) ++ rest1)
      by (rewrite append_assoc; reflexivity).
    destruct (HP width (pre ++ sbyte ft) rest1 (color ++ sbyte ft) (alpha ++ sbyte ft))
      as (C1 & A1 & Hrun & HC1 & HA1 & Hmerge1).
    { rewrite append_assoc. exact Hlen. }
    { lia. }
    fold width. rewrite Hrun. cbn [bind].
    rewrite <- Epw in Hmerge1.
    set (rowbytes := takeS pw rest1) in *.
    set (rest2 := dropS pw rest1).
    assert (Hsplit : rest1 = rowbytes ++ rest2)
      by (symmetry; apply takeS_dropS).
    assert (Hrb : String.length rowbytes = pw)
      by (apply takeS_length; lia).
    assert (Hr2 : String.length rest2 = tail)
      by (unfold rest2; rewrite dropS_length; lia).
    replace ((pre ++ sbyte ft) ++ rest1) with ((pre ++ sbyte ft ++ rowbytes) ++ rest2)
      by (rewrite Hsplit, !append_assoc; reflexivity).
    destruct (IH (i + 1) (pre ++ sbyte ft ++ rowbytes) rest2
                ((color ++ sbyte ft) ++ C1) ((alpha ++ sbyte ft) ++ A1))
      as (C2 & A2 & Hrun2 & HC2 & HA2 & Hmerge2 & Hh1 & Hh2).
    { lia. }
    { rewrite !len_append. unfold len at 2 3. rewrite Hrb. simpl String.length. lia. }
    { rewrite !append_assoc, <- Hsplit. exact Hlen. }
    { exact Hr2. }
    fold width in Hrun2. rewrite Hrun2.
    exists (sbyte ft ++ C1 ++ C2), (sbyte ft ++ A1 ++ A2).
    rewrite !append_assoc.
    split; [reflexivity |].
    split; [rewrite !length_append, HC1, HC2; simpl; lia |].
    split; [rewrite !length_append, HA1, HA2; simpl; lia |].
    cbn [mergeRows rowHeads sbyte append].
    change (1 + n * width)%nat with (S (n * width)) in *.
    change (1 + width)%nat with (S width) in *.
    change (1 + pw)%nat with (S pw) in *.
    rewrite !takeS_1_cons, !dropS_1_cons, !dropS_S_cons.
    rewrite (takeS_app_len _ _ _ HC1), (takeS_app_len _ _ _ HA1).
    rewrite (dropS_app_len _ _ _ HC1), (dropS_app_len _ _ _ HA1).
    fold rest2.
    rewrite Hmerge1, Hmerge2, Hh1, Hh2, Hsplit.
    repeat split; reflexivity.
Qed.

Lemma deinterleave_spec (ct w h : Z) (raw : string) :
  ct = 4 \/ ct = 6 ->
  0 <= w -> 0 <= h ->
  len raw = h * (1 + Z.of_nat (S (colorBytes ct)) * w) ->
  len raw < 2 ^ 63 ->
  exists color alpha,
    deinterleave ct w h raw = Ok (color, alpha) /\
    interleave ct w h color alpha = raw /\
    rowHeads (1 + colorBytes ct * Z.to_nat w) (Z.to_nat h) color
    = rowHeads (1 + S (colorBytes ct) * Z.to_nat w) (Z.to_nat h) raw /\
    rowHeads (1 + Z.to_nat w) (Z.to_nat h) alpha
    = rowHeads (1 + S (colorBytes ct) * Z.to_nat w) (Z.to_nat h) raw.
Proof.
  intros Hct Hw Hh Hlen Hmax.
  assert (Hrows : forall n : nat,
             len raw = h * (1 + Z.of_nat (S n) * w) ->
             String.length raw = (Z.to_nat h * (1 + S n * Z.to_nat w))%nat).
  { intros n E. unfold len in E. apply Nat2Z.inj. rewrite E.
    rewrite Nat2Z.inj_mul, Nat2Z.inj_add, Nat2Z.inj_mul, !Z2Nat.id by lia. reflexivity. }
  unfold deinterleave, interleave.
  destruct Hct as [-> | ->]; cbn [Z.eqb Pos.eqb colorBytes] in *.
  - destruct (splitRows_spec grayPixels 1 w 2 grayPixels_spec Hw eq_refl
                (Z.to_nat h) 0 "" raw "" "") as (C & A & Hrun & _ & _ & Hm & H1 & H2);
      [lia | rewrite Z.mul_0_r; reflexivity | exact Hmax | apply Hrows; exact Hlen |].
    exists C, A. cbn [append] in Hrun. repeat split; assumption.
  - destruct (splitRows_spec rgbPixels 3 w 4 rgbPixels_spec Hw eq_refl
                (Z.to_nat h) 0 "" raw "" "") as (C & A & Hrun & _ & _ & Hm & H1 & H2);
      [lia | rewrite Z.mul_0_r; reflexivity | exact Hmax | apply Hrows; exact Hlen |].
    exists C, A. cbn [append] in Hrun. repeat split; assumption.
Qed.

(** C6: for an image of colour type 4 or 6 whose inflated data has one
    filter byte and w pixels in each of its h rows, the alpha separation of
    parsepngstream succeeds and stores the deflated colour stream and the
    deflated alpha stream; inflating the two streams again and merging them
    row by row (the filter byte, then per pixel the colour bytes and the alpha
    byte) gives the inflated data back byte for byte, and every row of either
    stream starts with the filter byte of the original row. *)
Theorem alpha_split_round_trip :
  forall (env : Env) (ct w h : Z) (data raw : string) (f : Fpdf.t),
    ct = 4 \/ ct = 6 ->
    0 <= w -> 0 <= h ->
    (forall b, sliceUncompress env (sliceCompress env b) = Got b) ->
    sliceUncompress env data = Got raw ->
    len raw = h * (1 + Z.of_nat (S (colorBytes ct)) * w) ->
    len raw < 2 ^ 63 ->
    exists cdata smask f' color alpha,
      separateAlpha env ct w h data f = Ok (Some (cdata, smask), f') /\
      sliceUncompress env cdata = Got color /\
      sliceUncompress env smask = Got alpha /\
      interleave ct w h color alpha = raw /\
      rowHeads (1 + colorBytes ct * Z.to_nat w) (Z.to_nat h) color
      = rowHeads (1 + S (colorBytes ct) * Z.to_nat w) (Z.to_nat h) raw /\
      rowHeads (1 + Z.to_nat w) (Z.to_nat h) alpha
      = rowHeads (1 + S (colorBytes ct) * Z.to_nat w) (Z.to_nat h) raw.
Proof.
  intros env ct w h data raw f Hct Hw Hh Hzip Hraw Hlen Hmax.
  destruct (deinterleave_spec ct w h raw Hct Hw Hh Hlen Hmax)
    as (color & alpha & Hsplit & Hmerge & H1 & H2).
  exists (sliceCompress env color), (sliceCompress env alpha).
  eexists. exists color, alpha.
  split.
  - unfold separateAlpha. rewrite Hraw, Hsplit. cbn [bind]. reflexivity.
  - rewrite !Hzip. repeat split; assumption.
Qed.

(** The two-by-two RGBA image: the colour stream keeps the filter bytes 0 and
    1 and the twelve colour bytes, the alpha stream the filter bytes and the
    four alpha bytes. *)
Lemma alpha_split_witness :
  exists cdata smask f',
    separateAlpha sampleEnv 6 2 2 rgbaImage textDoc = Ok (Some (cdata, smask), f') /\
    exists color alpha,
      sliceUncompress sampleEnv cdata = Got color /\
      sliceUncompress sampleEnv smask = Got alpha /\
      interleave 6 2 2 color alpha = rgbaImage.
Proof.
  destruct (alpha_split_round_trip sampleEnv 6 2 2 rgbaImage rgbaImage textDoc)
    as (cdata & smask & f' & color & alpha & H1 & H2 & H3 & H4 & _).
  - right. reflexivity.
  - lia.
  - lia.
  - intros b. reflexivity.
  - reflexivity.
  - vm_compute. reflexivity.
  - vm_compute. reflexivity.
  - exists cdata, smask, f'. split; [exact H1 |].
    exists color, alpha. repeat split; assumption.
Defined.

(** ** Link annotations *)

(** The annotations of a page are written one after the other. *)
Lemma putannots_concat (hPt : float) (f : Fpdf.t) :
  forall (pls : list linkType.t) (acc r : string),
    putannots hPt pls f acc = Ok r ->
    exists parts,
      Forall2 (fun pl a => putannot hPt pl f = Ok a) pls parts /\
      r = acc ++ String.concat "" parts.
Proof.
  induction pls as [| pl pls IH]; intros acc r H.
  - inversion H. exists []. split; [constructor | now rewrite append_nil_r].
  - cbn [putannots] in H. apply bind_Ok in H. destruct H as (a & Ha & H).
    destruct (IH _ _ H) as (parts & HF & ->).
    exists (a :: parts). split; [constructor; assumption |].
    rewrite append_assoc. destruct parts; simpl; [now rewrite append_nil_r | reflexivity].
Qed.

(** ** Serialization: lines, objects and recorded offsets *)

Lemma nth_replace_nth_eq {A : Type} (l : list A) (i : nat) (v d : A) :
  (i < List.length l)%nat -> nth i (replace_nth l i v) d = v.
Proof.
  revert i. induction l as [| a l IH]; intros [| i] H; simpl in *; try lia.
  - reflexivity.
  - apply IH. lia.
Qed.

Lemma nth_replace_nth_neq {A : Type} (l : list A) (i j : nat) (v d : A) :
  i <> j -> nth j (replace_nth l i v) d = nth j l d.
Proof.
  revert i j. induction l as [| a l IH]; intros [| i] [| j] H; simpl; try reflexivity.
  - contradiction.
  - apply IH. lia.
Qed.

Lemma nth_app_zeros (l : list Z) (k j : nat) : nth j (l ++ repeat 0 k)%list 0 = nth j l 0.
Proof.
  destruct (Nat.lt_ge_cases j (List.length l)) as [H | H].
  - apply app_nth1. exact H.
  - rewrite app_nth2 by exact H. rewrite (nth_overflow l) by exact H.
    apply nth_repeat.
Qed.

Lemma upd_Ok {A : Type} (l l' : list A) (i : Z) (v : A) :
  upd l i v = Ok l' -> 0 <= i < llen l /\ l' = replace_nth l (Z.to_nat i) v.
Proof.
  unfold upd. destruct ((i <? 0) || (llen l <=? i)) eqn:E; [discriminate |].
  apply orb_false_iff in E. destruct E as [E1 E2].
  apply Z.ltb_ge in E1. apply Z.leb_gt in E2.
  intros H. inversion H. split; [lia | reflexivity].
Qed.

Lemma idx_Ok (l : list Z) (i v : Z) :
  idx l i = Ok v -> 0 <= i /\ nth (Z.to_nat i) l 0 = v.
Proof.
  unfold idx. destruct ((i <? 0) || (llen l <=? i)) eqn:E; [discriminate |].
  apply orb_false_iff in E. destruct E as [E1 E2]. apply Z.ltb_ge in E1.
  destruct (nth_error l (Z.to_nat i)) eqn:En; [| discriminate].
  intros H. inversion H; subst. split; [exact E1 |].
  apply nth_error_nth. exact En.
Qed.

(** Outside a page a line goes to the main buffer. *)
Lemma out_eq (s : string) (f : Fpdf.t) :
  Fpdf.state f <> 2 -> out s f = Ok (Fpdf.set_buffer (Fpdf.buffer f ++ s ++ nl) f).
Proof.
  intros H. unfold out.
  replace (Fpdf.state f =? 2) with false by (symmetry; apply Z.eqb_neq; exact H).
  reflexivity.
Qed.

Lemma occursAt_here (buf s : string) : occursAt (buf ++ s) (len buf) s.
Proof. exists buf, "". now rewrite append_nil_r. Qed.

Lemma occursAt_app (buf t : string) (off : Z) (s : string) :
  occursAt buf off s -> occursAt (buf ++ t) off s.
Proof.
  intros (pre & post & -> & Hl). exists pre, (post ++ t).
  split; [now rewrite !append_assoc | exact Hl].
Qed.

Lemma occursAt_prefix (buf : string) (off : Z) (s t : string) :
  occursAt buf off (s ++ t) -> occursAt buf off s.
Proof.
  intros (pre & post & -> & Hl). exists pre, (t ++ post).
  split; [now rewrite !append_assoc | exact Hl].
Qed.

Lemma occursAt_bounds (buf : string) (off : Z) (s : string) :
  occursAt buf off s -> 0 <= off /\ off + len s <= len buf.
Proof.
  intros (pre & post & -> & Hl). rewrite !len_append.
  pose proof (len_nonneg pre). pose proof (len_nonneg post). lia.
Qed.

(** What [newobj] does outside a page. *)
Lemma newobj_facts (f f' : Fpdf.t) :
  Fpdf.state f <> 2 ->
  newobj f = Ok f' ->
  0 <= Fpdf.n f + 1 /\
  Fpdf.state f' = Fpdf.state f /\
  Fpdf.page f' = Fpdf.page f /\
  Fpdf.n f' = Fpdf.n f + 1 /\
  Fpdf.buffer f' = Fpdf.buffer f ++ objHeader (Fpdf.n f + 1) /\
  offsetOf f' (Fpdf.n f + 1) = len (Fpdf.buffer f) /\
  (forall j, 0 <= j <= Fpdf.n f -> offsetOf f' j = offsetOf f j).
Proof.
  intros Hst H. unfold newobj in H.
  apply bind_Ok in H. destruct H as (offs & Hupd & H).
  apply upd_Ok in Hupd. cbn [Fpdf.n Fpdf.offsets Fpdf.set_n Fpdf.set_offsets Fpdf.buffer]
    in Hupd.
  destruct Hupd as [Hrange ->].
  rewrite out_eq in H by exact Hst.
  inversion H; subst f'; clear H.
  cbn [Fpdf.state Fpdf.page Fpdf.n Fpdf.buffer Fpdf.offsets
       Fpdf.set_n Fpdf.set_offsets Fpdf.set_buffer].
  unfold offsetOf.
  cbn [Fpdf.state Fpdf.page Fpdf.n Fpdf.buffer Fpdf.offsets
       Fpdf.set_n Fpdf.set_offsets Fpdf.set_buffer].
  repeat split; try lia.
  - unfold objHeader. now rewrite append_assoc.
  - apply nth_replace_nth_eq. unfold llen in *. lia.
  - intros j Hj. rewrite nth_replace_nth_neq by lia. apply nth_app_zeros.
Qed.

Lemma Same_refl (f : Fpdf.t) : Same f f.
Proof. repeat split. Qed.

Lemma Ser_refl (f : Fpdf.t) : Ser f f.
Proof.
  repeat split; try lia.
  exists "". now rewrite append_nil_r.
Qed.

Lemma SerK_trans (keep : Z -> Prop) (f g h : Fpdf.t) :
  (forall j, Fpdf.n f < j -> keep j) ->
  SerK keep f g -> SerK keep g h -> SerK keep f h.
Proof.
  intros Hnew (S1 & P1 & N1 & (s1 & B1) & K1 & O1 & I1)
         (S2 & P2 & N2 & (s2 & B2) & K2 & O2 & I2).
  assert (L1 : len (Fpdf.buffer f) <= len (Fpdf.buffer g))
    by (rewrite B1, len_append; pose proof (len_nonneg s1); lia).
  assert (L2 : len (Fpdf.buffer g) <= len (Fpdf.buffer h))
    by (rewrite B2, len_append; pose proof (len_nonneg s2); lia).
  split; [congruence |]. split; [congruence |]. split; [lia |].
  split; [exists (s1 ++ s2); now rewrite B2, B1, append_assoc |].
  split; [intros j Hj Hk; rewrite K2 by (lia || exact Hk); apply K1; [lia | exact Hk] |].
  split.
  - intros j Hj0 Hj.
    destruct (Z.le_gt_cases j (Fpdf.n g)) as [Hg | Hg].
    + destruct (O1 j Hj0 ltac:(lia)) as [Hobj Hb].
      unfold objectAt in *. rewrite K2 by (lia || (apply Hnew; lia)).
      split; [rewrite B2; apply occursAt_app; exact Hobj | lia].
    + destruct (O2 j Hj0 ltac:(lia)) as [Hobj Hb]. split; [exact Hobj | lia].
  - intros j Hj0 Hj.
    destruct (Z.lt_trichotomy j (Fpdf.n g)) as [Hg | [Hg | Hg]].
    + rewrite !K2 by (lia || (apply Hnew; lia)). apply I1; lia.
    + destruct (O1 j Hj0 ltac:(lia)) as [_ Hb1].
      destruct (O2 (j + 1) ltac:(lia) ltac:(lia)) as [_ Hb2].
      rewrite K2 by (lia || (apply Hnew; lia)). lia.
    + apply I2; lia.
Qed.

Lemma Ser_trans (f g h : Fpdf.t) : Ser f g -> Ser g h -> Ser f h.
Proof. apply SerK_trans. intros; exact I. Qed.

Lemma SerK_weaken (keep keep' : Z -> Prop) (f g : Fpdf.t) :
  (forall j, keep' j -> keep j) -> SerK keep f g -> SerK keep' f g.
Proof.
  intros Hk (S & P & N & B & K & O & I).
  repeat split; try assumption; try (apply O; assumption).
  intros j Hj Hkj. apply K; [exact Hj | apply Hk; exact Hkj].
Qed.

Lemma Ser_Same (f g : Fpdf.t) : Same f g -> Ser f g.
Proof.
  intros (S & P & N & B & O).
  unfold Ser, SerK, offsetOf. rewrite S, P, N, B, O.
  repeat split; try lia.
  exists "". now rewrite append_nil_r.
Qed.

Lemma Same_Ser (f g h : Fpdf.t) : Same f g -> Ser g h -> Ser f h.
Proof. intros HS. apply Ser_trans. apply Ser_Same. exact HS. Qed.

(** An object recorded before a serialization is still where it was. *)
Lemma objectAt_SerK (keep : Z -> Prop) (f f' : Fpdf.t) (j : Z) (s : string) :
  SerK keep f f' -> 0 <= j <= Fpdf.n f -> keep j -> objectAt f j s -> objectAt f' j s.
Proof.
  intros (_ & _ & _ & (t & B) & K & _) Hj Hk H.
  unfold objectAt in *. rewrite K by assumption. rewrite B. apply occursAt_app. exact H.
Qed.

Lemma pagePair_SerK (keep : Z -> Prop) (f f' : Fpdf.t) (j : Z) :
  SerK keep f f' -> 0 <= j -> j + 1 <= Fpdf.n f -> keep j -> keep (j + 1) ->
  pagePair f j -> pagePair f' j.
Proof.
  intros (_ & _ & _ & (t & B) & K & _) Hj0 Hj Hk Hk1 (mid & body & Hocc & Hoff).
  exists mid, body. rewrite !K by (assumption || lia).
  split; [rewrite B; apply occursAt_app; exact Hocc | exact Hoff].
Qed.

Lemma Ser_out (s : string) (f f' : Fpdf.t) :
  Fpdf.state f <> 2 -> out s f = Ok f' -> Ser f f'.
Proof.
  intros Hst H. rewrite out_eq in H by exact Hst. inversion H; subst f'.
  unfold Ser, SerK, offsetOf.
  cbn [Fpdf.state Fpdf.page Fpdf.n Fpdf.buffer Fpdf.offsets Fpdf.set_buffer].
  repeat split; try lia.
  eexists; reflexivity.
Qed.

Lemma Ser_newobj (f f' : Fpdf.t) :
  Fpdf.state f <> 2 -> newobj f = Ok f' -> Ser f f'.
Proof.
  intros Hst H.
  destruct (newobj_facts f f' Hst H) as (H0 & S & P & N & B & O & K).
  pose proof (len_nonneg (objHeader (Fpdf.n f + 1))) as Hh.
  assert (Hpos : 0 < len (objHeader (Fpdf.n f + 1))).
  { unfold objHeader. rewrite !len_append. pose proof (len_nonneg (dec (Fpdf.n f + 1))).
    change (len " 0 obj") with 6. change (len nl) with 1. lia. }
  split; [exact S |]. split; [exact P |]. split; [lia |].
  split; [eexists; exact B |]. split; [intros j Hj _; apply K; exact Hj |].
  split.
  - intros j Hj0 Hj. assert (j = Fpdf.n f + 1) as -> by lia.
    unfold objectAt. rewrite O, B, append_nil_r, len_append.
    split; [apply occursAt_here | lia].
  - intros j Hj0 Hj. lia.
Qed.

(** *** Rules for the steps of the serializer *)

Lemma SerStep_bind {A B : Type} (pa : A -> Fpdf.t) (pb : B -> Fpdf.t) (f : Fpdf.t)
  (c : result A) (k : A -> result B) :
  SerStep pa f c -> (forall a, SerStep pb (pa a) (k a)) -> SerStep pb f (bind c k).
Proof.
  intros Hc Hk Hst b Hb. apply bind_Ok in Hb. destruct Hb as (a & Ha & Hb).
  pose proof (Hc Hst a Ha) as S1.
  eapply Ser_trans; [exact S1 |].
  apply (Hk a); [| exact Hb]. destruct S1 as [-> _]. exact Hst.
Qed.

Lemma SerStep_bind_pure {A B : Type} (pb : B -> Fpdf.t) (f : Fpdf.t)
  (c : result A) (k : A -> result B) :
  (forall a, SerStep pb f (k a)) -> SerStep pb f (bind c k).
Proof.
  intros Hk Hst b Hb. apply bind_Ok in Hb. destruct Hb as (a & _ & Hb).
  exact (Hk a Hst b Hb).
Qed.

Lemma SerStep_ret {B : Type} (pb : B -> Fpdf.t) (f : Fpdf.t) (b : B) :
  Same f (pb b) -> SerStep pb f (Ok b).
Proof. intros HS _ a Ha. inversion Ha; subst. apply Ser_Same. exact HS. Qed.

Lemma SerStep_panic {B : Type} (pb : B -> Fpdf.t) (f : Fpdf.t) (m : string) :
  SerStep pb f (Panic m).
Proof. intros _ a Ha. discriminate. Qed.

Lemma SerStep_from {B : Type} (pb : B -> Fpdf.t) (f g : Fpdf.t) (c : result B) :
  Same f g -> SerStep pb g c -> SerStep pb f c.
Proof.
  intros HS Hc Hst b Hb. eapply Same_Ser; [exact HS |].
  apply Hc; [| exact Hb]. destruct HS as [-> _]. exact Hst.
Qed.

Lemma SerStep_out (s : string) (g : Fpdf.t) : SerStep here g (out s g).
Proof. intros Hst a Ha. exact (Ser_out s g a Hst Ha). Qed.

Lemma SerStep_newobj (g : Fpdf.t) : SerStep here g (newobj g).
Proof. intros Hst a Ha. exact (Ser_newobj g a Hst Ha). Qed.

Lemma SerStep_forEach {A : Type} (body : A -> Fpdf.t -> result Fpdf.t) (l : list A) :
  (forall a g, SerStep here g (body a g)) ->
  forall g, SerStep here g (forEach body l g).
Proof.
  intros Hb. induction l as [| a l IH]; intros g; cbn [forEach].
  - apply SerStep_ret. apply Same_refl.
  - apply (SerStep_bind here); [apply Hb | exact IH].
Qed.

Lemma SerStep_forEachRet {A : Type} (body : A -> Fpdf.t -> result (flow * Fpdf.t))
  (l : list A) :
  (forall a g, SerStep snd g (body a g)) ->
  forall g, SerStep snd g (forEachRet body l g).
Proof.
  intros Hb. induction l as [| a l IH]; intros g; cbn [forEachRet].
  - apply SerStep_ret. apply Same_refl.
  - apply (SerStep_bind snd); [apply Hb |].
    intros [fl g']. cbn [snd]. destruct fl; [apply IH |].
    apply SerStep_ret. apply Same_refl.
Qed.

Create HintDb ser discriminated.

#[local] Hint Resolve SerStep_out SerStep_newobj : ser.

(** The fields the serializer writes to, read through the setters. *)
Ltac same := repeat split; reflexivity.

(** Walk through a step of the serializer: binds, tests and calls of steps
    known to the hint base. *)
Ltac ser :=
  cbn beta iota zeta;
  lazymatch goal with
  | |- SerStep _ _ (@bind ?A _ _ _) =>
      lazymatch A with
      | Fpdf.t => eapply (SerStep_bind here); [ser | intros ?; unfold here at 1; ser]
      | (_ * Fpdf.t)%type =>
          eapply (SerStep_bind snd); [ser | intros [? ?]; cbn [snd]; ser]
      | _ => eapply SerStep_bind_pure; intros ?; ser
      end
  | |- SerStep _ _ (Ok _) => apply SerStep_ret; same
  | |- SerStep _ _ (Panic _) => apply SerStep_panic
  | |- SerStep _ _ (if ?b then _ else _) => destruct b; ser
  | |- SerStep _ _ (match ?x with _ => _ end) => destruct x; ser
  | |- SerStep _ _ _ =>
      eapply SerStep_from; cycle 1; [solve [eauto with ser] | same]
  end.

Lemma SerStep_putstream (b : string) (g : Fpdf.t) : SerStep here g (putstream b g).
Proof. unfold putstream. ser. Qed.

#[local] Hint Resolve SerStep_putstream : ser.

Lemma SerStep_putdiff (diff : string) (g : Fpdf.t) : SerStep here g (putdiff diff g).
Proof. unfold putdiff. ser. Qed.

Lemma SerStep_putfontfile (env : Env) (entry : string * fontFileType.t) (g : Fpdf.t) :
  SerStep snd g (putfontfile env entry g).
Proof. unfold putfontfile. ser. Qed.

Lemma SerStep_putfont (nf : Z) (entry : string * fontDefType.t) (g : Fpdf.t) :
  SerStep snd g (putfont nf entry g).
Proof. unfold putfont. ser. Qed.

#[local] Hint Resolve SerStep_forEach SerStep_forEachRet SerStep_putdiff
  SerStep_putfontfile SerStep_putfont : ser.

Lemma SerStep_putfonts (env : Env) (g : Fpdf.t) : SerStep here g (putfonts env g).
Proof. unfold putfonts. ser. Qed.

Lemma SerStep_putimage_body (env : Env)
  (self : imageInfoType.t -> Fpdf.t -> result (imageInfoType.t * Fpdf.t))
  (info : imageInfoType.t) (g : Fpdf.t) :
  (forall i h, SerStep snd h (self i h)) ->
  SerStep snd g (putimage_body env self info g).
Proof. intros Hself. unfold putimage_body. ser. Qed.

Lemma SerStep_putimage (env : Env) (info : imageInfoType.t) (g : Fpdf.t) :
  SerStep snd g (putimage env info g).
Proof.
  unfold putimage. apply SerStep_putimage_body.
  intros i h. apply SerStep_putimage_body.
  intros i' h'. apply SerStep_panic.
Qed.

#[local] Hint Resolve SerStep_putimage : ser.

Lemma SerStep_putimages_body (env : Env) (entry : string * imageInfoType.t) (g : Fpdf.t) :
  SerStep here g (putimages_body env entry g).
Proof. unfold putimages_body. ser. Qed.

#[local] Hint Resolve SerStep_putimages_body : ser.

Lemma SerStep_putimages (env : Env) (g : Fpdf.t) : SerStep here g (putimages env g).
Proof. unfold putimages. ser. Qed.

Lemma SerStep_putxobjectdict (env : Env) (g : Fpdf.t) :
  SerStep here g (putxobjectdict env g).
Proof.
  unfold putxobjectdict. apply SerStep_forEach. intros a h. apply SerStep_out.
Qed.

#[local] Hint Resolve SerStep_putfonts SerStep_putimages SerStep_putxobjectdict : ser.

Lemma SerStep_putresourcedict (env : Env) (g : Fpdf.t) :
  SerStep here g (putresourcedict env g).
Proof.
  unfold putresourcedict.
  eapply (SerStep_bind here); [ser | intros g1; unfold here at 1].
  eapply (SerStep_bind here); [ser | intros g2; unfold here at 1].
  eapply (SerStep_bind here);
    [apply SerStep_forEach; intros a h; apply SerStep_out | intros g3; unfold here at 1].
  ser.
Qed.

Lemma SerStep_putinfo (env : Env) (g : Fpdf.t) : SerStep here g (putinfo env g).
Proof. unfold putinfo. ser. Qed.

Lemma SerStep_putcatalog (g : Fpdf.t) : SerStep here g (putcatalog g).
Proof. unfold putcatalog. ser. Qed.

Lemma SerStep_putheader (g : Fpdf.t) : SerStep here g (putheader g).
Proof. unfold putheader. ser. Qed.

Lemma SerStep_puttrailer (g : Fpdf.t) : SerStep here g (puttrailer g).
Proof. unfold puttrailer. ser. Qed.

Lemma SerStep_putalias (nbStr : string) (n : Z) (g : Fpdf.t) :
  SerStep here g (putalias nbStr n g).
Proof. unfold putalias. ser. Qed.

Lemma SerStep_putpage (env : Env) (hPt : float) (n : Z) (g : Fpdf.t) :
  SerStep here g (putpage env hPt n g).
Proof. unfold putpage. ser. Qed.

#[local] Hint Resolve SerStep_putresourcedict SerStep_putinfo SerStep_putcatalog
  SerStep_putheader SerStep_puttrailer SerStep_putalias SerStep_putpage : ser.

Lemma offsetOf_offsets (f f' : Fpdf.t) (j : Z) :
  Fpdf.offsets f' = Fpdf.offsets f -> offsetOf f' j = offsetOf f j.
Proof. unfold offsetOf. intros ->. reflexivity. Qed.

(** *** Steps that only add text *)

Lemma Emit_out (s : string) (f f' : Fpdf.t) :
  Fpdf.state f <> 2 -> out s f = Ok f' -> Emit (s ++ nl) f f'.
Proof.
  intros Hst H. rewrite out_eq in H by exact Hst. inversion H; subst f'.
  repeat split.
Qed.

Lemma Emit_bind_out (s : string) (f : Fpdf.t) (k : Fpdf.t -> result Fpdf.t)
  (f' : Fpdf.t) :
  Fpdf.state f <> 2 ->
  bind (out s f) k = Ok f' ->
  exists g, Emit (s ++ nl) f g /\ Fpdf.state g <> 2 /\ k g = Ok f'.
Proof.
  intros Hst H. apply bind_Ok in H. destruct H as (g & Hg & H).
  apply Emit_out in Hg; [| exact Hst].
  exists g. split; [exact Hg |]. split; [| exact H].
  destruct Hg as [-> _]. exact Hst.
Qed.

Lemma Emit_trans (s t : string) (f g h : Fpdf.t) :
  Emit s f g -> Emit t g h -> Emit (s ++ t) f h.
Proof.
  intros (S1 & P1 & N1 & O1 & B1) (S2 & P2 & N2 & O2 & B2).
  repeat split; try congruence. now rewrite B2, B1, append_assoc.
Qed.

Lemma Emit_Ser (s : string) (f f' : Fpdf.t) : Emit s f f' -> Ser f f'.
Proof.
  intros (S & P & N & O & B).
  unfold Ser, SerK, offsetOf. rewrite S, P, N, O, B.
  repeat split; try lia. eexists; reflexivity.
Qed.

Lemma EmitStep_bind (f : Fpdf.t) (c : result Fpdf.t) (k : Fpdf.t -> result Fpdf.t) :
  EmitStep f c -> (forall g, EmitStep g (k g)) -> EmitStep f (bind c k).
Proof.
  intros Hc Hk Hst f' H. apply bind_Ok in H. destruct H as (g & Hg & H).
  destruct (Hc Hst g Hg) as (s & E).
  destruct (Hk g ltac:(destruct E as [-> _]; exact Hst) f' H) as (t & E').
  exists (s ++ t). eapply Emit_trans; eassumption.
Qed.

Lemma EmitStep_bind_pure {A : Type} (f : Fpdf.t) (c : result A)
  (k : A -> result Fpdf.t) :
  (forall a, EmitStep f (k a)) -> EmitStep f (bind c k).
Proof.
  intros Hk Hst f' H. apply bind_Ok in H. destruct H as (a & _ & H).
  exact (Hk a Hst f' H).
Qed.

Lemma EmitStep_ret (f : Fpdf.t) : EmitStep f (Ok f).
Proof.
  intros _ f' H. inversion H; subst. exists "". repeat split. now rewrite append_nil_r.
Qed.

Lemma EmitStep_out (s : string) (f : Fpdf.t) : EmitStep f (out s f).
Proof. intros Hst f' H. eexists. eapply Emit_out; eassumption. Qed.

Ltac emit :=
  cbn beta iota zeta;
  lazymatch goal with
  | |- EmitStep _ (@bind ?A _ _ _) =>
      lazymatch A with
      | Fpdf.t => eapply EmitStep_bind; [emit | intros ?; emit]
      | _ => eapply EmitStep_bind_pure; intros ?; emit
      end
  | |- EmitStep _ (Ok _) => apply EmitStep_ret
  | |- EmitStep _ (out _ _) => apply EmitStep_out
  | |- EmitStep _ (if ?b then _ else _) => destruct b; emit
  | |- EmitStep _ (match ?x with _ => _ end) => destruct x; emit
  | |- EmitStep _ (putstream _ _) => unfold putstream; emit
  end.

(** The page object and the content object of a page, as [putpage] writes
    them: two objects with the next two numbers, one right after the
    other. *)
Lemma putpage_pair (env : Env) (hPt : float) (p : Z) (f f' : Fpdf.t) :
  Fpdf.state f <> 2 ->
  putpage env hPt p f = Ok f' ->
  Fpdf.n f' = Fpdf.n f + 2 /\ pagePair f' (Fpdf.n f + 1).
Proof.
  intros Hst H. unfold putpage in H.
  apply bind_Ok in H. destruct H as (g1 & Hn1 & H).
  destruct (newobj_facts f g1 Hst Hn1) as (H0 & S1 & P1 & N1 & B1 & O1 & K1).
  assert (St1 : Fpdf.state g1 <> 2) by congruence.
  apply bind_Ok in H. destruct H as (g2 & E2 & H). apply Emit_out in E2; [| exact St1].
  assert (St2 : Fpdf.state g2 <> 2) by (destruct E2 as [-> _]; exact St1).
  apply bind_Ok in H. destruct H as (g3 & E3 & H). apply Emit_out in E3; [| exact St2].
  assert (St3 : Fpdf.state g3 <> 2) by (destruct E3 as [-> _]; exact St2).
  apply bind_Ok in H. destruct H as (g4 & E4 & H).
  assert (X4 : EmitStep g3 (match zget (Fpdf.pageSizes g3) p with
                            | Some pageSize =>
                                out ("/MediaBox [0 0 " ++ f2 (sizeType.wd pageSize) ++ " " ++
                                     f2 (sizeType.ht pageSize) ++ "]") g3
                            | None => Ok g3
                            end)) by emit.
  destruct (X4 St3 g4 E4) as (t4 & T4). clear X4 E4.
  assert (St4 : Fpdf.state g4 <> 2) by (destruct T4 as [-> _]; exact St3).
  apply bind_Ok in H. destruct H as (g5 & E5 & H). apply Emit_out in E5; [| exact St4].
  assert (St5 : Fpdf.state g5 <> 2) by (destruct E5 as [-> _]; exact St4).
  apply bind_Ok in H. destruct H as (pls & _ & H).
  apply bind_Ok in H. destruct H as (g6 & E6 & H).
  assert (X6 : EmitStep g5 (if 0 <? llen pls
                            then annots <- putannots hPt pls g5 "/Annots [" ;;
                                 out (annots ++ "]") g5
                            else Ok g5)) by emit.
  destruct (X6 St5 g6 E6) as (t6 & T6). clear X6 E6.
  assert (St6 : Fpdf.state g6 <> 2) by (destruct T6 as [-> _]; exact St5).
  apply bind_Ok in H. destruct H as (g7 & E7 & H).
  assert (X7 : EmitStep g6 (if String.ltb "1.3" (Fpdf.pdfVersion g6)
                            then out "/Group <</Type /Group /S /Transparency /CS /DeviceRGB>>" g6
                            else Ok g6)) by emit.
  destruct (X7 St6 g7 E7) as (t7 & T7). clear X7 E7.
  assert (St7 : Fpdf.state g7 <> 2) by (destruct T7 as [-> _]; exact St6).
  apply bind_Ok in H. destruct H as (g8 & E8 & H). apply Emit_out in E8; [| exact St7].
  assert (St8 : Fpdf.state g8 <> 2) by (destruct E8 as [-> _]; exact St7).
  apply bind_Ok in H. destruct H as (g9 & E9 & H). apply Emit_out in E9; [| exact St8].
  assert (St9 : Fpdf.state g9 <> 2) by (destruct E9 as [-> _]; exact St8).
  (* the page object as a whole *)
  pose proof (Emit_trans _ _ _ _ _ E2
                (Emit_trans _ _ _ _ _ E3
                   (Emit_trans _ _ _ _ _ T4
                      (Emit_trans _ _ _ _ _ E5
                         (Emit_trans _ _ _ _ _ T6
                            (Emit_trans _ _ _ _ _ T7
                               (Emit_trans _ _ _ _ _ E8 E9))))))) as Epage.
  destruct Epage as (_ & _ & N9 & O9 & B9).
  assert (N7 : Fpdf.n g7 = Fpdf.n g1).
  { destruct E2 as (_ & _ & a2 & _), E3 as (_ & _ & a3 & _), T4 as (_ & _ & a4 & _),
      E5 as (_ & _ & a5 & _), T6 as (_ & _ & a6 & _), T7 as (_ & _ & a7 & _).
    congruence. }
  clear E2 E3 T4 E5 T6 T7 E8 E9.
  (* the content object *)
  apply bind_Ok in H. destruct H as (g10 & Hn10 & H).
  destruct (newobj_facts g9 g10 St9 Hn10) as (_ & S10 & P10 & N10 & B10 & O10 & K10).
  assert (St10 : Fpdf.state g10 <> 2) by congruence.
  apply bind_Ok in H. destruct H as (pg & _ & H).
  apply bind_Ok in H. destruct H as (g11 & E11 & H).
  assert (X11 : EmitStep g10
                  (if Fpdf.compress g10
                   then
                     let data := sliceCompress env pg in
                     f <- out ("<</Filter /FlateDecode /Length " ++ dec (len data) ++ ">>") g10 ;;
                     putstream data f
                   else
                     f <- out ("<</Length " ++ dec (len pg) ++ ">>") g10 ;;
                     putstream pg f)) by emit.
  destruct (X11 St10 g11 E11) as (t11 & T11). clear X11 E11.
  assert (St11 : Fpdf.state g11 <> 2) by (destruct T11 as [-> _]; exact St10).
  apply Emit_out in H; [| exact St11].
  destruct (Emit_trans _ _ _ _ _ T11 H) as (_ & _ & N12 & O12 & B12).
  clear T11 H.
  split; [lia |].
  exists (t4 ++ ("/Resources 2 0 R" ++ nl) ++ t6 ++ t7), t11.
  assert (Ej : offsetOf f' (Fpdf.n f + 1) = len (Fpdf.buffer f)).
  { rewrite (offsetOf_offsets _ _ _ O12), K10 by lia.
    rewrite (offsetOf_offsets _ _ _ O9). exact O1. }
  assert (Ej1 : offsetOf f' (Fpdf.n f + 1 + 1) = len (Fpdf.buffer g9)).
  { rewrite (offsetOf_offsets _ _ _ O12).
    replace (Fpdf.n f + 1 + 1) with (Fpdf.n g9 + 1) by lia. exact O10. }
  assert (Bpage : Fpdf.buffer g9
                  = Fpdf.buffer f ++
                    pageObject (Fpdf.n f + 1) (t4 ++ ("/Resources 2 0 R" ++ nl) ++ t6 ++ t7)).
  { rewrite B9, B1, N7, N1. unfold pageObject. rewrite !append_assoc. reflexivity. }
  split.
  - rewrite Ej. exists (Fpdf.buffer f), "". split; [| reflexivity].
    rewrite B12, B10, Bpage. unfold contentObject.
    replace (Fpdf.n g9 + 1) with (Fpdf.n f + 1 + 1) by lia.
    rewrite !append_assoc, append_nil_r. reflexivity.
  - rewrite Ej, Ej1, Bpage, len_append. reflexivity.
Qed.

Lemma EmitStep_same (f g : Fpdf.t) :
  Same f g -> EmitStep f (Ok g).
Proof.
  intros (S & P & N & B & O) _ f' H. inversion H; subst f'.
  exists "". repeat split; try assumption. now rewrite append_nil_r.
Qed.

Lemma EmitStep_forEach {A : Type} (body : A -> Fpdf.t -> result Fpdf.t) (l : list A) :
  (forall a g, EmitStep g (body a g)) ->
  forall g, EmitStep g (forEach body l g).
Proof.
  intros Hb. induction l as [| a l IH]; intros g; cbn [forEach].
  - apply EmitStep_ret.
  - apply EmitStep_bind; [apply Hb | exact IH].
Qed.

Lemma EmitStep_putalias (nbStr : string) (n : Z) (g : Fpdf.t) :
  EmitStep g (putalias nbStr n g).
Proof.
  unfold putalias. apply EmitStep_bind_pure. intros s.
  destruct (contains _ s); [| apply EmitStep_ret].
  apply EmitStep_bind_pure. intros ps. apply EmitStep_same. same.
Qed.

Lemma llen_zrange (lo count : Z) : llen (zrange lo count) = Z.max 0 count.
Proof. unfold llen, zrange. rewrite length_map, length_seq. lia. Qed.

(** The loop over the pages: each page takes the next two object numbers. *)
Lemma putpage_loop (env : Env) (hPt : float) :
  forall (l : list Z) (f f' : Fpdf.t),
    Fpdf.state f <> 2 ->
    0 <= Fpdf.n f ->
    forEach (putpage env hPt) l f = Ok f' ->
    Fpdf.n f' = Fpdf.n f + 2 * llen l /\
    forall i, 0 <= i < llen l -> pagePair f' (Fpdf.n f + 1 + 2 * i).
Proof.
  induction l as [| p l IH]; intros f f' Hst Hn H.
  - inversion H; subst f'. split; [unfold llen; simpl; lia |].
    intros i Hi. unfold llen in Hi. simpl in Hi. lia.
  - cbn [forEach] in H. apply bind_Ok in H. destruct H as (g & Hp & H).
    destruct (putpage_pair env hPt p f g Hst Hp) as [Ng Hpair].
    pose proof (SerStep_putpage env hPt p f Hst g Hp) as S1. unfold here in S1.
    assert (Stg : Fpdf.state g <> 2) by (destruct S1 as [-> _]; exact Hst).
    destruct (IH g f' Stg ltac:(lia) H) as [Nf' Hrest].
    pose proof (SerStep_forEach (putpage env hPt) l (SerStep_putpage env hPt) g Stg f' H)
      as S2. unfold here in S2.
    assert (Hl : llen (p :: l) = llen l + 1) by (unfold llen; simpl length; lia).
    split; [lia |].
    intros i Hi.
    destruct (Z.eq_dec i 0) as [-> | Hi0].
    + replace (Fpdf.n f + 1 + 2 * 0) with (Fpdf.n f + 1) by lia.
      apply (pagePair_SerK (fun _ => True) g f'); try exact I; try lia; assumption.
    + replace (Fpdf.n f + 1 + 2 * i) with (Fpdf.n g + 1 + 2 * (i - 1)) by lia.
      apply Hrest. lia.
Qed.

(** *** The objects with the reserved numbers 1 and 2 *)

Lemma Slot_intro (r : Z) (s : string) (g f' : Fpdf.t) (offs : list Z) :
  upd (Fpdf.offsets g) r (len (Fpdf.buffer g)) = Ok offs ->
  Emit (objHeader r ++ s) (Fpdf.set_offsets offs g) f' ->
  Slot r s g f'.
Proof.
  intros Hupd (S & P & N & O & B).
  apply upd_Ok in Hupd. destruct Hupd as [Hr ->].
  cbn [Fpdf.state Fpdf.page Fpdf.n Fpdf.offsets Fpdf.buffer Fpdf.set_offsets] in *.
  unfold Slot, offsetOf. rewrite O.
  repeat split; try assumption.
  - apply nth_replace_nth_eq. unfold llen in Hr. lia.
  - intros j Hj Hjr. apply nth_replace_nth_neq. lia.
Qed.

Lemma Slot_SerK (keep : Z -> Prop) (r : Z) (s : string) (f f' : Fpdf.t) :
  (forall j, keep j -> j <> r) -> Slot r s f f' -> SerK keep f f'.
Proof.
  intros Hk (S & P & N & B & O & K).
  repeat split; try assumption; try lia.
  - eexists; exact B.
  - intros j Hj Hkj. apply K; [lia | apply Hk; exact Hkj].
Qed.

Lemma Ok_inj {A : Type} (a b : A) : Ok a = Ok b -> a = b.
Proof. intros H. injection H. trivial. Qed.

Lemma Emit_intro (s : string) (f g : Fpdf.t) :
  Fpdf.state g = Fpdf.state f -> Fpdf.page g = Fpdf.page f ->
  Fpdf.n g = Fpdf.n f -> Fpdf.offsets g = Fpdf.offsets f ->
  Fpdf.buffer g = Fpdf.buffer f ++ s ->
  Emit s f g.
Proof. intros. repeat split; assumption. Qed.

(** The pages and the pages root: object 1 is written after the pages, at
    the offset recorded for it, and lists the page objects. *)
Lemma putpages_structure (env : Env) (f f' : Fpdf.t) :
  Fpdf.state f <> 2 ->
  2 <= Fpdf.n f ->
  putpages env f = Ok f' ->
  SerK (fun j => j <> 1) f f' /\
  Fpdf.n f' = Fpdf.n f + 2 * Z.max 0 (Fpdf.page f) /\
  (forall i, 0 <= i < Fpdf.page f -> pagePair f' (Fpdf.n f + 1 + 2 * i)) /\
  objectAt f' 1 ("<</Type /Pages" ++ nl ++ putkids (Fpdf.page f) ++ nl ++
                 "/Count " ++ dec (Fpdf.page f) ++ nl) /\
  (forall j, Fpdf.n f < j <= Fpdf.n f' -> offsetOf f' j < offsetOf f' 1) /\
  len (Fpdf.buffer f) <= offsetOf f' 1 < len (Fpdf.buffer f').
Proof.
  intros Hst Hn H. unfold putpages in H.
  apply bind_Ok in H. destruct H as (a & Ha & H).
  assert (XA : EmitStep f
                 (if 0 <? len (Fpdf.aliasNbPagesStr f)
                  then forEach (putalias (dec (Fpdf.page f))) (zrange 1 (Fpdf.page f)) f
                  else Ok f)).
  { destruct (0 <? _); [| apply EmitStep_ret].
    apply EmitStep_forEach. intros x g. apply EmitStep_putalias. }
  destruct (XA Hst a Ha) as (sa & EA). clear XA Ha.
  pose proof (Emit_Ser _ _ _ EA) as SA.
  destruct EA as (Sa & Pa & Na & Oa & Ba).
  assert (Sta : Fpdf.state a <> 2) by congruence.
  destruct (defaultSizePt a) as [wPt hPt].
  apply bind_Ok in H. destruct H as (b & Hb & H).
  destruct (putpage_loop env hPt _ a b Sta ltac:(lia) Hb) as [Nb Hpairs].
  rewrite llen_zrange in Nb, Hpairs.
  pose proof (SerStep_forEach (putpage env hPt) _ (SerStep_putpage env hPt) a Sta b Hb)
    as SB. unfold here in SB.
  assert (Stb : Fpdf.state b <> 2) by (destruct SB as [-> _]; exact Sta).
  apply bind_Ok in H. destruct H as (offs & Hupd & H).
  assert (Stc : Fpdf.state (Fpdf.set_offsets offs b) <> 2) by exact Stb.
  destruct (Emit_bind_out _ _ _ _ Stc H) as (c1 & E1 & St1 & H1). clear H.
  destruct (Emit_bind_out _ _ _ _ St1 H1) as (c2 & E2 & St2 & H2). clear H1.
  destruct (Emit_bind_out _ _ _ _ St2 H2) as (c3 & E3 & St3 & H3). clear H2.
  destruct (Emit_bind_out _ _ _ _ St3 H3) as (c4 & E4 & St4 & H4). clear H3.
  destruct (Emit_bind_out _ _ _ _ St4 H4) as (c5 & E5 & St5 & H5). clear H4.
  destruct (Emit_bind_out _ _ _ _ St5 H5) as (c6 & E6 & St6 & H6). clear H5.
  apply Emit_out in H6; [| exact St6].
  pose proof (Emit_trans _ _ _ _ _ E1
                (Emit_trans _ _ _ _ _ E2
                   (Emit_trans _ _ _ _ _ E3
                      (Emit_trans _ _ _ _ _ E4
                         (Emit_trans _ _ _ _ _ E5 (Emit_trans _ _ _ _ _ E6 H6))))))
    as EC0.
  clear E1 E2 E3 E4 E5 E6 H6.
  assert (EC : Emit (objHeader 1 ++
                     "<</Type /Pages" ++ nl ++ putkids (Fpdf.page f) ++ nl ++
                     "/Count " ++ dec (Fpdf.page f) ++ nl ++
                     ("/MediaBox [0 0 " ++ f2 wPt ++ " " ++ f2 hPt ++ "]") ++ nl ++
                     ">>" ++ nl ++ "endobj" ++ nl)
                (Fpdf.set_offsets offs b) f').
  { destruct EC0 as (e1 & e2 & e3 & e4 & e5).
    apply Emit_intro; try assumption.
    rewrite e5. f_equal. unfold objHeader. change (dec 1) with "1".
    rewrite !append_assoc. reflexivity. }
  clear EC0.
  pose proof (Slot_intro 1 _ b f' offs Hupd EC) as SL.
  assert (SC : SerK (fun j => j <> 1) b f')
    by (eapply Slot_SerK; [| exact SL]; intros j Hj; exact Hj).
  assert (SAB : SerK (fun j => j <> 1) f b).
  { apply (SerK_weaken (fun _ => True)); [intros; exact I |].
    eapply Ser_trans; eassumption. }
  destruct SL as (SLs & SLp & SLn & SLb & SLo & SLk).
  split; [eapply SerK_trans; [intros j Hj; lia | exact SAB | exact SC] |].
  split; [lia |].
  split.
  - intros i Hi. rewrite <- Na.
    apply (pagePair_SerK (fun j => j <> 1) b f'); try lia; try exact SC.
    apply Hpairs. lia.
  - split; [| split].
    + eapply occursAt_prefix with (t := _).
      unfold objectAt. rewrite SLo, SLb.
      exists (Fpdf.buffer b), "". split; [| reflexivity].
      rewrite append_nil_r, !append_assoc. reflexivity.
    + intros j Hj. rewrite SLo, SLk by lia.
      destruct SAB as (_ & _ & _ & _ & _ & New & _).
      apply New; lia.
    + rewrite SLo, SLb, len_append.
      destruct SAB as (_ & _ & _ & (t & Bt) & _).
      rewrite Bt, len_append.
      pose proof (len_nonneg t). split; [lia |].
      assert (0 < len (objHeader 1 ++
                       "<</Type /Pages" ++ nl ++ putkids (Fpdf.page f) ++ nl ++
                       "/Count " ++ dec (Fpdf.page f) ++ nl ++
                       ("/MediaBox [0 0 " ++ f2 wPt ++ " " ++ f2 hPt ++ "]") ++ nl ++
                       ">>" ++ nl ++ "endobj" ++ nl)); [| lia].
      rewrite len_append. pose proof (len_nonneg ("<</Type /Pages" ++ nl ++ putkids (Fpdf.page f) ++ nl ++
                       "/Count " ++ dec (Fpdf.page f) ++ nl ++
                       ("/MediaBox [0 0 " ++ f2 wPt ++ " " ++ f2 hPt ++ "]") ++ nl ++
                       ">>" ++ nl ++ "endobj" ++ nl)).
      change (len (objHeader 1)) with 8. lia.
Qed.

(** Steps that only add text, loops included. *)
Ltac emits :=
  cbn beta iota zeta;
  lazymatch goal with
  | |- EmitStep _ (@bind ?A _ _ _) =>
      lazymatch A with
      | Fpdf.t => eapply EmitStep_bind; [emits | intros ?; emits]
      | _ => eapply EmitStep_bind_pure; intros ?; emits
      end
  | |- EmitStep _ (Ok _) => apply EmitStep_ret
  | |- EmitStep _ (out _ _) => apply EmitStep_out
  | |- EmitStep _ (forEach _ _ _) => apply EmitStep_forEach; intros ? ?; emits
  | |- EmitStep _ (if ?b then _ else _) => destruct b; emits
  | |- EmitStep _ (putxobjectdict _ _) => unfold putxobjectdict; emits
  end.

(** The fonts, the images and the resource dictionary: object 2 is written
    after them, at the offset recorded for it. *)
Lemma putresources_structure (env : Env) (f f' : Fpdf.t) :
  Fpdf.state f <> 2 ->
  2 <= Fpdf.n f ->
  putresources env f = Ok f' ->
  Fpdf.err f' = None ->
  SerK (fun j => j <> 2) f f' /\
  objectAt f' 2 ("<<" ++ nl ++ "/ProcSet [/PDF /Text /ImageB /ImageC /ImageI]" ++ nl ++
                 "/Font <<" ++ nl) /\
  len (Fpdf.buffer f) <= offsetOf f' 2 < len (Fpdf.buffer f').
Proof.
  intros Hst Hn H Herr. unfold putresources in H.
  destruct (nonNil (Fpdf.err f)) eqn:E0.
  { apply Ok_inj in H. subst f'. rewrite (nonNil_false _ Herr) in E0. discriminate. }
  apply bind_Ok in H. destruct H as (a & Ha & H).
  pose proof (SerStep_putfonts env f Hst a Ha) as SA. unfold here in SA.
  assert (Sta : Fpdf.state a <> 2) by (destruct SA as [-> _]; exact Hst).
  destruct (nonNil (Fpdf.err a)) eqn:E1.
  { apply Ok_inj in H. subst f'. rewrite (nonNil_false _ Herr) in E1. discriminate. }
  apply bind_Ok in H. destruct H as (b & Hb & H).
  pose proof (SerStep_putimages env a Sta b Hb) as SB. unfold here in SB.
  assert (Stb : Fpdf.state b <> 2) by (destruct SB as [-> _]; exact Sta).
  pose proof (Ser_trans _ _ _ SA SB) as SAB. clear SA SB Ha Hb.
  apply bind_Ok in H. destruct H as (offs & Hupd & H).
  assert (Stc : Fpdf.state (Fpdf.set_offsets offs b) <> 2) by exact Stb.
  destruct (Emit_bind_out _ _ _ _ Stc H) as (c1 & E1' & St1 & H1). clear H.
  destruct (Emit_bind_out _ _ _ _ St1 H1) as (c2 & E2 & St2 & H2). clear H1.
  apply bind_Ok in H2. destruct H2 as (c5 & Hrd & H).
  unfold putresourcedict in Hrd.
  destruct (Emit_bind_out _ _ _ _ St2 Hrd) as (c3 & E3 & St3 & H3). clear Hrd.
  destruct (Emit_bind_out _ _ _ _ St3 H3) as (c4 & E4 & St4 & H4). clear H3.
  assert (X5 : exists t, Emit t c4 c5).
  { match type of H4 with ?c = Ok _ => assert (Y : EmitStep c4 c) by emits end.
    exact (Y St4 c5 H4). }
  destruct X5 as (t5 & E5). clear H4.
  assert (St5 : Fpdf.state c5 <> 2) by (destruct E5 as [-> _]; exact St4).
  destruct (Emit_bind_out _ _ _ _ St5 H) as (c6 & E6 & St6 & H6). clear H.
  apply Emit_out in H6; [| exact St6].
  pose proof (Emit_trans _ _ _ _ _ E1'
                (Emit_trans _ _ _ _ _ E2
                   (Emit_trans _ _ _ _ _ E3
                      (Emit_trans _ _ _ _ _ E4
                         (Emit_trans _ _ _ _ _ E5 (Emit_trans _ _ _ _ _ E6 H6))))))
    as EC0.
  clear E1' E2 E3 E4 E5 E6 H6.
  assert (EC : Emit (objHeader 2 ++
                     "<<" ++ nl ++
                     "/ProcSet [/PDF /Text /ImageB /ImageC /ImageI]" ++ nl ++
                     "/Font <<" ++ nl ++
                     t5 ++ ">>" ++ nl ++ "endobj" ++ nl)
                (Fpdf.set_offsets offs b) f').
  { destruct EC0 as (e1 & e2 & e3 & e4 & e5).
    apply Emit_intro; assumption. }
  clear EC0.
  pose proof (Slot_intro 2 _ b f' offs Hupd EC) as SL.
  assert (SC : SerK (fun j => j <> 2) b f')
    by (eapply Slot_SerK; [| exact SL]; intros j Hj; exact Hj).
  assert (SAB' : SerK (fun j => j <> 2) f b)
    by (apply (SerK_weaken (fun _ => True)); [intros; exact I | exact SAB]).
  destruct SL as (SLs & SLp & SLn & SLb & SLo & SLk).
  split; [eapply SerK_trans; [intros j Hj; lia | exact SAB' | exact SC] |].
  split.
  - eapply occursAt_prefix with (t := _).
    unfold objectAt. rewrite SLo, SLb.
    exists (Fpdf.buffer b), "". split; [| reflexivity].
    rewrite append_nil_r, !append_assoc. reflexivity.
  - rewrite SLo, SLb, len_append.
    destruct SAB as (_ & _ & _ & (t & Bt) & _).
    rewrite Bt, len_append.
    pose proof (len_nonneg t). split; [lia |].
    rewrite len_append.
    match goal with |- context [len (objHeader 2) + len ?x] => pose proof (len_nonneg x) end.
    change (len (objHeader 2)) with 8. lia.
Qed.

(** *** The cross-reference table *)

Lemma concat_cons (x : string) (l : list string) :
  String.concat "" (x :: l) = x ++ String.concat "" l.
Proof. destruct l; simpl; [now rewrite append_nil_r | reflexivity]. Qed.

Lemma length_zeros (n : nat) : String.length (zeros n) = n.
Proof. induction n as [| n IH]; simpl; [reflexivity | now rewrite IH]. Qed.

(** A number below [10 ^ (k+1)] has at most [k+1] digits. *)
Lemma length_dec_digits (fuel : nat) :
  forall (k : nat) (z : Z) (acc : string),
    0 <= z < 10 ^ Z.of_nat (S k) ->
    (String.length (dec_digits fuel z acc) <= String.length acc + S k)%nat.
Proof.
  induction fuel as [| fuel IH]; intros k z acc Hz; cbn [dec_digits].
  - lia.
  - destruct (z <? 10) eqn:E.
    + simpl. lia.
    + apply Z.ltb_ge in E.
      destruct k as [| k].
      * assert (P1 : 10 ^ Z.of_nat 1 = 10) by reflexivity. rewrite P1 in Hz. lia.
      * specialize (IH k (z / 10) (String (digit (z mod 10)) acc)).
        simpl String.length in IH.
        assert (0 <= z / 10 < 10 ^ Z.of_nat (S k)).
        { split; [apply Z.div_pos; lia |].
          apply Z.div_lt_upper_bound; [lia |].
          replace (Z.of_nat (S (S k))) with (Z.succ (Z.of_nat (S k))) in Hz by lia.
          rewrite Z.pow_succ_r in Hz by lia. lia. }
        specialize (IH H). lia.
Qed.

(** [%010d] of an offset below ten thousand million is ten bytes. *)
Lemma length_dec_pad (z : Z) :
  0 <= z < 10 ^ 10 -> String.length (dec_pad 10 z) = 10%nat.
Proof.
  intros Hz. unfold dec_pad.
  destruct (z <? 0) eqn:E; [apply Z.ltb_lt in E; lia |].
  cbn zeta. rewrite length_append, length_zeros.
  pose proof (length_dec_digits (S (Z.to_nat (Z.log2 z))) 9 z "" Hz) as L.
  unfold dec_nonneg. change (String.length "") with 0%nat in L. lia.
Qed.

Lemma length_xrefRecord (off : Z) :
  0 <= off < 10 ^ 10 -> String.length (xrefRecord off) = 20%nat.
Proof.
  intros H. unfold xrefRecord. rewrite length_append, length_dec_pad by exact H.
  reflexivity.
Qed.

(** The records of the objects, one call of [putxrefentry] each. *)
Lemma putxrefentries (l : list Z) :
  forall (f f' : Fpdf.t),
    Fpdf.state f <> 2 ->
    forEach putxrefentry l f = Ok f' ->
    Emit (String.concat "" (map (fun j => xrefRecord (offsetOf f j)) l)) f f'.
Proof.
  induction l as [| j l IH]; intros f f' Hst H; cbn [forEach] in H.
  - apply Ok_inj in H. subst f'. apply Emit_intro; try reflexivity.
    simpl. now rewrite append_nil_r.
  - apply bind_Ok in H. destruct H as (g & Hg & H).
    unfold putxrefentry in Hg.
    apply bind_Ok in Hg. destruct Hg as (off & Hoff & Hg).
    apply idx_Ok in Hoff. destruct Hoff as [_ Hoff].
    apply Emit_out in Hg; [| exact Hst].
    assert (Stg : Fpdf.state g <> 2) by (destruct Hg as [-> _]; exact Hst).
    specialize (IH g f' Stg H).
    cbn [map]. rewrite concat_cons.
    replace (map (fun j0 => xrefRecord (offsetOf f j0)) l)
      with (map (fun j0 => xrefRecord (offsetOf g j0)) l).
    + replace (xrefRecord (offsetOf f j)) with ((dec_pad 10 off ++ " 00000 n ") ++ nl).
      * eapply Emit_trans; eassumption.
      * unfold xrefRecord, offsetOf. rewrite Hoff, append_assoc. reflexivity.
    + apply map_ext. intros i. unfold offsetOf.
      destruct Hg as (_ & _ & _ & -> & _). reflexivity.
Qed.

(** The table, the trailer and the end of the file, as [putxref] writes
    them. *)
Lemma putxref_section (f f' : Fpdf.t) :
  Fpdf.state f <> 2 ->
  putxref f = Ok f' ->
  Fpdf.buffer f'
  = Fpdf.buffer f ++ xrefSection (offsetOf f) (Fpdf.n f) (len (Fpdf.buffer f)) /\
  Fpdf.offsets f' = Fpdf.offsets f /\ Fpdf.n f' = Fpdf.n f /\
  Fpdf.page f' = Fpdf.page f /\ Fpdf.state f' = 3.
Proof.
  intros Hst H. unfold putxref in H. cbn zeta in H.
  destruct (Emit_bind_out _ _ _ _ Hst H) as (c1 & E1 & St1 & H1). clear H.
  destruct (Emit_bind_out _ _ _ _ St1 H1) as (c2 & E2 & St2 & H2). clear H1.
  destruct (Emit_bind_out _ _ _ _ St2 H2) as (c3 & E3 & St3 & H3). clear H2.
  apply bind_Ok in H3. destruct H3 as (c4 & H4 & H).
  apply putxrefentries in H4; [| exact St3].
  assert (St4 : Fpdf.state c4 <> 2) by (destruct H4 as [-> _]; exact St3).
  destruct (Emit_bind_out _ _ _ _ St4 H) as (c5 & E5 & St5 & H5). clear H.
  destruct (Emit_bind_out _ _ _ _ St5 H5) as (c6 & E6 & St6 & H6). clear H5.
  apply bind_Ok in H6. destruct H6 as (c9 & Htr & H).
  unfold puttrailer in Htr.
  destruct (Emit_bind_out _ _ _ _ St6 Htr) as (c7 & E7 & St7 & H7). clear Htr.
  destruct (Emit_bind_out _ _ _ _ St7 H7) as (c8 & E8 & St8 & H8). clear H7.
  apply Emit_out in H8; [| exact St8].
  assert (St9 : Fpdf.state c9 <> 2) by (destruct H8 as [-> _]; exact St8).
  destruct (Emit_bind_out _ _ _ _ St9 H) as (c10 & E10 & St10 & H10). clear H.
  destruct (Emit_bind_out _ _ _ _ St10 H10) as (c11 & E11 & St11 & H11). clear H10.
  destruct (Emit_bind_out _ _ _ _ St11 H11) as (c12 & E12 & St12 & H12). clear H11.
  apply bind_Ok in H12. destruct H12 as (c13 & E13 & H).
  apply Emit_out in E13; [| exact St12].
  apply Ok_inj in H. subst f'.
  assert (N1 : Fpdf.n c1 = Fpdf.n f) by (destruct E1 as (_ & _ & -> & _); reflexivity).
  assert (N3 : Fpdf.n c3 = Fpdf.n f)
    by (destruct E2 as (_ & _ & a2 & _), E3 as (_ & _ & a3 & _); congruence).
  assert (O3 : Fpdf.offsets c3 = Fpdf.offsets f)
    by (destruct E1 as (_ & _ & _ & a1 & _), E2 as (_ & _ & _ & a2 & _),
          E3 as (_ & _ & _ & a3 & _); congruence).
  assert (N6 : Fpdf.n c6 = Fpdf.n f)
    by (destruct H4 as (_ & _ & a4 & _), E5 as (_ & _ & a5 & _), E6 as (_ & _ & a6 & _);
        congruence).
  assert (N7 : Fpdf.n c7 = Fpdf.n f) by (destruct E7 as (_ & _ & a7 & _); congruence).
  assert (N8 : Fpdf.n c8 = Fpdf.n f) by (destruct E8 as (_ & _ & a8 & _); congruence).
  rewrite N1 in E2. rewrite N3 in H4. rewrite N6 in E7. rewrite N7 in E8. rewrite N8 in H8.
  replace (map (fun j => xrefRecord (offsetOf c3 j)) (zrange 1 (Fpdf.n f)))
    with (map (fun j => xrefRecord (offsetOf f j)) (zrange 1 (Fpdf.n f))) in H4
    by (apply map_ext; intros i; unfold offsetOf; rewrite O3; reflexivity).
  pose proof (Emit_trans _ _ _ _ _ E1
             (Emit_trans _ _ _ _ _ E2
             (Emit_trans _ _ _ _ _ E3
             (Emit_trans _ _ _ _ _ H4
             (Emit_trans _ _ _ _ _ E5
             (Emit_trans _ _ _ _ _ E6
             (Emit_trans _ _ _ _ _ E7
             (Emit_trans _ _ _ _ _ E8
             (Emit_trans _ _ _ _ _ H8
             (Emit_trans _ _ _ _ _ E10
             (Emit_trans _ _ _ _ _ E11
             (Emit_trans _ _ _ _ _ E12 E13)))))))))))) as EC.
  destruct EC as (_ & P & N & O & B).
  cbn [Fpdf.buffer Fpdf.offsets Fpdf.n Fpdf.page Fpdf.state Fpdf.set_state].
  repeat split; try assumption.
  rewrite B. f_equal. unfold xrefSection. rewrite !append_assoc. reflexivity.
Qed.

(** *** The whole file *)

Lemma nonNil_None (e : option string) : nonNil e = false -> e = None.
Proof. destruct e; [discriminate | reflexivity]. Qed.

Lemma Ser_bind_step (f0 f : Fpdf.t) (c : result Fpdf.t) (k : Fpdf.t -> result Fpdf.t)
  (f' : Fpdf.t) :
  Ser f0 f -> Fpdf.state f <> 2 -> SerStep here f c ->
  bind c k = Ok f' ->
  exists g, Ser f0 g /\ Fpdf.state g <> 2 /\ k g = Ok f'.
Proof.
  intros S St X H. apply bind_Ok in H. destruct H as (g & Hg & H).
  pose proof (X St g Hg) as Sg. unfold here in Sg.
  exists g. split; [eapply Ser_trans; eassumption |]. split; [| exact H].
  destruct Sg as [-> _]. exact St.
Qed.

(** What a text lying in the buffer before the cross-reference table was
    added still is after. *)
Lemma objectAt_final (g f' : Fpdf.t) (t : string) (j : Z) (s : string) :
  Fpdf.buffer f' = Fpdf.buffer g ++ t -> Fpdf.offsets f' = Fpdf.offsets g ->
  objectAt g j s -> objectAt f' j s.
Proof.
  intros B O H. unfold objectAt in *. rewrite B, (offsetOf_offsets _ _ _ O).
  apply occursAt_app. exact H.
Qed.

Lemma objectAt_header (g : Fpdf.t) (j : Z) (s : string) :
  objectAt g j s -> objectAt g j "".
Proof.
  unfold objectAt. intros H. rewrite append_nil_r.
  apply occursAt_prefix with (t := s). exact H.
Qed.

Lemma pagePair_final (g f' : Fpdf.t) (t : string) (j : Z) :
  Fpdf.buffer f' = Fpdf.buffer g ++ t -> Fpdf.offsets f' = Fpdf.offsets g ->
  pagePair g j -> pagePair f' j.
Proof.
  intros B O (mid & body & H & E). exists mid, body.
  rewrite B, !(offsetOf_offsets _ _ _ O). split; [apply occursAt_app; exact H | exact E].
Qed.

(** The document as [enddoc] leaves it: the objects, then the
    cross-reference table that lists their offsets. *)
Lemma enddoc_structure (env : Env) (f f' : Fpdf.t) :
  Fpdf.state f <> 2 ->
  Fpdf.n f = 2 ->
  enddoc env f = Ok f' ->
  Fpdf.err f' = None ->
  exists g,
    Fpdf.buffer f'
    = Fpdf.buffer g ++ xrefSection (offsetOf g) (Fpdf.n g) (len (Fpdf.buffer g)) /\
    Fpdf.offsets f' = Fpdf.offsets g /\ Fpdf.n f' = Fpdf.n g /\
    Fpdf.page f' = Fpdf.page f /\ Fpdf.state f' = 3 /\
    objectGraph (Fpdf.page f) g.
Proof.
  intros Hst Hn H Herr. unfold enddoc in H.
  destruct (nonNil (Fpdf.err f)) eqn:E0.
  { apply Ok_inj in H. subst f'. rewrite (nonNil_false _ Herr) in E0. discriminate. }
  unfold putheader in H.
  destruct (Emit_bind_out _ _ _ _ Hst H) as (g0 & EH & St0 & H0). clear H.
  destruct EH as (_ & P0 & N0 & _ & B0).
  apply bind_Ok in H0. destruct H0 as (g1 & Hp & H).
  destruct (putpages_structure env g0 g1 St0 ltac:(lia) Hp)
    as (S1 & N1 & PP & R1 & Before1 & In1).
  assert (St1 : Fpdf.state g1 <> 2) by (destruct S1 as [-> _]; exact St0).
  apply bind_Ok in H. destruct H as (g2 & Hr & H).
  destruct (nonNil (Fpdf.err g2)) eqn:E2.
  { apply Ok_inj in H. subst f'. rewrite (nonNil_false _ Herr) in E2. discriminate. }
  apply nonNil_None in E2.
  destruct (putresources_structure env g1 g2 St1 ltac:(lia) Hr E2) as (S2 & R2 & In2).
  assert (St2 : Fpdf.state g2 <> 2) by (destruct S2 as [-> _]; exact St1).
  pose proof (Ser_refl g2) as S.
  eapply Ser_bind_step in H; [| exact S | exact St2 | solve [eauto with ser]].
  clear S. destruct H as (a1 & S & Sa1 & H).
  eapply Ser_bind_step in H; [| exact S | exact Sa1 | solve [eauto with ser]].
  clear S Sa1. destruct H as (a2 & S & Sa2 & H).
  eapply Ser_bind_step in H; [| exact S | exact Sa2 | solve [eauto with ser]].
  clear S Sa2. destruct H as (a3 & S & Sa3 & H).
  eapply Ser_bind_step in H; [| exact S | exact Sa3 | solve [eauto with ser]].
  clear S Sa3. destruct H as (a4 & S & Sa4 & H).
  eapply Ser_bind_step in H; [| exact S | exact Sa4 | solve [eauto with ser]].
  clear S Sa4. destruct H as (a5 & S & Sa5 & H).
  eapply Ser_bind_step in H; [| exact S | exact Sa5 | solve [eauto with ser]].
  clear S Sa5. destruct H as (a6 & S & Sa6 & H).
  eapply Ser_bind_step in H; [| exact S | exact Sa6 | solve [eauto with ser]].
  clear S Sa6. destruct H as (a7 & S & Sa7 & H).
  eapply Ser_bind_step in H; [| exact S | exact Sa7 | solve [eauto with ser]].
  clear S Sa7. destruct H as (a8 & S & Sa8 & H).
  eapply Ser_bind_step in H; [| exact S | exact Sa8 | solve [eauto with ser]].
  clear S Sa8. destruct H as (a9 & S & Sa9 & H).
  eapply Ser_bind_step in H; [| exact S | exact Sa9 | solve [eauto with ser]].
  clear S Sa9. destruct H as (g & S & Sg & H).
  destruct (putxref_section g f' Sg H) as (B & O & N & P & St).
  exists g. split; [exact B |]. split; [exact O |]. split; [exact N |].
  (* from the pages to the last object *)
  assert (S2g : SerK (fun j => j <> 2) g2 g)
    by (apply (SerK_weaken (fun _ => True)); [intros; exact I | exact S]).
  assert (S1g : SerK (fun j => j <> 2) g1 g)
    by (eapply SerK_trans; [intros j Hj; lia | exact S2 | exact S2g]).
  assert (S0g : SerK numbered g0 g).
  { eapply SerK_trans; [intros j Hj; unfold numbered; lia | |].
    - apply (SerK_weaken (fun j => j <> 1)); [unfold numbered; intros; lia | exact S1].
    - apply (SerK_weaken (fun j => j <> 2)); [unfold numbered; intros; lia | exact S1g]. }
  assert (Pg : Fpdf.page g = Fpdf.page f)
    by (destruct S0g as (_ & -> & _); exact P0).
  rewrite P0 in N1, PP, R1.
  assert (K1 : offsetOf g 1 = offsetOf g1 1)
    by (destruct S1g as (_ & _ & _ & _ & K & _); apply K; lia).
  assert (K2 : offsetOf g 2 = offsetOf g2 2)
    by (destruct S as (_ & _ & _ & _ & K & _); apply K;
        [destruct S2 as (_ & _ & ? & _); lia | exact I]).
  assert (L12 : len (Fpdf.buffer g1) <= len (Fpdf.buffer g2)).
  { destruct S2 as (_ & _ & _ & (t & ->) & _). rewrite len_append.
    pose proof (len_nonneg t). lia. }
  assert (L2g : len (Fpdf.buffer g2) <= len (Fpdf.buffer g)).
  { destruct S as (_ & _ & _ & (t & ->) & _). rewrite len_append.
    pose proof (len_nonneg t). lia. }
  assert (L01 : 0 <= len (Fpdf.buffer g0)) by apply len_nonneg.
  assert (O1g : objectAt g 1 (pagesRoot (Fpdf.page f))).
  { apply (objectAt_SerK _ g1 g 1 _ S1g); [lia | lia | exact R1]. }
  assert (O2g : objectAt g 2 resourceHead).
  { apply (objectAt_SerK _ g2 g 2 _ S);
      [destruct S2 as (_ & _ & ? & _); lia | exact I | exact R2]. }
  split; [congruence |]. split; [exact St |].
  destruct S0g as (_ & _ & N0g & _ & K0g & New0g & Inc0g).
  unfold objectGraph.
  split; [destruct S1g as (_ & _ & ? & _); lia |].
  split.
  { intros j Hj.
    destruct (Z.eq_dec j 1) as [-> | J1]; [| destruct (Z.eq_dec j 2) as [-> | J2]].
    - split; [exact (objectAt_header _ _ _ O1g) |].
      rewrite K1. lia.
    - split; [exact (objectAt_header _ _ _ O2g) |].
      rewrite K2. lia.
    - destruct (New0g j ltac:(lia) ltac:(lia)) as [A Bd]. split; [exact A | lia]. }
  split; [exact O1g |]. split; [exact O2g |].
  split.
  { intros i Hi. unfold pageAt.
    apply (pagePair_SerK _ g1 g (3 + 2 * i) S1g); try lia.
    replace (3 + 2 * i) with (Fpdf.n g0 + 1 + 2 * i) by lia. apply PP. exact Hi. }
  split; [intros j Hj; apply Inc0g; lia |].
  split.
  { intros j Hj. rewrite K1.
    destruct S1g as (_ & _ & _ & _ & K & _).
    rewrite K by lia. apply Before1. lia. }
  split.
  { intros j Hj3 Hj. rewrite K1.
    destruct S1g as (_ & _ & _ & _ & _ & New & _).
    destruct (New j ltac:(lia) ltac:(lia)) as [_ Bd]. lia. }
  rewrite K1, K2. lia.
Qed.

(** ** Pages and object numbers before serialization *)

Lemma Keeps_refl (f : Fpdf.t) : Keeps f f.
Proof. split; [apply Z.le_refl | reflexivity]. Qed.

Lemma Keeps_trans (f g h : Fpdf.t) : Keeps f g -> Keeps g h -> Keeps f h.
Proof. intros [P1 N1] [P2 N2]. split; [lia | congruence]. Qed.

Lemma KeepStep_bind {A B : Type} (pa : A -> Fpdf.t) (pb : B -> Fpdf.t) (f : Fpdf.t)
  (c : result A) (k : A -> result B) :
  KeepStep pa f c -> (forall a, KeepStep pb (pa a) (k a)) -> KeepStep pb f (bind c k).
Proof.
  intros Hc Hk b Hb. apply bind_Ok in Hb. destruct Hb as (a & Ha & Hb).
  eapply Keeps_trans; [exact (Hc a Ha) | exact (Hk a b Hb)].
Qed.

Lemma KeepStep_bind_pure {A B : Type} (pb : B -> Fpdf.t) (f : Fpdf.t)
  (c : result A) (k : A -> result B) :
  (forall a, KeepStep pb f (k a)) -> KeepStep pb f (bind c k).
Proof.
  intros Hk b Hb. apply bind_Ok in Hb. destruct Hb as (a & _ & Hb). exact (Hk a b Hb).
Qed.

Lemma KeepStep_ret {B : Type} (pb : B -> Fpdf.t) (f : Fpdf.t) (b : B) :
  Keeps f (pb b) -> KeepStep pb f (Ok b).
Proof. intros HK a Ha. inversion Ha; subst. exact HK. Qed.

Lemma KeepStep_panic {B : Type} (pb : B -> Fpdf.t) (f : Fpdf.t) (m : string) :
  KeepStep pb f (Panic m).
Proof. intros a Ha. discriminate. Qed.

Lemma KeepStep_from {B : Type} (pb : B -> Fpdf.t) (f g : Fpdf.t) (c : result B) :
  Keeps f g -> KeepStep pb g c -> KeepStep pb f c.
Proof. intros HK Hc b Hb. eapply Keeps_trans; [exact HK | exact (Hc b Hb)]. Qed.

Ltac keeps :=
  repeat (lazymatch goal with
          | |- Keeps _ ?g =>
              match g with context [if ?b then _ else _] => destruct b end
          end);
  (split; [exact (Z.le_refl _) | reflexivity]).

Lemma KeepStep_out (s : string) (g : Fpdf.t) : KeepStep here g (out s g).
Proof.
  intros a Ha. unfold out in Ha. destruct (Fpdf.state g =? 2).
  - apply bind_Ok in Ha. destruct Ha as (pg & _ & Ha).
    apply bind_Ok in Ha. destruct Ha as (ps & _ & Ha).
    apply Ok_inj in Ha. subst a. keeps.
  - apply Ok_inj in Ha. subst a. keeps.
Qed.

Lemma KeepStep_loadfont {B : Type} (pb : B -> Fpdf.t) (f g : Fpdf.t) (env : Env)
  (s : string) (k : fontDefType.t -> Fpdf.t -> result B) :
  Keeps f g ->
  (forall info g', KeepStep pb g' (k info g')) ->
  KeepStep pb f (let '(info, g') := loadfont env s g in k info g').
Proof.
  intros HK Hk. unfold loadfont.
  destruct (nonNil (Fpdf.err g)); [eapply KeepStep_from; [exact HK | apply Hk] |].
  destruct (readFile env s) as [buf | e];
    [| eapply KeepStep_from; [| apply Hk]; exact HK].
  destruct (unmarshalFont env buf) as [def [e |]];
    eapply KeepStep_from; try apply Hk; exact HK.
Qed.

Create HintDb keep discriminated.

#[local] Hint Resolve KeepStep_out : keep.

Ltac keep :=
  cbn beta iota zeta;
  lazymatch goal with
  | |- KeepStep _ _ (@bind ?A _ _ _) =>
      lazymatch A with
      | Fpdf.t => eapply (KeepStep_bind here); [keep | intros ?; unfold here at 1; keep]
      | (_ * Fpdf.t)%type =>
          eapply (KeepStep_bind snd); [keep | intros [? ?]; cbn [snd]; keep]
      | _ => eapply KeepStep_bind_pure; intros ?; keep
      end
  | |- KeepStep _ _ (Ok _) => apply KeepStep_ret; keeps
  | |- KeepStep _ _ (Panic _) => apply KeepStep_panic
  | |- KeepStep _ _ (if ?b then _ else _) => destruct b; keep
  | |- KeepStep _ _ (match loadfont _ _ _ with _ => _ end) =>
      eapply KeepStep_loadfont; [keeps | intros ? ?; keep]
  | |- KeepStep _ _ (match ?x with _ => _ end) => destruct x; keep
  | |- KeepStep _ _ _ =>
      eapply KeepStep_from; cycle 1; [solve [eauto with keep] | keeps]
  end.

Lemma KeepStep_AddFont (env : Env) (familyStr styleStr fileStr : string) (g : Fpdf.t) :
  KeepStep here g (AddFont env familyStr styleStr fileStr g).
Proof. unfold AddFont. keep. Qed.

#[local] Hint Resolve KeepStep_AddFont : keep.

Lemma KeepStep_SetFont (env : Env) (familyStr styleStr : string) (size : float)
  (g : Fpdf.t) :
  KeepStep here g (SetFont env familyStr styleStr size g).
Proof. unfold SetFont. keep. Qed.

#[local] Hint Resolve KeepStep_SetFont : keep.

Lemma KeepStep_runHeader (hk : Hooks) (g : Fpdf.t) :
  hooksKeep hk -> KeepStep here g (runHeader hk g).
Proof.
  intros HK a Ha. unfold runHeader in Ha.
  destruct (headerFnc hk) as [fn |] eqn:E.
  - apply bind_Ok in Ha. destruct Ha as (x & Hx & Ha).
    apply Ok_inj in Ha. subst a.
    destruct (HK fn _ _ (or_introl E) Hx) as [P N].
    split; [exact P | exact N].
  - apply Ok_inj in Ha. subst a. apply Keeps_refl.
Qed.

Lemma KeepStep_runFooter (hk : Hooks) (g : Fpdf.t) :
  hooksKeep hk -> KeepStep here g (runFooter hk g).
Proof.
  intros HK a Ha. unfold runFooter in Ha.
  destruct (footerFnc hk) as [fn |] eqn:E.
  - apply bind_Ok in Ha. destruct Ha as (x & Hx & Ha).
    apply Ok_inj in Ha. subst a.
    destruct (HK fn _ _ (or_intror E) Hx) as [P N].
    split; [exact P | exact N].
  - apply Ok_inj in Ha. subst a. apply Keeps_refl.
Qed.

#[local] Hint Resolve KeepStep_runHeader KeepStep_runFooter : keep.

(** A new page is one page more. *)
Lemma beginpage_page (env : Env) (orientationStr : string) (size : sizeType.t)
  (f g : Fpdf.t) :
  Fpdf.err f = None ->
  beginpage env orientationStr size f = Ok g ->
  Fpdf.page g = Fpdf.page f + 1 /\ Fpdf.n g = Fpdf.n f.
Proof.
  intros Herr H. unfold beginpage in H.
  rewrite (nonNil_false _ Herr) in H. cbv zeta in H.
  apply bind_Ok in H. destruct H as (o & _ & H).
  apply Ok_inj in H. subst g.
  repeat (lazymatch goal with
          | |- context [if ?b then _ else _] => destruct b
          end);
    (split; reflexivity).
Qed.

(** The first page of a document: [AddPageFormat] on a document without
    pages leaves one page at least and the object counter as it was. *)
Lemma AddPageFormat_first (env : Env) (hk : Hooks) (orientationStr : string)
  (size : sizeType.t) (f g : Fpdf.t) :
  hooksKeep hk ->
  Fpdf.err f = None ->
  Fpdf.page f = 0 ->
  AddPageFormat env hk orientationStr size f = Ok g ->
  1 <= Fpdf.page g /\ Fpdf.n g = Fpdf.n f.
Proof.
  intros HK Herr Hpage H. unfold AddPageFormat in H.
  rewrite (nonNil_false _ Herr) in H.
  remember (if Fpdf.state f =? 0 then open f else f) as f1 eqn:Ef1.
  assert (F1 : Fpdf.page f1 = 0 /\ Fpdf.n f1 = Fpdf.n f /\ Fpdf.err f1 = None).
  { subst f1. destruct (Fpdf.state f =? 0); repeat split; assumption. }
  destruct F1 as (P1 & N1 & E1). clear Ef1.
  cbv zeta in H. rewrite P1 in H.
  change (0 <? 0) with false in H. cbn [bind] in H.
  apply bind_Ok in H. destruct H as (g1 & Hb & H).
  destruct (beginpage_page _ _ _ _ _ E1 Hb) as [P2 N2].
  match type of H with
  | ?c = Ok _ => assert (X : KeepStep here g1 c) by keep
  end.
  destruct (X g H) as [P3 N3]. unfold here in *. split; [lia | congruence].
Qed.

(** Adding a page, the first or a later one, leaves the object counter
    where [New] has set it: the numbers 1 and 2 reserved and no other number
    taken. *)

Lemma KeepStep_beginpage (env : Env) (orientationStr : string) (size : sizeType.t)
  (g : Fpdf.t) :
  KeepStep here g (beginpage env orientationStr size g).
Proof.
  intros a Ha. unfold beginpage in Ha.
  destruct (nonNil (Fpdf.err g)).
  - apply Ok_inj in Ha. subst a. apply Keeps_refl.
  - cbv zeta in Ha. apply bind_Ok in Ha. destruct Ha as (o & _ & Ha).
    apply Ok_inj in Ha. subst a. unfold here.
    repeat (lazymatch goal with
            | |- context [if ?b then _ else _] => destruct b
            end);
      (split; [apply (Z.le_succ_diag_r (Fpdf.page g)) | reflexivity]).
Qed.

#[local] Hint Resolve KeepStep_beginpage : keep.

Lemma KeepStep_AddPageFormat (env : Env) (hk : Hooks) (orientationStr : string)
  (size : sizeType.t) (g : Fpdf.t) :
  hooksKeep hk -> KeepStep here g (AddPageFormat env hk orientationStr size g).
Proof. intros HK. unfold AddPageFormat. keep. Qed.

Lemma KeepStep_AddPage (env : Env) (hk : Hooks) (g : Fpdf.t) :
  hooksKeep hk -> KeepStep here g (AddPage env hk g).
Proof.
  intros HK. unfold AddPage.
  destruct (nonNil (Fpdf.err g)); [apply KeepStep_ret; keeps |].
  apply KeepStep_AddPageFormat. exact HK.
Qed.

(** The cross-reference table comes after the objects and changes none of
    them. *)
Lemma objectGraph_final (nb : Z) (g f' : Fpdf.t) (t : string) :
  Fpdf.buffer f' = Fpdf.buffer g ++ t -> Fpdf.offsets f' = Fpdf.offsets g ->
  Fpdf.n f' = Fpdf.n g ->
  objectGraph nb g -> objectGraph nb f'.
Proof.
  intros B O N (G1 & G2 & G3 & G4 & G5 & G6 & G7 & G8 & G9).
  unfold objectGraph. rewrite N, !(offsetOf_offsets _ _ _ O).
  split; [exact G1 |].
  split.
  { intros j Hj. destruct (G2 j Hj) as [A Bd].
    rewrite (offsetOf_offsets _ _ _ O).
    split; [exact (objectAt_final g f' t j _ B O A) |].
    rewrite B, len_append. pose proof (len_nonneg t). lia. }
  split; [exact (objectAt_final g f' t 1 _ B O G3) |].
  split; [exact (objectAt_final g f' t 2 _ B O G4) |].
  split; [intros i Hi; exact (pagePair_final g f' t _ B O (G5 i Hi)) |].
  split; [intros j Hj; rewrite !(offsetOf_offsets _ _ _ O); apply G6; exact Hj |].
  split; [intros j Hj; rewrite !(offsetOf_offsets _ _ _ O); apply G7; exact Hj |].
  split; [intros j H3 Hj; rewrite !(offsetOf_offsets _ _ _ O); apply G8; assumption |].
  exact G9.
Qed.

(** A document closed without error: the page [Close] adds when there is
    none, and the file it leaves. *)
Lemma Close_structure (env : Env) (hk : Hooks) (f f' : Fpdf.t) :
  hooksKeep hk ->
  Fpdf.n f = 2 ->
  Fpdf.state f <> 3 ->
  Close env hk f = Ok f' ->
  Fpdf.err f' = None ->
  (Fpdf.page f = 0 -> 1 <= Fpdf.page f') /\
  Fpdf.page f <= Fpdf.page f' /\
  Fpdf.state f' = 3 /\
  exists g,
    Fpdf.buffer f'
    = Fpdf.buffer g ++ xrefSection (offsetOf g) (Fpdf.n g) (len (Fpdf.buffer g)) /\
    Fpdf.offsets f' = Fpdf.offsets g /\ Fpdf.n f' = Fpdf.n g /\
    objectGraph (Fpdf.page f') g.
Proof.
  intros HK Hn Hst H Herr. unfold Close in H.
  destruct (nonNil (Fpdf.err f)) eqn:E0.
  { apply Ok_inj in H. subst f'. rewrite (nonNil_false _ Herr) in E0. discriminate. }
  apply nonNil_None in E0.
  destruct (Fpdf.state f =? 3) eqn:E3; [apply Z.eqb_eq in E3; contradiction |].
  cbv zeta in H.
  apply bind_Ok in H. destruct H as (a & Ha & H).
  assert (A : (Fpdf.page f = 0 -> 1 <= Fpdf.page a) /\ Fpdf.page f <= Fpdf.page a /\
              Fpdf.n a = 2).
  { destruct (Fpdf.page f =? 0) eqn:E.
    - apply Z.eqb_eq in E. unfold AddPage in Ha.
      rewrite (nonNil_false _ E0) in Ha.
      destruct (AddPageFormat_first _ _ _ _ _ _ HK E0 E Ha) as [P N].
      repeat split; [intros _; exact P | lia | congruence].
    - apply Z.eqb_neq in E. apply Ok_inj in Ha. subst a.
      repeat split; [intros; contradiction | lia | exact Hn]. }
  destruct A as (A1 & A2 & A3).
  destruct ((Fpdf.page f =? 0) && nonNil (Fpdf.err a)) eqn:E4.
  { apply Ok_inj in H. subst f'. apply andb_prop in E4. destruct E4 as [_ E4].
    rewrite (nonNil_false _ Herr) in E4. discriminate. }
  apply bind_Ok in H. destruct H as (b & Hb & H).
  destruct (KeepStep_runFooter hk a HK b Hb) as [Pb Nb]. unfold here in *.
  destruct (enddoc_structure env (endpage b) f') as (g & B & O & N & P & St & G);
    [discriminate | exact (eq_trans Nb A3) | exact H | exact Herr |].
  assert (Pf' : Fpdf.page f' = Fpdf.page b) by exact P.
  split; [intros Z0; specialize (A1 Z0); lia |].
  split; [lia |]. split; [exact St |].
  exists g. rewrite Pf'.
  split; [exact B |]. split; [exact O |]. split; [exact N | exact G].
Qed.

Lemma hooksKeep_default : hooksKeep defaultHooks.
Proof. intros fn f f' [H | H] _; discriminate H. Qed.

(** ** The finalized file *)

(** C8 (amended): in a document closed without error every object number
    from 1 to n has its object at the offset recorded for it.  Object 1 is
    the pages root, whose /Kids array lists the numbers 3 + 2i of the pages,
    object 2 is the resource dictionary, and page i is object 3 + 2i with its
    Contents object 4 + 2i following at once.  The numbers from 3 on follow
    the order of emission; the reserved numbers do not: the pages root is
    emitted after the objects of the pages and before every later object, the
    resource dictionary after the pages root. *)
Theorem object_numbering_of_closed_document :
  forall (env : Env) (hk : Hooks) (f f' : Fpdf.t),
    hooksKeep hk ->
    Fpdf.n f = 2 ->
    Fpdf.state f <> 3 ->
    Close env hk f = Ok f' ->
    Fpdf.err f' = None ->
    let nb := Fpdf.page f' in
    2 + 2 * nb <= Fpdf.n f' /\
    (forall j, 1 <= j <= Fpdf.n f' -> objectAt f' j "") /\
    objectAt f' 1 ("<</Type /Pages" ++ nl ++ putkids nb ++ nl ++
                   "/Count " ++ dec nb ++ nl) /\
    objectAt f' 2 ("<<" ++ nl ++ "/ProcSet [/PDF /Text /ImageB /ImageC /ImageI]" ++ nl ++
                   "/Font <<" ++ nl) /\
    (forall i, 0 <= i < nb -> pageAt f' i) /\
    (forall j, 3 <= j < Fpdf.n f' -> offsetOf f' j < offsetOf f' (j + 1)) /\
    (forall j, 3 <= j <= 2 + 2 * nb -> offsetOf f' j < offsetOf f' 1) /\
    (forall j, 3 <= j -> 2 + 2 * nb < j <= Fpdf.n f' -> offsetOf f' 1 < offsetOf f' j) /\
    offsetOf f' 1 < offsetOf f' 2.
Proof.
  intros env hk f f' HK Hn Hst H Herr nb.
  destruct (Close_structure env hk f f' HK Hn Hst H Herr)
    as (_ & _ & _ & g & B & O & N & G).
  pose proof (objectGraph_final _ g f' _ B O N G)
    as (G1 & G2 & G3 & G4 & G5 & G6 & G7 & G8 & G9).
  split; [exact G1 |].
  split; [intros j Hj; exact (proj1 (G2 j Hj)) |].
  split; [exact G3 |]. split; [exact G4 |]. split; [exact G5 |].
  split; [exact G6 |]. split; [exact G7 |]. split; [exact G8 | exact G9].
Qed.

(** The two-page document with a font: nine objects, the pages 3 and 5, the
    pages root after object 6, the font 7 between the pages root and the
    resource dictionary. *)
Lemma object_numbering_witness :
  Fpdf.n linkedClosed = 9 /\ Fpdf.page linkedClosed = 2 /\
  objectAt linkedClosed 1
    ("<</Type /Pages" ++ nl ++ "/Kids [3 0 R 5 0 R ]" ++ nl ++ "/Count 2" ++ nl) /\
  pageAt linkedClosed 0 /\ pageAt linkedClosed 1 /\
  offsetOf linkedClosed 6 < offsetOf linkedClosed 1 /\
  offsetOf linkedClosed 1 < offsetOf linkedClosed 7 /\
  offsetOf linkedClosed 1 < offsetOf linkedClosed 2.
Proof.
  assert (C : Close sampleEnv defaultHooks linkedDoc = Ok linkedClosed)
    by (vm_compute; reflexivity).
  assert (N : Fpdf.n linkedClosed = 9) by (vm_compute; reflexivity).
  assert (P : Fpdf.page linkedClosed = 2) by (vm_compute; reflexivity).
  destruct (object_numbering_of_closed_document sampleEnv defaultHooks linkedDoc
              linkedClosed hooksKeep_default)
    as (_ & _ & G3 & _ & G5 & _ & G7 & G8 & G9);
    [vm_compute; reflexivity | vm_compute; discriminate | exact C
    | vm_compute; reflexivity |].
  split; [exact N |]. split; [exact P |].
  split; [rewrite P in G3; exact G3 |].
  split; [apply G5; rewrite P; lia |].
  split; [apply G5; rewrite P; lia |].
  split; [apply G7; rewrite P; lia |].
  split; [apply G8; rewrite ?P, ?N; lia | exact G9].
Defined.

(** The closed sample document, one empty page: the file holds the objects
    in the order 3, 4, 1, 2, 5, 6, so the numbers do not follow the order of
    emission. *)
Lemma numbering_not_in_emission_order :
  Close sampleEnv defaultHooks blankDoc = Ok closedDoc /\
  Fpdf.err closedDoc = None /\
  offsetOf closedDoc 3 < offsetOf closedDoc 4 /\
  offsetOf closedDoc 4 < offsetOf closedDoc 1 /\
  offsetOf closedDoc 1 < offsetOf closedDoc 2 /\
  offsetOf closedDoc 2 < offsetOf closedDoc 5 /\
  ~ emissionOrdered closedDoc.
Proof.
  split; [vm_compute; reflexivity |].
  split; [vm_compute; reflexivity |].
  split; [vm_compute; reflexivity |].
  split; [vm_compute; reflexivity |].
  split; [vm_compute; reflexivity |].
  split; [vm_compute; reflexivity |].
  intros H. specialize (H 2). 
  assert (N : 1 <= 2 < Fpdf.n closedDoc) by (vm_compute; split; [discriminate | reflexivity]).
  specialize (H N). vm_compute in H. discriminate H.
Qed.

(** C10: closing a document that has no page and is not closed yet first
    calls AddPage, that is AddPageFormat with the default orientation and
    size, and finalizes the document AddPage returns.  Whenever closing
    completes without error the document has at least one page, and object 3
    of the file is the page object of its first page, followed by the
    content object of that page. *)
Theorem Close_adds_page_to_empty_document :
  forall (env : Env) (hk : Hooks) (f f' : Fpdf.t),
    hooksKeep hk ->
    Fpdf.n f = 2 ->
    Fpdf.state f <> 3 ->
    0 <= Fpdf.page f ->
    Close env hk f = Ok f' ->
    Fpdf.err f' = None ->
    (Fpdf.page f = 0 ->
     Close env hk f
     = (g <- AddPageFormat env hk (Fpdf.defOrientation f) (Fpdf.defPageSize f) f ;;
        if nonNil (Fpdf.err g) then Ok g
        else g <- runFooter hk g ;; enddoc env (endpage g))) /\
    1 <= Fpdf.page f' /\
    pageAt f' 0.
Proof.
  intros env hk f f' HK Hn Hst Hp H Herr.
  assert (E0 : Fpdf.err f = None).
  { destruct (nonNil (Fpdf.err f)) eqn:E; [| apply nonNil_None; exact E].
    unfold Close in H. rewrite E in H. apply Ok_inj in H. subst f'. exact Herr. }
  destruct (Close_structure env hk f f' HK Hn Hst H Herr)
    as (P0 & P1 & _ & g & B & O & N & G).
  assert (P : 1 <= Fpdf.page f').
  { destruct (Z.eq_dec (Fpdf.page f) 0) as [Z0 | NZ]; [exact (P0 Z0) | lia]. }
  split; [| split; [exact P |]].
  - intros Z0. unfold Close, AddPage.
    rewrite (nonNil_false _ E0).
    destruct (Fpdf.state f =? 3) eqn:E3; [apply Z.eqb_eq in E3; contradiction |].
    cbv zeta. rewrite Z0. reflexivity.
  - pose proof (objectGraph_final _ g f' _ B O N G) as (_ & _ & _ & _ & G5 & _).
    apply G5. lia.
Qed.

(** Closing the new document without pages gives the closed sample document
    with one page, object 3. *)
Lemma Close_adds_page_witness :
  Fpdf.page blankDoc = 0 /\ Fpdf.page closedDoc = 1 /\ pageAt closedDoc 0.
Proof.
  split; [vm_compute; reflexivity |]. split; [vm_compute; reflexivity |].
  destruct (Close_adds_page_to_empty_document sampleEnv defaultHooks blankDoc closedDoc
              hooksKeep_default)
    as (_ & _ & G);
    [vm_compute; reflexivity | vm_compute; discriminate | vm_compute; discriminate
    | vm_compute; reflexivity | vm_compute; reflexivity | exact G].
Defined.

(** ** Invariants of a document under construction *)

Section PreservesRules.
Variable P : Fpdf.t -> Prop.

Lemma Preserves_bind {A B : Type} (pa : A -> Fpdf.t) (pb : B -> Fpdf.t) (f : Fpdf.t)
  (c : result A) (k : A -> result B) :
  Preserves P pa f c -> (forall a, Preserves P pb (pa a) (k a)) ->
  Preserves P pb f (bind c k).
Proof.
  intros Hc Hk HP b Hb. apply bind_Ok in Hb. destruct Hb as (a & Ha & Hb).
  exact (Hk a (Hc HP a Ha) b Hb).
Qed.

Lemma Preserves_bind_pure {A B : Type} (pb : B -> Fpdf.t) (f : Fpdf.t)
  (c : result A) (k : A -> result B) :
  (forall a, Preserves P pb f (k a)) -> Preserves P pb f (bind c k).
Proof.
  intros Hk HP b Hb. apply bind_Ok in Hb. destruct Hb as (a & _ & Hb).
  exact (Hk a HP b Hb).
Qed.

Lemma Preserves_ret {B : Type} (pb : B -> Fpdf.t) (f : Fpdf.t) (b : B) :
  (P f -> P (pb b)) -> Preserves P pb f (Ok b).
Proof. intros H HP a Ha. apply Ok_inj in Ha. subst a. exact (H HP). Qed.

Lemma Preserves_panic {B : Type} (pb : B -> Fpdf.t) (f : Fpdf.t) (m : string) :
  Preserves P pb f (Panic m).
Proof. intros _ a Ha. discriminate. Qed.

Lemma Preserves_from {B : Type} (pb : B -> Fpdf.t) (f g : Fpdf.t) (c : result B) :
  (P f -> P g) -> Preserves P pb g c -> Preserves P pb f c.
Proof. intros H Hc HP b Hb. exact (Hc (H HP) b Hb). Qed.

Lemma Preserves_runHeader (hk : Hooks) (g : Fpdf.t) :
  hooksPreserve P hk ->
  (forall b f, P f -> P (Fpdf.set_inHeader b f)) ->
  Preserves P here g (runHeader hk g).
Proof.
  intros [HK _] HS HP a Ha. unfold runHeader in Ha.
  destruct (headerFnc hk) as [fn |] eqn:E.
  - apply bind_Ok in Ha. destruct Ha as (x & Hx & Ha). apply Ok_inj in Ha. subst a.
    apply HS. apply (HK fn _ _ (or_introl eq_refl) Hx). apply HS. exact HP.
  - apply Ok_inj in Ha. subst a. exact HP.
Qed.

Lemma Preserves_runFooter (hk : Hooks) (g : Fpdf.t) :
  hooksPreserve P hk ->
  (forall b f, P f -> P (Fpdf.set_inFooter b f)) ->
  Preserves P here g (runFooter hk g).
Proof.
  intros [HK _] HS HP a Ha. unfold runFooter in Ha.
  destruct (footerFnc hk) as [fn |] eqn:E.
  - apply bind_Ok in Ha. destruct Ha as (x & Hx & Ha). apply Ok_inj in Ha. subst a.
    apply HS. apply (HK fn _ _ (or_intror eq_refl) Hx). apply HS. exact HP.
  - apply Ok_inj in Ha. subst a. exact HP.
Qed.

Lemma Preserves_breakNeeded (hk : Hooks) (h : float) (g : Fpdf.t) :
  hooksPreserve P hk -> Preserves P snd g (breakNeeded hk h g).
Proof.
  intros [_ HK] HP [b a] Ha. unfold breakNeeded in Ha.
  destruct (_ && _).
  - exact (HK _ _ _ Ha HP).
  - apply Ok_inj in Ha. inversion Ha; subst. exact HP.
Qed.

End PreservesRules.

Lemma Preserves_loadfont (P : Fpdf.t -> Prop) {B : Type} (pb : B -> Fpdf.t)
  (f g : Fpdf.t) (env : Env) (s : string) (k : fontDefType.t -> Fpdf.t -> result B) :
  (forall e h, P h -> P (Fpdf.set_err (Some e) h)) ->
  (P f -> P g) ->
  (forall info g', Preserves P pb g' (k info g')) ->
  Preserves P pb f (let '(info, g') := loadfont env s g in k info g').
Proof.
  intros HE HK Hk. unfold loadfont.
  destruct (nonNil (Fpdf.err g)); [eapply Preserves_from; [exact HK | apply Hk] |].
  destruct (readFile env s) as [buf | e].
  - destruct (unmarshalFont env buf) as [def [e |]];
      (eapply Preserves_from; [| apply Hk]); intros HP; try apply HE; exact (HK HP).
  - eapply Preserves_from; [| apply Hk]. intros HP. apply HE. exact (HK HP).
Qed.

Create HintDb pres discriminated.

(** Walk through an operation: binds, tests and calls of operations known to
    the hint base; [leaf] shows that the property goes from a document to the
    same document with other fields set. *)
Ltac pres leaf :=
  cbn beta iota zeta;
  lazymatch goal with
  | |- Preserves _ _ _ (match loadfont _ _ _ with _ => _ end) =>
      eapply Preserves_loadfont; [intros ? ?; leaf | leaf | intros ? ?; pres leaf]
  | |- Preserves _ _ _ (@bind ?A _ _ _) =>
      lazymatch A with
      | Fpdf.t =>
          eapply (@Preserves_bind _ _ _ here);
          [pres leaf | intros ?; unfold here at 1; pres leaf]
      | (_ * Fpdf.t)%type =>
          eapply (@Preserves_bind _ _ _ snd);
          [pres leaf | intros [? ?]; cbn [snd]; pres leaf]
      | _ => eapply Preserves_bind_pure; intros ?; pres leaf
      end
  | |- Preserves _ _ _ (Ok _) => apply Preserves_ret; leaf
  | |- Preserves _ _ _ (Panic _) => apply Preserves_panic
  | |- Preserves _ _ _ (if ?b then _ else _) => destruct b; pres leaf
  | |- Preserves _ _ _ (match ?x with _ => _ end) => destruct x; pres leaf
  | |- Preserves _ _ _ _ =>
      eapply Preserves_from; cycle 1; [solve [eauto with pres] | leaf]
  end.

#[local] Hint Resolve Preserves_breakNeeded : pres.

(** The leaves of the walk: the property goes from a document to the same
    document with other fields set. *)
Ltac tables_leaf :=
  let I := fresh "I" in
  intros I;
  repeat (match goal with
          | |- context [if ?b then _ else _] => destruct b
          end);
  exact I.

Ltac pres_tables := pres ltac:(idtac; tables_leaf).

(** ** The cross-reference table, read back *)

(** *** The digits of a record *)

Lemma code_digit (d : Z) : 0 <= d <= 9 -> code (digit d) = 48 + d.
Proof.
  intros H.
  assert (C : d = 0 \/ d = 1 \/ d = 2 \/ d = 3 \/ d = 4 \/ d = 5 \/ d = 6 \/ d = 7 \/
              d = 8 \/ d = 9) by lia.
  repeat (destruct C as [-> | C]; [reflexivity |]). subst d. reflexivity.
Qed.

(** Reading the digits that [dec_digits] puts in front of [acc] is reading
    [acc] from the number read so far with [z] appended. *)
Lemma readDec_dec_digits (fuel : nat) :
  forall (z a : Z) (acc : string),
    0 <= z < 10 ^ Z.of_nat fuel ->
    (0 < fuel)%nat ->
    exists k : nat,
      String.length (dec_digits fuel z acc) = (k + String.length acc)%nat /\
      (0 < k)%nat /\
      readDec_from a (dec_digits fuel z acc) = readDec_from (a * 10 ^ Z.of_nat k + z) acc.
Proof.
  induction fuel as [| fuel IH]; intros z a acc Hz Hf.
  - lia.
  - cbn [dec_digits].
    assert (Hm : 0 <= z mod 10 <= 9) by (pose proof (Z.mod_pos_bound z 10); lia).
    destruct (z <? 10) eqn:E.
    + apply Z.ltb_lt in E. exists 1%nat.
      split; [reflexivity |]. split; [lia |].
      cbn [readDec_from]. rewrite code_digit by exact Hm.
      replace (48 + z mod 10 - 48) with (z mod 10) by lia.
      replace ((0 <=? z mod 10) && (z mod 10 <=? 9)) with true
        by (symmetry; apply andb_true_iff; split; apply Z.leb_le; lia).
      rewrite Z.mod_small by lia.
      change (10 ^ Z.of_nat 1) with 10. reflexivity.
    + apply Z.ltb_ge in E.
      assert (Hq : 0 <= z / 10 < 10 ^ Z.of_nat fuel).
      { split; [apply Z.div_pos; lia |].
        apply Z.div_lt_upper_bound; [lia |].
        rewrite Nat2Z.inj_succ, Z.pow_succ_r in Hz by lia. lia. }
      assert (Hf' : (0 < fuel)%nat).
      { destruct fuel; [| lia]. change (10 ^ Z.of_nat 0) with 1 in Hq.
        assert (1 <= z / 10) by (apply Z.div_le_lower_bound; lia). lia. }
      destruct (IH (z / 10) a (String (digit (z mod 10)) acc) Hq Hf') as (k & L & Kp & R).
      exists (S k). split; [rewrite L; cbn [String.length]; lia |]. split; [lia |].
      rewrite R. cbn [readDec_from]. rewrite code_digit by exact Hm.
      replace (48 + z mod 10 - 48) with (z mod 10) by lia.
      replace ((0 <=? z mod 10) && (z mod 10 <=? 9)) with true
        by (symmetry; apply andb_true_iff; split; apply Z.leb_le; lia).
      f_equal.
      rewrite Nat2Z.inj_succ, Z.pow_succ_r by lia.
      pose proof (Z.div_mod z 10 ltac:(lia)). lia.
Qed.

Lemma dec_fuel (z : Z) : 0 <= z -> z < 10 ^ Z.of_nat (S (Z.to_nat (Z.log2 z))).
Proof.
  intros H. destruct (Z.eq_dec z 0) as [-> | Hz]; [reflexivity |].
  pose proof (Z.log2_nonneg z) as L0.
  destruct (Z.log2_spec z ltac:(lia)) as [_ Hi].
  rewrite Nat2Z.inj_succ, Z2Nat.id by exact L0.
  eapply Z.lt_le_trans; [exact Hi |].
  apply Z.pow_le_mono_l. lia.
Qed.

(** [%d] of a number that is not negative reads back as the number. *)
Lemma readDec_dec (z : Z) : 0 <= z -> readDec (dec z) = Some z.
Proof.
  intros H. unfold dec.
  replace (z <? 0) with false by (symmetry; apply Z.ltb_ge; exact H).
  unfold dec_nonneg.
  destruct (readDec_dec_digits (S (Z.to_nat (Z.log2 z))) z 0 ""
              (conj H (dec_fuel z H)) ltac:(lia)) as (k & L & Kp & R).
  unfold readDec.
  destruct (dec_digits (S (Z.to_nat (Z.log2 z))) z "") as [| c s] eqn:E.
  - cbn [String.length] in L. lia.
  - rewrite R. cbn [readDec_from]. reflexivity.
Qed.

Lemma readDec_from_zeros (n : nat) (s : string) :
  readDec_from 0 (zeros n ++ s) = readDec_from 0 s.
Proof.
  induction n as [| n IH]; cbn [zeros append]; [reflexivity |].
  cbn [readDec_from]. exact IH.
Qed.

(** [%010d] of an offset below ten thousand million: ten digits that read
    back as the offset. *)
Lemma readDec_dec_pad (z : Z) :
  0 <= z < 10 ^ 10 -> readDec (dec_pad 10 z) = Some z.
Proof.
  intros Hz. pose proof (length_dec_pad z Hz) as L. unfold dec_pad in *.
  replace (z <? 0) with false in * by (symmetry; apply Z.ltb_ge; lia).
  cbv zeta in *. unfold dec_nonneg in *.
  destruct (readDec_dec_digits (S (Z.to_nat (Z.log2 z))) z 0 ""
              (conj (proj1 Hz) (dec_fuel z (proj1 Hz))) ltac:(lia)) as (k & Lk & Kp & R).
  unfold readDec.
  destruct (zeros _ ++ dec_digits _ z "") as [| c s] eqn:E.
  - cbn [String.length] in L. discriminate.
  - rewrite <- E, readDec_from_zeros, R. cbn [readDec_from]. reflexivity.
Qed.

Lemma nth_error_zrange (lo count j : Z) :
  0 <= j < count -> nth_error (zrange lo count) (Z.to_nat j) = Some (lo + j).
Proof.
  intros H. unfold zrange.
  rewrite nth_error_map, nth_error_seq.
  replace (Z.to_nat j <? Z.to_nat count)%nat with true
    by (symmetry; apply Nat.ltb_lt; lia).
  cbn [option_map]. f_equal. lia.
Qed.

Lemma substring_front (a b : string) :
  String.substring 0 (String.length a) (a ++ b) = a.
Proof. exact (takeS_app a b). Qed.

Lemma substring_back (a b : string) :
  String.substring (String.length a) (String.length b) (a ++ b) = b.
Proof.
  pose proof (substring_app a b "") as H. rewrite append_nil_r in H. exact H.
Qed.




(** ** Link annotations in the page objects *)

Lemma linkData_out (c : _) (s : string) (g : Fpdf.t) :
  Preserves (fun d => linkData d = c) here g (out s g).
Proof.
  intros I a Ha. unfold out in Ha. destruct (Fpdf.state g =? 2).
  - apply bind_Ok in Ha. destruct Ha as (pg & _ & Ha).
    apply bind_Ok in Ha. destruct Ha as (ps & _ & Ha).
    apply Ok_inj in Ha. subst a. exact I.
  - apply Ok_inj in Ha. subst a. exact I.
Qed.

#[local] Hint Resolve linkData_out : pres.

Lemma linkData_newobj (c : _) (g : Fpdf.t) :
  Preserves (fun d => linkData d = c) here g (newobj g).
Proof. unfold newobj. pres_tables. Qed.

Lemma linkData_putstream (c : _) (b : string) (g : Fpdf.t) :
  Preserves (fun d => linkData d = c) here g (putstream b g).
Proof. unfold putstream. pres_tables. Qed.

#[local] Hint Resolve linkData_newobj linkData_putstream : pres.

Lemma linkData_putpage (c : _) (env : Env) (hPt : float) (n : Z) (g : Fpdf.t) :
  Preserves (fun d => linkData d = c) here g (putpage env hPt n g).
Proof. unfold putpage. pres_tables. Qed.

Lemma linkData_putalias (c : _) (nbStr : string) (n : Z) (g : Fpdf.t) :
  Preserves (fun d => linkData d = c) here g (putalias nbStr n g).
Proof. unfold putalias. pres_tables. Qed.

Lemma Preserves_forEach (P : Fpdf.t -> Prop) {A : Type}
  (body : A -> Fpdf.t -> result Fpdf.t) (l : list A) :
  (forall a g, Preserves P here g (body a g)) ->
  forall g, Preserves P here g (forEach body l g).
Proof.
  intros Hb. induction l as [| a l IH]; intros g; cbn [forEach].
  - apply Preserves_ret. intros I; exact I.
  - eapply (@Preserves_bind _ _ _ here); [apply Hb | intros g'; apply IH].
Qed.

(** The annotation [putannot] writes is the one the specification
    describes, when it is given the default page height. *)
Lemma putannot_linkAnnotation (f0 f : Fpdf.t) (pl : linkType.t) (a : string) :
  linkData f = linkData f0 ->
  putannot (defaultHeightPt f0) pl f = Ok a ->
  linkAnnotation f0 pl a.
Proof.
  intros D H. unfold linkData in D. injection D as Dl _ Ds Dk _ _.
  unfold putannot in H. unfold linkAnnotation. cbv zeta in H.
  destruct (linkType.link pl =? 0).
  - apply Ok_inj in H. subst a. unfold textstring. rewrite !append_assoc. reflexivity.
  - apply bind_Ok in H. destruct H as (l & Hl & H). apply Ok_inj in H.
    exists l. rewrite <- Dl, <- Ds, <- Dk. split; [exact Hl |]. cbv zeta.
    symmetry. exact H.
Qed.

Lemma putannots_linkAnnotation (f0 f : Fpdf.t) (pls : list linkType.t) (acc r : string) :
  linkData f = linkData f0 ->
  putannots (defaultHeightPt f0) pls f acc = Ok r ->
  exists parts, Forall2 (linkAnnotation f0) pls parts /\ r = acc ++ String.concat "" parts.
Proof.
  intros D H. destruct (putannots_concat _ _ _ _ _ H) as (parts & HF & ->).
  exists parts. split; [| reflexivity]. clear H.
  induction HF as [| pl a pls parts Ha HF IH]; constructor.
  - exact (putannot_linkAnnotation f0 f pl a D Ha).
  - exact IH.
Qed.

(** The page object [putpage] writes: after the optional media box and the
    resources it holds the annotations of the links of the page. *)
Lemma putpage_annots (env : Env) (f0 : Fpdf.t) (p : Z) (f f' : Fpdf.t) :
  Fpdf.state f <> 2 ->
  linkData f = linkData f0 ->
  putpage env (defaultHeightPt f0) p f = Ok f' ->
  exists pls parts mid,
    idx (Fpdf.pageLinks f0) p = Ok pls /\
    Forall2 (linkAnnotation f0) pls parts /\
    (pls <> [] ->
     objectAt f' (Fpdf.n f + 1)
       ("<</Type /Page" ++ nl ++ "/Parent 1 0 R" ++ nl ++ mid ++
        "/Resources 2 0 R" ++ nl ++
        "/Annots [" ++ String.concat "" parts ++ "]" ++ nl)).
Proof.
  intros Hst D H. unfold putpage in H.
  apply bind_Ok in H. destruct H as (g1 & Hn1 & H).
  pose proof (linkData_newobj _ f D g1 Hn1) as D1. unfold here in D1.
  destruct (newobj_facts f g1 Hst Hn1) as (H0 & S1 & P1 & N1 & B1 & O1 & K1).
  assert (St1 : Fpdf.state g1 <> 2) by congruence.
  apply bind_Ok in H. destruct H as (g2 & E2 & H).
  pose proof (linkData_out _ _ g1 D1 g2 E2) as D2. unfold here in D2.
  apply Emit_out in E2; [| exact St1].
  assert (St2 : Fpdf.state g2 <> 2) by (destruct E2 as [-> _]; exact St1).
  apply bind_Ok in H. destruct H as (g3 & E3 & H).
  pose proof (linkData_out _ _ g2 D2 g3 E3) as D3. unfold here in D3.
  apply Emit_out in E3; [| exact St2].
  assert (St3 : Fpdf.state g3 <> 2) by (destruct E3 as [-> _]; exact St2).
  apply bind_Ok in H. destruct H as (g4 & E4 & H).
  assert (D4 : linkData g4 = linkData f0).
  { revert E4. destruct (zget (Fpdf.pageSizes g3) p); intros E4.
    - exact (linkData_out _ _ g3 D3 g4 E4).
    - apply Ok_inj in E4. subst g4. exact D3. }
  assert (X4 : EmitStep g3 (match zget (Fpdf.pageSizes g3) p with
                            | Some pageSize =>
                                out ("/MediaBox [0 0 " ++ f2 (sizeType.wd pageSize) ++ " " ++
                                     f2 (sizeType.ht pageSize) ++ "]") g3
                            | None => Ok g3
                            end)) by emit.
  destruct (X4 St3 g4 E4) as (t4 & T4). clear X4 E4.
  assert (St4 : Fpdf.state g4 <> 2) by (destruct T4 as [-> _]; exact St3).
  apply bind_Ok in H. destruct H as (g5 & E5 & H).
  pose proof (linkData_out _ _ g4 D4 g5 E5) as D5. unfold here in D5.
  apply Emit_out in E5; [| exact St4].
  assert (St5 : Fpdf.state g5 <> 2) by (destruct E5 as [-> _]; exact St4).
  apply bind_Ok in H. destruct H as (pls & Hpls & H).
  assert (Hpls0 : idx (Fpdf.pageLinks f0) p = Ok pls).
  { unfold linkData in D5. injection D5 as _ Dp _ _ _ _. rewrite <- Dp. exact Hpls. }
  apply bind_Ok in H. destruct H as (g6 & E6 & H).
  destruct (0 <? llen pls) eqn:Epl.
  - (* the page has links *)
    apply bind_Ok in E6. destruct E6 as (annots & Ha & E6).
    destruct (putannots_linkAnnotation f0 g5 pls _ _ D5 Ha) as (parts & HF & ->).
    apply Emit_out in E6; [| exact St5].
    assert (St6 : Fpdf.state g6 <> 2) by (destruct E6 as [-> _]; exact St5).
    exists pls, parts, t4. split; [exact Hpls0 |]. split; [exact HF |].
    intros _.
    (* the rest of the page object and the content object only add text *)
    assert (SR : Ser g6 f').
    { refine ((_ : SerStep here g6 _) St6 f' H). ser. }
    pose proof (Emit_trans _ _ _ _ _ E2
                  (Emit_trans _ _ _ _ _ E3
                     (Emit_trans _ _ _ _ _ T4 (Emit_trans _ _ _ _ _ E5 E6)))) as EP.
    destruct EP as (_ & _ & N6 & O6 & B6).
    apply (objectAt_SerK (fun _ => True) g6 f'); [exact SR | lia | exact I |].
    unfold objectAt. rewrite (offsetOf_offsets _ _ _ O6), O1, B6, B1.
    exists (Fpdf.buffer f), "". split; [| reflexivity].
    rewrite !append_assoc, append_nil_r. reflexivity.
  - (* no link on the page *)
    exists pls, [], "". split; [exact Hpls0 |].
    assert (pls = []) as ->.
    { destruct pls; [reflexivity |]. unfold llen in Epl. cbn [List.length] in Epl.
      apply Z.ltb_ge in Epl. lia. }
    split; [constructor |]. intros N. contradiction.
Qed.

(** The loop over the pages: page [l[i]] becomes the object [n + 1 + 2i]. *)
Lemma putpage_loop_annots (env : Env) (f0 : Fpdf.t) :
  forall (l : list Z) (f f' : Fpdf.t),
    Fpdf.state f <> 2 ->
    0 <= Fpdf.n f ->
    linkData f = linkData f0 ->
    forEach (putpage env (defaultHeightPt f0)) l f = Ok f' ->
    forall (i : nat) (p : Z),
      nth_error l i = Some p ->
      exists pls parts mid,
        idx (Fpdf.pageLinks f0) p = Ok pls /\
        Forall2 (linkAnnotation f0) pls parts /\
        (pls <> [] ->
         objectAt f' (Fpdf.n f + 1 + 2 * Z.of_nat i)
           ("<</Type /Page" ++ nl ++ "/Parent 1 0 R" ++ nl ++ mid ++
            "/Resources 2 0 R" ++ nl ++
            "/Annots [" ++ String.concat "" parts ++ "]" ++ nl)).
Proof.
  induction l as [| p0 l IH]; intros f f' Hst Hn D H i p Hi.
  - destruct i; discriminate.
  - cbn [forEach] in H. apply bind_Ok in H. destruct H as (g & Hp & H).
    set (hPt := defaultHeightPt f0) in *.
    destruct (putpage_pair env hPt p0 f g Hst Hp) as [Ng _].
    pose proof (SerStep_putpage env hPt p0 f Hst g Hp) as S1. unfold here in S1.
    assert (Stg : Fpdf.state g <> 2) by (destruct S1 as [-> _]; exact Hst).
    pose proof (linkData_putpage _ env hPt p0 f D g Hp) as Dg. unfold here in Dg.
    destruct i as [| i].
    + cbn [nth_error] in Hi. injection Hi as <-.
      destruct (putpage_annots env f0 p0 f g Hst D Hp) as (pls & parts & mid & A & B & C).
      exists pls, parts, mid. split; [exact A |]. split; [exact B |].
      intros Hne. specialize (C Hne).
      pose proof (SerStep_forEach (putpage env hPt) l (SerStep_putpage env hPt) g Stg f' H)
        as S2. unfold here in S2.
      replace (Fpdf.n f + 1 + 2 * Z.of_nat 0) with (Fpdf.n f + 1) by lia.
      apply (objectAt_SerK (fun _ => True) g f'); [exact S2 | lia | exact I | exact C].
    + cbn [nth_error] in Hi.
      destruct (IH g f' Stg ltac:(lia) Dg H i p Hi) as (pls & parts & mid & A & B & C).
      exists pls, parts, mid. split; [exact A |]. split; [exact B |].
      intros Hne. specialize (C Hne).
      replace (Fpdf.n f + 1 + 2 * Z.of_nat (S i)) with (Fpdf.n g + 1 + 2 * Z.of_nat i)
        by lia.
      exact C.
Qed.

Lemma defaultSizePt_height (f : Fpdf.t) : snd (defaultSizePt f) = defaultHeightPt f.
Proof.
  unfold defaultSizePt, defaultHeightPt.
  destruct (Fpdf.defOrientation f =? "P")%string; reflexivity.
Qed.

Lemma defaultHeightPt_linkData (f g : Fpdf.t) :
  linkData g = linkData f -> defaultHeightPt g = defaultHeightPt f.
Proof.
  unfold linkData, defaultHeightPt. intros D. injection D as _ _ _ Dk Do Ds.
  rewrite Dk, Do, Ds. reflexivity.
Qed.


Lemma Forall2_pair {A B : Type} (R : A -> B -> Prop) (x y : A) (l : list B) :
  Forall2 R [x; y] l -> exists a b, l = [a; b] /\ R x a /\ R y b.
Proof.
  intros H. inversion H as [| x' a l1 l2 Ha H' E1 E2]; subst.
  inversion H' as [| y' b l3 l4 Hb H'' E3 E4]; subst.
  inversion H''; subst. exists a, b. repeat split; assumption.
Qed.


(** ** The word spacing of justified lines *)

(** *** The variables of the scan and the text *)

Lemma substring_snoc (s : string) :
  forall (n m : nat) (c : ascii),
    String.get (n + m) s = Some c ->
    String.substring n (S m) s = String.substring n m s ++ String c "".
Proof.
  induction s as [| a s IH]; intros n m c H.
  - destruct (n + m)%nat; discriminate.
  - destruct n as [| n].
    + cbn [Nat.add] in H. destruct m as [| m].
      * cbn in H. injection H as ->. cbn. destruct s; reflexivity.
      * cbn [String.get] in H. cbn [String.substring].
        rewrite (IH 0%nat m c H). reflexivity.
    + cbn [Nat.add String.get] in H. cbn [String.substring]. exact (IH n m c H).
Qed.

Lemma byteAt_get (s : string) (i : Z) (c : ascii) :
  byteAt s i = Ok c -> 0 <= i < len s /\ String.get (Z.to_nat i) s = Some c.
Proof.
  unfold byteAt. destruct ((i <? 0) || (len s <=? i)) eqn:E; [discriminate |].
  apply orb_false_iff in E. destruct E as [E1 E2].
  apply Z.ltb_ge in E1. apply Z.leb_gt in E2.
  destruct (String.get (Z.to_nat i) s) as [d |]; [| discriminate].
  intros H. apply Ok_inj in H. subst d. split; [lia | reflexivity].
Qed.

Lemma seg_snoc (s : string) (j i : Z) (c : ascii) :
  0 <= j <= i -> byteAt s i = Ok c -> seg s j (i + 1) = seg s j i ++ String c "".
Proof.
  intros H B. apply byteAt_get in B. destruct B as [_ G]. unfold seg.
  replace (Z.to_nat (i + 1 - j)) with (S (Z.to_nat (i - j))) by lia.
  apply substring_snoc.
  replace (Z.to_nat j + Z.to_nat (i - j))%nat with (Z.to_nat i) by lia. exact G.
Qed.

Lemma seg_empty (s : string) (i : Z) : seg s i i = "".
Proof.
  unfold seg. rewrite Z.sub_diag. change (Z.to_nat 0) with 0%nat.
  generalize (Z.to_nat i). induction s as [| a s IH]; intros n.
  - destruct n; reflexivity.
  - destruct n as [| n]; [reflexivity | cbn [String.substring]; apply IH].
Qed.

Lemma scanWidth_app (cw : list Z) (a b : string) :
  forall l, scanWidth cw (a ++ b) l = scanWidth cw b (scanWidth cw a l).
Proof.
  induction a as [| c a IH]; intros l; cbn [append scanWidth]; [reflexivity | apply IH].
Qed.

Lemma blankCount_app (a b : string) : blankCount (a ++ b) = blankCount a + blankCount b.
Proof.
  induction a as [| c a IH]; cbn [append blankCount]; [reflexivity | rewrite IH; lia].
Qed.

Lemma blankCount_nonneg (s : string) : 0 <= blankCount s.
Proof.
  induction s as [| c s IH]; cbn [blankCount]; [lia |].
  destruct (Ascii.eqb c " "); lia.
Qed.

Lemma cwAt_nth (cw : list Z) (c cwc : Z) :
  cwAt cw c = Ok cwc -> cwc = nth (Z.to_nat c) cw 0.
Proof.
  unfold cwAt. destruct ((c <? 0) || (256 <=? c)); [discriminate |].
  intros H. apply Ok_inj in H. symmetry. exact H.
Qed.

(** A line that starts at [i]: nothing read, no blank seen. *)
Lemma mcLine_start (s borderStr b2 : string) (i : Z) (v : mc.t) (g : Fpdf.t) :
  0 <= i <= len s -> mcLine s (nextLine borderStr b2 i v, g).
Proof.
  intros H. unfold mcLine, nextLine. cbv zeta.
  cbn [fst snd mc.i mc.j mc.l mc.ns mc.sep mc.ls]. rewrite seg_empty.
  repeat split; try lia; try reflexivity.
Qed.

(** The variables after the blank test of a turn, the byte [c] at [i] taken
    into the count of blanks but not yet into the width. *)
Lemma mcLine_markSpace (s : string) (v : mc.t) (g : Fpdf.t) (c : ascii) :
  mcLine s (v, g) ->
  byteAt s (mc.i v) = Ok c ->
  let v1 := markSpace c v in
  let cw := fontDefType.Cw (Fpdf.currentFont g) in
  mc.i v1 = mc.i v /\ mc.j v1 = mc.j v /\ mc.b v1 = mc.b v /\ mc.nl v1 = mc.nl v /\
  mc.l v1 = scanWidth cw (seg s (mc.j v) (mc.i v)) 0 /\
  mc.ns v1 = blankCount (seg s (mc.j v) (mc.i v + 1)) /\
  (mc.sep v1 = -1 -> mc.ns v1 = 0) /\
  (mc.sep v1 <> -1 ->
   mc.j v <= mc.sep v1 /\ mc.sep v1 <= mc.i v /\
   byteAt s (mc.sep v1) = Ok " "%char /\
   blankCount (seg s (mc.sep v1 + 1) (mc.i v + 1)) = 0 /\
   mc.ls v1 = scanWidth cw (seg s (mc.j v) (mc.sep v1)) 0).
Proof.
  intros (H0 & H1 & H2 & Hl & Hns & Hs0 & Hs1) Hc. cbv zeta.
  cbn [fst snd] in *.
  rewrite (seg_snoc s (mc.j v) (mc.i v) c) by (try assumption; lia).
  rewrite blankCount_app. cbn [blankCount].
  unfold markSpace. destruct (Ascii.eqb c " ") eqn:E.
  - apply Ascii.eqb_eq in E. subst c.
    cbn [mc.i mc.j mc.b mc.nl mc.l mc.ns mc.sep mc.ls].
    rewrite seg_empty.
    repeat split; try assumption; try lia; try reflexivity.
  - cbn [mc.i mc.j mc.b mc.nl mc.l mc.ns mc.sep mc.ls].
    split; [reflexivity |]. split; [reflexivity |]. split; [reflexivity |].
    split; [reflexivity |]. split; [exact Hl |]. split; [lia |].
    split; [exact Hs0 |].
    intros N. destruct (Hs1 N) as (A1 & A2 & A3 & A4 & A5).
    split; [exact A1 |]. split; [lia |]. split; [exact A3 |]. split; [| exact A5].
    rewrite (seg_snoc s (mc.sep v + 1) (mc.i v) c) by (try assumption; lia).
    rewrite blankCount_app. cbn [blankCount]. rewrite E. lia.
Qed.

(** Every turn of the scan keeps the reading of the variables. *)
Lemma mcLine_step (env : Env) (hk : Hooks) (w h : float) (s borderStr b2 alignStr : string)
  (fill : bool) (wmax : float) (v v' : mc.t) (f f' : Fpdf.t) :
  mcLine s (v, f) ->
  mc.i v < len s ->
  MultiCell_step env hk w h s borderStr b2 alignStr fill wmax v f = Ok (v', f') ->
  mcLine s (v', f').
Proof.
  intros L Hlt H. pose proof L as (H0 & H1 & H2 & _). cbn [fst] in H0, H1, H2.
  unfold MultiCell_step in H.
  apply bind_Ok in H. destruct H as (c & Hc & H).
  pose proof (mcLine_markSpace s v f c L Hc) as M. cbv zeta in M.
  destruct M as (Mi & Mj & Mb & Mnl & Ml & Mns & Ms0 & Ms1).
  destruct (Ascii.eqb c newline).
  - (* explicit line break *)
    apply bind_Ok in H. destruct H as (f1 & _ & H).
    apply bind_Ok in H. destruct H as (sg & _ & H).
    apply bind_Ok in H. destruct H as (f2 & _ & H).
    apply Ok_inj in H. injection H as <- <-. apply mcLine_start. lia.
  - cbv zeta in H.
    apply bind_Ok in H. destruct H as (cwc & Hcw & H).
    apply cwAt_nth in Hcw.
    destruct (fgt (mc.l (markSpace c v) + float64_of_Z cwc) wmax).
    + destruct (mc.sep (markSpace c v) =? -1) eqn:Es.
      * (* hard break *)
        apply bind_Ok in H. destruct H as (f1 & _ & H).
        apply bind_Ok in H. destruct H as (sg & _ & H).
        apply bind_Ok in H. destruct H as (f2 & _ & H).
        apply Ok_inj in H. injection H as <- <-. apply mcLine_start.
        rewrite Mi, Mj. destruct (mc.i v =? mc.j v); lia.
      * (* soft break *)
        apply Z.eqb_neq in Es. destruct (Ms1 Es) as (A1 & A2 & _).
        apply bind_Ok in H. destruct H as (f1 & _ & H).
        apply bind_Ok in H. destruct H as (sg & _ & H).
        apply bind_Ok in H. destruct H as (f2 & _ & H).
        apply Ok_inj in H. injection H as <- <-. apply mcLine_start. lia.
    + (* the byte fits *)
      apply Ok_inj in H. injection H as <- <-.
      unfold mcLine. cbv zeta. cbn [fst snd mc.i mc.j mc.l mc.ns mc.sep mc.ls].
      rewrite Mi, Mj.
      split; [exact H0 |]. split; [lia |]. split; [lia |].
      split.
      { rewrite (seg_snoc s (mc.j v) (mc.i v) c) by (try assumption; lia).
        rewrite scanWidth_app. cbn [scanWidth]. rewrite Ml, Hcw. reflexivity. }
      split; [exact Mns |]. split; [exact Ms0 |].
      intros N. destruct (Ms1 N) as (A1 & A2 & A3 & A4 & A5).
      repeat split; try assumption; lia.
Qed.

Lemma mcLine_reach (env : Env) (hk : Hooks) (w h : float) (s borderStr b2 alignStr : string)
  (fill : bool) (wmax : float) (x y : mc.t * Fpdf.t) :
  mcReach env hk w h s borderStr b2 alignStr fill wmax (len s) x y ->
  mcLine s x -> mcLine s y.
Proof.
  induction 1 as [x | v f v' f' x Hlt Hstep _ IH]; intros L; [exact L |].
  apply IH. exact (mcLine_step _ _ _ _ _ _ _ _ _ _ _ _ _ _ L Hlt Hstep).
Qed.

Lemma code_range (c : ascii) : 0 <= code c < 256.
Proof. unfold code. pose proof (nat_ascii_bounded c) as B. lia. Qed.

Lemma cwAt_code (cw : list Z) (c : ascii) :
  cwAt cw (code c) = Ok (nth (Z.to_nat (code c)) cw 0).
Proof.
  unfold cwAt. pose proof (code_range c) as R.
  replace ((code c <? 0) || (256 <=? code c)) with false; [reflexivity |].
  symmetry. apply orb_false_iff. split; [apply Z.ltb_ge | apply Z.leb_gt]; lia.
Qed.

(** [MultiCell] is its scan, run from the start of the text with the width
    of the cell and the maximum width of a line, followed by the last
    line. *)
Lemma MultiCell_scan (env : Env) (hk : Hooks) (w h : float)
  (txtStr borderStr alignStr : string) (fill : bool) (f : Fpdf.t) :
  alignStr = "" \/ alignStr = "J" ->
  let w' := if feq w 0 then (Fpdf.w f - Fpdf.rMargin f - Fpdf.x f)%float else w in
  let wmax := ((w' - 2 * Fpdf.cMargin f) * 1000 / Fpdf.fontSize f)%float in
  let s := mcText txtStr in
  exists finish : mc.t * Fpdf.t -> result Fpdf.t,
    forall fuel,
      MultiCell fuel env hk w h txtStr borderStr alignStr fill f
      = match MultiCell_loop fuel env hk w' h s (fst (fst (mcBorders borderStr)))
                (snd (mcBorders borderStr)) "J" fill wmax (len s)
                (mc.mk (-1) 0 0 0 0 0 1 (snd (fst (mcBorders borderStr)))) f with
        | None => None
        | Some (Panic m) => Some (Panic m)
        | Some (Ok x) => Some (finish x)
        end.
Proof.
  intros Ha. cbv zeta.
  assert (EA : (if (alignStr =? "")%string then "J" else alignStr) = "J")
    by (destruct Ha as [-> | ->]; reflexivity).
  unfold MultiCell. cbv zeta. rewrite EA.
  destruct (mcBorders borderStr) as [[bs b] b2]. cbn [fst snd].
  exists (fun x =>
            g <- resetWs (snd x) ;;
            sg <- slice (mcText txtStr) (mc.j (fst x)) (mc.i (fst x)) ;;
            g <- CellFormat env hk
                   (if feq w 0 then (Fpdf.w f - Fpdf.rMargin f - Fpdf.x f)%float else w)
                   h sg
                   (if (0 <? len bs) && contains "B" bs
                    then mc.b (fst x) ++ "B" else mc.b (fst x))
                   2 "J" fill 0 "" g ;;
            Ok (Fpdf.set_x (Fpdf.lMargin g) g)).
  intros fuel.
  destruct (MultiCell_loop _ _ _ _ _ _ _ _ _ _ _ _ _ _) as [[[vE gE] | m] |];
    reflexivity.
Qed.



(** * Further properties of the code *)

(** ** Closing and output *)

(** What [enddoc] returns is closed, or carries a latched error. *)
Lemma enddoc_closed (env : Env) (f f' : Fpdf.t) :
  enddoc env f = Ok f' -> Fpdf.err f' <> None \/ Fpdf.state f' = 3.
Proof.
  intros H. unfold enddoc in H.
  destruct (nonNil (Fpdf.err f)) eqn:E0.
  { apply Ok_inj in H. subst f'. left. destruct (Fpdf.err f); discriminate. }
  apply bind_Ok in H. destruct H as (g0 & _ & H).
  apply bind_Ok in H. destruct H as (g1 & _ & H).
  apply bind_Ok in H. destruct H as (g2 & _ & H).
  destruct (nonNil (Fpdf.err g2)) eqn:E2.
  { apply Ok_inj in H. subst f'. left. destruct (Fpdf.err g2); discriminate. }
  repeat (apply bind_Ok in H; destruct H as (? & _ & H)).
  right. apply Ok_inj in H. subst f'. reflexivity.
Qed.

Lemma Close_closed (env : Env) (hk : Hooks) (f f' : Fpdf.t) :
  Close env hk f = Ok f' -> Fpdf.err f' <> None \/ Fpdf.state f' = 3.
Proof.
  intros H. unfold Close in H.
  destruct (nonNil (Fpdf.err f)) eqn:E0.
  { apply Ok_inj in H. subst f'. left. destruct (Fpdf.err f); discriminate. }
  destruct (Fpdf.state f =? 3) eqn:E3.
  { apply Ok_inj in H. subst f'. right. apply Z.eqb_eq. exact E3. }
  cbv zeta in H. apply bind_Ok in H. destruct H as (a & _ & H).
  destruct ((Fpdf.page f =? 0) && nonNil (Fpdf.err a)) eqn:E4.
  { apply Ok_inj in H. subst f'. apply andb_prop in E4. destruct E4 as [_ E4].
    left. destruct (Fpdf.err a); discriminate. }
  apply bind_Ok in H. destruct H as (b & _ & H).
  eapply enddoc_closed. exact H.
Qed.

(** X1: closing is idempotent.  Whatever document [Close] returns, with or
    without a latched error, a second [Close] returns it unchanged: the
    page footer is not run again and nothing is serialized twice. *)
Theorem Close_idempotent (env : Env) (hk : Hooks) (f f' : Fpdf.t) :
  Close env hk f = Ok f' -> Close env hk f' = Ok f'.
Proof.
  intros H. unfold Close.
  destruct (Close_closed env hk f f' H) as [D | D].
  - rewrite (nonNil_true _ D). reflexivity.
  - destruct (nonNil (Fpdf.err f')); [reflexivity |].
    rewrite D. reflexivity.
Qed.

Lemma Close_idempotent_witness :
  Close sampleEnv defaultHooks closedDoc = Ok closedDoc.
Proof.
  apply (Close_idempotent sampleEnv defaultHooks blankDoc closedDoc).
  vm_compute. reflexivity.
Defined.

(** X2: [Output] on a document that is not closed yet closes it first and
    then hands the whole buffer of the closed document to the writer; for a
    writer that takes every byte the buffer is left empty.  The error
    returned is the one [Close] latched, if any: what [Close] had serialized
    before the error is written all the same. *)
Theorem Output_closes_then_writes (env : Env) (hk : Hooks) (w : Writer) (f f' : Fpdf.t) :
  Fpdf.err f = None ->
  Fpdf.state f < 3 ->
  Close env hk f = Ok f' ->
  (forall p, answer w p = (String.length p, None)) ->
  exists w',
    Output env hk w f = Ok (w', Fpdf.set_buffer "" f', Fpdf.err f') /\
    written w' = written w ++ Fpdf.buffer f' /\
    answer w' = answer w.
Proof.
  intros Herr Hst HC Hw.
  exists (mkWriter (written w ++ Fpdf.buffer f') (answer w)).
  split; [| split; reflexivity].
  unfold Output. rewrite (nonNil_false _ Herr).
  apply Z.ltb_lt in Hst. rewrite Hst, HC. cbn [bind].
  rewrite (WriteTo_all _ _ Hw). reflexivity.
Qed.

Lemma Output_closes_then_writes_witness :
  exists w',
    Output sampleEnv defaultHooks sink blankDoc
    = Ok (w', Fpdf.set_buffer "" closedDoc, Fpdf.err closedDoc) /\
    written w' = written sink ++ Fpdf.buffer closedDoc.
Proof.
  destruct (Output_closes_then_writes sampleEnv defaultHooks sink blankDoc closedDoc)
    as (w' & HO & HW & _);
    [vm_compute; reflexivity | vm_compute; reflexivity | vm_compute; reflexivity
    | intros p; reflexivity |].
  exists w'. split; [exact HO | exact HW].
Defined.

(** X3: when the writer reports an error after taking [m] bytes of the
    buffer of a closed document, [Output] latches that error and returns
    it; the writer holds the first [m] bytes and the document keeps the
    rest, and every later [Output] returns the latched error at once and
    writes nothing. *)
Theorem Output_latches_writer_error (env : Env) (hk : Hooks) (w : Writer) (f : Fpdf.t)
  (m : nat) (e : string) :
  Fpdf.state f = 3 ->
  Fpdf.err f = None ->
  0 < len (Fpdf.buffer f) ->
  answer w (Fpdf.buffer f) = (m, Some e) ->
  (m <= String.length (Fpdf.buffer f))%nat ->
  exists w' f',
    Output env hk w f = Ok (w', f', Some e) /\
    written w' = written w ++ String.substring 0 m (Fpdf.buffer f) /\
    Fpdf.buffer f'
    = String.substring m (String.length (Fpdf.buffer f) - m) (Fpdf.buffer f) /\
    Fpdf.err f' = Some e /\
    forall w2, Output env hk w2 f' = Ok (w2, f', Some e).
Proof.
  intros Hst Herr Hlen Hw Hm.
  eexists. eexists.
  split.
  - unfold Output. rewrite (nonNil_false _ Herr), Hst.
    change (3 <? 3) with false. cbn [bind].
    unfold WriteTo. apply Z.ltb_lt in Hlen. rewrite Hlen, Hw.
    apply Nat.ltb_ge in Hm. rewrite Hm. cbn [bind]. reflexivity.
  - split; [reflexivity |]. split; [reflexivity |]. split; [reflexivity |].
    intros w2. reflexivity.
Qed.

(** The closed sample document written to a full disk: the four bytes
    "%PDF" are written and the error is latched. *)
Lemma Output_latches_writer_error_witness :
  exists w' f',
    Output sampleEnv defaultHooks fullDisk closedDoc
    = Ok (w', f', Some "no space left on device") /\
    written w' = "%PDF" /\
    Fpdf.err f' = Some "no space left on device".
Proof.
  destruct (Output_latches_writer_error sampleEnv defaultHooks fullDisk closedDoc 4
              "no space left on device")
    as (w' & f' & HO & HW & _ & HE & _);
    [vm_compute; reflexivity | vm_compute; reflexivity | vm_compute; reflexivity
    | reflexivity | vm_compute; lia |].
  exists w', f'. split; [exact HO |]. split; [| exact HE].
  rewrite HW. vm_compute. reflexivity.
Defined.

Lemma SerK_buffer (keep : Z -> Prop) (f g : Fpdf.t) :
  SerK keep f g -> exists s, Fpdf.buffer g = Fpdf.buffer f ++ s.
Proof. intros (_ & _ & _ & B & _). exact B. Qed.

Lemma xrefSection_end (offsets : Z -> Z) (n o : Z) :
  exists t, xrefSection offsets n o = t ++ "%%EOF" ++ nl.
Proof.
  unfold xrefSection. rewrite <- !append_assoc.
  match goal with
  | |- exists t, (?x ++ ?e) ++ ?n = _ => exists x; rewrite (append_assoc x e n)
  end.
  reflexivity.
Qed.

(** X4: the file [enddoc] writes.  When serialization completes without
    error, what it has added to the main buffer starts with the header line
    "%PDF-" followed by the version of the document and ends with the line
    "%%EOF" (both percent signs are written, the text going through [out]
    and not through a format). *)
Theorem enddoc_frames_file (env : Env) (f f' : Fpdf.t) :
  Fpdf.state f <> 2 ->
  2 <= Fpdf.n f ->
  enddoc env f = Ok f' ->
  Fpdf.err f' = None ->
  exists mid,
    Fpdf.buffer f'
    = Fpdf.buffer f ++ ("%PDF-" ++ Fpdf.pdfVersion f ++ nl) ++ mid ++ "%%EOF" ++ nl.
Proof.
  intros Hst Hn H Herr. unfold enddoc in H.
  destruct (nonNil (Fpdf.err f)) eqn:E0.
  { apply Ok_inj in H. subst f'. rewrite (nonNil_false _ Herr) in E0. discriminate. }
  unfold putheader in H.
  destruct (Emit_bind_out _ _ _ _ Hst H) as (g0 & EH & St0 & H0). clear H.
  destruct EH as (_ & _ & N0 & _ & B0).
  apply bind_Ok in H0. destruct H0 as (g1 & Hp & H).
  destruct (putpages_structure env g0 g1 St0 ltac:(lia) Hp) as (S1 & N1 & _).
  assert (St1 : Fpdf.state g1 <> 2) by (destruct S1 as [-> _]; exact St0).
  apply bind_Ok in H. destruct H as (g2 & Hr & H).
  destruct (nonNil (Fpdf.err g2)) eqn:E2.
  { apply Ok_inj in H. subst f'. rewrite (nonNil_false _ Herr) in E2. discriminate. }
  apply nonNil_None in E2.
  destruct (putresources_structure env g1 g2 St1 ltac:(lia) Hr E2) as (S2 & _).
  assert (St2 : Fpdf.state g2 <> 2) by (destruct S2 as [-> _]; exact St1).
  pose proof (Ser_refl g2) as S.
  do 10 (eapply Ser_bind_step in H;
         [| exact S | eassumption | solve [eauto with ser]];
         clear S; destruct H as (? & S & ? & H)).
  match type of H with putxref ?g = _ =>
    destruct (putxref_section g f' ltac:(assumption) H) as (B & _)
  end.
  destruct (SerK_buffer _ _ _ S1) as (s1 & B1).
  destruct (SerK_buffer _ _ _ S2) as (s2 & B2).
  destruct (SerK_buffer _ _ _ S) as (s3 & B3).
  match type of B with _ = _ ++ xrefSection ?a ?b ?c =>
    destruct (xrefSection_end a b c) as (t & T); rewrite T in B
  end.
  exists (s1 ++ s2 ++ s3 ++ t).
  rewrite B, B3, B2, B1, B0. rewrite !append_assoc. reflexivity.
Qed.

Lemma enddoc_frames_file_witness :
  exists mid, Fpdf.buffer closedDoc = ("%PDF-" ++ "1.3" ++ nl) ++ mid ++ "%%EOF" ++ nl.
Proof.
  destruct (enddoc_frames_file sampleEnv
              (endpage (stateOf (AddPage sampleEnv defaultHooks blankDoc))) closedDoc)
    as (mid & B);
    [vm_compute; discriminate | vm_compute; discriminate | vm_compute; reflexivity
    | vm_compute; reflexivity |].
  exists mid. exact B.
Defined.

(** ** Slices: reading and writing by index *)

Lemma length_replace_nth {A : Type} (l : list A) (i : nat) (v : A) :
  List.length (replace_nth l i v) = List.length l.
Proof.
  revert i. induction l as [| a l IH]; intros [| i]; simpl; try reflexivity.
  now rewrite IH.
Qed.

Lemma llen_replace_nth {A : Type} (l : list A) (i : nat) (v : A) :
  llen (replace_nth l i v) = llen l.
Proof. unfold llen. now rewrite length_replace_nth. Qed.

Lemma llen_app {A : Type} (l l' : list A) : llen (l ++ l')%list = llen l + llen l'.
Proof. unfold llen. rewrite length_app. lia. Qed.

Lemma llen_nonneg {A : Type} (l : list A) : 0 <= llen l.
Proof. unfold llen. lia. Qed.

Lemma nth_error_replace_nth_eq {A : Type} (l : list A) (i : nat) (v : A) :
  (i < List.length l)%nat -> nth_error (replace_nth l i v) i = Some v.
Proof.
  revert i. induction l as [| a l IH]; intros [| i] H; simpl in *; try lia.
  - reflexivity.
  - apply IH. lia.
Qed.

Lemma nth_error_replace_nth_neq {A : Type} (l : list A) (i j : nat) (v : A) :
  i <> j -> nth_error (replace_nth l i v) j = nth_error l j.
Proof.
  revert i j. induction l as [| a l IH]; intros [| i] [| j] H; simpl; try reflexivity.
  - contradiction.
  - apply IH. lia.
Qed.

Lemma idx_out_of_range {A : Type} (l : list A) (i : Z) :
  i < 0 \/ llen l <= i -> idx l i = Panic "index out of range".
Proof.
  intros H. unfold idx.
  destruct ((i <? 0) || (llen l <=? i)) eqn:E; [reflexivity |].
  apply orb_false_iff in E. destruct E as [E1 E2].
  apply Z.ltb_ge in E1. apply Z.leb_gt in E2. lia.
Qed.

Lemma upd_out_of_range {A : Type} (l : list A) (i : Z) (v : A) :
  i < 0 \/ llen l <= i -> upd l i v = Panic "index out of range".
Proof.
  intros H. unfold upd.
  destruct ((i <? 0) || (llen l <=? i)) eqn:E; [reflexivity |].
  apply orb_false_iff in E. destruct E as [E1 E2].
  apply Z.ltb_ge in E1. apply Z.leb_gt in E2. lia.
Qed.

Lemma in_range_test {A : Type} (l : list A) (i : Z) :
  0 <= i < llen l -> (i <? 0) || (llen l <=? i) = false.
Proof.
  intros H. apply orb_false_iff. split; [apply Z.ltb_ge | apply Z.leb_gt]; lia.
Qed.

Lemma idx_in_range {A : Type} (l : list A) (i : Z) :
  0 <= i < llen l -> exists a, idx l i = Ok a /\ nth_error l (Z.to_nat i) = Some a.
Proof.
  intros H. unfold idx. rewrite (in_range_test l i H).
  destruct (nth_error l (Z.to_nat i)) as [a |] eqn:E; [exists a; split; reflexivity |].
  apply nth_error_None in E. unfold llen in H. lia.
Qed.

Lemma upd_in_range {A : Type} (l : list A) (i : Z) (v : A) :
  0 <= i < llen l -> upd l i v = Ok (replace_nth l (Z.to_nat i) v).
Proof. intros H. unfold upd. now rewrite (in_range_test l i H). Qed.

Lemma idx_replace_nth_eq {A : Type} (l : list A) (i : Z) (v : A) :
  0 <= i < llen l -> idx (replace_nth l (Z.to_nat i) v) i = Ok v.
Proof.
  intros H. unfold idx. rewrite llen_replace_nth, (in_range_test l i H).
  rewrite nth_error_replace_nth_eq; [reflexivity | unfold llen in H; lia].
Qed.

Lemma idx_replace_nth_neq {A : Type} (l : list A) (i j : Z) (v : A) :
  0 <= i -> 0 <= j -> i <> j -> idx (replace_nth l (Z.to_nat i) v) j = idx l j.
Proof.
  intros Hi Hj H. unfold idx. rewrite llen_replace_nth.
  rewrite nth_error_replace_nth_neq; [reflexivity | lia].
Qed.

Lemma idx_app_l {A : Type} (l l' : list A) (j : Z) :
  0 <= j < llen l -> idx (l ++ l')%list j = idx l j.
Proof.
  intros H. unfold idx. rewrite (in_range_test l j H).
  rewrite (in_range_test (l ++ l')%list j) by (rewrite llen_app; pose proof (llen_nonneg l'); lia).
  rewrite nth_error_app1; [reflexivity | unfold llen in H; lia].
Qed.

Lemma idx_app_last {A : Type} (l : list A) (a : A) :
  idx (l ++ [a])%list (llen l) = Ok a.
Proof.
  unfold idx.
  rewrite (in_range_test (l ++ [a])%list (llen l))
    by (rewrite llen_app; unfold llen; simpl; lia).
  unfold llen. rewrite Nat2Z.id, nth_error_app2 by lia.
  rewrite Nat.sub_diag. reflexivity.
Qed.

(** ** Internal links *)

(** X5: [AddLink] returns an identifier that was not in use, the length of
    the link table before the call, and [SetLink] on that identifier stores
    the destination: reading the table at the identifier gives the page and
    the ordinate passed, with the current page and the current ordinate
    standing in for -1; the destinations of the links made earlier are not
    touched.  [SetLink] on an identifier that [AddLink] has not returned
    yet faults. *)
Theorem AddLink_then_SetLink (f : Fpdf.t) (y : float) (page : Z) :
  let id := fst (AddLink f) in
  let f1 := snd (AddLink f) in
  id = llen (Fpdf.links f) /\
  idx (Fpdf.links f) id = Panic "index out of range" /\
  SetLink (id + 1) y page f1 = Panic "index out of range" /\
  exists f2,
    SetLink id y page f1 = Ok f2 /\
    idx (Fpdf.links f2) id
    = Ok (intLinkType.mk (if page =? -1 then Fpdf.page f else page)
                         (if feq y (-1) then Fpdf.y f else y)) /\
    forall j, 0 <= j < id -> idx (Fpdf.links f2) j = idx (Fpdf.links f) j.
Proof.
  cbv zeta. unfold AddLink. cbn [fst snd Fpdf.links Fpdf.set_links].
  pose proof (llen_nonneg (Fpdf.links f)) as L0.
  assert (L : llen (Fpdf.links f ++ [intLinkType.zero])%list - 1 = llen (Fpdf.links f))
    by (rewrite llen_app; unfold llen; simpl; lia).
  rewrite L.
  split; [reflexivity |].
  split; [apply idx_out_of_range; lia |].
  split.
  { unfold SetLink. cbn [Fpdf.links Fpdf.set_links].
    rewrite upd_out_of_range; [reflexivity |].
    rewrite llen_app. unfold llen. simpl. lia. }
  eexists. split.
  { unfold SetLink. cbn [Fpdf.links Fpdf.set_links Fpdf.y Fpdf.page].
    rewrite upd_in_range; [reflexivity |].
    rewrite llen_app. unfold llen. simpl. lia. }
  cbn [Fpdf.links Fpdf.set_links].
  split.
  - apply idx_replace_nth_eq. rewrite llen_app. unfold llen. simpl. lia.
  - intros j Hj. rewrite idx_replace_nth_neq by lia.
    apply idx_app_l. exact Hj.
Qed.

(** ** Literal strings *)

Lemma mapBytes_app (g : ascii -> string) (a b : string) :
  mapBytes g (a ++ b) = mapBytes g a ++ mapBytes g b.
Proof.
  induction a as [| c a IH]; simpl; [reflexivity |].
  now rewrite IH, append_assoc.
Qed.

Lemma mapBytes_compose (g h : ascii -> string) (s : string) :
  mapBytes g (mapBytes h s) = mapBytes (fun c => mapBytes g (h c)) s.
Proof.
  induction s as [| c s IH]; simpl; [reflexivity |].
  now rewrite mapBytes_app, IH.
Qed.

Lemma mapBytes_ext (g h : ascii -> string) (s : string) :
  (forall c, g c = h c) -> mapBytes g s = mapBytes h s.
Proof.
  intros E. induction s as [| c s IH]; simpl; [reflexivity |]. now rewrite E, IH.
Qed.

(** Replacing every occurrence of a single byte works byte by byte. *)
Lemma replaceAll_byte (c : ascii) (new s : string) :
  replaceAll s (String c "") new
  = mapBytes (fun d => if Ascii.eqb c d then new else String d "") s.
Proof.
  unfold replaceAll. induction s as [| d s IH]; [reflexivity |].
  cbn [replace_from mapBytes String.prefix String.length Nat.sub].
  destruct (ascii_dec c d) as [-> | N].
  - rewrite Ascii.eqb_refl. destruct s; cbn [String.prefix]; now rewrite IH.
  - apply Ascii.eqb_neq in N. rewrite N. cbn [append]. now rewrite IH.
Qed.

Lemma escape_bytes (s : string) : escape s = mapBytes escapeByte s.
Proof.
  unfold escape. cbv zeta. unfold bslash at 1, cr.
  change "(" with (String "(" "") at 1. change ")" with (String ")" "") at 1.
  rewrite !replaceAll_byte, !mapBytes_compose.
  apply mapBytes_ext. intros c.
  destruct c as [[] [] [] [] [] [] [] []]; reflexivity.
Qed.

Lemma readBody_escapeByte (c : ascii) (s : string) :
  readBody false (escapeByte c ++ s) = consFst c (readBody false s).
Proof. destruct c as [[] [] [] [] [] [] [] []]; reflexivity. Qed.

Lemma readBody_escaped (s rest : string) :
  readBody false (mapBytes escapeByte s ++ ")" ++ rest) = Some (s, rest).
Proof.
  induction s as [| c s IH]; [reflexivity |].
  cbn [mapBytes]. rewrite append_assoc, readBody_escapeByte, IH. reflexivity.
Qed.

(** X6: a literal string can be read back.  Whatever the text and whatever
    follows it in the file, a reader that is given [textstring s] followed
    by [rest] returns exactly [s] and [rest]: the parentheses, backslashes
    and carriage returns of the text are escaped so that none of them is
    taken for the end of the string or lost. *)
Theorem textstring_read_back (s rest : string) :
  readLiteral (textstring s ++ rest) = Some (s, rest).
Proof.
  unfold textstring. rewrite escape_bytes.
  cbn [append readLiteral]. rewrite Ascii.eqb_refl.
  rewrite append_assoc. apply readBody_escaped.
Qed.

(** ** Counters and page tables *)


Lemma docInv_out (s : string) (g : Fpdf.t) : Preserves docInv here g (out s g).
Proof.
  intros (In & I0 & I1 & I2) a Ha. unfold out in Ha. destruct (Fpdf.state g =? 2).
  - apply bind_Ok in Ha. destruct Ha as (pg & _ & Ha).
    apply bind_Ok in Ha. destruct Ha as (ps & Hps & Ha).
    apply Ok_inj in Ha. subst a. apply upd_Ok in Hps. destruct Hps as [_ ->].
    unfold here, docInv. cbn [Fpdf.n Fpdf.page Fpdf.pages Fpdf.pageLinks Fpdf.set_pages].
    rewrite llen_replace_nth. repeat split; assumption.
  - apply Ok_inj in Ha. subst a. repeat split; assumption.
Qed.

Lemma docInv_newLink (x y w h : float) (link : Z) (linkStr : string) (g : Fpdf.t) :
  Preserves docInv here g (newLink x y w h link linkStr g).
Proof.
  intros (In & I0 & I1 & I2) a Ha. unfold newLink in Ha.
  apply bind_Ok in Ha. destruct Ha as (pl & _ & Ha). cbv zeta in Ha.
  apply bind_Ok in Ha. destruct Ha as (pls & Hpls & Ha).
  apply Ok_inj in Ha. subst a. apply upd_Ok in Hpls. destruct Hpls as [_ ->].
  unfold here, docInv. cbn [Fpdf.n Fpdf.page Fpdf.pages Fpdf.pageLinks Fpdf.set_pageLinks].
  rewrite llen_replace_nth. repeat split; assumption.
Qed.

Lemma docInv_beginpage (env : Env) (orientationStr : string) (size : sizeType.t)
  (g : Fpdf.t) :
  Preserves docInv here g (beginpage env orientationStr size g).
Proof.
  intros (In & I0 & I1 & I2) a Ha. unfold beginpage in Ha.
  destruct (nonNil (Fpdf.err g)).
  - apply Ok_inj in Ha. subst a. repeat split; assumption.
  - cbv zeta in Ha. apply bind_Ok in Ha. destruct Ha as (o & _ & Ha).
    apply Ok_inj in Ha. subst a. unfold here.
    repeat (match goal with
            | |- context [if ?b then _ else _] => destruct b
            end);
      (unfold docInv;
       change (Fpdf.n g = 2 /\
               0 <= Fpdf.page g + 1 /\
               llen (Fpdf.pages g ++ [""])%list = Fpdf.page g + 1 + 1 /\
               llen (Fpdf.pageLinks g ++ [[]])%list = Fpdf.page g + 1 + 1);
       rewrite !llen_app; unfold llen at 2 4; simpl List.length; lia).
Qed.

#[local] Hint Resolve docInv_out docInv_newLink docInv_beginpage : pres.

Lemma docInv_AddFont (env : Env) (familyStr styleStr fileStr : string) (g : Fpdf.t) :
  Preserves docInv here g (AddFont env familyStr styleStr fileStr g).
Proof. unfold AddFont. pres_tables. Qed.

#[local] Hint Resolve docInv_AddFont : pres.

Lemma docInv_SetFont (env : Env) (familyStr styleStr : string) (size : float)
  (g : Fpdf.t) :
  Preserves docInv here g (SetFont env familyStr styleStr size g).
Proof. unfold SetFont. pres_tables. Qed.

#[local] Hint Resolve docInv_SetFont : pres.

Lemma docInv_hooks_header (hk : Hooks) (g : Fpdf.t) :
  hooksPreserve docInv hk -> Preserves docInv here g (runHeader hk g).
Proof. intros HK. apply Preserves_runHeader; [exact HK | intros b f I; exact I]. Qed.

Lemma docInv_hooks_footer (hk : Hooks) (g : Fpdf.t) :
  hooksPreserve docInv hk -> Preserves docInv here g (runFooter hk g).
Proof. intros HK. apply Preserves_runFooter; [exact HK | intros b f I; exact I]. Qed.

#[local] Hint Resolve docInv_hooks_header docInv_hooks_footer : pres.

Lemma docInv_AddPageFormat (env : Env) (hk : Hooks) (orientationStr : string)
  (size : sizeType.t) (g : Fpdf.t) :
  hooksPreserve docInv hk ->
  Preserves docInv here g (AddPageFormat env hk orientationStr size g).
Proof. intros HK. unfold AddPageFormat. pres_tables. Qed.

#[local] Hint Resolve docInv_AddPageFormat : pres.

Lemma docInv_CellFormat (env : Env) (hk : Hooks) (w h : float)
  (txtStr borderStr : string) (ln : Z) (alignStr : string) (fill : bool) (link : Z)
  (linkStr : string) (g : Fpdf.t) :
  hooksPreserve docInv hk ->
  Preserves docInv here g
    (CellFormat env hk w h txtStr borderStr ln alignStr fill link linkStr g).
Proof. intros HK. unfold CellFormat. pres_tables. Qed.

(** ** Text in flowing mode *)

Lemma wrNextLine_fields (i : Z) (v : wr.t) (f : Fpdf.t) :
  wr.i (fst (wrNextLine i v f)) = i /\
  wr.j (fst (wrNextLine i v f)) = i /\
  wr.sep (fst (wrNextLine i v f)) = -1.
Proof.
  unfold wrNextLine. destruct (wr.nl v =? 1); [| repeat split; reflexivity].
  cbv zeta. destruct (lineRoom _). repeat split; reflexivity.
Qed.

(** Every turn keeps the invariant and lowers the measure: a break moves the
    start of the line forward, any other turn moves the scan index. *)
Lemma write_step_progress (env : Env) (hk : Hooks) (h : float) (s : string) (link : Z)
  (linkStr : string) (nb : Z) (v v' : wr.t) (f f' : Fpdf.t) :
  wrInv nb v ->
  wr.i v < nb ->
  write_step env hk h s link linkStr v f = Ok (v', f') ->
  wrInv nb v' /\ wrMeasure nb v' < wrMeasure nb v.
Proof.
  intros (H0 & H1 & H2 & H3) Hlt Hstep.
  unfold write_step in Hstep.
  apply bind_Ok in Hstep. destruct Hstep as (c & _ & Hstep).
  destruct (Ascii.eqb c newline).
  - (* explicit line break *)
    apply bind_Ok in Hstep. destruct Hstep as (seg & _ & Hstep).
    apply bind_Ok in Hstep. destruct Hstep as (f1 & _ & Hstep).
    apply Ok_inj in Hstep.
    destruct (wrNextLine_fields (wr.i v + 1) v f1) as (Ei & Ej & Es).
    rewrite Hstep in Ei, Ej, Es. cbn [fst] in Ei, Ej, Es.
    unfold wrInv, wrMeasure. rewrite Ei, Ej, Es.
    split; [repeat split; try lia; left; reflexivity | nia].
  - cbv zeta in Hstep.
    apply bind_Ok in Hstep. destruct Hstep as (cwc & _ & Hstep).
    remember (if Ascii.eqb c " " then wr.i v else wr.sep v) as sep eqn:Esep.
    assert (S3 : sep = -1 \/ (wr.j v <= sep /\ sep <= wr.i v)).
    { subst sep. destruct (Ascii.eqb c " "); [right; lia | exact H3]. }
    destruct (fgt (wr.l v + float64_of_Z cwc) (wr.wmax v)).
    + destruct (sep =? -1) eqn:E1.
      * destruct (fgt (Fpdf.x f) (Fpdf.lMargin f)).
        -- (* move to the next line *)
           destruct (lineRoom _) as [w wmax].
           apply Ok_inj in Hstep. inversion Hstep; subst v' f'; clear Hstep.
           unfold wrInv, wrMeasure. cbn [wr.i wr.j wr.sep].
           apply Z.eqb_eq in E1.
           split; [repeat split; try lia; left; exact E1 | nia].
        -- (* hard break *)
           apply bind_Ok in Hstep. destruct Hstep as (seg & _ & Hstep).
           apply bind_Ok in Hstep. destruct Hstep as (f1 & _ & Hstep).
           apply Ok_inj in Hstep.
           match type of Hstep with
           | wrNextLine ?i v f1 = _ =>
               destruct (wrNextLine_fields i v f1) as (Ei & Ej & Es)
           end.
           rewrite Hstep in Ei, Ej, Es. cbn [fst] in Ei, Ej, Es.
           unfold wrInv, wrMeasure. rewrite Ei, Ej, Es.
           destruct (wr.i v =? wr.j v) eqn:Eij;
             [apply Z.eqb_eq in Eij | apply Z.eqb_neq in Eij];
             (split; [repeat split; try lia; left; reflexivity | nia]).
      * (* soft break at the last space *)
        apply Z.eqb_neq in E1.
        apply bind_Ok in Hstep. destruct Hstep as (seg & _ & Hstep).
        apply bind_Ok in Hstep. destruct Hstep as (f1 & _ & Hstep).
        apply Ok_inj in Hstep.
        destruct (wrNextLine_fields (sep + 1) v f1) as (Ei & Ej & Es).
        rewrite Hstep in Ei, Ej, Es. cbn [fst] in Ei, Ej, Es.
        unfold wrInv, wrMeasure. rewrite Ei, Ej, Es.
        destruct S3 as [S3 | S3]; [contradiction |].
        split; [repeat split; try lia; left; reflexivity | nia].
    + (* the character fits *)
      apply Ok_inj in Hstep. inversion Hstep; subst v' f'; clear Hstep.
      unfold wrInv, wrMeasure. cbn [wr.i wr.j wr.sep].
      split; [repeat split; lia | nia].
Qed.

Lemma write_loop_terminates (env : Env) (hk : Hooks) (h : float) (s : string) (link : Z)
  (linkStr : string) (nb : Z) :
  forall (fuel : nat) (v : wr.t) (f : Fpdf.t),
    wrInv nb v ->
    wrMeasure nb v < Z.of_nat fuel ->
    write_loop fuel env hk h s link linkStr nb v f <> None.
Proof.
  induction fuel as [| fuel IH]; intros v f Hinv Hm.
  - exfalso. destruct Hinv as (H0 & H1 & H2 & H3). unfold wrMeasure in Hm. nia.
  - cbn [write_loop].
    destruct (wr.i v <? nb) eqn:Ei; [| discriminate].
    apply Z.ltb_lt in Ei.
    destruct (write_step env hk h s link linkStr v f) as [[v' f'] | m] eqn:Estep;
      [| discriminate].
    destruct (write_step_progress _ _ _ _ _ _ _ _ _ _ _ Hinv Ei Estep) as [Hinv' Hm'].
    apply IH; [exact Hinv' | lia].
Qed.

(** X7: [write], the scan behind [Write], [WriteLinkString] and
    [WriteLinkId], terminates for every text, line height, cursor position
    and width table: with fuel for (nb+1)^2 turns, nb the length of the text
    without its carriage returns, the loop never runs out of fuel.  Every
    turn either moves the scan index forward or, at a line break, the start
    of the line. *)
Theorem write_terminates (env : Env) (hk : Hooks) (h : float) (txtStr : string)
  (link : Z) (linkStr : string) (f : Fpdf.t) :
  write (wrFuel txtStr) env hk h txtStr link linkStr f <> None.
Proof.
  unfold write. destruct (lineRoom f) as [w wmax]. cbv zeta.
  pose proof (len_nonneg (replaceAll txtStr cr "")) as Hnb.
  destruct (write_loop (wrFuel txtStr) env hk h (replaceAll txtStr cr "") link linkStr
              (len (replaceAll txtStr cr "")) (wr.mk (-1) 0 0 0 1 w wmax) f)
    as [[[v g] | m] |] eqn:E; try discriminate.
  exfalso. revert E.
  apply write_loop_terminates.
  - unfold wrInv. cbn [wr.i wr.j wr.sep]. repeat split; lia.
  - unfold wrMeasure, wrFuel. cbn [wr.i wr.j]. cbv zeta.
    rewrite Nat2Z.inj_succ, Z2Nat.id by nia. nia.
Qed.

(** *** A new document *)

Lemma getpagesizestr_tables (env : Env) (sizeStr : string) (f : Fpdf.t) :
  tables (snd (getpagesizestr env sizeStr f)) = tables f.
Proof.
  unfold getpagesizestr.
  destruct (nonNil (Fpdf.err f)); [reflexivity |].
  cbv zeta. destruct (_ =? _)%string; [reflexivity |].
  destruct (sget _ _); reflexivity.
Qed.

Lemma SetDisplayMode_tables (zoomStr layoutStr : string) (f : Fpdf.t) :
  tables (SetDisplayMode zoomStr layoutStr f) = tables f.
Proof.
  unfold SetDisplayMode.
  destruct (nonNil (Fpdf.err f)); [reflexivity |].
  cbv zeta. destruct (isZoomMode zoomStr); [| reflexivity].
  destruct (isLayoutMode _); reflexivity.
Qed.



Ltac name_let :=
  match goal with
  | |- context C [let x := ?v in @?b x] =>
      let f := fresh "f" in
      pose (f := v);
      let g := context C [b f] in
      change g; cbv beta
  end.



(** Forget how the state [fN] was computed; only its table [T] is kept. *)
Ltac forget_state fN T :=
  clearbody fN; revert T; revert fN; intros fN T.

(** One more assignment of [New] taken: the table of the new state is that
    of the state before. *)
Ltac tab_step :=
  name_let;
  lazymatch goal with
  | T : tables ?d = ?X, fN := ?g ?d : Fpdf.t |- _ =>
      let H := fresh "T" in
      assert (H : tables fN = tables d)
        by (first [reflexivity | apply SetDisplayMode_tables]);
      rewrite T in H; clear T; forget_state fN H
  end.

Ltac tab_done :=
  match goal with T : tables _ = ?X |- tables _ = ?X => exact T end.

Ltac tab_tail :=
  do 2 tab_step;
  match goal with
  | T : tables ?d = _ |- context [Some (?s ?v ?d)] =>
      let T' := fresh "T" in
      let h := fresh "h" in
      assert (T' : tables (s v d) = tables d) by reflexivity;
      rewrite T in T'; clear T; set (h := s v d) in *; forget_state h T'
  end;
  cbv iota;
  do 3 tab_step; name_let;
  match goal with m := _ : float |- _ => clearbody m end;
  do 5 tab_step;
  destruct (nonNil _); [tab_done |];
  tab_step; tab_done.

Lemma New_tables (env : Env) (orientationStr unitStr sizeStr fontDirStr : string) :
  tables (New env orientationStr unitStr sizeStr fontDirStr) = (2, 0, [""], [[]]).
Proof.
  cbv beta delta [New].
  do 30 name_let.
  match goal with
  | g := Fpdf.set_coreFonts _ _ |- _ =>
      assert (T : tables g = (2, 0, [""], [[]])) by reflexivity;
      forget_state g T
  end.
  destruct (unitScale _); [| exact T].
  do 2 tab_step.
  match goal with
  | T : tables _ = _ |- context [getpagesizestr ?e ?s ?x] =>
      pose proof (getpagesizestr_tables e s x) as G;
      destruct (getpagesizestr e s x) as [size g];
      cbn [snd] in G; rewrite T in G; clear T
  end.
  cbv iota.
  tab_step.
  destruct (nonNil _); [tab_done |].
  tab_step. do 2 name_let.
  match goal with o := _ : option Fpdf.t |- _ => subst o end.
  destruct (_ || _); [| destruct (_ || _); [| tab_done]].
  - tab_tail.
  - tab_tail.
Qed.

Lemma docInv_AddPage (env : Env) (hk : Hooks) (g : Fpdf.t) :
  hooksPreserve docInv hk -> Preserves docInv here g (AddPage env hk g).
Proof. intros HK. unfold AddPage. pres_tables. Qed.

Lemma docInv_resetWs (g : Fpdf.t) : Preserves docInv here g (resetWs g).
Proof. unfold resetWs. pres_tables. Qed.

Lemma docInv_justifyWs (wmax ls : float) (ns : Z) (g : Fpdf.t) :
  Preserves docInv here g (justifyWs wmax ls ns g).
Proof. unfold justifyWs. pres_tables. Qed.

#[local] Hint Resolve docInv_CellFormat docInv_resetWs docInv_justifyWs : pres.

Lemma docInv_MultiCell_step (env : Env) (hk : Hooks) (w h : float)
  (s borderStr b2 alignStr : string) (fill : bool) (wmax : float) (v : mc.t)
  (g : Fpdf.t) :
  hooksPreserve docInv hk ->
  Preserves docInv snd g
    (MultiCell_step env hk w h s borderStr b2 alignStr fill wmax v g).
Proof. intros HK. unfold MultiCell_step. pres_tables. Qed.

Lemma docInv_MultiCell_loop (env : Env) (hk : Hooks) (w h : float)
  (s borderStr b2 alignStr : string) (fill : bool) (wmax : float) (nb : Z) :
  hooksPreserve docInv hk ->
  forall (fuel : nat) (v : mc.t) (g : Fpdf.t) (r : mc.t * Fpdf.t),
    docInv g ->
    MultiCell_loop fuel env hk w h s borderStr b2 alignStr fill wmax nb v g
      = Some (Ok r) ->
    docInv (snd r).
Proof.
  intros HK. induction fuel as [| fuel IH]; intros v g r I E; cbn [MultiCell_loop] in E;
    destruct (mc.i v <? nb).
  - discriminate.
  - inversion E; subst r. exact I.
  - destruct (MultiCell_step env hk w h s borderStr b2 alignStr fill wmax v g)
      as [[v' g'] | m] eqn:Es; [| discriminate].
    apply (IH v' g' r); [| exact E].
    exact (docInv_MultiCell_step env hk w h s borderStr b2 alignStr fill wmax v g
             HK I (v', g') Es).
  - inversion E; subst r. exact I.
Qed.

Lemma docInv_MultiCell (fuel : nat) (env : Env) (hk : Hooks) (w h : float)
  (txtStr borderStr alignStr : string) (fill : bool) (g g' : Fpdf.t) :
  hooksPreserve docInv hk -> docInv g ->
  MultiCell fuel env hk w h txtStr borderStr alignStr fill g = Some (Ok g') ->
  docInv g'.
Proof.
  intros HK I E. unfold MultiCell in E. cbv zeta in E.
  destruct (mcBorders borderStr) as [[bs b] b2].
  match type of E with
  | match ?L with _ => _ end = _ => destruct L as [[[v g1] | m] |] eqn:EL
  end; try discriminate.
  pose proof (docInv_MultiCell_loop _ _ _ _ _ _ _ _ _ _ _ HK _ _ _ _ I EL) as I1.
  cbn [snd] in I1. injection E as E.
  match type of E with
  | ?p = Ok _ => assert (Pr : Preserves docInv here g1 p) by pres_tables
  end.
  exact (Pr I1 g' E).
Qed.

Lemma docInv_write_step (env : Env) (hk : Hooks) (h : float) (s : string) (link : Z)
  (linkStr : string) (v : wr.t) (g : Fpdf.t) :
  hooksPreserve docInv hk ->
  Preserves docInv snd g (write_step env hk h s link linkStr v g).
Proof.
  intros HK. unfold write_step, wrNextLine.
  pres ltac:(idtac; intros I;
             repeat (match goal with
                     | |- context [if ?b then _ else _] => destruct b
                     | |- context [lineRoom ?x] => destruct (lineRoom x)
                     end);
             exact I).
Qed.

Lemma docInv_write_loop (env : Env) (hk : Hooks) (h : float) (s : string) (link : Z)
  (linkStr : string) (nb : Z) :
  hooksPreserve docInv hk ->
  forall (fuel : nat) (v : wr.t) (g : Fpdf.t) (r : wr.t * Fpdf.t),
    docInv g ->
    write_loop fuel env hk h s link linkStr nb v g = Some (Ok r) ->
    docInv (snd r).
Proof.
  intros HK. induction fuel as [| fuel IH]; intros v g r I E; cbn [write_loop] in E;
    destruct (wr.i v <? nb).
  - discriminate.
  - inversion E; subst r. exact I.
  - destruct (write_step env hk h s link linkStr v g) as [[v' g'] | m] eqn:Es;
      [| discriminate].
    apply (IH v' g' r); [| exact E].
    exact (docInv_write_step env hk h s link linkStr v g HK I (v', g') Es).
  - inversion E; subst r. exact I.
Qed.

Lemma docInv_write (fuel : nat) (env : Env) (hk : Hooks) (h : float) (txtStr : string)
  (link : Z) (linkStr : string) (g g' : Fpdf.t) :
  hooksPreserve docInv hk -> docInv g ->
  write fuel env hk h txtStr link linkStr g = Some (Ok g') ->
  docInv g'.
Proof.
  intros HK I E. unfold write in E. destruct (lineRoom g) as [w wmax]. cbv zeta in E.
  match type of E with
  | match ?L with _ => _ end = _ => destruct L as [[[v g1] | m] |] eqn:EL
  end; try discriminate.
  pose proof (docInv_write_loop _ _ _ _ _ _ _ HK _ _ _ _ I EL) as I1.
  cbn [snd] in I1. injection E as E.
  match type of E with
  | ?p = Ok _ => assert (Pr : Preserves docInv here g1 p) by pres_tables
  end.
  exact (Pr I1 g' E).
Qed.

Lemma docInv_Text (x y : float) (txtStr : string) (g : Fpdf.t) :
  Preserves docInv here g (Text x y txtStr g).
Proof. unfold Text. pres_tables. Qed.

Lemma docInv_Line (x1 y1 x2 y2 : float) (g : Fpdf.t) :
  Preserves docInv here g (Line x1 y1 x2 y2 g).
Proof. unfold Line. pres_tables. Qed.

Lemma docInv_Rect (env : Env) (x y w h : float) (styleStr : string) (g : Fpdf.t) :
  Preserves docInv here g (Rect env x y w h styleStr g).
Proof. unfold Rect. pres_tables. Qed.

Lemma docInv_Curve (env : Env) (x0 y0 cx cy x1 y1 : float) (styleStr : string)
  (g : Fpdf.t) :
  Preserves docInv here g (Curve env x0 y0 cx cy x1 y1 styleStr g).
Proof. unfold Curve, point. pres_tables. Qed.

Lemma docInv_CurveCubic (env : Env) (x0 y0 cx0 cy0 cx1 cy1 x1 y1 : float)
  (styleStr : string) (g : Fpdf.t) :
  Preserves docInv here g (CurveCubic env x0 y0 cx0 cy0 cx1 cy1 x1 y1 styleStr g).
Proof. unfold CurveCubic, point. pres_tables. Qed.

Lemma docInv_SetDrawColor (r gr b : Z) (g : Fpdf.t) :
  Preserves docInv here g (SetDrawColor r gr b g).
Proof. unfold SetDrawColor. pres_tables. Qed.

Lemma docInv_SetFillColor (r gr b : Z) (g : Fpdf.t) :
  Preserves docInv here g (SetFillColor r gr b g).
Proof. unfold SetFillColor. pres_tables. Qed.

Lemma docInv_SetLineWidth (w : float) (g : Fpdf.t) :
  Preserves docInv here g (SetLineWidth w g).
Proof. unfold SetLineWidth. pres_tables. Qed.

Lemma docInv_SetLineCapStyle (styleStr : string) (g : Fpdf.t) :
  Preserves docInv here g (SetLineCapStyle styleStr g).
Proof. unfold SetLineCapStyle. pres_tables. Qed.

(** ** Fonts *)

Lemma sget_sput_same {A : Type} (m : list (string * A)) (k : string) (v : A) :
  sget (sput m k v) k = Some v.
Proof.
  unfold sget, sput. induction m as [| [k' v'] m IH]; cbn [mput mget].
  - rewrite String.eqb_refl. reflexivity.
  - destruct (String.eqb k k') eqn:E; cbn [mget]; rewrite E; [reflexivity | exact IH].
Qed.

Lemma sget_sput_other {A : Type} (m : list (string * A)) (k k' : string) (v : A) :
  k' <> k -> sget (sput m k v) k' = sget m k'.
Proof.
  intros N. unfold sget, sput. induction m as [| [k0 v0] m IH]; cbn [mput mget].
  - destruct (String.eqb k' k) eqn:E; [apply String.eqb_eq in E; contradiction | reflexivity].
  - destruct (String.eqb k k0) eqn:E; cbn [mget].
    + apply String.eqb_eq in E. subst k0.
      destruct (String.eqb k' k) eqn:E'; [apply String.eqb_eq in E'; contradiction |].
      reflexivity.
    + destruct (String.eqb k' k0); [reflexivity | exact IH].
Qed.

(** What [AddFont] leaves behind when it returns: an error, or the font in
    the table under its key. *)
Lemma AddFont_registers (env : Env) (familyStr styleStr fileStr : string)
  (f f1 : Fpdf.t) :
  AddFont env familyStr styleStr fileStr f = Ok f1 ->
  nonNil (Fpdf.err f1) = true \/
  exists info, sget (Fpdf.fonts f1) (fontKey env familyStr styleStr) = Some info.
Proof.
  unfold AddFont, fontKey. intros H.
  destruct (nonNil (Fpdf.err f)) eqn:E0.
  { apply Ok_inj in H. subst f1. left. exact E0. }
  cbv zeta in H |- *.
  destruct (sget (Fpdf.fonts f) _) as [d |] eqn:E1.
  { apply Ok_inj in H. subst f1. right. exists d. exact E1. }
  destruct (loadfont env _ f) as [info g].
  destruct (nonNil (Fpdf.err g)) eqn:E2.
  { apply Ok_inj in H. subst f1. left. exact E2. }
  apply bind_Ok in H. destruct H as ([info' g'] & _ & H).
  apply Ok_inj in H. subst f1. right. exists info'.
  cbn [Fpdf.fonts Fpdf.set_fonts]. apply sget_sput_same.
Qed.

(** X8: a font is loaded at most once.  When [AddFont] has returned, a second
    [AddFont] for the same family and style, whatever file it names, returns
    the document unchanged: either the first call latched an error, or the
    font is in the table under its key. *)
Theorem AddFont_twice (env : Env) (familyStr styleStr fileStr fileStr' : string)
  (f f1 : Fpdf.t) :
  AddFont env familyStr styleStr fileStr f = Ok f1 ->
  AddFont env familyStr styleStr fileStr' f1 = Ok f1.
Proof.
  intros H. apply AddFont_registers in H. unfold fontKey in H. cbv zeta in H.
  unfold AddFont. destruct H as [H | [info H]].
  - rewrite H. reflexivity.
  - destruct (nonNil (Fpdf.err f1)); [reflexivity |].
    cbv zeta. rewrite H. reflexivity.
Qed.

Lemma AddFont_twice_witness :
  exists f1,
    AddFont sampleEnv "Courier" "b" "" blankDoc = Ok f1 /\
    AddFont sampleEnv "Courier" "b" "other.json" f1 = Ok f1.
Proof.
  exists (stateOf (AddFont sampleEnv "Courier" "b" "" blankDoc)).
  assert (H : AddFont sampleEnv "Courier" "b" "" blankDoc
              = Ok (stateOf (AddFont sampleEnv "Courier" "b" "" blankDoc)))
    by (vm_compute; reflexivity).
  split; [exact H |].
  exact (AddFont_twice sampleEnv "Courier" "b" "" "other.json" blankDoc _ H).
Defined.

(** ** The page tables of a document under construction *)

(** X9: a document fresh from [New] has its counters and page tables in
    order, whatever the arguments, also when [New] latched an error: two
    object numbers are reserved, the current page is 0, and the slices of
    page contents and of page links hold the one unused entry 0. *)
Theorem New_docInv (env : Env) (orientationStr unitStr sizeStr fontDirStr : string) :
  docInv (New env orientationStr unitStr sizeStr fontDirStr) /\
  Fpdf.page (New env orientationStr unitStr sizeStr fontDirStr) = 0 /\
  Fpdf.pages (New env orientationStr unitStr sizeStr fontDirStr) = [""] /\
  Fpdf.pageLinks (New env orientationStr unitStr sizeStr fontDirStr) = [[]].
Proof.
  pose proof (New_tables env orientationStr unitStr sizeStr fontDirStr) as T.
  unfold tables in T. injection T as Tn Tp Tps Tpl.
  unfold docInv. rewrite Tn, Tp, Tps, Tpl.
  repeat split; first [reflexivity | apply Z.le_refl].
Qed.

Lemma hooksPreserve_default (P : Fpdf.t -> Prop) : hooksPreserve P defaultHooks.
Proof.
  split.
  - intros fn f f' [E | E]; discriminate.
  - intros f b f' E I. cbn in E. apply Ok_inj in E. inversion E; subst. exact I.
Qed.

(** X10: the operations that build pages keep the page tables in order.  On
    a document whose slices of page contents and page links have one entry
    for every page up to the current one, and with callbacks that keep this,
    adding a page, selecting or adding a font, printing cells, multi-line
    cells and flowing text, drawing, and setting colours and line styles all
    end in a document of which the same holds. *)
Theorem docInv_preserved (env : Env) (hk : Hooks) (f : Fpdf.t) :
  hooksPreserve docInv hk ->
  docInv f ->
  (forall g, AddPage env hk f = Ok g -> docInv g) /\
  (forall o size g, AddPageFormat env hk o size f = Ok g -> docInv g) /\
  (forall fam st file g, AddFont env fam st file f = Ok g -> docInv g) /\
  (forall fam st size g, SetFont env fam st size f = Ok g -> docInv g) /\
  (forall w h txt b ln a fill link ls g,
      CellFormat env hk w h txt b ln a fill link ls f = Ok g -> docInv g) /\
  (forall fuel w h txt b a fill g,
      MultiCell fuel env hk w h txt b a fill f = Some (Ok g) -> docInv g) /\
  (forall fuel h txt g, Write fuel env hk h txt f = Some (Ok g) -> docInv g) /\
  (forall x y txt g, Text x y txt f = Ok g -> docInv g) /\
  (forall x1 y1 x2 y2 g, Line x1 y1 x2 y2 f = Ok g -> docInv g) /\
  (forall x y w h st g, Rect env x y w h st f = Ok g -> docInv g) /\
  (forall x y w h link g, Link x y w h link f = Ok g -> docInv g) /\
  (forall r gr b g, SetDrawColor r gr b f = Ok g -> docInv g) /\
  (forall st g, SetLineCapStyle st f = Ok g -> docInv g).
Proof.
  intros HK I.
  split; [intros g E; exact (docInv_AddPage env hk f HK I g E) |].
  split; [intros o size g E; exact (docInv_AddPageFormat env hk o size f HK I g E) |].
  split; [intros fam st file g E; exact (docInv_AddFont env fam st file f I g E) |].
  split; [intros fam st size g E; exact (docInv_SetFont env fam st size f I g E) |].
  split; [intros w h txt b ln a fill link ls g E;
          exact (docInv_CellFormat env hk w h txt b ln a fill link ls f HK I g E) |].
  split; [intros fuel w h txt b a fill g E;
          exact (docInv_MultiCell fuel env hk w h txt b a fill f g HK I E) |].
  split; [intros fuel h txt g E;
          exact (docInv_write fuel env hk h txt 0 "" f g HK I E) |].
  split; [intros x y txt g E; exact (docInv_Text x y txt f I g E) |].
  split; [intros x1 y1 x2 y2 g E; exact (docInv_Line x1 y1 x2 y2 f I g E) |].
  split; [intros x y w h st g E; exact (docInv_Rect env x y w h st f I g E) |].
  split; [intros x y w h link g E; exact (docInv_newLink x y w h link "" f I g E) |].
  split; [intros r gr b g E; exact (docInv_SetDrawColor r gr b f I g E) |].
  intros st g E; exact (docInv_SetLineCapStyle st f I g E).
Qed.

Lemma docInv_textDoc : docInv textDoc.
Proof.
  unfold docInv.
  split; [vm_compute; reflexivity |].
  split; [vm_compute; discriminate |].
  split; vm_compute; reflexivity.
Qed.

Lemma docInv_preserved_witness :
  hooksPreserve docInv defaultHooks /\
  docInv textDoc /\
  (forall g, AddPage sampleEnv defaultHooks textDoc = Ok g -> docInv g) /\
  (forall fuel h txt g,
      Write fuel sampleEnv defaultHooks h txt textDoc = Some (Ok g) -> docInv g).
Proof.
  pose proof (docInv_preserved sampleEnv defaultHooks textDoc
                (hooksPreserve_default docInv) docInv_textDoc) as T.
  split; [exact (hooksPreserve_default docInv) |].
  split; [exact docInv_textDoc |].
  destruct T as (T1 & _ & _ & _ & _ & _ & T7 & _).
  split; [exact T1 | exact T7].
Defined.

Lemma out_total (s : string) (f : Fpdf.t) :
  docInv f -> exists g, out s f = Ok g.
Proof.
  intros (In & I0 & I1 & I2). unfold out. destruct (Fpdf.state f =? 2).
  - destruct (idx_in_range (Fpdf.pages f) (Fpdf.page f)) as (pg & E & _); [lia |].
    rewrite E. cbn [bind]. rewrite upd_in_range by lia. cbn [bind]. eexists. reflexivity.
  - eexists. reflexivity.
Qed.

Lemma newLink_total (x y w h : float) (link : Z) (linkStr : string) (f : Fpdf.t) :
  docInv f -> exists g, newLink x y w h link linkStr f = Ok g.
Proof.
  intros (In & I0 & I1 & I2). unfold newLink.
  destruct (idx_in_range (Fpdf.pageLinks f) (Fpdf.page f)) as (pl & E & _); [lia |].
  rewrite E. cbn [bind]. cbv zeta. rewrite upd_in_range by lia. cbn [bind].
  eexists. reflexivity.
Qed.



(** ** The error of a document *)

Lemma errorIs_nonNil (e : string) (f : Fpdf.t) :
  errorIs e f -> nonNil (Fpdf.err f) = true.
Proof. unfold errorIs. intros ->. reflexivity. Qed.

Lemma errorIs_out (e s : string) (g : Fpdf.t) : Preserves (errorIs e) here g (out s g).
Proof.
  intros I a Ha. unfold out in Ha. destruct (Fpdf.state g =? 2).
  - apply bind_Ok in Ha. destruct Ha as (pg & _ & Ha).
    apply bind_Ok in Ha. destruct Ha as (ps & _ & Ha).
    apply Ok_inj in Ha. subst a. exact I.
  - apply Ok_inj in Ha. subst a. exact I.
Qed.

Lemma errorIs_newLink (e : string) (x y w h : float) (link : Z) (linkStr : string)
  (g : Fpdf.t) :
  Preserves (errorIs e) here g (newLink x y w h link linkStr g).
Proof.
  intros I a Ha. unfold newLink in Ha.
  apply bind_Ok in Ha. destruct Ha as (pl & _ & Ha). cbv zeta in Ha.
  apply bind_Ok in Ha. destruct Ha as (pls & _ & Ha).
  apply Ok_inj in Ha. subst a. exact I.
Qed.

(** [AddPageFormat] is guarded: with an error it returns at once. *)
Lemma errorIs_AddPageFormat (e : string) (env : Env) (hk : Hooks)
  (orientationStr : string) (size : sizeType.t) (g : Fpdf.t) :
  Preserves (errorIs e) here g (AddPageFormat env hk orientationStr size g).
Proof.
  intros I a Ha. unfold AddPageFormat in Ha. rewrite (errorIs_nonNil e g I) in Ha.
  apply Ok_inj in Ha. subst a. exact I.
Qed.

#[local] Hint Resolve errorIs_out errorIs_newLink errorIs_AddPageFormat : pres.

Lemma errorIs_CellFormat (e : string) (env : Env) (hk : Hooks) (w h : float)
  (txtStr borderStr : string) (ln : Z) (alignStr : string) (fill : bool) (link : Z)
  (linkStr : string) (g : Fpdf.t) :
  hooksPreserve (errorIs e) hk ->
  Preserves (errorIs e) here g
    (CellFormat env hk w h txtStr borderStr ln alignStr fill link linkStr g).
Proof. intros HK. unfold CellFormat. pres_tables. Qed.

Lemma errorIs_resetWs (e : string) (g : Fpdf.t) :
  Preserves (errorIs e) here g (resetWs g).
Proof. unfold resetWs. pres_tables. Qed.

Lemma errorIs_justifyWs (e : string) (wmax ls : float) (ns : Z) (g : Fpdf.t) :
  Preserves (errorIs e) here g (justifyWs wmax ls ns g).
Proof. unfold justifyWs. pres_tables. Qed.

#[local] Hint Resolve errorIs_CellFormat errorIs_resetWs errorIs_justifyWs : pres.

Lemma errorIs_MultiCell_step (e : string) (env : Env) (hk : Hooks) (w h : float)
  (s borderStr b2 alignStr : string) (fill : bool) (wmax : float) (v : mc.t)
  (g : Fpdf.t) :
  hooksPreserve (errorIs e) hk ->
  Preserves (errorIs e) snd g
    (MultiCell_step env hk w h s borderStr b2 alignStr fill wmax v g).
Proof. intros HK. unfold MultiCell_step. pres_tables. Qed.

Lemma errorIs_MultiCell_loop (e : string) (env : Env) (hk : Hooks) (w h : float)
  (s borderStr b2 alignStr : string) (fill : bool) (wmax : float) (nb : Z) :
  hooksPreserve (errorIs e) hk ->
  forall (fuel : nat) (v : mc.t) (g : Fpdf.t) (r : mc.t * Fpdf.t),
    errorIs e g ->
    MultiCell_loop fuel env hk w h s borderStr b2 alignStr fill wmax nb v g
      = Some (Ok r) ->
    errorIs e (snd r).
Proof.
  intros HK. induction fuel as [| fuel IH]; intros v g r I E; cbn [MultiCell_loop] in E;
    destruct (mc.i v <? nb).
  - discriminate.
  - inversion E; subst r. exact I.
  - destruct (MultiCell_step env hk w h s borderStr b2 alignStr fill wmax v g)
      as [[v' g'] | m] eqn:Es; [| discriminate].
    apply (IH v' g' r); [| exact E].
    exact (errorIs_MultiCell_step e env hk w h s borderStr b2 alignStr fill wmax v g
             HK I (v', g') Es).
  - inversion E; subst r. exact I.
Qed.

Lemma errorIs_MultiCell (e : string) (fuel : nat) (env : Env) (hk : Hooks) (w h : float)
  (txtStr borderStr alignStr : string) (fill : bool) (g g' : Fpdf.t) :
  hooksPreserve (errorIs e) hk -> errorIs e g ->
  MultiCell fuel env hk w h txtStr borderStr alignStr fill g = Some (Ok g') ->
  errorIs e g'.
Proof.
  intros HK I E. unfold MultiCell in E. cbv zeta in E.
  destruct (mcBorders borderStr) as [[bs b] b2].
  match type of E with
  | match ?L with _ => _ end = _ => destruct L as [[[v g1] | m] |] eqn:EL
  end; try discriminate.
  pose proof (errorIs_MultiCell_loop e _ _ _ _ _ _ _ _ _ _ _ HK _ _ _ _ I EL) as I1.
  cbn [snd] in I1. injection E as E.
  match type of E with
  | ?p = Ok _ => assert (Pr : Preserves (errorIs e) here g1 p) by pres_tables
  end.
  exact (Pr I1 g' E).
Qed.

Lemma errorIs_write_step (e : string) (env : Env) (hk : Hooks) (h : float) (s : string)
  (link : Z) (linkStr : string) (v : wr.t) (g : Fpdf.t) :
  hooksPreserve (errorIs e) hk ->
  Preserves (errorIs e) snd g (write_step env hk h s link linkStr v g).
Proof.
  intros HK. unfold write_step, wrNextLine.
  pres ltac:(idtac; intros I;
             repeat (match goal with
                     | |- context [if ?b then _ else _] => destruct b
                     | |- context [lineRoom ?x] => destruct (lineRoom x)
                     end);
             exact I).
Qed.

Lemma errorIs_write_loop (e : string) (env : Env) (hk : Hooks) (h : float) (s : string)
  (link : Z) (linkStr : string) (nb : Z) :
  hooksPreserve (errorIs e) hk ->
  forall (fuel : nat) (v : wr.t) (g : Fpdf.t) (r : wr.t * Fpdf.t),
    errorIs e g ->
    write_loop fuel env hk h s link linkStr nb v g = Some (Ok r) ->
    errorIs e (snd r).
Proof.
  intros HK. induction fuel as [| fuel IH]; intros v g r I E; cbn [write_loop] in E;
    destruct (wr.i v <? nb).
  - discriminate.
  - inversion E; subst r. exact I.
  - destruct (write_step env hk h s link linkStr v g) as [[v' g'] | m] eqn:Es;
      [| discriminate].
    apply (IH v' g' r); [| exact E].
    exact (errorIs_write_step e env hk h s link linkStr v g HK I (v', g') Es).
  - inversion E; subst r. exact I.
Qed.

Lemma errorIs_write (e : string) (fuel : nat) (env : Env) (hk : Hooks) (h : float)
  (txtStr : string) (link : Z) (linkStr : string) (g g' : Fpdf.t) :
  hooksPreserve (errorIs e) hk -> errorIs e g ->
  write fuel env hk h txtStr link linkStr g = Some (Ok g') ->
  errorIs e g'.
Proof.
  intros HK I E. unfold write in E. destruct (lineRoom g) as [w wmax]. cbv zeta in E.
  match type of E with
  | match ?L with _ => _ end = _ => destruct L as [[[v g1] | m] |] eqn:EL
  end; try discriminate.
  pose proof (errorIs_write_loop e _ _ _ _ _ _ _ HK _ _ _ _ I EL) as I1.
  cbn [snd] in I1. injection E as E.
  match type of E with
  | ?p = Ok _ => assert (Pr : Preserves (errorIs e) here g1 p) by pres_tables
  end.
  exact (Pr I1 g' E).
Qed.

Lemma errorIs_Text (e : string) (x y : float) (txtStr : string) (g : Fpdf.t) :
  Preserves (errorIs e) here g (Text x y txtStr g).
Proof. unfold Text. pres_tables. Qed.

Lemma errorIs_SetDrawColor (e : string) (r gr b : Z) (g : Fpdf.t) :
  Preserves (errorIs e) here g (SetDrawColor r gr b g).
Proof. unfold SetDrawColor. pres_tables. Qed.

Lemma errorIs_SetError (e : string) (err : option string) (g : Fpdf.t) :
  errorIs e g -> errorIs e (SetError err g).
Proof. unfold errorIs, SetError. intros I. rewrite I. exact I. Qed.

Lemma errorIs_SetErrorf (e msg : string) (g : Fpdf.t) :
  errorIs e g -> errorIs e (SetErrorf msg g).
Proof. unfold errorIs, SetErrorf. intros I. rewrite I. exact I. Qed.

(** X12: the first error stays.  Once a document carries an error, the
    operations that put text and drawings on a page still run where they are
    not guarded by the error test ([MultiCell], [Write], [Text], [Line],
    [Rect], [Link], [SetDrawColor]), but none of them, nor [CellFormat], nor
    [SetError] or [SetErrorf], clears the error or replaces it by another
    one, provided the callbacks do not. *)
Theorem first_error_stays (env : Env) (hk : Hooks) (e : string) (f : Fpdf.t) :
  hooksPreserve (errorIs e) hk ->
  Fpdf.err f = Some e ->
  (forall w h txt b ln a fill link ls g,
      CellFormat env hk w h txt b ln a fill link ls f = Ok g -> Fpdf.err g = Some e) /\
  (forall fuel w h txt b a fill g,
      MultiCell fuel env hk w h txt b a fill f = Some (Ok g) -> Fpdf.err g = Some e) /\
  (forall fuel h txt g,
      Write fuel env hk h txt f = Some (Ok g) -> Fpdf.err g = Some e) /\
  (forall x y txt g, Text x y txt f = Ok g -> Fpdf.err g = Some e) /\
  (forall x1 y1 x2 y2 g, Line x1 y1 x2 y2 f = Ok g -> Fpdf.err g = Some e) /\
  (forall x y w h st g, Rect env x y w h st f = Ok g -> Fpdf.err g = Some e) /\
  (forall x y w h link g, Link x y w h link f = Ok g -> Fpdf.err g = Some e) /\
  (forall r gr b g, SetDrawColor r gr b f = Ok g -> Fpdf.err g = Some e) /\
  (forall err, Fpdf.err (SetError err f) = Some e) /\
  (forall msg, Fpdf.err (SetErrorf msg f) = Some e).
Proof.
  intros HK I.
  split; [intros w h txt b ln a fill link ls g E;
          exact (errorIs_CellFormat e env hk w h txt b ln a fill link ls f HK I g E) |].
  split; [intros fuel w h txt b a fill g E;
          exact (errorIs_MultiCell e fuel env hk w h txt b a fill f g HK I E) |].
  split; [intros fuel h txt g E;
          exact (errorIs_write e fuel env hk h txt 0 "" f g HK I E) |].
  split; [intros x y txt g E; exact (errorIs_Text e x y txt f I g E) |].
  split; [intros x1 y1 x2 y2 g E; exact (errorIs_out e _ f I g E) |].
  split; [intros x y w h st g E; exact (errorIs_out e _ f I g E) |].
  split; [intros x y w h link g E; exact (errorIs_newLink e x y w h link "" f I g E) |].
  split; [intros r gr b g E; exact (errorIs_SetDrawColor e r gr b f I g E) |].
  split; [intros err; exact (errorIs_SetError e err f I) |].
  intros msg; exact (errorIs_SetErrorf e msg f I).
Qed.

Lemma first_error_stays_witness :
  hooksPreserve (errorIs "Undefined font: garamond ") defaultHooks /\
  Fpdf.err undefinedFontDoc = Some "Undefined font: garamond " /\
  (forall fuel h txt g,
      Write fuel sampleEnv defaultHooks h txt undefinedFontDoc = Some (Ok g) ->
      Fpdf.err g = Some "Undefined font: garamond ") /\
  (forall msg, Fpdf.err (SetErrorf msg undefinedFontDoc)
               = Some "Undefined font: garamond ").
Proof.
  assert (I : Fpdf.err undefinedFontDoc = Some "Undefined font: garamond ")
    by (vm_compute; reflexivity).
  pose proof (first_error_stays sampleEnv defaultHooks "Undefined font: garamond "
                undefinedFontDoc (hooksPreserve_default _) I) as T.
  split; [exact (hooksPreserve_default _) |].
  split; [exact I |].
  destruct T as (_ & _ & T3 & _ & _ & _ & _ & _ & _ & T10).
  split; [exact T3 | exact T10].
Defined.

(** ** The cursor *)

Lemma cursor_out (c : float * float * float) (s : string) (g : Fpdf.t) :
  Preserves (fun d => cursor d = c) here g (out s g).
Proof.
  intros I a Ha. unfold out in Ha. destruct (Fpdf.state g =? 2).
  - apply bind_Ok in Ha. destruct Ha as (pg & _ & Ha).
    apply bind_Ok in Ha. destruct Ha as (ps & _ & Ha).
    apply Ok_inj in Ha. subst a. exact I.
  - apply Ok_inj in Ha. subst a. exact I.
Qed.

Lemma cursor_newLink (c : float * float * float) (x y w h : float) (link : Z)
  (linkStr : string) (g : Fpdf.t) :
  Preserves (fun d => cursor d = c) here g (newLink x y w h link linkStr g).
Proof.
  intros I a Ha. unfold newLink in Ha.
  apply bind_Ok in Ha. destruct Ha as (pl & _ & Ha). cbv zeta in Ha.
  apply bind_Ok in Ha. destruct Ha as (pls & _ & Ha).
  apply Ok_inj in Ha. subst a. exact I.
Qed.

#[local] Hint Resolve cursor_out cursor_newLink : pres.

(** A cell that needs no page break: the height is recorded and the cursor
    moves as [ln] says. *)
Lemma CellFormat_cursor (env : Env) (hk : Hooks) (w h : float)
  (txtStr borderStr : string) (ln : Z) (alignStr : string) (fill : bool) (link : Z)
  (linkStr : string) (f g : Fpdf.t) :
  Fpdf.err f = None ->
  fgt (Fpdf.y f + h) (Fpdf.pageBreakTrigger f) = false ->
  CellFormat env hk w h txtStr borderStr ln alignStr fill link linkStr f = Ok g ->
  Fpdf.lasth g = h /\
  Fpdf.lMargin g = Fpdf.lMargin f /\
  Fpdf.x g =
    (if 0 <? ln then (if ln =? 1 then Fpdf.lMargin f else Fpdf.x f)
     else (Fpdf.x f +
           (if feq w 0 then Fpdf.w f - Fpdf.rMargin f - Fpdf.x f else w))%float) /\
  Fpdf.y g = (if 0 <? ln then (Fpdf.y f + h)%float else Fpdf.y f).
Proof.
  intros E0 Eb H. unfold CellFormat in H. rewrite E0 in H. cbn [nonNil] in H.
  unfold breakNeeded in H. rewrite Eb in H. cbn [andb bind] in H.
  cbv zeta in H.
  apply bind_Ok in H. destruct H as ([s f1] & H1 & H).
  apply bind_Ok in H. destruct H as (f2 & H2 & H).
  assert (C1 : cursor f1 = cursor f).
  { revert H1.
    match goal with
    | |- ?p = Ok _ -> _ =>
        assert (Pr : Preserves (fun d => cursor d = cursor f) snd f p)
          by pres ltac:(idtac; tables_leaf)
    end.
    intros H1. exact (Pr eq_refl (s, f1) H1). }
  assert (C2 : cursor f2 = cursor f).
  { revert H2.
    match goal with
    | |- ?p = Ok _ -> _ =>
        assert (Pr : Preserves (fun d => cursor d = cursor f) here f1 p)
          by pres ltac:(idtac; tables_leaf)
    end.
    intros H2. exact (Pr C1 f2 H2). }
  unfold cursor in C2. injection C2 as Cx Cy Cl.
  destruct (0 <? ln).
  - apply Ok_inj in H. subst g. destruct (ln =? 1);
      cbn [Fpdf.lasth Fpdf.lMargin Fpdf.x Fpdf.y Fpdf.set_x Fpdf.set_y Fpdf.set_lasth];
      rewrite ?Cx, ?Cy, ?Cl; repeat split; reflexivity.
  - apply Ok_inj in H. subst g.
    cbn [Fpdf.lasth Fpdf.lMargin Fpdf.x Fpdf.y Fpdf.set_x Fpdf.set_y Fpdf.set_lasth].
    rewrite ?Cx, ?Cy, ?Cl. repeat split; reflexivity.
Qed.

(** X13: where a cell leaves the cursor.  When the document carries no error
    and the cell fits above the page-break trigger, [CellFormat] records the
    height of the cell and moves the cursor as its argument [ln] says,
    whatever it draws: for [ln] zero or negative to the right of the cell
    (a width of 0 meaning up to the right margin), for 1 to the left margin
    of the next line, for 2 and more below the cell. *)
Theorem CellFormat_moves_cursor (env : Env) (hk : Hooks) (w h : float)
  (txtStr borderStr : string) (ln : Z) (alignStr : string) (fill : bool) (link : Z)
  (linkStr : string) (f g : Fpdf.t) :
  Fpdf.err f = None ->
  fgt (Fpdf.y f + h) (Fpdf.pageBreakTrigger f) = false ->
  CellFormat env hk w h txtStr borderStr ln alignStr fill link linkStr f = Ok g ->
  Fpdf.lasth g = h /\
  (ln <= 0 ->
   Fpdf.x g = (Fpdf.x f +
               (if feq w 0 then Fpdf.w f - Fpdf.rMargin f - Fpdf.x f else w))%float /\
   Fpdf.y g = Fpdf.y f) /\
  (ln = 1 -> Fpdf.x g = Fpdf.lMargin f /\ Fpdf.y g = (Fpdf.y f + h)%float) /\
  (2 <= ln -> Fpdf.x g = Fpdf.x f /\ Fpdf.y g = (Fpdf.y f + h)%float).
Proof.
  intros E0 Eb H.
  destruct (CellFormat_cursor env hk w h txtStr borderStr ln alignStr fill link linkStr
              f g E0 Eb H) as (Hl & _ & Hx & Hy).
  split; [exact Hl |].
  split; [| split]; intros L.
  - assert (T : (0 <? ln) = false) by (apply Z.ltb_ge; lia).
    rewrite T in Hx, Hy. split; assumption.
  - subst ln. cbn in Hx, Hy. split; assumption.
  - assert (T : (0 <? ln) = true) by (apply Z.ltb_lt; lia).
    assert (T1 : (ln =? 1) = false) by (apply Z.eqb_neq; lia).
    rewrite T in Hx, Hy. rewrite T1 in Hx. split; assumption.
Qed.

Lemma CellFormat_moves_cursor_witness :
  exists g,
    Fpdf.err textDoc = None /\
    fgt (Fpdf.y textDoc + 10) (Fpdf.pageBreakTrigger textDoc) = false /\
    CellFormat sampleEnv defaultHooks 40 10 "Hello" "1" 1 "C" true 0 "" textDoc = Ok g /\
    Fpdf.lasth g = 10%float /\
    Fpdf.x g = Fpdf.lMargin textDoc /\
    Fpdf.y g = (Fpdf.y textDoc + 10)%float.
Proof.
  exists (stateOf (CellFormat sampleEnv defaultHooks 40 10 "Hello" "1" 1 "C" true 0 ""
                     textDoc)).
  assert (E0 : Fpdf.err textDoc = None) by (vm_compute; reflexivity).
  assert (Eb : fgt (Fpdf.y textDoc + 10) (Fpdf.pageBreakTrigger textDoc) = false)
    by (vm_compute; reflexivity).
  assert (H : CellFormat sampleEnv defaultHooks 40 10 "Hello" "1" 1 "C" true 0 "" textDoc
              = Ok (stateOf (CellFormat sampleEnv defaultHooks 40 10 "Hello" "1" 1 "C"
                               true 0 "" textDoc)))
    by (vm_compute; reflexivity).
  destruct (CellFormat_moves_cursor sampleEnv defaultHooks 40 10 "Hello" "1" 1 "C" true 0
              "" textDoc _ E0 Eb H) as (Hl & _ & H1 & _).
  destruct (H1 eq_refl) as [Hx Hy].
  split; [exact E0 |]. split; [exact Eb |]. split; [exact H |].
  split; [exact Hl |]. split; [exact Hx | exact Hy].
Defined.

(** X14: a line break after a cell.  After a cell printed with [ln] = 0
    that needed no page break, [Ln] with a negative height goes down by the
    height of that cell: the cursor is at the left margin, one cell height
    below, where the same cell printed with [ln] = 1 would have left it. *)
Theorem Ln_after_cell (env : Env) (hk : Hooks) (w h : float)
  (txtStr borderStr alignStr : string) (fill : bool) (link : Z) (linkStr : string)
  (h' : float) (f g : Fpdf.t) :
  Fpdf.err f = None ->
  fgt (Fpdf.y f + h) (Fpdf.pageBreakTrigger f) = false ->
  flt h' 0 = true ->
  CellFormat env hk w h txtStr borderStr 0 alignStr fill link linkStr f = Ok g ->
  Fpdf.x (Ln h' g) = Fpdf.lMargin f /\
  Fpdf.y (Ln h' g) = (Fpdf.y f + h)%float /\
  forall g1,
    CellFormat env hk w h txtStr borderStr 1 alignStr fill link linkStr f = Ok g1 ->
    cursor (Ln h' g) = cursor g1.
Proof.
  intros E0 Eb Hn H.
  destruct (CellFormat_cursor env hk w h txtStr borderStr 0 alignStr fill link linkStr
              f g E0 Eb H) as (Hl & Hm & Hx & Hy).
  cbn in Hx, Hy.
  assert (Lx : Fpdf.x (Ln h' g) = Fpdf.lMargin f).
  { unfold Ln. cbv zeta. rewrite Hn. cbn [Fpdf.x Fpdf.set_x Fpdf.set_y]. exact Hm. }
  assert (Ly : Fpdf.y (Ln h' g) = (Fpdf.y f + h)%float).
  { unfold Ln. cbv zeta. rewrite Hn.
    cbn [Fpdf.y Fpdf.lasth Fpdf.set_x Fpdf.set_y]. rewrite Hl, Hy. reflexivity. }
  assert (Lm : Fpdf.lMargin (Ln h' g) = Fpdf.lMargin f).
  { unfold Ln. cbv zeta. rewrite Hn. cbn [Fpdf.lMargin Fpdf.set_x Fpdf.set_y]. exact Hm. }
  split; [exact Lx |]. split; [exact Ly |].
  intros g1 H1.
  destruct (CellFormat_cursor env hk w h txtStr borderStr 1 alignStr fill link linkStr
              f g1 E0 Eb H1) as (_ & Hm1 & Hx1 & Hy1).
  cbn in Hx1, Hy1. unfold cursor. rewrite Lx, Ly, Lm, Hx1, Hy1, Hm1. reflexivity.
Qed.

Lemma Ln_after_cell_witness :
  exists g,
    Fpdf.err textDoc = None /\
    fgt (Fpdf.y textDoc + 10) (Fpdf.pageBreakTrigger textDoc) = false /\
    flt (-1) 0 = true /\
    CellFormat sampleEnv defaultHooks 40 10 "Hello" "" 0 "L" false 0 "" textDoc = Ok g /\
    Fpdf.x (Ln (-1) g) = Fpdf.lMargin textDoc /\
    Fpdf.y (Ln (-1) g) = (Fpdf.y textDoc + 10)%float.
Proof.
  exists (stateOf (CellFormat sampleEnv defaultHooks 40 10 "Hello" "" 0 "L" false 0 ""
                     textDoc)).
  assert (E0 : Fpdf.err textDoc = None) by (vm_compute; reflexivity).
  assert (Eb : fgt (Fpdf.y textDoc + 10) (Fpdf.pageBreakTrigger textDoc) = false)
    by (vm_compute; reflexivity).
  assert (Hn : flt (-1) 0 = true) by (vm_compute; reflexivity).
  assert (H : CellFormat sampleEnv defaultHooks 40 10 "Hello" "" 0 "L" false 0 "" textDoc
              = Ok (stateOf (CellFormat sampleEnv defaultHooks 40 10 "Hello" "" 0 "L"
                               false 0 "" textDoc)))
    by (vm_compute; reflexivity).
  destruct (Ln_after_cell sampleEnv defaultHooks 40 10 "Hello" "" "L" false 0 "" (-1)
              textDoc _ E0 Eb Hn H) as (Hx & Hy & _).
  split; [exact E0 |]. split; [exact Eb |]. split; [exact Hn |]. split; [exact H |].
  split; [exact Hx | exact Hy].
Defined.

(** ** The width of a string *)

Lemma cwAt_Ok_iff (cw : list Z) (c : Z) :
  (exists v, cwAt cw c = Ok v) <-> 0 <= c < 256.
Proof.
  unfold cwAt. destruct ((c <? 0) || (256 <=? c)) eqn:E.
  - apply orb_true_iff in E. split.
    + intros [v H]. discriminate.
    + intros H. destruct E as [E | E]; [apply Z.ltb_lt in E | apply Z.leb_le in E]; lia.
  - apply orb_false_iff in E. destruct E as [E1 E2].
    apply Z.ltb_ge in E1. apply Z.leb_gt in E2.
    split; [intros _; lia | intros _; eexists; reflexivity].
Qed.

Lemma sumWidths_Ok_iff (cw : list Z) (rs : list Z) :
  forall w, (exists v, sumWidths cw rs w = Ok v) <-> Forall (fun r => 0 <= r < 256) rs.
Proof.
  induction rs as [| r rs IH]; intros w; cbn [sumWidths].
  - split; [intros _; constructor | intros _; eexists; reflexivity].
  - split.
    + intros [v H]. apply bind_Ok in H. destruct H as (cwc & Hc & H).
      constructor.
      * apply (cwAt_Ok_iff cw r). exists cwc. exact Hc.
      * apply (IH (int_add w cwc)). exists v. exact H.
    + intros H. inversion H as [| r' rs' Hr Hrs]; subst.
      apply (cwAt_Ok_iff cw r) in Hr. destruct Hr as [cwc Hc]. rewrite Hc. cbn [bind].
      apply IH. exact Hrs.
Qed.

Lemma decodeRune_nonneg (b0 : Z) (rest : string) :
  0 <= b0 -> 0 <= fst (decodeRune b0 rest).
Proof.
  intros H. unfold decodeRune. cbv zeta.
  assert (N63 : forall a, 0 <= Z.land a 63) by (intros; apply Z.land_nonneg; right; lia).
  assert (Sh : forall a n, 0 <= a -> 0 <= Z.shiftl a n)
    by (intros a n Ha; apply Z.shiftl_nonneg; exact Ha).
  assert (Lo : forall a b, 0 <= a -> 0 <= b -> 0 <= Z.lor a b)
    by (intros a b Ha Hb; apply Z.lor_nonneg; split; assumption).
  repeat match goal with
         | |- context [if ?b then _ else _] => destruct b
         end;
    cbn [fst]; unfold RuneError;
    repeat first [ lia
                 | apply Lo
                 | apply Sh
                 | apply N63
                 | (apply Z.land_nonneg; right; lia) ].
Qed.

Lemma runes_from_nonneg (s : string) :
  forall skip, Forall (fun r => 0 <= r) (runes_from skip s).
Proof.
  induction s as [| c s IH]; intros skip; cbn [runes_from].
  - constructor.
  - destruct skip as [| k]; [| apply IH].
    pose proof (decodeRune_nonneg (code c) s (proj1 (code_range c))) as N.
    destruct (decodeRune (code c) s) as [r size]. cbn [fst] in N.
    constructor; [exact N | apply IH].
Qed.

Lemma GetStringWidth_Panic_iff (s : string) (f : Fpdf.t) :
  (exists m, GetStringWidth s f = Panic m) <-> Exists (fun r => 256 <= r) (runes s).
Proof.
  unfold GetStringWidth.
  pose proof (sumWidths_Ok_iff (fontDefType.Cw (Fpdf.currentFont f)) (runes s) 0) as T.
  pose proof (runes_from_nonneg s 0) as N. fold (runes s) in N.
  destruct (sumWidths (fontDefType.Cw (Fpdf.currentFont f)) (runes s) 0) as [w | m] eqn:E.
  - cbn [bind]. split; [intros [m H]; discriminate |].
    intros X. exfalso.
    assert (A : Forall (fun r => 0 <= r < 256) (runes s)) by (apply T; exists w; reflexivity).
    apply Exists_exists in X. destruct X as (r & Hin & Hr).
    rewrite Forall_forall in A. specialize (A r Hin). lia.
  - cbn [bind]. split; [| intros _; exists m; reflexivity].
    intros _. apply Exists_exists.
    destruct (Forall_Exists_dec (fun r => 0 <= r < 256)
                (fun r => match Z_le_dec 0 r, Z_lt_dec r 256 with
                          | left a, left b => left (conj a b)
                          | right a, _ => right (fun p => a (proj1 p))
                          | _, right b => right (fun p => b (proj2 p))
                          end) (runes s)) as [A | X].
    + apply T in A. destruct A as [v A]. discriminate.
    + apply Exists_exists in X. destruct X as (r & Hin & Hr).
      exists r. split; [exact Hin |].
      rewrite Forall_forall in N. specialize (N r Hin). lia.
Qed.

Lemma decodeRune_lone (b0 : Z) : 128 <= b0 -> decodeRune b0 "" = (RuneError, 1%nat).
Proof.
  intros H. unfold decodeRune. cbv zeta. cbn [String.get].
  assert (E : (b0 <? 128) = false) by (apply Z.ltb_ge; exact H). rewrite E.
  assert (C : isCont (-1) = false) by reflexivity.
  assert (R : forall lo hi, 0 <= lo -> inRange lo hi (-1) = false).
  { intros lo hi Hlo. unfold inRange.
    assert (T : (lo <=? -1) = false) by (apply Z.leb_gt; lia). rewrite T. reflexivity. }
  rewrite C.
  destruct (inRange 194 223 b0); [reflexivity |].
  destruct (inRange 224 239 b0).
  { rewrite R by (destruct (b0 =? 224); lia). reflexivity. }
  destruct (inRange 240 244 b0); [| reflexivity].
  rewrite R by (destruct (b0 =? 240); lia). reflexivity.
Qed.

(** X15: [GetStringWidth] faults exactly on the texts that hold a character
    beyond the 256 entries of the width table: a rune of 256 or more.  That
    includes the replacement rune, which stands for every byte of the text
    that is not valid UTF-8: the width of a text that is one byte of 128 or
    more is a fault.  On every other text it returns a width. *)
Theorem GetStringWidth_faults_iff (s : string) (f : Fpdf.t) :
  ((exists m, GetStringWidth s f = Panic m) <-> Exists (fun r => 256 <= r) (runes s)) /\
  (forall c, 128 <= code c ->
             GetStringWidth (String c "") f = Panic "index out of range").
Proof.
  split; [apply GetStringWidth_Panic_iff |].
  intros c H. unfold GetStringWidth, runes. cbn [runes_from].
  rewrite (decodeRune_lone (code c) H). cbn [sumWidths].
  reflexivity.
Qed.

Lemma runes_ascii (s : string) :
  (forall c, In c (list_ascii_of_string s) -> code c < 128) ->
  runes s = map code (list_ascii_of_string s).
Proof.
  unfold runes. induction s as [| c s IH]; intros H; cbn [runes_from list_ascii_of_string map].
  - reflexivity.
  - assert (E : (code c <? 128) = true)
      by (apply Z.ltb_lt; apply H; left; reflexivity).
    unfold decodeRune. cbv zeta. rewrite E. cbn [Nat.sub].
    f_equal. apply IH. intros c' Hin. apply H. right. exact Hin.
Qed.

(** X16: on a text of ASCII bytes [GetStringWidth] reads the width table byte
    by byte, as [MultiCell] and [Write] do, and returns a width: it does not
    fault, whatever the font. *)
Theorem GetStringWidth_ascii (s : string) (f : Fpdf.t) :
  (forall c, In c (list_ascii_of_string s) -> code c < 128) ->
  exists w,
    sumWidths (fontDefType.Cw (Fpdf.currentFont f)) (map code (list_ascii_of_string s)) 0
      = Ok w /\
    GetStringWidth s f = Ok (float64_of_Z w * Fpdf.fontSize f / 1000)%float.
Proof.
  intros H. unfold GetStringWidth. rewrite (runes_ascii s H).
  destruct (proj2 (sumWidths_Ok_iff (fontDefType.Cw (Fpdf.currentFont f))
                     (map code (list_ascii_of_string s)) 0)) as [w E].
  - apply Forall_forall. intros r Hin. apply in_map_iff in Hin.
    destruct Hin as (c & <- & _). apply code_range.
  - exists w. split; [exact E |]. rewrite E. reflexivity.
Qed.

Lemma GetStringWidth_ascii_witness :
  (forall c, In c (list_ascii_of_string "Hello") -> code c < 128) /\
  exists w,
    sumWidths (fontDefType.Cw (Fpdf.currentFont textDoc))
      (map code (list_ascii_of_string "Hello")) 0 = Ok w /\
    GetStringWidth "Hello" textDoc = Ok (float64_of_Z w * Fpdf.fontSize textDoc / 1000)%float.
Proof.
  assert (H : forall c, In c (list_ascii_of_string "Hello") -> code c < 128).
  { intros c Hin. cbn in Hin.
    repeat (destruct Hin as [<- | Hin]; [vm_compute; reflexivity |]). contradiction. }
  split; [exact H |].
  exact (GetStringWidth_ascii "Hello" textDoc H).
Defined.

(** ** Flowing text that fits on the line *)

Lemma byteAt_middle (p : string) (c : ascii) (q : string) :
  byteAt (p ++ String c q) (len p) = Ok c.
Proof.
  unfold byteAt, len.
  assert (L : String.length (p ++ String c q) = (String.length p + S (String.length q))%nat).
  { induction p as [| a p IH]; cbn; [reflexivity | rewrite IH; reflexivity]. }
  rewrite L.
  assert (T : (Z.of_nat (String.length p) <? 0)
              || (Z.of_nat (String.length p + S (String.length q))
                  <=? Z.of_nat (String.length p)) = false).
  { apply orb_false_iff. split; [apply Z.ltb_ge | apply Z.leb_gt]; lia. }
  rewrite T, Nat2Z.id.
  assert (G : String.get (String.length p) (p ++ String c q) = Some c).
  { clear L T. induction p as [| a p IH]; cbn; [reflexivity | exact IH]. }
  rewrite G. reflexivity.
Qed.

Lemma slice_whole (s : string) : slice s 0 (len s) = Ok s.
Proof.
  unfold slice. pose proof (len_nonneg s) as N.
  assert (T : (0 <? 0) || (len s <? 0) || (len s <? len s) = false).
  { rewrite Z.ltb_irrefl. cbn [orb].
    apply orb_false_iff. split; apply Z.ltb_ge; lia. }
  rewrite T. rewrite Z.sub_0_r. unfold len. rewrite Nat2Z.id. cbn [Z.to_nat].
  f_equal. clear N T. induction s as [| a s IH]; cbn; [reflexivity | rewrite IH; reflexivity].
Qed.

(** The scan over a rest [q] of the text that fits: the index goes to the
    end, the start of the line stays, the document is not touched. *)
Lemma write_loop_fits (env : Env) (hk : Hooks) (h : float) (link : Z) (linkStr : string)
  (w wmax : float) (f : Fpdf.t) :
  forall (q p : string) (fuel : nat) (sep : Z) (l l' : float) (n : Z),
    scanLine (fontDefType.Cw (Fpdf.currentFont f)) wmax q l = Some l' ->
    (String.length q <= fuel)%nat ->
    exists sep',
      write_loop fuel env hk h (p ++ q) link linkStr (len (p ++ q))
        (wr.mk sep (len p) 0 l n w wmax) f
      = Some (Ok (wr.mk sep' (len (p ++ q)) 0 l' n w wmax, f)).
Proof.
  induction q as [| c q IH]; intros p fuel sep l l' n Hs Hf.
  - cbn [scanLine] in Hs. injection Hs as <-.
    assert (E : (p ++ "")%string = p) by apply append_nil_r.
    rewrite E. exists sep.
    destruct fuel; cbn [write_loop wr.i]; rewrite Z.ltb_irrefl; reflexivity.
  - cbn [scanLine] in Hs.
    destruct (Ascii.eqb c newline) eqn:En; [discriminate |].
    cbv zeta in Hs.
    destruct (fgt (l + float64_of_Z (nth (Z.to_nat (code c))
                                      (fontDefType.Cw (Fpdf.currentFont f)) 0)) wmax)
      eqn:Eg; [discriminate |].
    destruct fuel as [| fuel]; [cbn in Hf; lia |].
    cbn [write_loop wr.i].
    assert (Lt : (len p <? len (p ++ String c q)) = true).
    { apply Z.ltb_lt. rewrite len_append.
      assert (Lq : len (String c q) = 1 + len q)
        by (unfold len; cbn [String.length]; lia).
      pose proof (len_nonneg q). lia. }
    rewrite Lt.
    unfold write_step. cbn [wr.i wr.j wr.sep wr.l wr.nl wr.w wr.wmax].
    rewrite byteAt_middle. cbn [bind]. rewrite En. cbv zeta.
    unfold cwAt.
    assert (R : (code c <? 0) || (256 <=? code c) = false).
    { pose proof (code_range c). apply orb_false_iff.
      split; [apply Z.ltb_ge | apply Z.leb_gt]; lia. }
    rewrite R. cbn [bind]. rewrite Eg.
    assert (A : (p ++ String c q)%string = ((p ++ String c "") ++ q)%string)
      by (rewrite append_assoc; reflexivity).
    assert (Lp : len p + 1 = len (p ++ String c "")).
    { rewrite len_append. reflexivity. }
    rewrite A, Lp.
    apply (IH (p ++ String c "")%string fuel _ _ l' n Hs).
    cbn in Hf. lia.
Qed.

(** X17: flowing text that fits on the line is printed as one cell.  When
    the text, its carriage returns removed, is not empty, holds no line feed
    and is at no byte wider than the room left on the line, [write] prints
    it with a single [CellFormat], as wide as the text and without a line
    break after it, so that the cursor stays behind the text. *)
Theorem write_one_line (fuel : nat) (env : Env) (hk : Hooks) (h : float)
  (txtStr : string) (link : Z) (linkStr : string) (l : float) (f : Fpdf.t) :
  replaceAll txtStr cr "" <> "" ->
  scanLine (fontDefType.Cw (Fpdf.currentFont f)) (snd (lineRoom f))
    (replaceAll txtStr cr "") 0 = Some l ->
  (String.length (replaceAll txtStr cr "") <= fuel)%nat ->
  write fuel env hk h txtStr link linkStr f
  = Some (CellFormat env hk (l / 1000 * Fpdf.fontSize f) h (replaceAll txtStr cr "")
            "" 0 "" false link linkStr f).
Proof.
  intros Hne Hs Hf. unfold write.
  destruct (lineRoom f) as [w wmax]. cbn [snd] in Hs. cbv zeta.
  destruct (write_loop_fits env hk h link linkStr w wmax f
              (replaceAll txtStr cr "") "" fuel (-1) 0 l 1 Hs Hf) as [sep' E].
  cbn [append] in E. change (len "") with 0 in E. rewrite E.
  cbn [wr.i wr.j wr.l].
  assert (N : (len (replaceAll txtStr cr "") =? 0) = false).
  { apply Z.eqb_neq. unfold len.
    destruct (replaceAll txtStr cr "") as [| a s]; [contradiction | cbn; lia]. }
  rewrite N. cbn [negb]. rewrite slice_whole. reflexivity.
Qed.

Lemma write_one_line_witness :
  replaceAll "Hello" cr "" <> "" /\
  scanLine (fontDefType.Cw (Fpdf.currentFont textDoc)) (snd (lineRoom textDoc))
    (replaceAll "Hello" cr "") 0 = Some 2500%float /\
  (String.length (replaceAll "Hello" cr "") <= 5)%nat /\
  write 5 sampleEnv defaultHooks 10 "Hello" 0 "" textDoc
  = Some (CellFormat sampleEnv defaultHooks (2500 / 1000 * Fpdf.fontSize textDoc) 10
            (replaceAll "Hello" cr "") "" 0 "" false 0 "" textDoc).
Proof.
  assert (H1 : replaceAll "Hello" cr "" <> "") by (vm_compute; discriminate).
  assert (H2 : scanLine (fontDefType.Cw (Fpdf.currentFont textDoc)) (snd (lineRoom textDoc))
                 (replaceAll "Hello" cr "") 0 = Some 2500%float)
    by (vm_compute; reflexivity).
  assert (H3 : (String.length (replaceAll "Hello" cr "") <= 5)%nat)
    by (vm_compute; repeat constructor).
  split; [exact H1 |]. split; [exact H2 |]. split; [exact H3 |].
  exact (write_one_line 5 sampleEnv defaultHooks 10 "Hello" 0 "" 2500 textDoc H1 H2 H3).
Defined.

(** ** A page starts with the colours and the line width of the last one *)

Lemma drawColor_out (c s : string) (g : Fpdf.t) :
  Preserves (fun d => Fpdf.drawColor d = c) here g (out s g).
Proof.
  intros I a Ha. unfold out in Ha. destruct (Fpdf.state g =? 2).
  - apply bind_Ok in Ha. destruct Ha as (pg & _ & Ha).
    apply bind_Ok in Ha. destruct Ha as (ps & _ & Ha).
    apply Ok_inj in Ha. subst a. exact I.
  - apply Ok_inj in Ha. subst a. exact I.
Qed.

Lemma lineWidth_out (P : float -> Prop) (s : string) (g : Fpdf.t) :
  Preserves (fun d => P (Fpdf.lineWidth d)) here g (out s g).
Proof.
  intros I a Ha. unfold out in Ha. destruct (Fpdf.state g =? 2).
  - apply bind_Ok in Ha. destruct Ha as (pg & _ & Ha).
    apply bind_Ok in Ha. destruct Ha as (ps & _ & Ha).
    apply Ok_inj in Ha. subst a. exact I.
  - apply Ok_inj in Ha. subst a. exact I.
Qed.

#[local] Hint Resolve lineWidth_out : pres.

Lemma lineWidth_AddFont (P : float -> Prop) (env : Env)
  (familyStr styleStr fileStr : string) (g : Fpdf.t) :
  Preserves (fun d => P (Fpdf.lineWidth d)) here g (AddFont env familyStr styleStr fileStr g).
Proof. unfold AddFont. pres_tables. Qed.

#[local] Hint Resolve lineWidth_AddFont : pres.

Lemma lineWidth_SetFont (P : float -> Prop) (env : Env) (familyStr styleStr : string)
  (size : float) (g : Fpdf.t) :
  Preserves (fun d => P (Fpdf.lineWidth d)) here g (SetFont env familyStr styleStr size g).
Proof. unfold SetFont. pres_tables. Qed.

(** X18: a new page starts with the colours and the line width of the page
    before, whatever the header and the footer do.  When [AddPageFormat]
    returns without an error, the colours for drawing, filling and text and
    the colour flag are those of the document it was called on, and the line
    width is the same number (the very same, or equal to it as a float). *)
Theorem AddPageFormat_restores_style (env : Env) (hk : Hooks) (orientationStr : string)
  (size : sizeType.t) (f g : Fpdf.t) :
  AddPageFormat env hk orientationStr size f = Ok g ->
  Fpdf.err g = None ->
  colours g = colours f /\
  (Fpdf.lineWidth g = Fpdf.lineWidth f \/
   feq (Fpdf.lineWidth g) (Fpdf.lineWidth f) = true).
Proof.
  intros H E0. unfold AddPageFormat in H.
  destruct (nonNil (Fpdf.err f)).
  { apply Ok_inj in H. subst g. split; [reflexivity | left; reflexivity]. }
  cbv zeta in H.
  assert (Edc : Fpdf.drawColor (if Fpdf.state f =? 0 then open f else f) = Fpdf.drawColor f)
    by (destruct (Fpdf.state f =? 0); reflexivity).
  assert (Efc : Fpdf.fillColor (if Fpdf.state f =? 0 then open f else f) = Fpdf.fillColor f)
    by (destruct (Fpdf.state f =? 0); reflexivity).
  assert (Etc : Fpdf.textColor (if Fpdf.state f =? 0 then open f else f) = Fpdf.textColor f)
    by (destruct (Fpdf.state f =? 0); reflexivity).
  assert (Ecf : Fpdf.colorFlag (if Fpdf.state f =? 0 then open f else f) = Fpdf.colorFlag f)
    by (destruct (Fpdf.state f =? 0); reflexivity).
  assert (Elw : Fpdf.lineWidth (if Fpdf.state f =? 0 then open f else f) = Fpdf.lineWidth f)
    by (destruct (Fpdf.state f =? 0); reflexivity).
  rewrite ?Edc, ?Efc, ?Etc, ?Ecf, ?Elw in H.
  set (g0 := if Fpdf.state f =? 0 then open f else f) in H. clearbody g0.
  set (dc := Fpdf.drawColor f) in *. set (fc := Fpdf.fillColor f) in *.
  set (tc := Fpdf.textColor f) in *. set (cf := Fpdf.colorFlag f) in *.
  set (lw := Fpdf.lineWidth f) in *.
  apply bind_Ok in H. destruct H as (g1 & _ & H).
  apply bind_Ok in H. destruct H as (g2 & _ & H).
  apply bind_Ok in H. destruct H as (g3 & _ & H).
  apply bind_Ok in H. destruct H as (g4 & _ & H).
  apply bind_Ok in H. destruct H as (g5 & _ & H).
  match type of H with
  | (if ?b then _ else _) = _ => destruct b eqn:B1
  end.
  { apply Ok_inj in H. subst g. apply andb_true_iff in B1. destruct B1 as [_ B1].
    rewrite (nonNil_false _ E0) in B1. discriminate. }
  apply bind_Ok in H. destruct H as (g6 & _ & H).
  apply bind_Ok in H. destruct H as (g7 & _ & H).
  apply bind_Ok in H. destruct H as (g8 & _ & H).
  apply bind_Ok in H. destruct H as (g9 & H9 & H).
  apply bind_Ok in H. destruct H as (g10 & H10 & H).
  match type of H with
  | (if ?b then _ else _) = _ => destruct b eqn:B2
  end.
  { apply Ok_inj in H. subst g. apply andb_true_iff in B2. destruct B2 as [_ B2].
    rewrite (nonNil_false _ E0) in B2. discriminate. }
  apply bind_Ok in H. destruct H as (g11 & H11 & H).
  apply bind_Ok in H. destruct H as (g12 & H12 & H).
  apply Ok_inj in H.
  (* the line width *)
  assert (W9 : Fpdf.lineWidth g9 = lw \/ feq (Fpdf.lineWidth g9) lw = true).
  { destruct (fne (Fpdf.lineWidth g8) lw) eqn:Ew.
    - left. exact (lineWidth_out (fun x => x = lw) _ (Fpdf.set_lineWidth lw g8) eq_refl g9 H9).
    - apply Ok_inj in H9. subst g9. right. unfold fne in Ew. unfold feq.
      destruct (PrimFloat.eqb (Fpdf.lineWidth g8) lw); [reflexivity | discriminate]. }
  assert (W10 : Fpdf.lineWidth g10 = lw \/ feq (Fpdf.lineWidth g10) lw = true).
  { destruct (negb (Fpdf.fontFamily g0 =? "")%string).
    - exact (lineWidth_SetFont (fun x => x = lw \/ feq x lw = true) _ _ _ _ _ W9 g10 H10).
    - apply Ok_inj in H10. subst g10. exact W9. }
  assert (W11 : Fpdf.lineWidth g11 = lw \/ feq (Fpdf.lineWidth g11) lw = true).
  { destruct (negb (Fpdf.drawColor g10 =? dc)%string).
    - exact (lineWidth_out (fun x => x = lw \/ feq x lw = true) _
               (Fpdf.set_drawColor dc g10) W10 g11 H11).
    - apply Ok_inj in H11. subst g11. exact W10. }
  assert (W12 : Fpdf.lineWidth g12 = lw \/ feq (Fpdf.lineWidth g12) lw = true).
  { destruct (negb (Fpdf.fillColor g11 =? fc)%string).
    - exact (lineWidth_out (fun x => x = lw \/ feq x lw = true) _
               (Fpdf.set_fillColor fc g11) W11 g12 H12).
    - apply Ok_inj in H12. subst g12. exact W11. }
  (* the colours *)
  assert (D11 : Fpdf.drawColor g11 = dc).
  { destruct (negb (Fpdf.drawColor g10 =? dc)%string) eqn:Ed.
    - exact (drawColor_out dc _ (Fpdf.set_drawColor dc g10) eq_refl g11 H11).
    - apply Ok_inj in H11. subst g11. apply negb_false_iff in Ed.
      apply String.eqb_eq. exact Ed. }
  assert (D12 : Fpdf.drawColor g12 = dc /\ Fpdf.fillColor g12 = fc).
  { destruct (negb (Fpdf.fillColor g11 =? fc)%string) eqn:Ef.
    - split.
      + exact (drawColor_out dc _ (Fpdf.set_fillColor fc g11) D11 g12 H12).
      + revert H12. unfold out. destruct (Fpdf.state _ =? 2); intros H12.
        * apply bind_Ok in H12. destruct H12 as (pg & _ & H12).
          apply bind_Ok in H12. destruct H12 as (ps & _ & H12).
          apply Ok_inj in H12. subst g12. reflexivity.
        * apply Ok_inj in H12. subst g12. reflexivity.
    - apply Ok_inj in H12. subst g12. split; [exact D11 |].
      apply negb_false_iff in Ef. apply String.eqb_eq. exact Ef. }
  destruct D12 as [D12 F12].
  subst g. unfold colours.
  cbn [Fpdf.drawColor Fpdf.fillColor Fpdf.textColor Fpdf.colorFlag Fpdf.lineWidth
       Fpdf.set_colorFlag Fpdf.set_textColor].
  rewrite D12, F12. split; [reflexivity | exact W12].
Qed.

Lemma AddPageFormat_restores_style_witness :
  exists g,
    AddPageFormat sampleEnv redHeader "" (Fpdf.defPageSize textDoc) textDoc = Ok g /\
    Fpdf.err g = None /\
    colours g = colours textDoc /\
    (Fpdf.lineWidth g = Fpdf.lineWidth textDoc \/
     feq (Fpdf.lineWidth g) (Fpdf.lineWidth textDoc) = true).
Proof.
  exists (stateOf (AddPageFormat sampleEnv redHeader "" (Fpdf.defPageSize textDoc) textDoc)).
  assert (H : AddPageFormat sampleEnv redHeader "" (Fpdf.defPageSize textDoc) textDoc
              = Ok (stateOf (AddPageFormat sampleEnv redHeader ""
                               (Fpdf.defPageSize textDoc) textDoc)))
    by (vm_compute; reflexivity).
  assert (E : Fpdf.err (stateOf (AddPageFormat sampleEnv redHeader ""
                                   (Fpdf.defPageSize textDoc) textDoc)) = None)
    by (vm_compute; reflexivity).
  split; [exact H |]. split; [exact E |].
  exact (AddPageFormat_restores_style sampleEnv redHeader "" (Fpdf.defPageSize textDoc)
           textDoc _ H E).
Defined.
